(* ===== verification/_CoqProject ===== *)
-Q . S2P
Prelude.v
GoStrings.v
AppError.v
Records.v
Services.v
World.v
Domain.v
Repository.v
Caches.v
Connections.v
UsersUsecase.v
UserLoads.v
UserLoadsProps.v
Jwt.v
OtpCode.v
AuthUsecase.v
AuthLemmas.v
AuthEffects.v
AuthSystem.v
AuthProps.v
AuthHealthy.v
Validators.v
Middleware.v
Http.v
HttpProps.v
ComponentProps.v
CodeProps.v
RepositoryProps.v
RedisTypes.v
Sessions.v
SessionsProps.v
Concurrent.v
AuthConcurrent.v
AuthConcurrentProps.v
Attempts.v
AuthAlone.v
Migration.v
MigrationRunners.v
MigrationRunnersProps.v
AsyncMailer.v
AsyncMailerProps.v
Config.v
Tracing.v
Seeder.v
RateLimiter.v
RateLimiterProps.v
Logger.v
LoggerProps.v
Mailer.v
Router.v
RouterProps.v
Json.v
GoTime.v
Wire.v
WireProps.v
AuditLog.v
HttpConcurrent.v
HttpConcurrentProps.v
RouterConcurrent.v
RouterConcurrentProps.v
ErrorKinds.v
Docs.v
DocsProps.v
Application.v
Server.v
Metrics.v
Startup.v
Reference.v
InfraReference.v
Scenario.v
Witnesses.v
ConcurrentWitnesses.v
WireWitnesses.v
InfraWitnesses.v
RunnerWitnesses.v
RouterConcurrentWitnesses.v
