(* ===== verification/Prelude.v ===== *)
(** Verification library of go-rest-boilerplate

    The program is a Go web service in layers: HTTP handlers and middlewares
    (src/internal/http), the auth and users use cases (src/internal/business), the
    user repository on PostgreSQL, an in-process cache (ristretto) and Redis
    (src/internal/datasources), and helpers for tokens, random codes, errors and
    validation (src/pkg, src/internal/apperror).  An account is registered inactive,
    activated with a one-time code, and then opens sessions: a short access token
    and a refresh token whose identifier is live in Redis.  Codes and reset tokens go
    out by mail, through a queue with workers (src/pkg/mailer).  Around this core are
    the configuration, the rate limiter and the other middlewares, the migration
    runner, the logger and the composition root (src/cmd).  This development models
    the core and its surroundings and proves what they promise.

    * How the code is modelled

    A Go function that touches state is a function of type [io S A]: it takes the
    state and gives an answer and the new state.  [(T, error)] is [result error T];
    [x, err := f(); if err != nil] is the notation [try x <- f catch err => ..].  A
    component runs on its part of the state through a lens ([zoom]), so what it
    cannot reach it provably leaves alone.  Properties of programs are stated with
    [wp], the weakest precondition, and proved with the rules and the tactic
    [wp_step] below.  Log lines and tracing spans are left out; metrics counters and
    audit events are kept, and for a request the line of the access log.  The logger, the
    mail queue and the audit stream are components with models of their own.

    Where goroutines run at the same time there are two ways.  A component with its own
    channels or mutexes is a step relation on its shared state and the places its
    goroutines are at (AsyncMailer.v, AuditLog.v, MigrationRunners.v, UserLoads.v).  The
    way of a request through the server is a program of atomic commands, a tree ([prog]),
    and requests are a pool of them (Concurrent.v).

    Code that is not the repository's (Redis, PostgreSQL, ristretto, golang-jwt,
    bcrypt, crypto/rand, uuid, the Unicode tables, go-playground/validator, gin,
    gin-contrib/cors, x/time/rate, viper, zap, gomail, sqlx, OpenTelemetry) is a
    parameter: a class of operations over a state type of its own, and a class of
    laws that states its documented behaviour, faults included, in the file of the
    component that calls it.  Reference.v and InfraReference.v give one implementation
    of each that satisfies the laws, so they can hold together.

    * The files

    - Prelude.v: results, state-passing programs, [wp], lenses, tactics.
    - GoStrings.v: TrimSpace, ToLower, Split, ParseInt, Itoa, UTF-8 and JSON text of a
      string, as the standard library has them.
    - AppError.v: src/internal/apperror and the sentinel errors; errors.Is, errors.As.
    - Records.v: User, the row struct Users and the mapping between them; time.
    - Services.v: the classes of the services and their laws; the meaning of the SQL
      conditions and assignments on rows; the indexes of the table.
    - World.v: the state: [Base] (random sources, clock, metrics) inside [UState]
      (database, open result sets, cache) inside [World] (Redis, mailer).
    - Domain.v: domain.users.go and the bcrypt helpers.
    - Repository.v: the repository interface with its laws; Module Postgres is the
      adapter, and the instance [postgres_laws] discharges the laws.
    - Caches.v: Modules Redis and Ristretto (cache.redis.go, cache.ristretto.go).
    - Connections.v: their constructors and the deadline of an operation ([withTimeout]).
    - UsersUsecase.v: the interface of the users use case, its contract
      [UsersContract], Module UsersImpl (usecases/users) and the proof that it keeps
      the contract ([users_contract]).
    - UserLoads.v, UserLoadsProps.v: the users use case under concurrency: its calls
      interleave at every call of the repository, the cache and singleflight.
    - Jwt.v: pkg/clock, pkg/jwt (Module Jwt), the contract [JWTContract] and its proof.
    - OtpCode.v: the one-time code generator and the reset token.
    - AuthUsecase.v: Module Auth, the nine operations of usecases/auth, every Redis
      command in the order of the code.
    - AuthLemmas.v: Redis keys are told apart; what a run leaves alone ([at_]).
    - AuthEffects.v: one lemma per operation with its effect on table and keys.
    - AuthSystem.v: the service as a transition system ([auth_step]: any call, or the
      environment moving time, expiring keys, working the mailer) and the invariant
      of its traces ([since]).
    - AuthProps.v, AuthHealthy.v: the properties of the auth service, with arbitrary
      faults of Redis and the database, and while Redis answers.
    - Validators.v: pkg/validators; the strongpassword rule on runes.
    - Middleware.v: the authentication middleware and its properties.
    - Http.v, HttpProps.v: request and response types, error mapping, the ten handlers
      and routes ([serve]), the audit stream; what requests can do.
    - RedisTypes.v: the type of each family of Redis keys, kept by every operation.
    - Sessions.v, SessionsProps.v: the abstract machine of accounts, sessions, codes and
      reset tokens that the auth use case refines; where sessions come from.
    - Concurrent.v: programs of atomic commands ([prog]), their interleavings ([pstep]),
      and rely-guarantee reasoning: [rg] for one program, [pool_ok_step] and its
      corollaries for all of them together.
    - AuthConcurrent.v, AuthConcurrentProps.v, AuthAlone.v: usecases/auth cut at every
      Redis command and every call of a collaborator; what holds however requests
      interleave there; uninterrupted, the programs are those of AuthUsecase.v.
    - Attempts.v: the attempt counters when attempts interleave.
    - Config.v: src/internal/config, and what the data source and the CORS policy are
      built from.
    - RateLimiter.v, RateLimiterProps.v: middleware.ratelimit.go, float64 rounding
      included; the bound on what one address gets through.
    - Router.v, RouterProps.v: the chain of setupRouter around [serve] ([ServeHTTP]):
      request id, metrics, security headers, CORS, body caps, access log, limiter,
      health.  A request without a limiter's or a cap's leave never reaches a handler.
    - Json.v, GoTime.v: encoding/json on texts and values, time.Time in RFC 3339, as the
      standard library reads and writes them.
    - Wire.v, WireProps.v: codecs of structs from their tags ([struct_codec]), with their
      law ([codec_laws]); the bytes of every request, reply and envelope.
    - AuditLog.v: pkg/audit down to the bytes: one line per event, [Record] and
      [SetOutput] as goroutines on two mutexes and one encoder, a sink that can fail.
    - HttpConcurrent.v, HttpConcurrentProps.v: the handlers and the authentication
      middleware as programs, around those of AuthConcurrent.v; what one request relies
      on and owes; [rg_lift] carries a program on a part of the state to the whole.
    - RouterConcurrent.v, RouterConcurrentProps.v: the whole chain of Router.v as a
      program, and any number of requests on their way at once ([server_step]).
    - Metrics.v: the collectors, and the series the whole program can make of them.
    - ErrorKinds.v: the kinds of errors each operation can answer with ([UsersErrors] is
      what the users use case promises of them).
    - Docs.v, DocsProps.v: the published OpenAPI document (src/docs/docs.go) as data,
      against routes, tags and replies.
    - Server.v: NewApp and Run (server.go), the drivers; the whole program as a step
      relation ([program_step]).
    - Startup.v: cmd/api, cmd/migration and cmd/seed as processes, from package
      initialisation to the exit status ([api], [migrate], [seed]).
    - Mailer.v: mailer.otp.go and its template, rendered and escaped.
    - AsyncMailer.v, AsyncMailerProps.v: mailer.async.go as a step relation of
      goroutines; its abstract specification, the spool.
    - Migration.v, Seeder.v: migration.go, and the seeder of cmd/seed.
    - MigrationRunners.v, MigrationRunnersProps.v: several runners on one database, cut
      into the statements they send, with the advisory lock of a session.
    - Logger.v, LoggerProps.v: pkg/logger with its slices on a heap; a logger is the
      list of its fields.
    - Tracing.v: tracing.go and the gauges of metrics.go.
    - ComponentProps.v, CodeProps.v, RepositoryProps.v: properties of the entity, the
      tokens, the random codes, and the SQL adapter.
    - Application.v: the parts put together as server.go does; reachable states.
    - Reference.v, Scenario.v, Witnesses.v: reference services, one run from
      registration to password reset on them, and every theorem with hypotheses
      applied to a state of that run.
    - ConcurrentWitnesses.v, RouterConcurrentWitnesses.v: the same for interleaved calls and
      requests, and the races the code leaves open, each as a schedule.
    - WireWitnesses.v: concrete bytes, and runs of the audit stream.
    - InfraReference.v, InfraWitnesses.v, RunnerWitnesses.v: the same for the
      surroundings; schedules of migration runners whose pool lets go of the lock.

    The users use case promises [UsersContract] to the auth use case, the token
    service [JWTContract]; the auth theorems are proved against these contracts and
    hold for the implementations by the two instances.

    * What the theorems show

    - The program: from an empty database, after any requests and whatever the
      environment does, accounts are well formed, emails unique, no account is an
      administrator and the cache is truthful ([program_safe]); every reply carries the
      request's id and the security headers.
    - The server under load: however requests interleave from arrival to reply, an account
      changes only by a request that CORS let pass, the limiter admitted, whose body is
      within the cap and whose call is entitled to the change, and an event with its id is
      in the audit stream before it is answered ([changes_admitted_on_record]); a success
      was earned and is on record ([success_admitted_on_record]); uninterrupted, a
      request goes the way of the sequential model ([router_is_chain]).
    - Sessions: only a live, activated account with the right password or a live
      refresh token gets tokens; a spent, logged-out or stale token is refused for
      ever, along every trace; tokens round-trip, are of one kind, HMAC only.
      The service refines a small machine without Redis, SQL or token texts
      ([auth_refines_sessions]), and every session goes back to a Login with the
      account's password ([session_provenance], if tokens are not forged).
    - Concurrent calls of the use cases: under every interleaving accounts change only by
      right ([changes_authorised]), answers are earned between call and answer
      ([answers_earned]), spent refresh tokens stay spent, the lockout bounds the attempts
      that get through.  In the users use
      case one lookup per email runs at a time, nobody waits for ever, and the cache is
      truthful unless a password is written between a lookup's read and its caching.
      ConcurrentWitnesses.v and Witnesses.v show what is not so: two overlapping
      exchanges of one refresh token or resets with one mailed token both succeed, a
      login can be overtaken by a password change, and a stale row can be cached.
    - Accounts: activation needs the stored code, a password change the current
      password or a stored reset token; identity columns never change; the cache
      agrees with the table; emails are unique in normal form.
    - Abuse: lockout of Login and VerifyOTP, one-shot reset tokens, no disclosure of
      unknown emails by ForgotPassword.
    - HTTP: replies have one of nine statuses and leak no internal error, every
      account change leaves an audit event, no request makes an administrator.  The
      published document has the server's routes, protection and bodies, and the
      statuses of its replies up to a list of those it leaves out
      ([documentation_agrees]).
    - Bytes: what a client sends is what the handler works on, what a handler answers is
      what the client reads ([requests_read_back], [responses_read_back]); a body that is
      no JSON changes nothing.
    - Audit stream: each sink holds whole lines that read back to the events in order,
      each event once ([audit_stream_whole]); but one failed write silences an encoder
      for good ([failed_encoder_silent]), and [SetOutput] races with [Record].
    - Metrics: no registration panics, eleven series for caches and mailer, sixteen paths;
      the method is the client's ([metrics_bounded]).
    - Codes and SQL: unbiased digits, termination, 32 random bytes in a reset token;
      the listing statement is the text of its conditions; soft deletion; which
      method leaves a result set open.
    - Mail queue: it refines a spool in which a mail is queued or with a worker until it
      ends once; attempts are bounded; every queue can drain at shutdown.
    - Limiter: an address gets at most its burst and what has flown in since, the
      sweeper notwithstanding.
    - Configuration: exactly the documented ranges are accepted, and what they imply
      for tokens, limits and pools.
    - Migrations: [Up] runs the missing files in order, each recorded with its effect or
      not at all; what [Down] and a second [Up] do to the repository's own files.  Any
      number of interleaved runners leaves what one would, if the pools leave the
      session of the lock open ([runners_serialized]); a pool that closes it lets a
      file be executed twice ([idle_session_race]).
    - Processes: the API serves exactly with an accepted configuration and everything
      opened, closes every part once and in order after a signal, and explains any
      other end in its log ([api_ends]); how the two tools end ([migrate_ends],
      [seed_ends]).
    - Logger and mails: a derived logger never shows the fields of another; a mail
      reads back to the secret it was given.

    * Fuel and bounds

    [otp_loop] takes fuel, the number of random buffers; [GenerateOTPCode_terminates]
    shows that as many as digits are enough when every buffer has an acceptable
    byte (of [length + 10] bytes each is acceptable with probability 250/256).  JSON
    decoding uses the length of its text as fuel.  Durations are int64 nanoseconds
    with wrap-around ([mul64]); counters are int64.

    The queue has no fuel: the worker steps of a run are bounded by a measure of the
    work left.  [auth_rate_limit] is about runs in which the
    middleware takes its token at most three minutes after it stored the time the
    sweeper looks at; an entry five minutes old has then refilled and can be dropped.

    * What is assumed and what is not modelled

    A statement PostgreSQL reports as failed has not been applied (a COMMIT whose
    answer is lost is covered only for the RETURNING of the INSERT); a Redis command
    that reports an error may or may not have been applied.

    There are two grains of concurrency below the requests.  AuthConcurrent.v, and the
    handlers and the router around it, take single Redis commands and single calls of the
    users use case, the token service, the mailer and the limiter as atomic; UserLoads.v
    single calls of the repository, the cache and singleflight.  The invariants carry
    over, with one condition: the truth of the cache, which AuthConcurrent.v gets from the
    contract of the users use case, holds in UserLoads.v under the condition of
    [cache_coherent_concurrent].  Such a stale entry is why the two are not one model: the
    contract that the auth theorems rest on ([users_GetByEmail_spec]) is false of single
    calls, as [stale_cache_race] shows.

    JSON texts are what encoding/json accepts and writes, invalid UTF-8 replaced; numbers
    are read as the fields of the program's structs need them, integers of 64 bits.  A
    writer of the audit stream takes a line or fails after a part of it.

    The limiter, the mail queue and the core read clocks of their own.  The core hands a
    mail to an interface; [mailer] of Mailer.v implements it directly and the queue in
    front of it is proved on its own.

    A migration runner is interleaved at its statements; the transaction of a file counts as
    one, at its commit.  What the listener answers and when a signal comes are inputs of
    [api]; deadlines are values that nothing here waits for.

    Not modelled: spans, and the log lines of the use cases and of the migration runner
    (with its SetLogger): output that nothing reads back.  The values of the duration
    histogram, and panic recovery: Prometheus' and gin's; the one panic of the program's
    own, a mail queued after the shutdown, is an answer of [enqueue].  swag, which
    generates the document.  The mocks and fixtures of the tests. *)

From Stdlib Require Import Ascii String ZArith.
From stdpp Require Import base gmap strings list pretty.

(** * Results: a Go pair [(T, error)] in which exactly one half is meaningful *)

Inductive result (E A : Type) : Type :=
| Ok (a : A)
| Err (e : E).
Arguments Ok {E A} a.
Arguments Err {E A} e.

Definition is_Ok {E A} (r : result E A) : bool :=
  match r with Ok _ => true | Err _ => false end.

(** * Programs: state-passing functions over a state [S] *)

Definition io (S A : Type) : Type := S -> A * S.

Definition ret {S A} (a : A) : io S A := fun s => (a, s).

Definition bind {S A B} (m : io S A) (k : A -> io S B) : io S B :=
  fun s => let '(a, s') := m s in k a s'.

(** [x, err := m; if err != nil { h(err) }; k(x)] *)
Definition try_catch {S E A B} (m : io S (result E A))
    (h : E -> io S B) (k : A -> io S B) : io S B :=
  bind m (fun r => match r with Ok a => k a | Err e => h e end).

Definition get_state {S} : io S S := fun s => (s, s).
Definition modify {S} (f : S -> S) : io S unit := fun s => (tt, f s).

(** [lens W C]: a component [C] of the state [W]. *)
Record lens (W C : Type) := Lens { lget : W -> C; lset : C -> W -> W }.
Arguments Lens {W C} lget lset.
Arguments lget {W C} l w.
Arguments lset {W C} l c w.

Definition zoom {W C A} (l : lens W C) (m : io C A) : io W A :=
  fun w => let '(a, c') := m (lget l w) in (a, lset l c' w).

Definition lens_comp {W C D} (l : lens W C) (k : lens C D) : lens W D :=
  Lens (fun w => lget k (lget l w)) (fun d w => lset l (lset k d (lget l w)) w).

Declare Scope go_scope.
Delimit Scope go_scope with go.
Notation "x <- m ;; k" := (bind m (fun x => k))
  (at level 20, m at level 99, k at level 200, only parsing) : go_scope.
Notation "m ;;; k" := (bind m (fun _ => k))
  (at level 100, k at level 200, right associativity, only parsing) : go_scope.
Notation "'try' x <- m 'catch' e => h ;; k" :=
  (try_catch m (fun e => h) (fun x => k))
  (at level 20, x name, m at level 99, e name, h at level 99,
   k at level 200, only parsing) : go_scope.
Open Scope go_scope.

(** * Weakest preconditions of programs *)

Definition wp {S A} (m : io S A) (Q : A -> S -> Prop) (s : S) : Prop :=
  Q (m s).1 (m s).2.

#[global] Arguments wp : simpl never.

Section wp_rules.
Context {S : Type}.

Lemma wp_ret {A} (a : A) (Q : A -> S -> Prop) s : Q a s -> wp (ret a) Q s.
Proof. done. Qed.

Lemma wp_bind {A B} (m : io S A) (k : A -> io S B) Q s :
  wp m (fun a => wp (k a) Q) s -> wp (bind m k) Q s.
Proof. unfold wp, bind. by destruct (m s). Qed.

Lemma wp_try {E A B} (m : io S (result E A)) (h : E -> io S B)
    (k : A -> io S B) Q s :
  wp m (fun r => wp (match r with Ok a => k a | Err e => h e end) Q) s ->
  wp (try_catch m h k) Q s.
Proof. apply wp_bind. Qed.

Lemma wp_mono {A} (m : io S A) (P Q : A -> S -> Prop) s :
  wp m P s -> (forall a s', P a s' -> Q a s') -> wp m Q s.
Proof. unfold wp. eauto. Qed.

Lemma wp_conj {A} (m : io S A) (P Q : A -> S -> Prop) s :
  wp m P s -> wp m Q s -> wp m (fun a s' => P a s' /\ Q a s') s.
Proof. by unfold wp. Qed.

Lemma wp_modify (f : S -> S) (Q : unit -> S -> Prop) s :
  Q tt (f s) -> wp (modify f) Q s.
Proof. done. Qed.

Lemma wp_get (Q : S -> S -> Prop) s : Q s s -> wp get_state Q s.
Proof. done. Qed.

Lemma wp_zoom {C A} (l : lens S C) (m : io C A) Q s :
  wp m (fun a c => Q a (lset l c s)) (lget l s) -> wp (zoom l m) Q s.
Proof. unfold wp, zoom. by destruct (m (lget l s)). Qed.

(** From a precondition proof to a concrete run, and back. *)
Lemma wp_run {A} (m : io S A) Q s a s' : wp m Q s -> m s = (a, s') -> Q a s'.
Proof. unfold wp. intros H Hm. by rewrite Hm in H. Qed.

Lemma wp_intro {A} (m : io S A) (Q : A -> S -> Prop) s :
  (forall a s', m s = (a, s') -> Q a s') -> wp m Q s.
Proof. unfold wp. intros H. apply H. by destruct (m s). Qed.
End wp_rules.

(** * Preserved predicates and relations *)

(** Every run of [m] takes [P]-states to [P]-states. *)
Definition preserves {S A} (P : S -> Prop) (m : io S A) : Prop :=
  forall s, P s -> P (m s).2.

Section preserves_rules.
Context {S : Type} (P : S -> Prop).

Lemma preserves_ret {A} (a : A) : preserves P (ret a).
Proof. by intros s. Qed.

Lemma preserves_bind {A B} (m : io S A) (k : A -> io S B) :
  preserves P m -> (forall a, preserves P (k a)) -> preserves P (bind m k).
Proof.
  intros Hm Hk s Hs. unfold bind. specialize (Hm s Hs). destruct (m s) as [a s'].
  by apply Hk.
Qed.

Lemma preserves_try {E A B} (m : io S (result E A)) (h : E -> io S B) (k : A -> io S B) :
  preserves P m -> (forall e, preserves P (h e)) -> (forall a, preserves P (k a)) ->
  preserves P (try_catch m h k).
Proof. intros Hm Hh Hk. apply preserves_bind; [done|]. intros []; auto. Qed.

Lemma preserves_wp {A} (m : io S A) s Q :
  preserves P m -> P s -> wp m Q s -> wp m (fun a s' => P s' /\ Q a s') s.
Proof. intros Hm Hs HQ. split; [by apply Hm|done]. Qed.
End preserves_rules.

Lemma preserves_zoom {W C A} (l : lens W C) (P : W -> Prop) (m : io C A) :
  (forall c w, P w -> P (lset l c w)) -> preserves P (zoom l m).
Proof. intros H w Hw. unfold zoom. destruct (m (lget l w)). by apply H. Qed.

Create HintDb wp.
#[export] Hint Resolve preserves_ret preserves_bind preserves_try : wp.

(** ** Symbolic execution

    [wp_step] performs the next operation of a program whose specification
    needs no lemma of its own. *)
Ltac wp_step :=
  lazymatch goal with
  | |- wp (ret _) _ _ => apply wp_ret
  | |- wp (bind _ _) _ _ => apply wp_bind
  | |- wp (try_catch _ _ _) _ _ => apply wp_try
  | |- wp (zoom _ _) _ _ => apply wp_zoom
  | |- wp (modify _) _ _ => apply wp_modify
  | |- wp get_state _ _ => apply wp_get
  | |- wp (if String.eqb ?a ?b then _ else _) _ _ => destruct (String.eqb_spec a b)
  | |- wp (if negb (String.eqb ?a ?b) then _ else _) _ _ =>
      destruct (String.eqb_spec a b); cbn beta iota delta [negb]
  | |- wp (match ?b with true => _ | false => _ end) _ _ => destruct b eqn:?
  end.
Ltac wp_steps := repeat wp_step.
