(* ===== verification/GoStrings.v ===== *)
(** Go strings: byte strings with the operations of [strings], [unicode/utf8],
    [strconv] and [encoding/json] that the program uses.  A Go string is a
    [string] of bytes ([ascii] = one byte); runes are recognised by their UTF-8
    encoding.  Holds [TrimSpace], [ToLower], [Split], [ParseInt], the JSON text
    of a string value, and their lemmas. *)

From Stdlib Require Import Ascii String ZArith.
From stdpp Require Import base gmap strings list pretty.
From S2P Require Import Prelude.

Open Scope string_scope.

(** * Bytes *)

Definition code (a : ascii) : N := N_of_ascii a.
Definition chr (n : N) : ascii := ascii_of_N n.

Definition is_ascii_byte (a : ascii) : bool := (code a <? 128)%N.

Fixpoint string_forall (p : ascii -> bool) (s : string) : bool :=
  match s with
  | EmptyString => true
  | String a r => p a && string_forall p r
  end.

Definition isASCII (s : string) : bool := string_forall is_ascii_byte s.

Fixpoint string_map (f : ascii -> ascii) (s : string) : string :=
  match s with
  | EmptyString => EmptyString
  | String a r => String (f a) (string_map f r)
  end.

(** * [unicode.IsSpace] on the UTF-8 encoding

    [space_len s] is the number of bytes of the white-space rune at the front
    of [s], 0 when the first rune is no white space: the six ASCII ones, U+0085
    and U+00A0 (two bytes), U+1680, U+2000 to U+200A, U+2028, U+2029, U+202F,
    U+205F and U+3000 (three bytes). *)
Definition space_len (s : string) : nat :=
  match s with
  | EmptyString => 0
  | String a r =>
      let c := code a in
      if ((9 <=? c) && (c <=? 13) || (c =? 32))%N then 1 else
      match r with
      | EmptyString => 0
      | String b r' =>
          let d := code b in
          if ((c =? 194) && ((d =? 133) || (d =? 160)))%N then 2 else
          match r' with
          | EmptyString => 0
          | String e _ =>
              let f := code e in
              if ((c =? 225) && (d =? 154) && (f =? 128)
                  || (c =? 226) && (d =? 128) && (128 <=? f) && (f <=? 138)
                  || (c =? 226) && (d =? 128) && ((f =? 168) || (f =? 169) || (f =? 175))
                  || (c =? 226) && (d =? 129) && (f =? 159)
                  || (c =? 227) && (d =? 128) && (f =? 128))%N then 3 else 0
          end
      end
  end.

(** [skip] counts the bytes of a white-space rune still to be dropped. *)
Fixpoint trim_left_go (skip : nat) (s : string) : string :=
  match s with
  | EmptyString => EmptyString
  | String _ r =>
      match skip with
      | S k => trim_left_go k r
      | O => match space_len s with
             | O => s
             | S n => trim_left_go n r
             end
      end
  end.

Definition trim_left (s : string) : string := trim_left_go 0 s.

Definition all_space (s : string) : bool :=
  match trim_left s with EmptyString => true | _ => false end.

(** Drops the longest suffix that is white space only. *)
Fixpoint trim_right (s : string) : string :=
  match s with
  | EmptyString => EmptyString
  | String a r => if all_space s then EmptyString else String a (trim_right r)
  end.

(** [strings.TrimSpace]. *)
Definition TrimSpace (s : string) : string := trim_right (trim_left s).

(** * [strings.ToLower]

    The ASCII path of the Go function is exact; for a string with a non-ASCII
    byte the function maps runes through the Unicode tables of the Go runtime,
    which are a parameter, as is [net/mail.ParseAddress] ([Services.v] states
    what is assumed of them). *)
Class GoText := {
  unicode_lower : string -> string;
  rune_IsUpper : N -> bool;
  rune_IsLower : N -> bool;
  rune_IsDigit : N -> bool;
  rune_IsPunct : N -> bool;
  rune_IsSymbol : N -> bool;
  mail_ParseAddress : string -> bool;
}.

Definition lower_byte (a : ascii) : ascii :=
  let c := code a in
  if ((65 <=? c) && (c <=? 90))%N then chr (c + 32) else a.

Definition ToLower `{GoText} (s : string) : string :=
  if isASCII s then string_map lower_byte s else unicode_lower s.

(** Documented behaviour of the Unicode path: the result has no upper-case
    letter left, and no rune becomes white space. *)
Class GoTextLaws `{GoText} : Prop := {
  unicode_lower_fixed : forall s, isASCII s = false ->
    ToLower (unicode_lower s) = unicode_lower s;
  unicode_lower_trimmed : forall s, isASCII s = false ->
    TrimSpace s = s -> TrimSpace (unicode_lower s) = unicode_lower s;
}.

(** * [strings.Split(s, " ")]: the parts between single spaces *)
Fixpoint split_space_go (cur : string) (s : string) : list string :=
  match s with
  | EmptyString => [cur]
  | String a r =>
      if (code a =? 32)%N then cur :: split_space_go "" r
      else split_space_go (cur +:+ String a "") r
  end.
Definition Split_space (s : string) : list string := split_space_go "" s.

(** * [strconv.ParseInt(s, 10, 64)] *)

Definition digit_val (a : ascii) : option Z :=
  let c := code a in
  if ((48 <=? c) && (c <=? 57))%N then Some (Z.of_N c - 48)%Z else None.

Fixpoint digits_go (acc : Z) (s : string) : option Z :=
  match s with
  | EmptyString => Some acc
  | String a r => match digit_val a with
                  | Some d => digits_go (10 * acc + d)%Z r
                  | None => None
                  end
  end.

Definition int64_min : Z := - 2 ^ 63.
Definition int64_max : Z := 2 ^ 63 - 1.
Definition in_int64 (z : Z) : bool := (int64_min <=? z)%Z && (z <=? int64_max)%Z.

Definition ParseInt (s : string) : option Z :=
  let checked (o : option Z) :=
    match o with Some z => if in_int64 z then Some z else None | None => None end in
  match s with
  | EmptyString => None
  | String a r =>
      if (code a =? 45)%N then
        match r with
        | EmptyString => None
        | _ => checked (Z.opp <$> digits_go 0 r)
        end
      else if (code a =? 43)%N then
        match r with
        | EmptyString => None
        | _ => checked (digits_go 0 r)
        end
      else checked (digits_go 0 s)
  end.

(** [strconv.Itoa], [strconv.FormatInt(n, 10)] and [fmt.Sprintf("%d", n)]. *)
Definition Itoa (z : Z) : string := pretty z.

(** * UTF-8 *)

Definition cont (a : ascii) : bool := ((128 <=? code a) && (code a <=? 191))%N.

(** Length of the valid UTF-8 sequence at the front of [s]; 0 when there is
    none ([utf8.DecodeRune] then gives [RuneError] with size 1, or size 0 on
    the empty string). *)
Definition rune_len (s : string) : nat :=
  match s with
  | EmptyString => 0
  | String a r =>
      let c := code a in
      if (c <? 128)%N then 1 else
      match r with
      | EmptyString => 0
      | String b r1 =>
          if ((194 <=? c) && (c <=? 223))%N && cont b then 2 else
          match r1 with
          | EmptyString => 0
          | String d r2 =>
              let e := code b in
              if (((c =? 224) && (160 <=? e) && (e <=? 191)
                   || (225 <=? c) && (c <=? 236) && (128 <=? e) && (e <=? 191)
                   || (c =? 237) && (128 <=? e) && (e <=? 159)
                   || (238 <=? c) && (c <=? 239) && (128 <=? e) && (e <=? 191))%N
                  && cont d) then 3 else
              match r2 with
              | EmptyString => 0
              | String f _ =>
                  if (((c =? 240) && (144 <=? e) && (e <=? 191)
                       || (241 <=? c) && (c <=? 243) && (128 <=? e) && (e <=? 191)
                       || (c =? 244) && (128 <=? e) && (e <=? 143))%N
                      && cont d && cont f) then 4 else 0
              end
          end
      end
  end.

Fixpoint valid_utf8_go (skip : nat) (s : string) : bool :=
  match s with
  | EmptyString => match skip with O => true | S _ => false end
  | String _ r =>
      match skip with
      | S k => valid_utf8_go k r
      | O => match rune_len s with
             | O => false
             | S n => valid_utf8_go n r
             end
      end
  end.
Definition valid_utf8 (s : string) : bool := valid_utf8_go 0 s.

(** * [encoding/json]: the text of one string value

    [json_Marshal s] is what [json.Marshal] gives for a Go string (HTML
    escaping on, as by default); [json_Unmarshal t] is what [json.Unmarshal]
    leaves in a [string] variable: [None] is an error. *)

Definition quote : string := String (chr 34) "".
Definition backslash : string := String (chr 92) "".

Definition hex_digit (n : N) : ascii :=
  if (n <? 10)%N then chr (48 + n) else chr (87 + n).

(** [\u00XY] for a byte. *)
Definition u_escape (n : N) : string :=
  backslash +:+ "u00" +:+ String (hex_digit (n / 16)) (String (hex_digit (n mod 16)) "").

Definition json_escape_ascii (a : ascii) : string :=
  let c := code a in
  if (c =? 34)%N then backslash +:+ quote
  else if (c =? 92)%N then backslash +:+ backslash
  else if (c =? 8)%N then backslash +:+ "b"
  else if (c =? 12)%N then backslash +:+ "f"
  else if (c =? 10)%N then backslash +:+ "n"
  else if (c =? 13)%N then backslash +:+ "r"
  else if (c =? 9)%N then backslash +:+ "t"
  else if ((c <? 32) || (c =? 60) || (c =? 62) || (c =? 38))%N then u_escape c
  else String a "".

(** U+2028 and U+2029, the two JavaScript line separators. *)
Definition line_separator (s : string) : option string :=
  match s with
  | String a (String b (String d _)) =>
      if ((code a =? 226) && (code b =? 128))%N then
        if (code d =? 168)%N then Some (backslash +:+ "u2028")
        else if (code d =? 169)%N then Some (backslash +:+ "u2029")
        else None
      else None
  | _ => None
  end.

(** What to do with the following bytes of the current rune. *)
Inductive json_skip := Copy (n : nat) | Discard (n : nat).

Fixpoint json_escape_go (k : json_skip) (s : string) : string :=
  match s with
  | EmptyString => EmptyString
  | String a r =>
      match k with
      | Copy (S n) => String a (json_escape_go (Copy n) r)
      | Discard (S n) => json_escape_go (Discard n) r
      | _ =>
          if is_ascii_byte a then json_escape_ascii a +:+ json_escape_go (Copy 0) r
          else match rune_len s with
               | O => backslash +:+ "ufffd" +:+ json_escape_go (Copy 0) r
               | S n =>
                   match line_separator s with
                   | Some t => t +:+ json_escape_go (Discard n) r
                   | None => String a (json_escape_go (Copy n) r)
                   end
               end
      end
  end.

Definition json_Marshal (s : string) : string :=
  quote +:+ json_escape_go (Copy 0) s +:+ quote.

Definition hex_val (a : ascii) : option N :=
  let c := code a in
  if ((48 <=? c) && (c <=? 57))%N then Some (c - 48)%N
  else if ((97 <=? c) && (c <=? 102))%N then Some (c - 87)%N
  else if ((65 <=? c) && (c <=? 70))%N then Some (c - 55)%N
  else None.

Definition hex4 (a b c d : ascii) : option N :=
  match hex_val a, hex_val b, hex_val c, hex_val d with
  | Some x, Some y, Some z, Some t => Some (((x * 16 + y) * 16 + z) * 16 + t)%N
  | _, _, _, _ => None
  end.

(** [utf8.AppendRune]: surrogates and out-of-range values give U+FFFD. *)
Definition encode_rune (r : N) : string :=
  let fffd := String (chr 239) (String (chr 191) (String (chr 189) "")) in
  if (r <? 128)%N then String (chr r) ""
  else if (r <? 2048)%N then
    String (chr (192 + r / 64)) (String (chr (128 + r mod 64)) "")
  else if ((55296 <=? r) && (r <=? 57343))%N then fffd
  else if (r <? 65536)%N then
    String (chr (224 + r / 4096)) (String (chr (128 + (r / 64) mod 64))
      (String (chr (128 + r mod 64)) ""))
  else if (r <=? 1114111)%N then
    String (chr (240 + r / 262144)) (String (chr (128 + (r / 4096) mod 64))
      (String (chr (128 + (r / 64) mod 64)) (String (chr (128 + r mod 64)) "")))
  else fffd.

Definition simple_escape (a : ascii) : option ascii :=
  let c := code a in
  if ((c =? 34) || (c =? 92) || (c =? 47))%N then Some a
  else if (c =? 98)%N then Some (chr 8)
  else if (c =? 102)%N then Some (chr 12)
  else if (c =? 110)%N then Some (chr 10)
  else if (c =? 114)%N then Some (chr 13)
  else if (c =? 116)%N then Some (chr 9)
  else None.

Definition is_json_space (a : ascii) : bool :=
  ((code a =? 32) || (code a =? 9) || (code a =? 10) || (code a =? 13))%N.

(** The bytes after the opening quote, up to the closing quote and blanks.
    [high] is a pending high surrogate of a [\u] escape. *)
Fixpoint json_unescape_go (fuel : nat) (high : option N) (s : string) : option string :=
  let pending := match high with Some h => encode_rune h | None => "" end in
  match fuel with
  | O => None
  | S fuel =>
  match s with
  | EmptyString => None
  | String a r =>
      if (code a =? 34)%N then
        if string_forall is_json_space r then Some pending else None
      else if (code a =? 92)%N then
        match r with
        | String u r1 =>
            if (code u =? 117)%N then
              match r1 with
              | String x (String y (String z (String t r2))) =>
                  match hex4 x y z t with
                  | None => None
                  | Some v =>
                      match high with
                      | Some h =>
                          if ((56320 <=? v) && (v <=? 57343))%N then
                            String.append (encode_rune (65536 + (h - 55296) * 1024 + (v - 56320)))
                              <$> json_unescape_go fuel None r2
                          else if ((55296 <=? v) && (v <=? 56319))%N then
                            String.append pending <$> json_unescape_go fuel (Some v) r2
                          else
                            String.append (pending +:+ encode_rune v)
                              <$> json_unescape_go fuel None r2
                      | None =>
                          if ((55296 <=? v) && (v <=? 56319))%N then
                            json_unescape_go fuel (Some v) r2
                          else String.append (encode_rune v) <$> json_unescape_go fuel None r2
                      end
                  end
              | _ => None
              end
            else match simple_escape u with
                 | Some c =>
                     String.append (pending +:+ String c "") <$> json_unescape_go fuel None r1
                 | None => None
                 end
        | EmptyString => None
        end
      else if (code a <? 32)%N then None
      else if is_ascii_byte a then
        String.append (pending +:+ String a "") <$> json_unescape_go fuel None r
      else match rune_len s, r with
           | 2, String b r2 =>
               String.append (pending +:+ String a (String b ""))
                 <$> json_unescape_go fuel None r2
           | 3, String b (String c r3) =>
               String.append (pending +:+ String a (String b (String c "")))
                 <$> json_unescape_go fuel None r3
           | 4, String b (String c (String d r4)) =>
               String.append (pending +:+ String a (String b (String c (String d ""))))
                 <$> json_unescape_go fuel None r4
           | _, _ =>
               String.append (pending +:+ encode_rune 65533)
                 <$> json_unescape_go fuel None r
           end
  end
  end.

Fixpoint drop_json_space (s : string) : string :=
  match s with
  | String a r => if is_json_space a then drop_json_space r else s
  | EmptyString => EmptyString
  end.

(** A literal [null] leaves the variable at its zero value; any other value
    that is no string literal is an error.  Each round of the loop consumes at
    least one byte, so the length of the text is enough fuel. *)
Definition json_Unmarshal (t : string) : option string :=
  match drop_json_space t with
  | String a r =>
      if (code a =? 34)%N then json_unescape_go (String.length r) None r
      else match String.prefix "null" (String a r) with
           | true => if string_forall is_json_space (String.substring 4 (String.length r) (String a r))
                     then Some "" else None
           | false => None
           end
  | EmptyString => None
  end.

(** * Lemmas *)

(** Case analysis on a byte: 256 concrete cases. *)
Ltac byte_cases a :=
  let b0 := fresh in let b1 := fresh in let b2 := fresh in let b3 := fresh in
  let b4 := fresh in let b5 := fresh in let b6 := fresh in let b7 := fresh in
  destruct a as [b0 b1 b2 b3 b4 b5 b6 b7];
  destruct b0, b1, b2, b3, b4, b5, b6, b7.

Lemma app_cons_string a (s t : string) : String a s +:+ t = String a (s +:+ t).
Proof. reflexivity. Qed.

Lemma app_nil_l_string (s : string) : "" +:+ s = s.
Proof. reflexivity. Qed.

Lemma app_nil_r_string (s : string) : s +:+ "" = s.
Proof. induction s as [|a s IH]; [done|]. by rewrite app_cons_string, IH. Qed.

Lemma app_assoc_string (s t u : string) : s +:+ (t +:+ u) = (s +:+ t) +:+ u.
Proof. induction s as [|a s IH]; [done|]. by rewrite !app_cons_string, IH. Qed.

Lemma string_forall_impl (p q : ascii -> bool) s :
  (forall a, p a = true -> q a = true) -> string_forall p s = true -> string_forall q s = true.
Proof.
  intros Hpq. induction s as [|a s IH]; [done|]. cbn. rewrite !andb_true_iff. intros []. auto.
Qed.

Lemma string_forall_app p s t :
  string_forall p (s +:+ t) = string_forall p s && string_forall p t.
Proof.
  induction s as [|a s IH]; [done|]. rewrite app_cons_string. simpl.
  by rewrite IH, andb_assoc.
Qed.

Lemma substring_all s n : (String.length s <= n)%nat -> String.substring 0 n s = s.
Proof.
  revert n. induction s as [|a s IH]; intros [|n] Hn; simpl in Hn; try done; try lia.
  cbn. by rewrite IH by lia.
Qed.

Lemma length_app_string (s t : string) :
  String.length (s +:+ t) = String.length s + String.length t.
Proof. induction s as [|a s IH]; [done|]. rewrite app_cons_string. simpl. by rewrite IH. Qed.

(** ** JSON round trip *)

Lemma json_unescape_step a fuel rest :
  is_ascii_byte a = true ->
  json_unescape_go (S fuel) None (json_escape_ascii a +:+ rest)
  = String.append (String a "") <$> json_unescape_go fuel None rest.
Proof. byte_cases a; intros Ha; first [discriminate Ha | reflexivity]. Qed.

Lemma json_unescape_escape s fuel :
  isASCII s = true -> String.length s < fuel ->
  json_unescape_go fuel None (json_escape_go (Copy 0) s +:+ quote) = Some s.
Proof.
  revert fuel. induction s as [|a s IH]; intros [|fuel] Hs Hf; simpl in Hf; try lia.
  - reflexivity.
  - unfold isASCII in Hs. simpl in Hs. apply andb_prop in Hs as [Ha Hs].
    cbn [json_escape_go]. rewrite Ha, <- app_assoc_string, json_unescape_step by done.
    rewrite IH by (done || lia). reflexivity.
Qed.

Lemma json_escape_length s :
  isASCII s = true -> String.length s <= String.length (json_escape_go (Copy 0) s).
Proof.
  induction s as [|a s IH]; intros Hs; [done|].
  unfold isASCII in Hs. simpl in Hs. apply andb_prop in Hs as [Ha Hs].
  cbn [json_escape_go]. rewrite Ha, length_app_string.
  assert (1 <= String.length (json_escape_ascii a)) by (byte_cases a; cbv; lia).
  specialize (IH Hs). simpl. lia.
Qed.

Lemma json_roundtrip s : isASCII s = true -> json_Unmarshal (json_Marshal s) = Some s.
Proof.
  intros Hs. unfold json_Marshal, json_Unmarshal.
  change (drop_json_space (quote +:+ ?x)) with (quote +:+ x).
  cbn [String.append quote]. change (code (chr 34) =? 34)%N with true. cbn iota.
  apply json_unescape_escape; [done|].
  rewrite length_app_string. simpl. pose proof (json_escape_length s Hs). lia.
Qed.

(** ** [TrimSpace] *)

Lemma space_len_le s : space_len s <= String.length s.
Proof.
  destruct s as [|a [|b [|c r]]]; unfold space_len; repeat case_match; simpl; lia.
Qed.

Lemma space_len_app p q : space_len p <> 0 -> space_len (p +:+ q) = space_len p.
Proof.
  destruct p as [|a [|b [|c r]]]; rewrite ?app_cons_string, ?app_nil_l_string;
    unfold space_len; intros H; repeat (case_match; try done).
Qed.

Lemma trim_left_go_app p q k :
  k <= String.length p -> trim_left_go k p = "" ->
  trim_left_go k (p +:+ q) = trim_left q.
Proof.
  revert k. induction p as [|a p IH]; intros k Hk Hp.
  - simpl in Hk. replace k with 0 by lia. done.
  - rewrite app_cons_string. destruct k as [|k].
    + cbn [trim_left_go] in *. destruct (space_len (String a p)) as [|n] eqn:En; [done|].
      change (String a (p +:+ q)) with (String a p +:+ q).
      rewrite space_len_app by congruence. rewrite En.
      apply IH; [|done]. pose proof (space_len_le (String a p)). simpl in *. lia.
    + cbn [trim_left_go] in *. apply IH; [simpl in Hk; lia|done].
Qed.

Lemma all_space_true s : all_space s = true <-> trim_left s = "".
Proof. unfold all_space. destruct (trim_left s); split; congruence. Qed.

Lemma all_space_app p q :
  all_space p = true -> all_space (p +:+ q) = all_space q.
Proof.
  rewrite all_space_true. intros Hp. unfold all_space, trim_left.
  rewrite trim_left_go_app by (done || lia). done.
Qed.

Lemma trim_right_split s : exists t, s = trim_right s +:+ t /\ all_space t = true.
Proof.
  induction s as [|a s [t [Hs Ht]]]; [by exists ""|].
  cbn [trim_right]. destruct (all_space (String a s)) eqn:E.
  - by exists (String a s).
  - exists t. split; [|done]. by rewrite app_cons_string, <- Hs.
Qed.

Lemma trim_right_idem s : trim_right (trim_right s) = trim_right s.
Proof.
  induction s as [|a s IH]; [done|]. cbn [trim_right].
  destruct (all_space (String a s)) eqn:E; [done|]. cbn [trim_right].
  destruct (all_space (String a (trim_right s))) eqn:E'; [exfalso|by rewrite IH].
  destruct (trim_right_split s) as (t & Hs & Ht).
  rewrite Hs in E. change (String a (trim_right s +:+ t)) with (String a (trim_right s) +:+ t) in E.
  rewrite (all_space_app _ _ E') in E. congruence.
Qed.

Lemma trim_left_go_fixed k s :
  trim_left_go k s = "" \/ space_len (trim_left_go k s) = 0.
Proof.
  revert k. induction s as [|a s IH]; intros k; [by left|].
  destruct k as [|k]; cbn [trim_left_go]; [|apply IH].
  destruct (space_len (String a s)) eqn:E; [by right|apply IH].
Qed.

Lemma trim_left_id s : space_len s = 0 -> trim_left s = s.
Proof. unfold trim_left. destruct s; [done|]. cbn [trim_left_go]. by intros ->. Qed.

Lemma TrimSpace_left s : trim_left (TrimSpace s) = TrimSpace s.
Proof.
  unfold TrimSpace. destruct (trim_left_go_fixed 0 s : trim_left s = _ \/ space_len (trim_left s) = _) as [->|H]; [done|].
  apply trim_left_id. destruct (trim_right_split (trim_left s)) as (t & Ht & _).
  destruct (decide (space_len (trim_right (trim_left s)) = 0)) as [|Hne]; [done|].
  rewrite <- (space_len_app _ t Hne), <- Ht in Hne. congruence.
Qed.

Lemma TrimSpace_idem s : TrimSpace (TrimSpace s) = TrimSpace s.
Proof.
  unfold TrimSpace at 1. rewrite TrimSpace_left. unfold TrimSpace. apply trim_right_idem.
Qed.

(** ** [ToLower] and the white space of ASCII strings *)

Lemma lower_byte_idem a : lower_byte (lower_byte a) = lower_byte a.
Proof. byte_cases a; reflexivity. Qed.

Lemma lower_byte_ascii a : is_ascii_byte (lower_byte a) = is_ascii_byte a.
Proof. byte_cases a; reflexivity. Qed.

Lemma isASCII_cons a s :
  isASCII (String a s) = true <-> is_ascii_byte a = true /\ isASCII s = true.
Proof. unfold isASCII. simpl. by rewrite andb_true_iff. Qed.

Lemma isASCII_lower s : isASCII (string_map lower_byte s) = isASCII s.
Proof.
  unfold isASCII. induction s as [|a s IH]; [done|]. simpl. by rewrite lower_byte_ascii, IH.
Qed.

Lemma string_map_lower_idem s :
  string_map lower_byte (string_map lower_byte s) = string_map lower_byte s.
Proof. induction s as [|a s IH]; [done|]. simpl. by rewrite lower_byte_idem, IH. Qed.

Definition ascii_space (a : ascii) : bool :=
  let c := code a in ((9 <=? c) && (c <=? 13) || (c =? 32))%N.

Lemma lower_byte_space a : ascii_space (lower_byte a) = ascii_space a.
Proof. byte_cases a; reflexivity. Qed.

Lemma space_len_ascii a s :
  is_ascii_byte a = true -> space_len (String a s) = if ascii_space a then 1 else 0.
Proof.
  intros Ha. unfold space_len. unfold ascii_space. destruct (_ || _)%N; [done|].
  unfold is_ascii_byte in Ha. apply N.ltb_lt in Ha.
  assert (forall n, (128 <= n)%N -> (code a =? n)%N = false) as Hn
    by (intros; apply N.eqb_neq; lia).
  destruct s as [|b [|d s]]; rewrite ?Hn by lia; done.
Qed.

Lemma trim_left_go_lower k s :
  isASCII s = true ->
  trim_left_go k (string_map lower_byte s) = string_map lower_byte (trim_left_go k s).
Proof.
  revert k. induction s as [|a s IH]; intros k Hs; [done|].
  apply isASCII_cons in Hs as [Ha Hs]. destruct k as [|k].
  - cbn [string_map trim_left_go]. rewrite !space_len_ascii by (by rewrite ?lower_byte_ascii).
    rewrite lower_byte_space. destruct (ascii_space a); [by apply IH|done].
  - cbn [string_map trim_left_go]. by apply IH.
Qed.

Lemma all_space_lower s :
  isASCII s = true -> all_space (string_map lower_byte s) = all_space s.
Proof.
  intros Hs. unfold all_space, trim_left. rewrite trim_left_go_lower by done.
  by destruct (trim_left_go 0 s).
Qed.

Lemma trim_right_lower s :
  isASCII s = true ->
  trim_right (string_map lower_byte s) = string_map lower_byte (trim_right s).
Proof.
  induction s as [|a s IH]; intros Hs; [done|].
  change (trim_right (string_map lower_byte (String a s))) with
    (if all_space (string_map lower_byte (String a s)) then ""
     else String (lower_byte a) (trim_right (string_map lower_byte s))).
  cbn [trim_right]. rewrite all_space_lower by done.
  apply isASCII_cons in Hs as [Ha Hs]. rewrite IH by done. by destruct (all_space _).
Qed.

Lemma isASCII_trim_left_go k s : isASCII s = true -> isASCII (trim_left_go k s) = true.
Proof.
  revert k. induction s as [|a s IH]; intros k Hs; [done|].
  pose proof Hs as Hs'. apply isASCII_cons in Hs' as [Ha Hr].
  destruct k; cbn [trim_left_go]; [|by apply IH].
  destruct (space_len _); [done|by apply IH].
Qed.

Lemma TrimSpace_lower s :
  isASCII s = true ->
  TrimSpace (string_map lower_byte s) = string_map lower_byte (TrimSpace s).
Proof.
  intros Hs. unfold TrimSpace, trim_left. rewrite trim_left_go_lower by done.
  by rewrite trim_right_lower by by apply isASCII_trim_left_go.
Qed.

Section lower.
Context `{GoTextLaws}.

Lemma ToLower_idem s : ToLower (ToLower s) = ToLower s.
Proof.
  unfold ToLower at 2 3. destruct (isASCII s) eqn:E.
  - unfold ToLower. rewrite isASCII_lower, E. apply string_map_lower_idem.
  - by apply unicode_lower_fixed.
Qed.

Lemma ToLower_trimmed s : TrimSpace s = s -> TrimSpace (ToLower s) = ToLower s.
Proof.
  intros Hs. unfold ToLower. destruct (isASCII s) eqn:E.
  - rewrite TrimSpace_lower by done. by rewrite Hs.
  - by apply unicode_lower_trimmed.
Qed.
End lower.

(** ** [ParseInt] inverts [Itoa] *)

Lemma digits_go_app acc s t :
  digits_go acc (s +:+ t) = match digits_go acc s with
                            | Some v => digits_go v t | None => None end.
Proof.
  revert acc. induction s as [|a s IH]; intros acc; [done|].
  rewrite app_cons_string. cbn [digits_go]. destruct (digit_val a); [apply IH|done].
Qed.

Lemma pretty_N_char_digit n :
  (n < 10)%N -> digit_val (pretty_N_char n) = Some (Z.of_N n).
Proof.
  intros Hn. destruct n as [|p]; [done|]. do 9 (destruct p as [p|p|]; try done; try lia).
Qed.

Lemma pretty_N_go_ind (P : string -> Prop) x s :
  (forall n t, (n < 10)%N -> P t -> P (String (pretty_N_char n) t)) ->
  P s -> P (pretty_N_go x s).
Proof.
  intros Hstep. revert s. induction (N.lt_wf_0 x) as [x _ IH]; intros s Hs.
  assert (x = 0 \/ 0 < x)%N as [->|Hx] by lia; [done|].
  rewrite pretty_N_go_step by done. apply IH; [by apply N.div_lt|].
  apply Hstep; [|done]. by apply N.mod_lt.
Qed.

Lemma digits_go_pretty x s :
  digits_go 0 (pretty_N_go x s) = digits_go (Z.of_N x) s.
Proof.
  revert s. induction (N.lt_wf_0 x) as [x _ IH]; intros s.
  assert (x = 0 \/ 0 < x)%N as [->|Hx] by lia; [done|].
  rewrite pretty_N_go_step by done. rewrite IH by by apply N.div_lt.
  cbn [digits_go]. rewrite pretty_N_char_digit by by apply N.mod_lt.
  f_equal. rewrite N2Z.inj_div, N2Z.inj_mod.
  pose proof (Z.div_mod (Z.of_N x) 10 ltac:(lia)). simpl. lia.
Qed.

Lemma digits_go_pretty_N n : digits_go 0 (pretty n) = Some (Z.of_N n).
Proof.
  unfold pretty, pretty_N. case_decide as Hn; [by subst|]. by rewrite digits_go_pretty.
Qed.

(** Every byte of a printed natural number is a digit, and there is one. *)
Lemma pretty_N_digits (n : N) :
  exists a r, pretty n = String a r /\
    (48 <=? code a)%N && (code a <=? 57)%N = true /\ isASCII r = true.
Proof.
  assert (forall k, (k < 10)%N ->
    (48 <=? code (pretty_N_char k))%N && (code (pretty_N_char k) <=? 57)%N = true) as Hd.
  { intros k Hk. destruct k as [|p]; [done|]. do 9 (destruct p as [p|p|]; try done; try lia). }
  assert (forall k, (k < 10)%N -> is_ascii_byte (pretty_N_char k) = true) as Ha.
  { intros k Hk. destruct k as [|p]; [done|]. do 9 (destruct p as [p|p|]; try done; try lia). }
  unfold pretty, pretty_N. case_decide as Hn; [by exists "0"%char, ""|].
  rewrite pretty_N_go_step by lia.
  set (P := fun s => exists a r, s = String a r /\
    (48 <=? code a)%N && (code a <=? 57)%N = true /\ isASCII r = true).
  apply (pretty_N_go_ind P).
  - intros m t Hm (a & r & -> & Hda & Hr). exists (pretty_N_char m), (String a r).
    split_and!; [done|by apply Hd|]. apply isASCII_cons. split; [|done].
    apply andb_prop in Hda as [_ H57]. unfold is_ascii_byte.
    apply N.leb_le in H57. apply N.ltb_lt. lia.
  - exists (pretty_N_char (n `mod` 10)), "". split_and!; [done| |done].
    apply Hd. by apply N.mod_lt.
Qed.

Lemma ParseInt_Itoa z : in_int64 z = true -> ParseInt (Itoa z) = Some z.
Proof.
  intros Hz. unfold Itoa. destruct z as [|p|p]; [done| |].
  - change (pretty (Z.pos p)) with (pretty (N.pos p)).
    destruct (pretty_N_digits (N.pos p)) as (a & r & Heq & Hda & _).
    unfold ParseInt. rewrite Heq.
    apply andb_prop in Hda as [H48 _]. apply N.leb_le in H48.
    rewrite (proj2 (N.eqb_neq (code a) 45)), (proj2 (N.eqb_neq (code a) 43)) by lia.
    rewrite <- Heq, digits_go_pretty_N. simpl. by rewrite Hz.
  - change (pretty (Z.neg p)) with (String "-" (pretty (N.pos p))).
    destruct (pretty_N_digits (N.pos p)) as (a & r & Heq & _).
    unfold ParseInt. change (code "-" =? 45)%N with true. cbn iota.
    rewrite Heq, <- Heq, digits_go_pretty_N. cbn [option_bind mbind fmap option_fmap option_map].
    change (- Z.of_N (N.pos p))%Z with (Z.neg p). cbn -[in_int64]. by rewrite Hz.
Qed.

Lemma ParseInt_range s z : ParseInt s = Some z -> in_int64 z = true.
Proof.
  unfold ParseInt. destruct s as [|a r]; [done|]. intros Hs.
  repeat match type of Hs with
  | (if ?b then _ else _) = _ => destruct b eqn:?
  | match ?o with _ => _ end = _ => destruct o eqn:?
  end; try discriminate Hs; by injection Hs as <-.
Qed.

#[export] Instance ParseInt_canonical_dec (v : string) :
  Decision (exists m, ParseInt v = Some m /\ v = Itoa m).
Proof.
  destruct (ParseInt v) as [m|]; [|right; by intros (? & ? & ?)].
  destruct (decide (v = Itoa m)) as [Hv|Hv]; [left; by exists m|].
  right. intros (m' & [= ->] & Hm). done.
Defined.

Lemma Itoa_ascii z : isASCII (Itoa z) = true.
Proof.
  assert (forall n : N, isASCII (pretty n) = true) as Hn.
  { intros n. destruct (pretty_N_digits n) as (a & r & -> & Hda & Hr).
    apply isASCII_cons. split; [|done]. apply andb_prop in Hda as [_ H57].
    unfold is_ascii_byte. apply N.leb_le in H57. apply N.ltb_lt. lia. }
  unfold Itoa. destruct z as [|p|p]; [done|apply (Hn (N.pos p))|].
  change (pretty (Z.neg p)) with (String "-" (pretty (N.pos p))).
  apply isASCII_cons. split; [done|apply Hn].
Qed.



#[global] Arguments Itoa : simpl never.
#[global] Arguments ParseInt : simpl never.
#[global] Arguments json_Marshal : simpl never.
#[global] Arguments json_Unmarshal : simpl never.
#[global] Arguments TrimSpace : simpl never.
#[global] Arguments ToLower {_} : simpl never.
#[global] Arguments valid_utf8 : simpl never.
