(* ===== verification/AppError.v ===== *)
(** The typed error envelope (src/internal/apperror/error.go) and the Go error
    values the program builds: sentinels, [fmt.Errorf] wrappers, driver errors;
    with [errors.Is] and [errors.As]. *)

From Stdlib Require Import Ascii String ZArith.
From stdpp Require Import base gmap strings list pretty.
From S2P Require Import Prelude.

Open Scope string_scope.

Inductive ErrorType :=
| ErrTypeInternal
| ErrTypeNotFound
| ErrTypeUnauthorized
| ErrTypeForbidden
| ErrTypeConflict
| ErrTypeBadRequest.

#[export] Instance ErrorType_eq_dec : EqDecision ErrorType.
Proof. solve_decision. Defined.

(** The package-level error variables: of the domain, of pkg/jwt, of the mailer,
    of database/sql ([ErrNoRows]) and of go-redis ([RedisNil]). *)
Inductive sentinel :=
| ErrEmptyUsername
| ErrEmptyEmail
| ErrInvalidEmail
| ErrEmptyPassword
| ErrInvalidToken
| ErrWrongTokenKind
| ErrNoRows
| RedisNil.

#[export] Instance sentinel_eq_dec : EqDecision sentinel.
Proof. solve_decision. Defined.

Definition sentinel_text (s : sentinel) : string :=
  match s with
  | ErrEmptyUsername => "username cannot be empty"
  | ErrEmptyEmail => "email cannot be empty"
  | ErrInvalidEmail => "email format is invalid"
  | ErrEmptyPassword => "password cannot be empty"
  | ErrInvalidToken => "token is not valid"
  | ErrWrongTokenKind => "token kind mismatch"
  | ErrNoRows => "sql: no rows in result set"
  | RedisNil => "redis: nil"
  end.

(** A Go error value.  [EDomain] is a [*DomainError]. *)
Inductive error :=
| ESent (s : sentinel)
| EPq (code text : string)            (** a [*pq.Error] with its SQLSTATE *)
| EText (text : string)               (** [errors.New], [fmt.Errorf] without a verb for an error *)
| EWrapped (prefix : string) (inner : error)   (** [fmt.Errorf("prefix: %w", inner)] *)
| ESuffixed (inner : error) (suffix : string)  (** [fmt.Errorf("%w: %v", inner, _)] *)
| EDomain (t : ErrorType) (msg : string) (cause : option error).

(** [err.Error()] *)
Fixpoint Error (e : error) : string :=
  match e with
  | ESent s => sentinel_text s
  | EPq _ text => text
  | EText text => text
  | EWrapped prefix inner => prefix +:+ ": " +:+ Error inner
  | ESuffixed inner suffix => Error inner +:+ ": " +:+ suffix
  | EDomain _ msg _ => msg
  end.

(** [errors.Unwrap(err)]; for a DomainError its [Unwrap] method. *)
Definition Unwrap (e : error) : option error :=
  match e with
  | EWrapped _ inner | ESuffixed inner _ => Some inner
  | EDomain _ _ cause => cause
  | _ => None
  end.

(** [errors.Is(err, sentinel)]: some error of the chain is that variable. *)
Fixpoint errors_Is (e : error) (s : sentinel) : bool :=
  match e with
  | ESent s' => bool_decide (s' = s)
  | EWrapped _ inner | ESuffixed inner _ => errors_Is inner s
  | EDomain _ _ (Some c) => errors_Is c s
  | _ => false
  end.

(** [errors.As(err, &domErr)]: the first DomainError of the chain. *)
Fixpoint errors_As_domain (e : error) : option (ErrorType * string * option error) :=
  match e with
  | EDomain t msg cause => Some (t, msg, cause)
  | EWrapped _ inner | ESuffixed inner _ => errors_As_domain inner
  | _ => None
  end.

(** [errors.As(err, &pqErr)], its [Code]. *)
Fixpoint errors_As_pq (e : error) : option string :=
  match e with
  | EPq code _ => Some code
  | EWrapped _ inner | ESuffixed inner _ => errors_As_pq inner
  | EDomain _ _ (Some c) => errors_As_pq c
  | _ => None
  end.

(** The type assertion [err.( *apperror.DomainError)]: no unwrapping. *)
Definition is_DomainError (e : error) : bool :=
  match e with EDomain _ _ _ => true | _ => false end.

(** The category of the error's first DomainError. *)
Definition error_type (e : error) : option ErrorType :=
  (fun x => x.1.1) <$> errors_As_domain e.

(** * Constructors *)

Definition New (t : ErrorType) (msg : string) : error := EDomain t msg None.

(** [Wrap(err, cause)]; a nil error gives nil.  Called on DomainErrors only (the
    parameter's type); the last case does not arise. *)
Definition Wrap (err : option error) (cause : option error) : option error :=
  match err with
  | Some (EDomain t msg _) => Some (EDomain t msg cause)
  | _ => None
  end.

Definition NotFound (msg : string) : error := New ErrTypeNotFound msg.
Definition Unauthorized (msg : string) : error := New ErrTypeUnauthorized msg.
Definition Forbidden (msg : string) : error := New ErrTypeForbidden msg.
Definition Conflict (msg : string) : error := New ErrTypeConflict msg.
Definition BadRequest (msg : string) : error := New ErrTypeBadRequest msg.
Definition Internal (msg : string) : error := New ErrTypeInternal msg.

Definition InternalCause (cause : error) : error :=
  EDomain ErrTypeInternal "internal server error" (Some cause).

(** * Lemmas *)

Lemma errors_As_domain_some e : is_DomainError e = true -> is_Some (error_type e).
Proof. by destruct e. Qed.

(** [errors.Is] and [errors.As] follow [Unwrap]. *)
Lemma errors_Is_Unwrap e inner s :
  Unwrap e = Some inner -> errors_Is inner s = true -> errors_Is e s = true.
Proof. destruct e; naive_solver. Qed.

(** Attaching a cause keeps type and message, and lets [errors.Is] reach it. *)
Lemma Wrap_spec t msg old c :
  exists e, Wrap (Some (EDomain t msg old)) (Some c) = Some e
    /\ error_type e = Some t /\ Error e = msg
    /\ forall s, errors_Is e s = errors_Is c s.
Proof. by eexists. Qed.
