(* ===== verification/Records.v ===== *)
(** Times, the domain entity and the database record of a user, and the mappers
    between the two (src/internal/business/domain/domain.users.go lines 25-58,
    src/internal/datasources/records). *)

From Stdlib Require Import Ascii String ZArith.
From stdpp Require Import base gmap strings list pretty.
From S2P Require Import Prelude GoStrings.

Open Scope string_scope.
#[local] Open Scope Z_scope.

(** * Times

    A [time.Time] is its instant in nanoseconds since the Unix epoch; a
    [time.Duration] is an int64 number of nanoseconds. *)
Definition Time : Type := Z.
Definition Duration : Type := Z.

Definition Second : Duration := 1000000000.
Definition Minute : Duration := 60 * Second.
Definition Hour : Duration := 60 * Minute.

(** January 1, year 1, 00:00 UTC: the zero [time.Time]. *)
Definition zero_time : Time := -62135596800 * Second.

Definition time_IsZero (t : Time) : bool := t =? zero_time.
Definition time_Before (t u : Time) : bool := t <? u.
(** Whole seconds since the epoch, rounded down. *)
Definition time_Unix (t : Time) : Z := t / Second.
Definition time_Add (t : Time) (d : Duration) : Time := t + d.
(** [t.Sub(u)] saturates at the bounds of a Duration. *)
Definition time_Sub (t u : Time) : Duration :=
  Z.max int64_min (Z.min int64_max (t - u)).

(** int64 arithmetic wraps around. *)
Definition wrap64 (z : Z) : Z := (z + 2 ^ 63) mod 2 ^ 64 - 2 ^ 63.
Definition mul64 (a b : Z) : Z := wrap64 (a * b).

Lemma wrap64_id z : in_int64 z = true -> wrap64 z = z.
Proof.
  unfold in_int64, int64_min, int64_max, wrap64. intros H.
  apply andb_prop in H as [H1%Z.leb_le H2%Z.leb_le].
  rewrite Z.mod_small by lia. lia.
Qed.

Lemma wrap64_range z : in_int64 (wrap64 z) = true.
Proof.
  unfold in_int64, int64_min, int64_max, wrap64.
  pose proof (Z.mod_pos_bound (z + 2 ^ 63) (2 ^ 64) ltac:(lia)).
  apply andb_true_intro. split; apply Z.leb_le; lia.
Qed.

(** * The two record types *)

Definition RoleAdmin : Z := 1.
Definition RoleUser : Z := 2.

Module User.
Record t := mk {
  ID : string;
  Username : string;
  Email : string;
  Password : string;
  Active : bool;
  RoleID : Z;
  CreatedAt : Time;
  UpdatedAt : option Time;
  DeletedAt : option Time;
  PasswordChangedAt : option Time;
}.
End User.

(** The zero value [domain.User{}]. *)
Definition zero_User : User.t :=
  User.mk "" "" "" "" false 0 zero_time None None None.

Module Users.
Record t := mk {
  Id : string;
  Username : string;
  Email : string;
  Password : string;
  Active : bool;
  RoleId : Z;
  CreatedAt : Time;
  UpdatedAt : option Time;
  DeletedAt : option Time;
  PasswordChangedAt : option Time;
}.
End Users.

Definition ToV1Domain (u : Users.t) : User.t :=
  User.mk (Users.Id u) (Users.Username u) (Users.Email u) (Users.Password u)
    (Users.Active u) (Users.RoleId u) (Users.CreatedAt u) (Users.UpdatedAt u)
    (Users.DeletedAt u) (Users.PasswordChangedAt u).

Definition FromUsersV1Domain (u : User.t) : Users.t :=
  Users.mk (User.ID u) (User.Username u) (User.Email u) (User.Password u)
    (User.Active u) (User.RoleID u) (User.CreatedAt u) (User.UpdatedAt u)
    (User.DeletedAt u) (User.PasswordChangedAt u).

(** The [for] loop with [append]. *)
Definition ToArrayOfUsersV1Domain (us : list Users.t) : list User.t :=
  fold_left (fun result val => result ++ [ToV1Domain val])%list us [].

(** A pointer receiver's effect on the struct: the value after the call. *)
Definition with_Active (u : User.t) (now : Time) : User.t :=
  User.mk (User.ID u) (User.Username u) (User.Email u) (User.Password u)
    true (User.RoleID u) (User.CreatedAt u) (Some now) (User.DeletedAt u)
    (User.PasswordChangedAt u).

Definition with_Password (u : User.t) (hash : string) (now : Time) : User.t :=
  User.mk (User.ID u) (User.Username u) (User.Email u) hash
    (User.Active u) (User.RoleID u) (User.CreatedAt u) (Some now)
    (User.DeletedAt u) (Some now).

Lemma ToArray_map us : ToArrayOfUsersV1Domain us = map ToV1Domain us.
Proof.
  assert (forall acc, fold_left (fun result val => result ++ [ToV1Domain val])%list us acc
    = (acc ++ map ToV1Domain us)%list) as H; [|apply (H [])].
  induction us as [|u us IH]; intros acc; simpl.
  - by rewrite (right_id_L [] (++)).
  - by rewrite IH, <- (assoc_L (++)).
Qed.

Lemma domain_record_domain u : ToV1Domain (FromUsersV1Domain u) = u.
Proof. by destruct u. Qed.

Lemma record_domain_record r : FromUsersV1Domain (ToV1Domain r) = r.
Proof. by destruct r. Qed.
