(* ===== verification/Services.v ===== *)
(** The code that is not the repository's own, as parameters: one class of
    operations per service (the Redis server behind go-redis, PostgreSQL behind
    sqlx, the ristretto cache, the random sources, the wall clock, golang-jwt),
    each over a state type of its own, and one class of laws per service.  The
    laws speak of a service through a view of its state (a finite map of what it
    stores) and state its documented behaviour, faults included. *)

From Stdlib Require Import Ascii String ZArith Sorted.
From stdpp Require Import base gmap strings list pretty.
From S2P Require Import Prelude GoStrings AppError Records.

Open Scope string_scope.

(** * Redis (go-redis client and server)

    An entry is the stored byte string and its time to live, [None] for a key
    that does not expire.  A SET with no positive duration stores
    without expiry. *)
Record rentry := REntry { re_val : string; re_ttl : option Duration }.

Class RedisSrv := {
  redis : Type;
  redis_get : string -> io redis (result error string);
  redis_set : string -> string -> Duration -> io redis (result error unit);
  redis_del : string -> io redis (result error unit);
  redis_incr : string -> io redis (result error Z);
  redis_expire : string -> Duration -> io redis (result error unit);
  redis_view : redis -> gmap string rentry;
}.

Definition entry_set (s : string) (d : Duration) : rentry :=
  REntry s (if (d <=? 0)%Z then None else Some d).

(** EXPIRE takes whole seconds: the client rounds down, and up to one second
    below that. *)
Definition expire_ttl (d : Duration) : Duration :=
  if ((0 <? d) && (d <? Second))%Z then Second else (Z.quot d Second * Second)%Z.
Definition entry_expire (d : Duration) (e : rentry) : rentry :=
  REntry (re_val e) (Some (expire_ttl d)).

(** INCR on the stored value: the integer it holds, plus one.  A value that is not
    the decimal text of an int64, or the largest one, is refused. *)
Definition entry_incr (e : option rentry) (n : Z) : rentry :=
  REntry (Itoa n) (e ≫= re_ttl).
Definition incremented (e : option rentry) (n : Z) : Prop :=
  in_int64 n = true /\
  match e with
  | None => n = 1%Z
  | Some e => exists m, ParseInt (re_val e) = Some m /\ n = (m + 1)%Z
  end.

(** Before a command runs some keys may have expired: [v0 ⊆ view].  A command
    that answers has its effect on [v0]; one that reports an error (a timeout,
    a lost connection) may or may not have been executed. *)
Class RedisLaws `{RedisSrv} : Prop := {
  redis_get_law : forall k r, exists v0, v0 ⊆ redis_view r /\
    redis_view (redis_get k r).2 = v0 /\
    match (redis_get k r).1 with
    | Ok s => exists e, v0 !! k = Some e /\ re_val e = s
    | Err e => errors_Is e RedisNil = true -> v0 !! k = None
    end;
  redis_set_law : forall k s d r, exists v0, v0 ⊆ redis_view r /\
    match (redis_set k s d r).1 with
    | Ok _ => redis_view (redis_set k s d r).2 = <[k := entry_set s d]> v0
    | Err _ => redis_view (redis_set k s d r).2 = v0 \/
               redis_view (redis_set k s d r).2 = <[k := entry_set s d]> v0
    end;
  redis_del_law : forall k r, exists v0, v0 ⊆ redis_view r /\
    match (redis_del k r).1 with
    | Ok _ => redis_view (redis_del k r).2 = delete k v0
    | Err _ => redis_view (redis_del k r).2 = v0 \/
               redis_view (redis_del k r).2 = delete k v0
    end;
  redis_incr_law : forall k r, exists v0, v0 ⊆ redis_view r /\
    match (redis_incr k r).1 with
    | Ok n => incremented (v0 !! k) n /\
        redis_view (redis_incr k r).2 = <[k := entry_incr (v0 !! k) n]> v0
    | Err _ => redis_view (redis_incr k r).2 = v0 \/
        exists n, incremented (v0 !! k) n /\
          redis_view (redis_incr k r).2 = <[k := entry_incr (v0 !! k) n]> v0
    end;
  redis_expire_law : forall k d r, exists v0, v0 ⊆ redis_view r /\
    match (redis_expire k d r).1 with
    | Ok _ => redis_view (redis_expire k d r).2 = alter (entry_expire d) k v0 \/
              ((d <= 0)%Z /\ redis_view (redis_expire k d r).2 = delete k v0)
    | Err _ => redis_view (redis_expire k d r).2 = v0 \/
               redis_view (redis_expire k d r).2 = alter (entry_expire d) k v0 \/
               ((d <= 0)%Z /\ redis_view (redis_expire k d r).2 = delete k v0)
    end;
}.

(** A period in which the server answers every command and no key runs out:
    what "within the lockout window" means for the counters. *)
Class RedisHealthy `{RedisSrv} := {
  redis_healthy : redis -> Prop;
  healthy_get : forall k r, redis_healthy r ->
    redis_healthy (redis_get k r).2 /\ redis_view (redis_get k r).2 = redis_view r /\
    (redis_get k r).1 = match redis_view r !! k with
                        | Some e => Ok (re_val e) | None => Err (ESent RedisNil) end;
  healthy_set : forall k s d r, redis_healthy r ->
    redis_healthy (redis_set k s d r).2 /\ (redis_set k s d r).1 = Ok tt /\
    redis_view (redis_set k s d r).2 = <[k := entry_set s d]> (redis_view r);
  healthy_del : forall k r, redis_healthy r ->
    redis_healthy (redis_del k r).2 /\ (redis_del k r).1 = Ok tt /\
    redis_view (redis_del k r).2 = delete k (redis_view r);
  healthy_incr : forall k r, redis_healthy r ->
    redis_healthy (redis_incr k r).2 /\
    match redis_view r !! k with
    | None => (redis_incr k r).1 = Ok 1%Z /\
        redis_view (redis_incr k r).2 = <[k := REntry (Itoa 1) None]> (redis_view r)
    | Some e => forall m, re_val e = Itoa m -> in_int64 m = true ->
        if in_int64 (m + 1) then
          (redis_incr k r).1 = Ok (m + 1)%Z /\
          redis_view (redis_incr k r).2
            = <[k := REntry (Itoa (m + 1)) (re_ttl e)]> (redis_view r)
        else is_Ok (redis_incr k r).1 = false /\
          redis_view (redis_incr k r).2 = redis_view r
    end;
  healthy_incr_other : forall k r e, redis_healthy r -> redis_view r !! k = Some e ->
    (forall m, in_int64 m = true -> re_val e <> Itoa m) ->
    is_Ok (redis_incr k r).1 = false /\ redis_view (redis_incr k r).2 = redis_view r;
  healthy_expire : forall k d r, redis_healthy r -> (0 < d)%Z ->
    redis_healthy (redis_expire k d r).2 /\ (redis_expire k d r).1 = Ok tt /\
    redis_view (redis_expire k d r).2
      = alter (entry_expire d) k (redis_view r);
}.

(** * PostgreSQL: the [users] table

    The conditions and assignments of the SQL text in the repository's
    statements, evaluated on a row.  [PIdEq] compares with the value of a uuid
    parameter. *)
Inductive sql_pred :=
| PIdEq (id : string)
| PEmailEq (email : string)
| PRoleEq (role : Z)
| PActive
| PNotDeleted.

Inductive sql_assign :=
| SetActive (b : bool)
| SetPassword (s : string)
| SetPasswordChangedAt (t : option Time)
| SetUpdatedAt (t : option Time)
| SetUpdatedNow
| SetDeletedNow.

Class SqlSrv := {
  db : Type;
  (** [GetContext] with [SELECT * FROM users WHERE ...] *)
  sql_get : list sql_pred -> io db (result error Users.t);
  (** [SelectContext] with [... ORDER BY created_at DESC LIMIT OFFSET] *)
  sql_select : list sql_pred -> Z -> Z -> io db (result error (list Users.t));
  (** [NamedQueryContext] with [INSERT INTO users ... RETURNING]: the rows, of
      which [Next] shows the first, if any, and [StructScan] reads it *)
  sql_insert : Users.t -> io db (result error (option (result error Users.t)));
  (** [NamedExecContext], [ExecContext] with [UPDATE users SET ... WHERE ...]:
      the result, of which [RowsAffected] gives the count *)
  sql_update : list sql_assign -> list sql_pred -> io db (result error (result error Z));
  sql_rows : db -> gmap string Users.t;
  sql_uuid : string -> option string;   (** the input function of type uuid *)
  sql_lower : string -> string;         (** LOWER(text) *)
  pg_time : Time -> Time;               (** a timestamptz keeps microseconds *)
}.

Section sql_meaning.
Context `{SqlSrv}.

Definition eval_pred (p : sql_pred) (r : Users.t) : bool :=
  match p with
  | PIdEq id => bool_decide (sql_uuid id = Some (Users.Id r))
  | PEmailEq e => bool_decide (Users.Email r = e)
  | PRoleEq z => (Users.RoleId r =? z)%Z
  | PActive => Users.Active r
  | PNotDeleted => match Users.DeletedAt r with None => true | Some _ => false end
  end.

Definition eval_where (ps : list sql_pred) (r : Users.t) : bool :=
  forallb (fun p => eval_pred p r) ps.

Definition live (r : Users.t) : bool := eval_pred PNotDeleted r.

Definition apply_assign (now : Time) (a : sql_assign) (r : Users.t) : Users.t :=
  let '(Users.mk id un em pw ac ro cr up de pc) := r in
  match a with
  | SetActive b => Users.mk id un em pw b ro cr up de pc
  | SetPassword s => Users.mk id un em s ac ro cr up de pc
  | SetPasswordChangedAt t => Users.mk id un em pw ac ro cr up de (pg_time <$> t)
  | SetUpdatedAt t => Users.mk id un em pw ac ro cr (pg_time <$> t) de pc
  | SetUpdatedNow => Users.mk id un em pw ac ro cr (Some now) de pc
  | SetDeletedNow => Users.mk id un em pw ac ro cr up (Some now) pc
  end.

Definition apply_update (now : Time) (set : list sql_assign) (where_ : list sql_pred)
    (r : Users.t) : Users.t :=
  if eval_where where_ r then fold_left (fun r a => apply_assign now a r) set r else r.

(** The row an INSERT of the repository stores: the id and the columns the
    statement does not name come from the database. *)
Definition inserted_row (id : string) (u : Users.t) : Users.t :=
  Users.mk id (Users.Username u) (Users.Email u) (Users.Password u) false
    (Users.RoleId u) (pg_time (Users.CreatedAt u)) None None None.

(** The primary key and the two partial unique indexes (migrations 1, 3, 4). *)
Definition clash (v : gmap string Users.t) (u : Users.t) : Prop :=
  exists id r, v !! id = Some r /\ live r = true /\
    (Users.Email r = Users.Email u \/
     sql_lower (Users.Username r) = sql_lower (Users.Username u)).

Record table_ok (v : gmap string Users.t) : Prop := {
  tbl_key : forall id r, v !! id = Some r -> Users.Id r = id /\ sql_uuid id = Some id;
  tbl_email : forall id1 id2 r1 r2, v !! id1 = Some r1 -> v !! id2 = Some r2 ->
    live r1 = true -> live r2 = true -> Users.Email r1 = Users.Email r2 -> id1 = id2;
}.
End sql_meaning.

Definition created_desc (r1 r2 : Users.t) : Prop :=
  (Users.CreatedAt r2 <= Users.CreatedAt r1)%Z.

(** A statement that reports an error has not been applied (autocommit; the
    ambiguous commit of a connection lost after the server committed is left
    out).  The errors are the driver's own, never an [apperror.DomainError];
    lib/pq always knows the number of affected rows. *)
Class SqlLaws `{SqlSrv} : Prop := {
  sql_get_law : forall ps d, sql_rows (sql_get ps d).2 = sql_rows d /\
    match (sql_get ps d).1 with
    | Ok r => exists id, sql_rows d !! id = Some r /\ eval_where ps r = true
    | Err e => error_type e = None /\
               (errors_Is e ErrNoRows = true -> forall id r, sql_rows d !! id = Some r -> eval_where ps r = false)
    end;
  sql_select_law : forall ps lim off d, sql_rows (sql_select ps lim off d).2 = sql_rows d /\
    match (sql_select ps lim off d).1 with
    | Ok rs => exists all, rs = take (Z.to_nat lim) (drop (Z.to_nat off) all) /\
        StronglySorted created_desc all /\
        all ≡ₚ filter (fun r => eval_where ps r = true) (map_to_list (sql_rows d)).*2
    | Err e => error_type e = None
    end;
  sql_insert_law : forall u d,
    match (sql_insert u d).1 with
    | Ok out => exists id, sql_rows d !! id = None /\ sql_uuid id = Some id /\
        ~ clash (sql_rows d) u /\
        sql_rows (sql_insert u d).2 = <[id := inserted_row id u]> (sql_rows d) /\
        match out with
        | Some (Ok r) => r = inserted_row id u
        | Some (Err e) => error_type e = None
        | None => True
        end
    | Err e => error_type e = None /\ sql_rows (sql_insert u d).2 = sql_rows d /\
        (errors_As_pq e = Some "23505" -> clash (sql_rows d) u)
    end;
  sql_update_law : forall set ps d,
    match (sql_update set ps d).1 with
    | Ok res => exists now,
        sql_rows (sql_update set ps d).2 = apply_update now set ps <$> sql_rows d /\
        res = Ok (Z.of_nat (size (filter (fun kr => eval_where ps kr.2 = true) (sql_rows d))))
    | Err e => error_type e = None /\ sql_rows (sql_update set ps d).2 = sql_rows d
    end;
}.

(** * ristretto

    An in-process cache that may drop entries at any time.  [VOther] stands for
    a value that is no [domain.User]. *)
Inductive iface := VUser (u : User.t) | VOther (n : N).

Class RistrettoSrv := {
  ristretto : Type;
  rist_get : string -> io ristretto (option iface);
  rist_set : string -> iface -> Duration -> io ristretto unit;
  rist_del : string -> io ristretto unit;
  rist_view : ristretto -> gmap string iface;
}.

Class RistrettoLaws `{RistrettoSrv} : Prop := {
  rist_get_law : forall k c, rist_view (rist_get k c).2 ⊆ rist_view c /\
    (forall x, (rist_get k c).1 = Some x -> rist_view c !! k = Some x);
  rist_set_law : forall k x d c, rist_view (rist_set k x d c).2 ⊆ <[k := x]> (rist_view c);
  rist_del_law : forall k c, rist_view (rist_del k c).2 ⊆ delete k (rist_view c);
}.

(** * Randomness: crypto/rand, google/uuid, x/crypto/bcrypt

    A byte is an [N] below 256.  [rng_used] is the set of identifiers already
    handed out by [uuid.NewString]. *)
Class RngSrv := {
  rng : Type;
  rand_read : nat -> io rng (result error (list N));
  uuid_NewString : io rng string;
  bcrypt_GenerateFromPassword : string -> Z -> io rng (result error string);
  bcrypt_CompareHashAndPassword : string -> string -> option error;
  bcrypt_MinCost : Z;
  bcrypt_MaxCost : Z;
  bcrypt_DefaultCost : Z;
  rng_used : rng -> gset string;
}.

Class RngLaws `{RngSrv} : Prop := {
  rand_read_law : forall n g, rng_used (rand_read n g).2 = rng_used g /\
    forall bs, (rand_read n g).1 = Ok bs ->
      length bs = n /\ Forall (fun b => (b < 256)%N) bs;
  uuid_law : forall g, (uuid_NewString g).1 ∉ rng_used g /\
    isASCII (uuid_NewString g).1 = true /\
    rng_used (uuid_NewString g).2 = {[ (uuid_NewString g).1 ]} ∪ rng_used g;
  bcrypt_law : forall p c g,
    rng_used (bcrypt_GenerateFromPassword p c g).2 = rng_used g /\
    forall h, (bcrypt_GenerateFromPassword p c g).1 = Ok h ->
      (c <= bcrypt_MaxCost)%Z /\
      (String.length p <= 72)%nat /\ bcrypt_CompareHashAndPassword h p = None;
  bcrypt_cost_law : (bcrypt_MinCost <= bcrypt_DefaultCost <= bcrypt_MaxCost)%Z;
}.

(** * The wall clock: [time.Now] *)
Class ClockSrv := {
  clk : Type;
  time_Now : io clk Time;
}.

(** * The platform: all of them, and the Unicode tables *)
Class Platform := {
  pf_text :: GoText;
  pf_redis :: RedisSrv;
  pf_sql :: SqlSrv;
  pf_rist :: RistrettoSrv;
  pf_rng :: RngSrv;
  pf_clk :: ClockSrv;
}.

Class PlatformLaws `{Platform} : Prop := {
  pl_text :: GoTextLaws;
  pl_redis :: RedisLaws;
  pl_sql :: SqlLaws;
  pl_rist :: RistrettoLaws;
  pl_rng :: RngLaws;
}.
