(* ===== verification/World.v ===== *)
(** The program's state.  [Base] is what every component may use (the random
    sources, the clock, the metrics registry), [UState] adds what the users use
    case owns (database, in-process cache, open result sets), [World] adds what
    the auth use case owns (Redis, the mailer).  A component's operation runs on
    its part of the state through a lens and cannot touch the rest. *)

From Stdlib Require Import Ascii String ZArith.
From stdpp Require Import base gmap strings list pretty.
From S2P Require Import Prelude GoStrings AppError Records Services.

Open Scope string_scope.

(** [ObserveCacheOp(backend, operation, result)] and [ObserveMailerOp(result)]
    (src/pkg/observability/metrics.go): the increments, latest first. *)
Inductive metric :=
| CacheOp (backend operation res : string)
| MailerOp (res : string).

Section world.
Context `{Platform}.

Record Base := MkBase { b_rng : rng; b_clk : clk; b_obs : list metric }.

Definition l_rng : lens Base rng := Lens b_rng (fun g b => MkBase g (b_clk b) (b_obs b)).
Definition l_clk : lens Base clk := Lens b_clk (fun c b => MkBase (b_rng b) c (b_obs b)).

Definition observe (m : metric) : io Base unit :=
  modify (fun b => MkBase (b_rng b) (b_clk b) (m :: b_obs b)).
Definition ObserveCacheOp (backend operation res : string) : io Base unit :=
  observe (CacheOp backend operation res).
Definition ObserveMailerOp (res : string) : io Base unit := observe (MailerOp res).

(** [time.Now()], [uuid.NewString()] and the rest, on [Base]. *)
Definition Now : io Base Time := zoom l_clk time_Now.
Definition uuid : io Base string := zoom l_rng uuid_NewString.
Definition rand_Read (n : nat) : io Base (result error (list N)) := zoom l_rng (rand_read n).
Definition GenerateFromPassword (p : string) (cost : Z) : io Base (result error string) :=
  zoom l_rng (bcrypt_GenerateFromPassword p cost).

(** Identifiers handed out so far. *)
Definition used (b : Base) : gset string := rng_used (b_rng b).

(** The [*sqlx.DB] of the repository: the database, and how many result sets
    ([*sql.Rows]) were handed out and not closed. *)
Record DBState := MkD { d_db : db; d_open : Z }.

Definition l_db : lens DBState db := Lens d_db (fun x d => MkD x (d_open d)).
Definition open_rows (z : Z) : io DBState unit :=
  modify (fun d => MkD (d_db d) (d_open d + z)).

(** The users table. *)
Definition dtable (d : DBState) : gmap string Users.t := sql_rows (d_db d).

Record UState := MkU { u_base : Base; u_d : DBState; u_cache : ristretto }.

Definition l_base : lens UState Base :=
  Lens u_base (fun b u => MkU b (u_d u) (u_cache u)).
Definition l_d : lens UState DBState :=
  Lens u_d (fun d u => MkU (u_base u) d (u_cache u)).
Definition l_cache : lens UState ristretto :=
  Lens u_cache (fun c u => MkU (u_base u) (u_d u) c).

Definition table (u : UState) : gmap string Users.t := dtable (u_d u).
End world.

(** The mailer the auth use case is given (src/pkg/mailer/mailer.otp.go,
    interface [OTPMailer]), over a state of its own. *)
Class OTPMailer := {
  mail : Type;
  mailer_SendOTP : string -> string -> io mail (result error unit);
  mailer_SendPasswordReset : string -> string -> io mail (result error unit);
}.

Section world2.
Context `{Platform} `{OTPMailer}.

Record World := MkW { w_u : UState; w_redis : redis; w_mail : mail }.

Definition l_u : lens World UState := Lens w_u (fun u w => MkW u (w_redis w) (w_mail w)).
Definition l_redis : lens World redis := Lens w_redis (fun r w => MkW (w_u w) r (w_mail w)).
Definition l_mail : lens World mail := Lens w_mail (fun m w => MkW (w_u w) (w_redis w) m).
Definition l_wbase : lens World Base := lens_comp l_u l_base.

Definition keys (w : World) : gmap string rentry := redis_view (w_redis w).
Definition rows (w : World) : gmap string Users.t := table (w_u w).
Definition issued (w : World) : gset string := used (u_base (w_u w)).
End world2.
