(* ===== verification/Domain.v ===== *)
(** The user entity (src/internal/business/domain/domain.users.go) and the
    password helpers (src/pkg/helpers/helper.bcrypt.go). *)

From Stdlib Require Import Ascii String ZArith.
From stdpp Require Import base gmap strings list pretty.
From S2P Require Import Prelude GoStrings AppError Records Services World.

Open Scope string_scope.

Section domain.
Context `{Platform}.

Definition NormalizeEmail (s : string) : string := ToLower (TrimSpace s).

(** The range check both constructors make on the configured cost. *)
Definition clamp_cost (cost : Z) : Z :=
  if ((cost <? bcrypt_MinCost) || (bcrypt_MaxCost <? cost))%Z
  then bcrypt_DefaultCost else cost.

Definition NewUser (username email plainPassword : string) (roleID bcryptCost : Z)
    : io Base (result error User.t) :=
  let username := TrimSpace username in
  if (username =? "")%string then ret (Err (ESent ErrEmptyUsername)) else
  if (plainPassword =? "")%string then ret (Err (ESent ErrEmptyPassword)) else
  let email := NormalizeEmail email in
  if (email =? "")%string then ret (Err (ESent ErrEmptyEmail)) else
  if negb (mail_ParseAddress email) then ret (Err (ESent ErrInvalidEmail)) else
  try hash <- GenerateFromPassword plainPassword (clamp_cost bcryptCost)
  catch err => ret (Err err) ;;
  now <- Now ;;
  ret (Ok (User.mk "" username email hash false roleID now None None None)).

Definition Activate (u : User.t) : io Base User.t :=
  now <- Now ;; ret (with_Active u now).

Definition VerifyPassword (u : User.t) (plain : string) : bool :=
  match bcrypt_CompareHashAndPassword (User.Password u) plain with
  | None => true
  | Some _ => false
  end.

Definition IsAdmin (u : User.t) : bool := (User.RoleID u =? RoleAdmin)%Z.

Definition ChangePassword (u : User.t) (plain : string) (bcryptCost : Z)
    : io Base (result error User.t) :=
  if (plain =? "")%string then ret (Err (ESent ErrEmptyPassword)) else
  try hash <- GenerateFromPassword plain (clamp_cost bcryptCost)
  catch err => ret (Err err) ;;
  now <- Now ;;
  ret (Ok (with_Password u hash now)).

Definition TokensRevokedBefore (u : User.t) : Time :=
  match User.PasswordChangedAt u with None => zero_time | Some t => t end.

(** pkg/helpers: [GenerateHash] and [ValidateHash]; [c] is
    [config.AppConfig.BcryptCost]. *)
Definition bcryptCost (c : Z) : Z :=
  if ((c <? bcrypt_MinCost) || (bcrypt_MaxCost <? c))%Z then bcrypt_DefaultCost else c.

Definition GenerateHash (c : Z) (passwd : string) : io Base (result error string) :=
  if (passwd =? "")%string then ret (Err (EText "password cannot empty"))
  else GenerateFromPassword passwd (bcryptCost c).

Definition ValidateHash (secret hash : string) : bool :=
  match bcrypt_CompareHashAndPassword hash secret with None => true | Some _ => false end.
End domain.

(** * Lemmas *)
Section domain_lemmas.
Context `{PlatformLaws}.
#[local] Existing Instances pl_text pl_redis pl_sql pl_rist pl_rng.

Lemma clamp_cost_range c :
  (bcrypt_MinCost <= clamp_cost c <= bcrypt_MaxCost)%Z.
Proof.
  pose proof bcrypt_cost_law. unfold clamp_cost.
  destruct (c <? bcrypt_MinCost)%Z eqn:E1, (bcrypt_MaxCost <? c)%Z eqn:E2; simpl; lia.
Qed.

Lemma wp_Now (Q : Time -> Base -> Prop) b :
  (forall t c, Q t (MkBase (b_rng b) c (b_obs b))) -> wp Now Q b.
Proof. intros HQ. unfold Now. wp_step. apply wp_intro. simpl. auto. Qed.

Lemma wp_Generate (p : string) cost (Q : result error string -> Base -> Prop) b :
  (forall res g, rng_used g = used b ->
     (forall h, res = Ok h -> (String.length p <= 72)%nat /\
        bcrypt_CompareHashAndPassword h p = None) ->
     Q res (MkBase g (b_clk b) (b_obs b))) ->
  wp (GenerateFromPassword p cost) Q b.
Proof.
  intros HQ. unfold GenerateFromPassword. wp_step. apply wp_intro. intros res g Heq.
  pose proof (bcrypt_law p cost (b_rng b)) as [Hu Hh]. simpl in *. rewrite Heq in *.
  apply HQ; [done|]. intros h ->. destruct (Hh h eq_refl) as (_ & ? & ?). done.
Qed.

Lemma NormalizeEmail_idem e : NormalizeEmail (NormalizeEmail e) = NormalizeEmail e.
Proof.
  unfold NormalizeEmail. rewrite (ToLower_trimmed (TrimSpace e)) by apply TrimSpace_idem.
  apply ToLower_idem.
Qed.

(** [NewUser]: the error tells which check refused, nothing but the random
    source and the clock has moved. *)
Lemma wp_NewUser un em pw role cost (Q : result error User.t -> Base -> Prop) b :
  (forall res b', used b' = used b -> b_obs b' = b_obs b ->
    match res with
    | Ok u => exists now, u = User.mk "" (TrimSpace un) (NormalizeEmail em) (User.Password u)
          false role now None None None
        /\ TrimSpace un <> "" /\ pw <> "" /\ NormalizeEmail em <> ""
        /\ mail_ParseAddress (NormalizeEmail em) = true
        /\ VerifyPassword u pw = true /\ (String.length pw <= 72)%nat
    | Err e =>
        (e = ESent ErrEmptyUsername /\ TrimSpace un = "") \/
        (e = ESent ErrEmptyPassword /\ pw = "") \/
        (e = ESent ErrEmptyEmail /\ NormalizeEmail em = "") \/
        (e = ESent ErrInvalidEmail /\ mail_ParseAddress (NormalizeEmail em) = false) \/
        (TrimSpace un <> "" /\ pw <> "" /\ NormalizeEmail em <> ""
          /\ mail_ParseAddress (NormalizeEmail em) = true)
    end -> Q res b') ->
  wp (NewUser un em pw role cost) Q b.
Proof.
  intros HQ. unfold NewUser.
  wp_step; [apply wp_ret, HQ; naive_solver|].
  wp_step; [apply wp_ret, HQ; naive_solver|].
  wp_step; [apply wp_ret, HQ; naive_solver|].
  destruct (mail_ParseAddress (NormalizeEmail em)) eqn:Ep; simpl;
    [|apply wp_ret, HQ; naive_solver].
  apply wp_try, wp_Generate. intros res g Hg Hh. destruct res as [h|e].
  - apply wp_bind, wp_Now. intros t c. apply wp_ret, HQ; [done|done|]. exists t.
    destruct (Hh h eq_refl) as [Hlen Hok]. split_and!; try done.
    unfold VerifyPassword. simpl. by rewrite Hok.
  - apply wp_ret, HQ; [done|done|]. naive_solver.
Qed.

(** [ChangePassword]: the new hash verifies the new password, both stamps are
    the same instant, every other field is kept. *)
Lemma wp_ChangePassword u pw cost (Q : result error User.t -> Base -> Prop) b :
  (forall res b', used b' = used b -> b_obs b' = b_obs b ->
    match res with
    | Ok u' => exists h now, u' = with_Password u h now /\ pw <> "" /\ VerifyPassword u' pw = true
    | Err e => pw = "" -> e = ESent ErrEmptyPassword
    end -> Q res b') ->
  wp (ChangePassword u pw cost) Q b.
Proof.
  intros HQ. unfold ChangePassword. wp_step; [by apply wp_ret, HQ|].
  apply wp_try, wp_Generate. intros res g Hg Hh. destruct res as [h|e]; [|by apply wp_ret, HQ].
  apply wp_bind, wp_Now. intros t c. apply wp_ret, HQ; [done|done|].
  exists h, t. split_and!; [done|done|]. unfold VerifyPassword. simpl.
  by destruct (Hh h eq_refl) as [_ ->].
Qed.
End domain_lemmas.
