(* ===== verification/Repository.v ===== *)
(** The user repository: the gateway interface
    (src/internal/datasources/repositories/interface/interface.go) with its
    contract as laws, and the PostgreSQL adapter
    (src/internal/datasources/repositories/postgres/users) that fulfils it. *)

From Stdlib Require Import Ascii String ZArith Sorted.
From stdpp Require Import base gmap strings list pretty.
From S2P Require Import Prelude GoStrings AppError Records Services World.

Open Scope string_scope.

Record UserListFilter := MkFilter {
  filter_RoleID : Z;
  filter_ActiveOnly : bool;
  filter_IncludeDeleted : bool;
}.

(** * The interface *)
Class UserRepository `{Platform} := {
  repo_Store : User.t -> io DBState (result error User.t);
  repo_GetByEmail : User.t -> io DBState (result error User.t);
  repo_GetByID : string -> io DBState (result error User.t);
  repo_List : UserListFilter -> Z -> Z -> io DBState (result error (list User.t));
  repo_ChangeActiveUser : User.t -> io DBState (result error unit);
  repo_UpdatePassword : User.t -> io DBState (result error unit);
  repo_SoftDelete : string -> io DBState (result error unit);
}.

(** What the adapter promises: the effect of each method on the table, and that
    only the three typed errors are DomainErrors. *)
Section contract.
Context `{Platform}.

(** The user [u] is what the table holds under its id, and not deleted. *)
Definition stored_live (v : gmap string Users.t) (u : User.t) : Prop :=
  v !! User.ID u = Some (FromUsersV1Domain u) /\ User.DeletedAt u = None.

Definition no_live_email (v : gmap string Users.t) (e : string) : Prop :=
  forall id r, v !! id = Some r -> live r = true -> Users.Email r <> e.

Definition no_live_id (v : gmap string Users.t) (id : string) : Prop :=
  forall id' r, v !! id' = Some r -> live r = true -> sql_uuid id <> Some id'.

(** The table after an UPDATE of the row with that id, when it is live. *)
Definition update_live (id : string) (f : Users.t -> Users.t)
    (v : gmap string Users.t) : gmap string Users.t :=
  (fun r => if eval_where [PIdEq id; PNotDeleted] r then f r else r) <$> v.

Definition activated (now : Time) (b : bool) (r : Users.t) : Users.t :=
  apply_assign now SetUpdatedNow (apply_assign now (SetActive b) r).

Definition repassworded (u : User.t) (r : Users.t) : Users.t :=
  let '(Users.mk id un em _ ac ro cr _ de _) := r in
  Users.mk id un em (User.Password u) ac ro cr (pg_time <$> User.UpdatedAt u) de
    (pg_time <$> User.PasswordChangedAt u).

Definition soft_deleted (now : Time) (r : Users.t) : Users.t :=
  apply_assign now SetUpdatedNow (apply_assign now SetDeletedNow r).

Definition typed_or_raw (e : error) (typed : error) : Prop :=
  e = typed \/ error_type e = None.
End contract.

Class UserRepositoryLaws `{UserRepository} : Prop := {
  repo_Store_law : forall u d, table_ok (dtable d) ->
    wp (repo_Store u) (fun res d' =>
      table_ok (dtable d') /\ d_open d' = d_open d /\
      match res with
      | Ok s => exists id, dtable d !! id = None /\ sql_uuid id = Some id /\
          ~ clash (dtable d) (FromUsersV1Domain u) /\
          let r := inserted_row id (FromUsersV1Domain u) in
          dtable d' = <[id := r]> (dtable d) /\ s = ToV1Domain r
      | Err e => (dtable d' = dtable d \/
            (error_type e = None /\ exists id, dtable d !! id = None /\
              dtable d' = <[id := inserted_row id (FromUsersV1Domain u)]> (dtable d)))
          /\ typed_or_raw e (Conflict "username or email already exists")
          /\ (error_type e <> None -> clash (dtable d) (FromUsersV1Domain u))
      end) d;
  repo_GetByEmail_law : forall u d, table_ok (dtable d) ->
    wp (repo_GetByEmail u) (fun res d' => dtable d' = dtable d /\ d_open d' = d_open d /\
      match res with
      | Ok s => stored_live (dtable d) s /\ User.Email s = User.Email u
      | Err e => typed_or_raw e (NotFound "user not found") /\
          (error_type e <> None -> no_live_email (dtable d) (User.Email u))
      end) d;
  repo_GetByID_law : forall id d, table_ok (dtable d) ->
    wp (repo_GetByID id) (fun res d' => dtable d' = dtable d /\ d_open d' = d_open d /\
      match res with
      | Ok s => stored_live (dtable d) s /\ sql_uuid id = Some (User.ID s)
      | Err e => typed_or_raw e (NotFound "user not found") /\
          (error_type e <> None -> no_live_id (dtable d) id)
      end) d;
  repo_ChangeActiveUser_law : forall u d, table_ok (dtable d) ->
    wp (repo_ChangeActiveUser u) (fun res d' => table_ok (dtable d') /\
      match res with
      | Ok _ => exists now, dtable d'
          = update_live (User.ID u) (activated now (User.Active u)) (dtable d)
      | Err e => dtable d' = dtable d /\ error_type e = None
      end) d;
  repo_UpdatePassword_law : forall u d, table_ok (dtable d) ->
    wp (repo_UpdatePassword u) (fun res d' => table_ok (dtable d') /\
      d_open d' = d_open d /\
      match res with
      | Ok _ => dtable d' = update_live (User.ID u) (repassworded u) (dtable d) /\
          ~ no_live_id (dtable d) (User.ID u)
      | Err e => typed_or_raw e (NotFound "user not found") /\
          (error_type e <> None -> no_live_id (dtable d) (User.ID u)) /\
          dtable d' = dtable d
      end) d;
}.

(** * The PostgreSQL adapter *)
Module Postgres.
Section postgres.
Context `{Platform}.

Definition Store (inDom : User.t) : io DBState (result error User.t) :=
  let userRecord := FromUsersV1Domain inDom in
  try rows <- zoom l_db (sql_insert userRecord)
  catch err =>
    (if bool_decide (errors_As_pq err = Some "23505")
     then ret (Err (Conflict "username or email already exists"))
     else ret (Err err)) ;;
  open_rows 1 ;;;
  res <- match rows with
         | None => ret (Err (EText "insert succeeded but RETURNING produced no row"))
         | Some (Err err) => ret (Err (EWrapped "scan inserted user" err))
         | Some (Ok stored) => ret (Ok (ToV1Domain stored))
         end ;;
  open_rows (-1) ;;;   (* the deferred rows.Close() *)
  ret res.

Definition GetByEmail (inDom : User.t) : io DBState (result error User.t) :=
  let userRecord := FromUsersV1Domain inDom in
  try row <- zoom l_db (sql_get [PEmailEq (Users.Email userRecord); PNotDeleted])
  catch err =>
    (if errors_Is err ErrNoRows then ret (Err (NotFound "user not found"))
     else ret (Err err)) ;;
  ret (Ok (ToV1Domain row)).

Definition GetByID (id : string) : io DBState (result error User.t) :=
  try row <- zoom l_db (sql_get [PIdEq id; PNotDeleted])
  catch err =>
    (if errors_Is err ErrNoRows then ret (Err (NotFound "user not found"))
     else ret (Err err)) ;;
  ret (Ok (ToV1Domain row)).

(** ** List: the statement is put together from the filter *)

Definition hardLimit : Z := 200.

Definition clamp_limit (limit : Z) : Z :=
  if ((limit <=? 0) || (hardLimit <? limit))%Z then hardLimit else limit.
Definition clamp_offset (offset : Z) : Z := if (offset <? 0)%Z then 0%Z else offset.

(** [where], [args] and [idx] after the three [if] statements. *)
Definition list_where (filter : UserListFilter) : list string * list Z * Z :=
  let s := ([], [], 1%Z) in
  let s := if negb (filter_IncludeDeleted filter) then
             let '(wh, args, idx) := s in (wh ++ ["deleted_at IS NULL"], args, idx)%list
           else s in
  let s := if negb (filter_RoleID filter =? 0)%Z then
             let '(wh, args, idx) := s in
             (wh ++ ["role_id = $" +:+ Itoa idx],
              args ++ [filter_RoleID filter], idx + 1)%list%Z
           else s in
  if filter_ActiveOnly filter then
    let '(wh, args, idx) := s in (wh ++ ["active = true"], args, idx)%list
  else s.

(** The query text and its arguments. *)
Definition list_query (filter : UserListFilter) (offset limit : Z) : string * list Z :=
  let '(wh, args, idx) := list_where filter in
  let query := "SELECT * FROM users" in
  let query := if (0 <? length wh)%nat
               then query +:+ " WHERE " +:+ String.concat " AND " wh else query in
  let query := query +:+ " ORDER BY created_at DESC LIMIT $" +:+ Itoa idx
               +:+ " OFFSET $" +:+ Itoa (idx + 1) in
  (query, (args ++ [limit; offset])%list).

(** The conditions that text states, for the database to evaluate. *)
Definition list_preds (filter : UserListFilter) : list sql_pred :=
  ((if negb (filter_IncludeDeleted filter) then [PNotDeleted] else [])
   ++ (if negb (filter_RoleID filter =? 0)%Z then [PRoleEq (filter_RoleID filter)] else [])
   ++ (if filter_ActiveOnly filter then [PActive] else []))%list.

Definition List (filter : UserListFilter) (offset limit : Z)
    : io DBState (result error (list User.t)) :=
  let limit := clamp_limit limit in
  let offset := clamp_offset offset in
  try rows <- zoom l_db (sql_select (list_preds filter) limit offset)
  catch err => ret (Err err) ;;
  ret (Ok (map ToV1Domain rows)).

(** ** Updates *)

(** [NamedQueryContext] hands out a result set, which is dropped unclosed. *)
Definition ChangeActiveUser (inDom : User.t) : io DBState (result error unit) :=
  let userRecord := FromUsersV1Domain inDom in
  try _rows <- zoom l_db (sql_update [SetActive (Users.Active userRecord); SetUpdatedNow]
                                     [PIdEq (Users.Id userRecord); PNotDeleted])
  catch err => ret (Err err) ;;
  open_rows 1 ;;;
  ret (Ok tt).

Definition UpdatePassword (inDom : User.t) : io DBState (result error unit) :=
  let userRecord := FromUsersV1Domain inDom in
  try res <- zoom l_db (sql_update
      [SetPassword (Users.Password userRecord);
       SetPasswordChangedAt (Users.PasswordChangedAt userRecord);
       SetUpdatedAt (Users.UpdatedAt userRecord)]
      [PIdEq (Users.Id userRecord); PNotDeleted])
  catch err => ret (Err err) ;;
  match res with
  | Err err => ret (Err err)
  | Ok affected =>
      if (affected =? 0)%Z then ret (Err (NotFound "user not found")) else ret (Ok tt)
  end.

Definition SoftDelete (id : string) : io DBState (result error unit) :=
  try res <- zoom l_db (sql_update [SetDeletedNow; SetUpdatedNow] [PIdEq id; PNotDeleted])
  catch err => ret (Err err) ;;
  match res with
  | Err err => ret (Err err)
  | Ok affected =>
      if (affected =? 0)%Z then ret (Err (NotFound "user not found")) else ret (Ok tt)
  end.
End postgres.

Definition repository `{Platform} : UserRepository := {|
  repo_Store := Store;
  repo_GetByEmail := GetByEmail;
  repo_GetByID := GetByID;
  repo_List := List;
  repo_ChangeActiveUser := ChangeActiveUser;
  repo_UpdatePassword := UpdatePassword;
  repo_SoftDelete := SoftDelete;
|}.
End Postgres.

(** * Lemmas on tables *)
Section tables.
Context `{Platform}.

Lemma eval_live_id id r :
  eval_where [PIdEq id; PNotDeleted] r = true <-> sql_uuid id = Some (Users.Id r) /\ live r = true.
Proof.
  unfold eval_where, live. simpl. rewrite andb_true_r, andb_true_iff, bool_decide_eq_true. done.
Qed.

Lemma eval_live_email e r :
  eval_where [PEmailEq e; PNotDeleted] r = true <-> Users.Email r = e /\ live r = true.
Proof.
  unfold eval_where, live. simpl. rewrite andb_true_r, andb_true_iff, bool_decide_eq_true. done.
Qed.

Lemma live_None r : live r = true <-> Users.DeletedAt r = None.
Proof. unfold live. simpl. by destruct (Users.DeletedAt r). Qed.

(** An update that keeps ids and emails and revives nobody keeps the table in order. *)
Lemma table_ok_fmap f (v : gmap string Users.t) :
  (forall r, Users.Id (f r) = Users.Id r /\ Users.Email (f r) = Users.Email r /\
             (live (f r) = true -> live r = true)) ->
  table_ok v -> table_ok (f <$> v).
Proof.
  intros Hf [Hk He]. constructor.
  - intros id r. rewrite lookup_fmap. intros (r0 & Hr0 & ->)%fmap_Some.
    destruct (Hf r0) as (-> & _). by apply Hk.
  - intros id1 id2 r1 r2. rewrite !lookup_fmap.
    intros (s1 & Hs1 & ->)%fmap_Some (s2 & Hs2 & ->)%fmap_Some.
    destruct (Hf s1) as (_ & -> & Hl1), (Hf s2) as (_ & -> & Hl2). eauto.
Qed.

Lemma table_ok_insert (v : gmap string Users.t) id u :
  table_ok v -> v !! id = None -> sql_uuid id = Some id -> ~ clash v u ->
  table_ok (<[id := inserted_row id u]> v).
Proof.
  intros [Hk He] Hid Hu Hc. constructor.
  - intros id' r [[<- <-]|[? ?]]%lookup_insert_Some; [done|by apply Hk].
  - intros id1 id2 r1 r2 [[<- <-]|[? H1]]%lookup_insert_Some
      [[<- <-]|[? H2]]%lookup_insert_Some Hl1 Hl2 Heq; [done| | |by eapply He].
    + destruct Hc. exists id2, r2. eauto.
    + destruct Hc. exists id1, r1. eauto.
Qed.

Lemma apply_update_update_live set id f now v :
  (forall r, fold_left (fun r a => apply_assign now a r) set r = f r) ->
  apply_update now set [PIdEq id; PNotDeleted] <$> v = update_live id f v.
Proof.
  intros Hf. unfold update_live. apply map_fmap_ext. intros i r _.
  unfold apply_update. destruct (eval_where _ r); [apply Hf|done].
Qed.

Lemma table_ok_update_live id f (v : gmap string Users.t) :
  (forall r, Users.Id (f r) = Users.Id r /\ Users.Email (f r) = Users.Email r /\
             (live (f r) = true -> live r = true)) ->
  table_ok v -> table_ok (update_live id f v).
Proof.
  intros Hf. apply table_ok_fmap. intros r. destruct (eval_where _ r); [apply Hf|done].
Qed.

(** Row by row: the live row with that id changes, every other row stays. *)
Lemma update_live_lookup id f (v : gmap string Users.t) i r :
  v !! i = Some r ->
  update_live id f v !! i =
    Some (if eval_where [PIdEq id; PNotDeleted] r then f r else r).
Proof. intros Hr. unfold update_live. by rewrite lookup_fmap, Hr. Qed.

Lemma no_live_id_count (v : gmap string Users.t) id :
  table_ok v ->
  size (filter (fun kr => eval_where [PIdEq id; PNotDeleted] kr.2 = true) v) = 0 <-> no_live_id v id.
Proof.
  intros [Hk _]. rewrite map_size_empty_iff, map_empty_filter. unfold map_Forall, no_live_id.
  setoid_rewrite eval_live_id. simpl. split.
  - intros Hall i r Hr Hl Hid. destruct (Hk _ _ Hr) as [Hi _].
    apply (Hall i r Hr). by rewrite Hi.
  - intros Hno i r Hr [Hid Hl]. destruct (Hk _ _ Hr) as [Hi _]. subst i. by eapply Hno.
Qed.

Lemma stored_live_intro (v : gmap string Users.t) id r :
  table_ok v -> v !! id = Some r -> live r = true ->
  stored_live v (ToV1Domain r) /\ User.ID (ToV1Domain r) = id.
Proof.
  intros [Hk _] Hr Hl. destruct (Hk _ _ Hr) as [Hid _].
  split; [|done]. split; [|by apply live_None].
  rewrite record_domain_record. simpl. by rewrite Hid.
Qed.
End tables.

(** * The adapter fulfils the contract *)
Section postgres_ok.
Context `{Platform} `{!SqlLaws}.

Lemma wp_open_rows z (Q : unit -> DBState -> Prop) d :
  Q tt (MkD (d_db d) (d_open d + z)) -> wp (open_rows z) Q d.
Proof. done. Qed.

(** The database answers a query: the table is as before. *)
Lemma wp_sql_get ps (Q : result error Users.t -> DBState -> Prop) d :
  (forall res d', dtable d' = dtable d -> d_open d' = d_open d ->
    match res with
    | Ok r => exists id, dtable d !! id = Some r /\ eval_where ps r = true
    | Err e => error_type e = None /\ (errors_Is e ErrNoRows = true ->
                 forall id r, dtable d !! id = Some r -> eval_where ps r = false)
    end -> Q res d') ->
  wp (zoom l_db (sql_get ps)) Q d.
Proof.
  intros HQ. wp_step. apply wp_intro. intros res d' Heq.
  pose proof (sql_get_law ps (d_db d)) as [Ht Hr].
  simpl in *. rewrite Heq in *. by apply HQ.
Qed.

Lemma wp_sql_update set ps (Q : result error (result error Z) -> DBState -> Prop) d :
  (forall res d', d_open d' = d_open d ->
    match res with
    | Ok r => exists now, dtable d' = apply_update now set ps <$> dtable d /\
        r = Ok (Z.of_nat (size (filter (fun kr => eval_where ps kr.2 = true) (dtable d))))
    | Err e => error_type e = None /\ dtable d' = dtable d
    end -> Q res d') ->
  wp (zoom l_db (sql_update set ps)) Q d.
Proof.
  intros HQ. wp_step. apply wp_intro. intros res d' Heq.
  pose proof (sql_update_law set ps (d_db d)) as Hr.
  simpl in *. rewrite Heq in Hr. by apply HQ.
Qed.

Lemma postgres_Store_ok u d : table_ok (dtable d) ->
  wp (Postgres.Store u) (fun res d' =>
    table_ok (dtable d') /\ d_open d' = d_open d /\
    match res with
    | Ok s => exists id, dtable d !! id = None /\ sql_uuid id = Some id /\
        ~ clash (dtable d) (FromUsersV1Domain u) /\
        let r := inserted_row id (FromUsersV1Domain u) in
        dtable d' = <[id := r]> (dtable d) /\ s = ToV1Domain r
    | Err e => (dtable d' = dtable d \/
          (error_type e = None /\ exists id, dtable d !! id = None /\
            dtable d' = <[id := inserted_row id (FromUsersV1Domain u)]> (dtable d)))
        /\ typed_or_raw e (Conflict "username or email already exists")
        /\ (error_type e <> None -> clash (dtable d) (FromUsersV1Domain u))
    end) d.
Proof.
  intros Hok. unfold Postgres.Store. wp_steps. apply wp_intro. intros res d' Heq.
  pose proof (sql_insert_law (FromUsersV1Domain u) (d_db d)) as Hlaw.
  cbn [lget l_db] in Heq. rewrite Heq in Hlaw. cbn [fst snd] in Hlaw. destruct res as [out|e].
  - destruct Hlaw as (id & Hid & Hu & Hc & Ht & Hout).
    assert (table_ok (sql_rows d')) as Hok' by (rewrite Ht; by apply table_ok_insert).
    wp_steps. apply wp_open_rows. wp_steps.
    destruct out as [[r|e]|]; wp_steps; apply wp_open_rows; wp_steps; cbn;
      (split; [done|]); (split; [lia|]).
    + exists id. subst r. eauto 10.
    + split; [right; eauto|]. split; [by right|]. unfold error_type in *. by simpl; rewrite Hout.
    + split; [right; eauto|]. split; [by right|done].
  - destruct Hlaw as (Het & Ht & Hpq). case_bool_decide; wp_steps; cbn;
      unfold dtable; cbn; rewrite ?Ht; (split; [done|]); (split; [done|]).
    + split; [by left|]. split; [by left|]. auto.
    + split; [by left|]. split; [by right|]. by rewrite Het.
Qed.

Lemma postgres_GetByEmail_ok u d : table_ok (dtable d) ->
  wp (Postgres.GetByEmail u) (fun res d' => dtable d' = dtable d /\ d_open d' = d_open d /\
    match res with
    | Ok s => stored_live (dtable d) s /\ User.Email s = User.Email u
    | Err e => typed_or_raw e (NotFound "user not found") /\
        (error_type e <> None -> no_live_email (dtable d) (User.Email u))
    end) d.
Proof.
  intros Hok. unfold Postgres.GetByEmail. wp_step. apply wp_sql_get. intros res d' Ht Ho Hres.
  destruct res as [r|e].
  - destruct Hres as (id & Hr & [He Hl]%eval_live_email). wp_steps. split_and!; [done|done| |done].
    by apply (stored_live_intro _ id).
  - destruct Hres as [Het Hno]. wp_steps; split_and!; try done.
    + by left.
    + intros _ id r Hr Hl He. 
      apply (eq_true_false_abs _ (proj2 (eval_live_email _ _) (conj He Hl)) (Hno eq_refl id r Hr)).
    + by right.
Qed.

Lemma postgres_GetByID_ok id d : table_ok (dtable d) ->
  wp (Postgres.GetByID id) (fun res d' => dtable d' = dtable d /\ d_open d' = d_open d /\
    match res with
    | Ok s => stored_live (dtable d) s /\ sql_uuid id = Some (User.ID s)
    | Err e => typed_or_raw e (NotFound "user not found") /\
        (error_type e <> None -> no_live_id (dtable d) id)
    end) d.
Proof.
  intros Hok. unfold Postgres.GetByID. wp_step. apply wp_sql_get. intros res d' Ht Ho Hres.
  destruct res as [r|e].
  - destruct Hres as (id' & Hr & [He Hl]%eval_live_id). wp_steps. split_and!; [done|done| |done].
    by apply (stored_live_intro _ id').
  - destruct Hres as [Het Hno]. wp_steps; split_and!; try done.
    + by left.
    + intros _ id' r Hr Hl He. 
      rewrite <- (proj1 (tbl_key _ Hok _ _ Hr)) in He.
      apply (eq_true_false_abs _ (proj2 (eval_live_id _ _) (conj He Hl)) (Hno eq_refl id' r Hr)).
    + by right.
Qed.

Lemma postgres_ChangeActiveUser_ok u d : table_ok (dtable d) ->
  wp (Postgres.ChangeActiveUser u) (fun res d' => table_ok (dtable d') /\
    match res with
    | Ok _ => exists now, dtable d'
        = update_live (User.ID u) (activated now (User.Active u)) (dtable d)
    | Err e => dtable d' = dtable d /\ error_type e = None
    end) d.
Proof.
  intros Hok. unfold Postgres.ChangeActiveUser. wp_step. apply wp_sql_update.
  intros res d' _ Hres. destruct res as [r|e].
  - destruct Hres as (now & Ht & _). wp_steps. apply wp_open_rows. wp_steps. cbn.
    rewrite (apply_update_update_live _ _ (activated now (User.Active u))) in Ht by done.
    unfold dtable in *. cbn in *. rewrite Ht. split; [|by exists now].
    apply table_ok_update_live; [|done]. by intros [].
  - destruct Hres as [He Ht]. wp_steps. by rewrite Ht.
Qed.

Lemma postgres_UpdatePassword_ok u d : table_ok (dtable d) ->
  wp (Postgres.UpdatePassword u) (fun res d' => table_ok (dtable d') /\
    d_open d' = d_open d /\
    match res with
    | Ok _ => dtable d' = update_live (User.ID u) (repassworded u) (dtable d) /\
        ~ no_live_id (dtable d) (User.ID u)
    | Err e => typed_or_raw e (NotFound "user not found") /\
        (error_type e <> None -> no_live_id (dtable d) (User.ID u)) /\
        dtable d' = dtable d
    end) d.
Proof.
  intros Hok. unfold Postgres.UpdatePassword. wp_step. apply wp_sql_update.
  intros res d' Ho Hres. destruct res as [r|e].
  - destruct Hres as (now & Ht & ->). change (Users.Id (FromUsersV1Domain u)) with (User.ID u) in *.
    rewrite (apply_update_update_live _ _ (repassworded u)) in Ht by by intros [].
    destruct (size _) as [|n] eqn:Hn; wp_steps; try done; try lia; rewrite Ht.
    + apply no_live_id_count in Hn; [|done].
      assert (update_live (User.ID u) (repassworded u) (dtable d) = dtable d) as ->.
      { unfold update_live. rewrite <- (map_fmap_id (dtable d)) at 2.
        apply map_fmap_ext. intros i r Hr. destruct (eval_where _ r) eqn:E; [|done].
        apply eval_live_id in E as [E1 E2]. rewrite (proj1 (tbl_key _ Hok _ _ Hr)) in E1.
        by destruct (Hn _ _ Hr E2). }
      split_and!; try done. by left.
    + split; [apply table_ok_update_live; [by intros []|done]|]. split_and!; try done.
      intros Hno%(no_live_id_count _ _ Hok). lia.
  - destruct Hres as [He Ht]. wp_steps. rewrite Ht. split_and!; try done. by right.
Qed.
End postgres_ok.

#[export] Instance postgres_laws `{Platform} `{!SqlLaws} :
  @UserRepositoryLaws H Postgres.repository.
Proof.
  split; intros; [by apply postgres_Store_ok|by apply postgres_GetByEmail_ok
    |by apply postgres_GetByID_ok|by apply postgres_ChangeActiveUser_ok
    |by apply postgres_UpdatePassword_ok].
Qed.
