(* ===== verification/Caches.v ===== *)
(** The two caches: src/internal/datasources/caches/cache.redis.go (JSON strings
    and counters in Redis) and cache.ristretto.go (values in process). *)

From Stdlib Require Import Ascii String ZArith.
From stdpp Require Import base gmap strings list pretty.
From S2P Require Import Prelude GoStrings AppError Records Services.

Open Scope string_scope.

(** * Redis *)
Module Redis.

(** [redisCache]; the connection parameters belong to the client. *)
Record redisCache := NewRedisCache { expires : Duration }.

Section redis.
Context `{RedisSrv}.

(** Every call is bounded by a timeout of 3 s: a time-out is an error of the
    operation. *)
Definition defaultOpTimeout : Duration := (3 * Second)%Z.

Definition Set_ (cache : redisCache) (key value : string) : io redis (result error unit) :=
  redis_set key (json_Marshal value) (mul64 (expires cache) Minute).

Definition Get (key : string) : io redis (result error string) :=
  try val <- redis_get key catch err => ret (Err err) ;;
  match json_Unmarshal val with
  | None => ret (Err (EText "json: value is no string"))
  | Some decoded => ret (Ok decoded)
  end.

Definition Del (key : string) : io redis (result error unit) := redis_del key.
Definition Incr (key : string) : io redis (result error Z) := redis_incr key.
Definition Expire (key : string) (ttl : Duration) : io redis (result error unit) :=
  redis_expire key ttl.
End redis.
End Redis.

(** * ristretto *)
Module Ristretto.
Section ristretto.
Context `{RistrettoSrv}.

Definition defaultRistrettoTTL : Duration := (5 * Minute)%Z.

Definition Set_ (key : string) (value : iface) : io ristretto unit :=
  rist_set key value defaultRistrettoTTL.

Definition Get (key : string) : io ristretto (option iface) := rist_get key.

Fixpoint Del (key : list string) : io ristretto unit :=
  match key with
  | [] => ret tt
  | i :: key => rist_del i ;;; Del key
  end.
End ristretto.
End Ristretto.

#[global] Arguments Ristretto.Del : simpl never.

(** * Lemmas

    The specifications speak of the view before and after; for the use cases the
    relevant coarse facts are which keys may change. *)
Section redis_lemmas.
Context `{RedisLaws}.

(** [v'] differs from [v] at most by expired keys and by what happened at [k]. *)
Definition only_key (k : string) (v v' : gmap string rentry) : Prop :=
  forall k', k' <> k -> v' !! k' = v !! k' \/ v' !! k' = None.

Lemma only_key_subset k (v v0 : gmap string rentry) : v0 ⊆ v -> only_key k v v0.
Proof.
  intros Hs k' _. destruct (v0 !! k') eqn:E; [left|by right].
  symmetry. by eapply lookup_weaken.
Qed.

Lemma only_key_insert k (v v0 : gmap string rentry) x : v0 ⊆ v -> only_key k v (<[k := x]> v0).
Proof.
  intros Hs k' Hk. rewrite lookup_insert_ne by done. by apply (only_key_subset k).
Qed.

Lemma only_key_delete k (v v0 : gmap string rentry) : v0 ⊆ v -> only_key k v (delete k v0).
Proof.
  intros Hs k' Hk. rewrite lookup_delete_ne by done. by apply (only_key_subset k).
Qed.

Lemma only_key_alter k f (v v0 : gmap string rentry) : v0 ⊆ v -> only_key k v (alter f k v0).
Proof.
  intros Hs k' Hk. rewrite lookup_alter_ne by done. by apply (only_key_subset k).
Qed.

#[local] Hint Resolve only_key_subset only_key_insert only_key_delete only_key_alter : core.

Lemma wp_Set cache k s (Q : result error unit -> redis -> Prop) r :
  (forall res r', only_key k (redis_view r) (redis_view r') ->
     let e := entry_set (json_Marshal s) (mul64 (Redis.expires cache) Minute) in
     (redis_view r' !! k = Some e \/
      (res <> Ok tt /\ (redis_view r' !! k = redis_view r !! k \/ redis_view r' !! k = None))) ->
     Q res r') ->
  wp (Redis.Set_ cache k s) Q r.
Proof.
  intros HQ. unfold Redis.Set_. apply wp_intro. intros res r' Heq.
  pose proof (redis_set_law k (json_Marshal s) (mul64 (Redis.expires cache) Minute) r)
    as (v0 & Hs & Hr).
  rewrite Heq in Hr. cbn [fst snd] in Hr. destruct res as [[]|e].
  - apply HQ; rewrite Hr; [auto|]. left. by rewrite lookup_insert_eq.
  - destruct Hr as [Hr|Hr]; (apply HQ; rewrite Hr; [auto|]).
    + right. split; [done|]. destruct (v0 !! k) eqn:E; [left|by right].
      symmetry. by eapply lookup_weaken.
    + left. by rewrite lookup_insert_eq.
Qed.

Lemma wp_Get k (Q : result error string -> redis -> Prop) r :
  (forall res r', redis_view r' ⊆ redis_view r ->
     match res with
     | Ok s => exists e, redis_view r' !! k = Some e /\ json_Unmarshal (re_val e) = Some s
     | Err _ => True
     end -> Q res r') ->
  wp (Redis.Get k) Q r.
Proof.
  intros HQ. unfold Redis.Get. apply wp_try, wp_intro. intros res r' Heq.
  pose proof (redis_get_law k r) as (v0 & Hs & Hv & Hr). rewrite Heq in Hv, Hr.
  cbn [fst snd] in *. subst v0. destruct res as [s|e]; [|by apply wp_ret, HQ].
  destruct Hr as (e & He & <-). destruct (json_Unmarshal (re_val e)) eqn:Ej; apply wp_ret, HQ; eauto.
Qed.

Lemma wp_Del k (Q : result error unit -> redis -> Prop) r :
  (forall res r', only_key k (redis_view r) (redis_view r') ->
     redis_view r' ⊆ redis_view r ->
     (redis_view r' !! k = None \/ res <> Ok tt) -> Q res r') ->
  wp (Redis.Del k) Q r.
Proof.
  intros HQ. unfold Redis.Del. apply wp_intro. intros res r' Heq.
  pose proof (redis_del_law k r) as (v0 & Hs & Hr). rewrite Heq in Hr. cbn [fst snd] in Hr.
  pose proof (delete_subseteq v0 k) as Hd.
  destruct res as [[]|e]; [|destruct Hr as [Hr|Hr]]; (apply HQ; rewrite Hr; [auto| |]).
  - by transitivity v0.
  - left. by rewrite lookup_delete_eq.
  - done.
  - by right.
  - by transitivity v0.
  - by right.
Qed.

Lemma wp_Incr k (Q : result error Z -> redis -> Prop) r :
  (forall res r', only_key k (redis_view r) (redis_view r') -> Q res r') ->
  wp (Redis.Incr k) Q r.
Proof.
  intros HQ. unfold Redis.Incr. apply wp_intro. intros res r' Heq.
  pose proof (redis_incr_law k r) as (v0 & Hs & Hr). rewrite Heq in Hr. cbn [fst snd] in Hr.
  destruct res as [n|e].
  - destruct Hr as [_ Hr]. apply HQ. rewrite Hr. auto.
  - destruct Hr as [Hr|(n & _ & Hr)]; apply HQ; rewrite Hr; auto.
Qed.

(** EXPIRE creates nothing and changes no value. *)
Lemma wp_Expire k d (Q : result error unit -> redis -> Prop) r :
  (forall res r', only_key k (redis_view r) (redis_view r') ->
     (forall k' e, redis_view r' !! k' = Some e ->
        exists e0, redis_view r !! k' = Some e0 /\ re_val e = re_val e0) ->
     Q res r') ->
  wp (Redis.Expire k d) Q r.
Proof.
  intros HQ. unfold Redis.Expire. apply wp_intro. intros res r' Heq.
  pose proof (redis_expire_law k d r) as (v0 & Hs & Hr). rewrite Heq in Hr. cbn [fst snd] in Hr.
  assert (forall v', v' = v0 \/ v' = alter (entry_expire d) k v0 \/ v' = delete k v0 ->
    forall k' e, v' !! k' = Some e ->
        exists e0, redis_view r !! k' = Some e0 /\ re_val e = re_val e0) as Hval.
  { intros v' Hv' k' e He.
    destruct Hv' as [-> | [-> | ->]].
    - exists e. split; [by eapply lookup_weaken|done].
    - apply lookup_alter_Some in He as [(-> & e0 & He0 & ->)|[_ He]].
      + exists e0. split; [by eapply lookup_weaken|done].
      + exists e. split; [by eapply lookup_weaken|done].
    - apply lookup_delete_Some in He as [_ He].
      exists e. split; [by eapply lookup_weaken|done]. }
  destruct res as [[]|e]; [destruct Hr as [Hr|[_ Hr]]|destruct Hr as [Hr|[Hr|[_ Hr]]]];
    (apply HQ; rewrite Hr; [auto|apply Hval; auto]).
Qed.
End redis_lemmas.

Section ristretto_lemmas.
Context `{RistrettoLaws}.

Lemma wp_cache_Get k (Q : option iface -> ristretto -> Prop) c :
  (forall res c', rist_view c' ⊆ rist_view c ->
     (forall x, res = Some x -> rist_view c !! k = Some x) -> Q res c') ->
  wp (Ristretto.Get k) Q c.
Proof.
  intros HQ. unfold Ristretto.Get. apply wp_intro. intros res c' Heq.
  pose proof (rist_get_law k c) as [Hv Hx]. rewrite Heq in *. auto.
Qed.

Lemma wp_cache_Set k x (Q : unit -> ristretto -> Prop) c :
  (forall c', rist_view c' ⊆ <[k := x]> (rist_view c) -> Q tt c') ->
  wp (Ristretto.Set_ k x) Q c.
Proof.
  intros HQ. unfold Ristretto.Set_. apply wp_intro. intros [] c' Heq.
  pose proof (rist_set_law k x Ristretto.defaultRistrettoTTL c) as Hv. rewrite Heq in Hv. auto.
Qed.

Lemma wp_cache_Del1 k (Q : unit -> ristretto -> Prop) c :
  (forall c', rist_view c' ⊆ delete k (rist_view c) -> Q tt c') ->
  wp (Ristretto.Del [k]) Q c.
Proof.
  intros HQ. unfold Ristretto.Del. apply wp_bind, wp_intro. intros [] c' Heq. apply wp_ret.
  pose proof (rist_del_law k c) as Hv. rewrite Heq in Hv. auto.
Qed.

Lemma cache_Del_subset ks c : rist_view (Ristretto.Del ks c).2 ⊆ rist_view c.
Proof.
  revert c. induction ks as [|k ks IH]; intros c; [done|].
  unfold Ristretto.Del; fold (@Ristretto.Del H). unfold bind.
  pose proof (rist_del_law k c) as Hv. destruct (rist_del k c) as [[] c'].
  transitivity (rist_view c'); [apply IH|]. simpl in Hv.
  transitivity (delete k (rist_view c)); [done|apply delete_subseteq].
Qed.
End ristretto_lemmas.
