(* ===== verification/Connections.v ===== *)
(** How the caches are opened and how long an operation on Redis may take:
    the constructors of src/internal/datasources/caches and [withTimeout].

    A context of Go is what matters of it here: when it ends, if ever.  What an operation of
    Caches.v answers when its context has ended is an error of the client. *)

From Stdlib Require Import Ascii String ZArith.
From stdpp Require Import base gmap strings list pretty.
From S2P Require Import Prelude GoStrings AppError Records Services World Domain Repository Caches.

Open Scope string_scope.
#[local] Open Scope Z_scope.

(** * Deadlines *)
Record context := Context { deadline : option Time; cancelled : bool }.

Definition Background : context := Context None false.

(** [context.WithTimeout(parent, d)] at the time [now]: the earlier of the two deadlines. *)
Definition WithTimeout (now : Time) (parent : context) (d : Duration) : context :=
  let mine := time_Add now d in
  Context (Some (match deadline parent with Some t => Z.min t mine | None => mine end)) (cancelled parent).

(** At [t] the context has ended: it was cancelled, or its time is over. *)
Definition Done (c : context) (t : Time) : bool :=
  cancelled c || match deadline c with Some d => d <=? t | None => false end.

(** [withTimeout(ctx)]; the parent may be nil. *)
Definition withTimeout (now : Time) (parent : option context) : context :=
  WithTimeout now (default Background parent) Redis.defaultOpTimeout.

(** Whatever context a caller has, or none: an operation on Redis ends three seconds after it
    began or earlier, and as early as its caller's; and no earlier than both. *)
Lemma withTimeout_bounds now parent t :
  Done (withTimeout now parent) t = true <->
  time_Add now (3 * Second) <= t \/ (exists c, parent = Some c /\ Done c t = true).
Proof.
  unfold withTimeout, WithTimeout, Done, Redis.defaultOpTimeout. set (mine := time_Add now (3 * Second)).
  destruct parent as [[[d|] []]|]; cbn; rewrite ?Z.leb_le.
  - split; [intros _; right; by eexists|done].
  - rewrite Z.min_le_iff. split.
    + intros [Hd|Hm]; [right|by left]. eexists. split; [done|]. by apply Z.leb_le.
    + intros [Hm|(c & [= <-] & Hd%Z.leb_le)]; [by right|by left].
  - split; [intros _; right; by eexists|done].
  - split; [by left|]. intros [Hm|(c & [= <-] & Hd)]; done.
  - split; [by left|]. intros [Hm|(c & [=] & _)]; done.
Qed.

(** * The clients *)

(** [redis.Options]; the database is 0. *)
Record redis_Options := RedisOptions { Addr : string; Password : string; DB : Z }.

(** The fields of [redisCache]; [expires] counts minutes. *)
Record redisClient := RedisClient { options : redis_Options; cache : Redis.redisCache; traced : bool }.

(** [redisotel.InstrumentTracing]: a failure is logged and the cache works without spans. *)
Definition NewRedisCache (instrument : option error) (host : string) (db : Z) (password : string) (expires : Z)
    : redisClient * option string :=
  let client := RedisOptions host password db in
  match instrument with
  | Some err => (RedisClient client (Redis.NewRedisCache expires) false,
                 Some ("redis tracing instrumentation skipped: " +:+ Error err))
  | None => (RedisClient client (Redis.NewRedisCache expires) true, None)
  end.

(** [ristr.Config] *)
Record ristr_Config := RistrConfig { BufferItems : Z; MaxCost : Z; NumCounters : Z }.

Definition NewRistrettoCache {C} (ristr_NewCache : ristr_Config -> result error C) : result error C :=
  match ristr_NewCache (RistrConfig 64 (Z.shiftl 1 30) 10000000) with
  | Err err => Err err
  | Ok c => Ok c
  end.

(** Tracing never decides whether there is a cache, and never changes how it is used. *)
Lemma NewRedisCache_same e1 e2 host db password expires :
  cache (NewRedisCache e1 host db password expires).1 = cache (NewRedisCache e2 host db password expires).1 /\
  options (NewRedisCache e1 host db password expires).1 = options (NewRedisCache e2 host db password expires).1.
Proof. by destruct e1, e2. Qed.
