(* ===== verification/UsersUsecase.v ===== *)
(** The users use case (src/internal/business/usecases/users): the interface the
    auth use case depends on, its contract, and the implementation over the
    repository interface and the in-process cache. *)

From Stdlib Require Import Ascii String ZArith.
From stdpp Require Import base gmap strings list pretty.
From S2P Require Import Prelude GoStrings AppError Records Services World Domain Repository Caches.

Open Scope string_scope.

(** * The interface ([users.Usecase]); a request or response struct of one field
    is that field *)
Class UsersUsecase `{Platform} := {
  users_Store : User.t -> io UState (result error User.t);
  users_GetByEmail : string -> io UState (result error User.t);
  users_GetByID : string -> io UState (result error User.t);
  users_Activate : string -> io UState (result error unit);
  users_UpdatePassword : option User.t -> io UState (result error unit);
}.

(** * The contract *)
Section contract.
Context `{Platform}.

(** [c] tells the truth about the row [r], except that it may not have noticed
    yet that the account was activated. *)
Record agrees (c : User.t) (r : Users.t) : Prop := {
  ag_id : User.ID c = Users.Id r;
  ag_name : User.Username c = Users.Username r;
  ag_email : User.Email c = Users.Email r;
  ag_password : User.Password c = Users.Password r;
  ag_role : User.RoleID c = Users.RoleId r;
  ag_created : User.CreatedAt c = Users.CreatedAt r;
  ag_deleted : User.DeletedAt c = Users.DeletedAt r;
  ag_changed : User.PasswordChangedAt c = Users.PasswordChangedAt r;
  ag_active : User.Active c = true -> Users.Active r = true;
}.

(** The live row behind [c]. *)
Definition known (v : gmap string Users.t) (c : User.t) : Prop :=
  exists r, v !! User.ID c = Some r /\ live r = true /\ agrees c r.

Definition emails_ok (v : gmap string Users.t) : Prop :=
  forall id r, v !! id = Some r ->
    Users.Email r <> "" /\ NormalizeEmail (Users.Email r) = Users.Email r.

(** What the caller of [UpdatePassword] has to bring: the email of the row. *)
Definition knows_email (v : gmap string Users.t) (usr : User.t) : Prop :=
  User.Email usr <> "" /\
  forall id r, sql_uuid (User.ID usr) = Some id -> v !! id = Some r ->
    Users.Email r = User.Email usr.
End contract.

Class UsersContract `{UsersUsecase} := {
  users_inv : UState -> Prop;
  users_inv_table : forall u, users_inv u -> table_ok (table u) /\ emails_ok (table u);
  (** The invariant does not speak of the part of the state others share. *)
  users_inv_base : forall u b, users_inv u -> users_inv (MkU b (u_d u) (u_cache u));
  users_Store_spec : forall usr u, users_inv u ->
    wp (users_Store usr) (fun res u' => users_inv u' /\ used (u_base u') = used (u_base u) /\
      match res with
      | Ok s => exists id r, table u !! id = None /\ table u' = <[id := r]> (table u) /\
          s = ToV1Domain r /\ live r = true /\ Users.Active r = false /\
          Users.Email r = NormalizeEmail (User.Email usr) /\
          Users.Username r = TrimSpace (User.Username usr) /\
          Users.RoleId r = User.RoleID usr /\ User.Password usr <> "" /\
          VerifyPassword s (User.Password usr) = true
      | Err e => is_DomainError e = true /\
          (table u' = table u \/
           error_type e = Some ErrTypeInternal /\ exists id r, table u !! id = None /\
             table u' = <[id := r]> (table u) /\ Users.Active r = false /\
             Users.RoleId r = User.RoleID usr)
      end) u;
  users_GetByEmail_spec : forall email u, users_inv u ->
    wp (users_GetByEmail email) (fun res u' => users_inv u' /\ table u' = table u /\
      used (u_base u') = used (u_base u) /\
      match res with
      | Ok c => known (table u) c /\ User.Email c = NormalizeEmail email
      | Err e => is_DomainError e = true /\
          (error_type e = Some ErrTypeNotFound -> no_live_email (table u) (NormalizeEmail email))
      end) u;
  users_GetByID_spec : forall id u, users_inv u ->
    wp (users_GetByID id) (fun res u' => users_inv u' /\ table u' = table u /\
      used (u_base u') = used (u_base u) /\
      match res with
      | Ok s => stored_live (table u) s /\ sql_uuid id = Some (User.ID s)
      | Err e => is_DomainError e = true /\
          (error_type e = Some ErrTypeNotFound -> no_live_id (table u) id)
      end) u;
  users_Activate_spec : forall id u, users_inv u ->
    wp (users_Activate id) (fun res u' => users_inv u' /\ used (u_base u') = used (u_base u) /\
      match res with
      | Ok _ => exists now, table u' = update_live id (activated now true) (table u)
      | Err e => is_DomainError e = true /\ table u' = table u
      end) u;
  users_UpdatePassword_spec : forall usr u, users_inv u ->
    (forall x, usr = Some x -> knows_email (table u) x) ->
    wp (users_UpdatePassword usr) (fun res u' => users_inv u' /\
      used (u_base u') = used (u_base u) /\
      match res with
      | Ok _ => exists x, usr = Some x /\
          table u' = update_live (User.ID x) (repassworded x) (table u) /\
          ~ no_live_id (table u) (User.ID x)
      | Err e => is_DomainError e = true /\ table u' = table u
      end) u;
}.

(** * The implementation *)
Module UsersImpl.

(** [users.Config] *)
Record Config := MkConfig { BcryptCost : Z }.

Section impl.
Context `{UserRepository}.

(** The nil error is the [Ok] of the call. *)
Definition mapRepoError {A} (r : result error A) (op : string) : result error A :=
  match r with
  | Ok a => Ok a
  | Err err => if is_DomainError err then Err err
               else Err (InternalCause (EWrapped op err))
  end.

Definition cacheKey (email : string) : string := "user/" +:+ email.

Definition Store (cfg : Config) (in_ : User.t) : io UState (result error User.t) :=
  try user <- zoom l_base (NewUser (User.Username in_) (User.Email in_) (User.Password in_)
                                   (User.RoleID in_) (BcryptCost cfg))
  catch buildErr =>
    (if errors_Is buildErr ErrEmptyUsername || errors_Is buildErr ErrEmptyEmail
        || errors_Is buildErr ErrInvalidEmail || errors_Is buildErr ErrEmptyPassword
     then ret (Err (BadRequest (Error buildErr)))
     else ret (Err (InternalCause (EWrapped "build user" buildErr)))) ;;
  try stored <- zoom l_d (repo_Store user)
  catch repoErr => ret (mapRepoError (Err repoErr) "store user") ;;
  ret (Ok stored).

(** The function [singleflight.Group.Do] runs, and what follows: the answer is
    shared by concurrent callers of the same email. *)
Definition GetByEmail_load (email : string) : io UState (result error User.t) :=
  try user <- zoom l_d (repo_GetByEmail
        (User.mk "" "" email "" false 0 zero_time None None None))
  catch sfErr => ret (mapRepoError (Err sfErr) "get user by email") ;;
  zoom l_cache (Ristretto.Set_ (cacheKey email) (VUser user)) ;;;
  zoom l_base (ObserveCacheOp "ristretto" "set" "ok") ;;;
  ret (Ok user).

Definition GetByEmail (email : string) : io UState (result error User.t) :=
  let email := NormalizeEmail email in
  val <- zoom l_cache (Ristretto.Get (cacheKey email)) ;;
  match val with
  | Some (VUser cached) =>
      zoom l_base (ObserveCacheOp "ristretto" "get" "hit") ;;; ret (Ok cached)
  | Some (VOther _) =>
      zoom l_base (ObserveCacheOp "ristretto" "get" "error") ;;; GetByEmail_load email
  | None =>
      zoom l_base (ObserveCacheOp "ristretto" "get" "miss") ;;; GetByEmail_load email
  end.

Definition GetByID (id : string) : io UState (result error User.t) :=
  try user <- zoom l_d (repo_GetByID id)
  catch repoErr => ret (mapRepoError (Err repoErr) "get user by id") ;;
  ret (Ok user).

Definition Activate (userID : string) : io UState (result error unit) :=
  u <- zoom l_base (Domain.Activate
        (User.mk userID "" "" "" false 0 zero_time None None None)) ;;
  try _ok <- zoom l_d (repo_ChangeActiveUser u)
  catch changeErr => ret (Err (InternalCause (EWrapped "activate user" changeErr))) ;;
  existing <- zoom l_d (repo_GetByID userID) ;;
  match existing with
  | Ok existing =>
      if negb (User.Email existing =? "")%string
      then zoom l_cache (Ristretto.Del [cacheKey (User.Email existing)]) ;;; ret (Ok tt)
      else ret (Ok tt)
  | Err _ => ret (Ok tt)
  end.

Definition UpdatePassword (req : option User.t) : io UState (result error unit) :=
  match req with
  | None => ret (Err (BadRequest "user id required"))
  | Some user =>
      if (User.ID user =? "")%string then ret (Err (BadRequest "user id required")) else
      try _ok <- zoom l_d (repo_UpdatePassword user)
      catch repoErr =>
        ret (mapRepoError (Err repoErr) ("update password for " +:+ User.ID user)) ;;
      email <- (if (User.Email user =? "")%string then
                  existing <- zoom l_d (repo_GetByID (User.ID user)) ;;
                  ret (match existing with Ok existing => User.Email existing | Err _ => "" end)
                else ret (User.Email user)) ;;
      (if negb (email =? "")%string
       then zoom l_cache (Ristretto.Del [cacheKey email]) else ret tt) ;;;
      ret (Ok tt)
  end.
End impl.

Definition NewUsecase `{UserRepository} (cfg : Config) : UsersUsecase := {|
  users_Store := Store cfg;
  users_GetByEmail := GetByEmail;
  users_GetByID := GetByID;
  users_Activate := Activate;
  users_UpdatePassword := UpdatePassword;
|}.
End UsersImpl.

#[global] Arguments UsersImpl.mapRepoError : simpl never.
#[global] Arguments UsersImpl.cacheKey : simpl never.

(** * The implementation fulfils the contract *)
Section impl_ok.
Context `{PlatformLaws} `{!UserRepository} `{!UserRepositoryLaws}.
#[local] Existing Instances pl_text pl_redis pl_sql pl_rist pl_rng.

(** Every cached user is the live row of its email, up to a late activation. *)
Definition cache_safe (u : UState) : Prop :=
  forall e c, rist_view (u_cache u) !! UsersImpl.cacheKey e = Some (VUser c) ->
    known (table u) c /\ User.Email c = e.

Definition impl_inv (u : UState) : Prop :=
  table_ok (table u) /\ emails_ok (table u) /\ cache_safe u.

Lemma cacheKey_inj e1 e2 : UsersImpl.cacheKey e1 = UsersImpl.cacheKey e2 -> e1 = e2.
Proof. unfold UsersImpl.cacheKey. rewrite !app_cons_string, !app_nil_l_string. by intros [= ?]. Qed.

Lemma cache_safe_shrink u b d c :
  rist_view c ⊆ rist_view (u_cache u) -> dtable d = table u ->
  cache_safe u -> cache_safe (MkU b d c).
Proof.
  intros Hc Hd Hs e x Hx. unfold table in *. simpl in *. rewrite Hd.
  apply Hs. by eapply lookup_weaken.
Qed.

(** Rows may change under the cache as long as every cached user stays known. *)
Lemma cache_safe_table u b d c :
  rist_view c ⊆ rist_view (u_cache u) ->
  (forall e x, rist_view c !! UsersImpl.cacheKey e = Some (VUser x) -> User.Email x = e ->
     known (table u) x -> known (dtable d) x) ->
  cache_safe u -> cache_safe (MkU b d c).
Proof.
  intros Hc Hk Hs e x Hx. unfold table in *. simpl in *.
  destruct (Hs e x) as [Hx1 Hx2]; [by eapply lookup_weaken|]. eauto.
Qed.

Lemma stored_live_known v usr : stored_live v usr -> known v usr.
Proof.
  intros [Hv Hd]. exists (FromUsersV1Domain usr). split_and!; [done|by apply live_None|by destruct usr].
Qed.

Lemma known_insert v id r x : v !! id = None -> known v x -> known (<[id := r]> v) x.
Proof.
  intros Hid (s & Hs & Hl & Ha). exists s. split_and!; [|done|done].
  rewrite lookup_insert_ne; [done|]. intros ->. congruence.
Qed.

Lemma known_activated v id now x :
  known v x -> known (update_live id (activated now true) v) x.
Proof.
  intros (s & Hs & Hl & Ha). eexists. split; [by apply update_live_lookup|].
  destruct (eval_where _ s); [|done]. destruct s, Ha. by split.
Qed.

(** The row of another email is not the one whose password changes. *)
Lemma known_repassworded v usr x :
  knows_email v usr -> table_ok v -> User.Email x <> User.Email usr ->
  known v x -> known (update_live (User.ID usr) (repassworded usr) v) x.
Proof.
  intros [_ Hkn] Hok Hne (s & Hs & Hl & Ha).
  exists s. split_and!; [|done|done]. rewrite (update_live_lookup _ _ _ _ s) by done.
  destruct (eval_where _ s) eqn:E; [|done]. apply eval_live_id in E as [E _].
  rewrite (proj1 (tbl_key _ Hok _ _ Hs)) in E. destruct Hne.
  rewrite (ag_email _ _ Ha). by eapply Hkn.
Qed.

Lemma emails_ok_update_live id f v :
  (forall r, Users.Email (f r) = Users.Email r) ->
  emails_ok v -> emails_ok (update_live id f v).
Proof.
  intros Hf Hv i r. unfold update_live. rewrite lookup_fmap. intros (s & Hs & ->)%fmap_Some.
  destruct (eval_where _ s); rewrite ?Hf; by eapply Hv.
Qed.

Lemma emails_ok_insert v id r :
  Users.Email r <> "" -> NormalizeEmail (Users.Email r) = Users.Email r ->
  emails_ok v -> emails_ok (<[id := r]> v).
Proof. intros ? ? Hv i s [[<- <-]|[? ?]]%lookup_insert_Some; eauto. Qed.

Lemma mapRepoError_domain {A} e op typed :
  typed_or_raw e typed -> is_DomainError typed = true ->
  exists e', UsersImpl.mapRepoError (@Err error A e) op = Err e' /\ is_DomainError e' = true /\
    (error_type e = None -> error_type e' = Some ErrTypeInternal) /\
    (error_type e <> None -> e' = e).
Proof.
  intros [->|He] Ht; unfold UsersImpl.mapRepoError.
  - rewrite Ht. exists typed. by destruct typed.
  - destruct (is_DomainError e) eqn:E.
    + by destruct e.
    + by eexists.
Qed.

(** Dropping cached entries and leaving the table alone keeps the invariant. *)
Lemma impl_inv_shrink u b d c :
  rist_view c ⊆ rist_view (u_cache u) -> dtable d = table u ->
  impl_inv u -> impl_inv (MkU b d c).
Proof.
  intros Hc Hd (Hok & Hem & Hs). unfold impl_inv, table. cbn. rewrite Hd.
  split_and!; [done|done|by eapply cache_safe_shrink].
Qed.

Lemma impl_inv_base u b : impl_inv u -> impl_inv (MkU b (u_d u) (u_cache u)).
Proof. by intros (? & ? & ?). Qed.

Lemma impl_Store_ok cfg usr u : impl_inv u ->
  wp (UsersImpl.Store cfg usr) (fun res u' => impl_inv u' /\ used (u_base u') = used (u_base u) /\
    match res with
    | Ok s => exists id r, table u !! id = None /\ table u' = <[id := r]> (table u) /\
        s = ToV1Domain r /\ live r = true /\ Users.Active r = false /\
        Users.Email r = NormalizeEmail (User.Email usr) /\
        Users.Username r = TrimSpace (User.Username usr) /\
        Users.RoleId r = User.RoleID usr /\ User.Password usr <> "" /\
        VerifyPassword s (User.Password usr) = true
    | Err e => is_DomainError e = true /\
        (table u' = table u \/
         error_type e = Some ErrTypeInternal /\ exists id r, table u !! id = None /\
           table u' = <[id := r]> (table u) /\ Users.Active r = false /\
             Users.RoleId r = User.RoleID usr)
    end) u.
Proof.
  intros (Hok & Hem & Hc). unfold UsersImpl.Store. wp_step. wp_step. apply wp_NewUser.
  intros res b Hb _ Hres. destruct res as [nu|e].
  - destruct Hres as (now & -> & Hun & Hpw & Hne & _ & Hver & _). cbn [User.Password] in *.
    wp_steps. eapply wp_mono; [by apply repo_Store_law|]. cbn [lset l_base l_d lget u_d].
    intros res d (Hok' & _ & Hres). destruct res as [s|e]; wp_steps; cbn.
    + destruct Hres as (id & Hid & Hu & Hcl & Ht & ->).
      assert (NormalizeEmail (NormalizeEmail (User.Email usr)) = NormalizeEmail (User.Email usr))
        as Hnorm by apply NormalizeEmail_idem.
      split; [|split; [done|]].
      * split_and!; [done| |].
        -- unfold table. cbn. rewrite Ht. by apply emails_ok_insert.
        -- eapply cache_safe_table; [done| |exact Hc]. intros e x _ _ Hk. rewrite Ht.
           by apply known_insert.
      * eexists id, _. split_and!; try done.
    + destruct Hres as (Ht & Hty & Hcl).
      destruct (mapRepoError_domain (A := User.t) e "store user" _ Hty eq_refl)
        as (e' & -> & Hd & Hint & Hsame).
      split; [|split; [done|]].
      * split_and!; [done| |].
        -- unfold table. cbn. destruct Ht as [->|(_ & id & Hid & ->)]; [done|].
           apply emails_ok_insert; [done|apply NormalizeEmail_idem|done].
        -- eapply cache_safe_table; [done| |exact Hc]. intros x y _ _ Hk.
           destruct Ht as [->|(_ & id & Hid & ->)]; [done|by apply known_insert].
      * split; [done|]. destruct Ht as [Ht|(He & id & Hid & Ht)]; [by left|right].
        split; [auto|]. eexists id, _. split_and!; [done|exact Ht|done|done].
  - wp_steps; cbn; (split; [by apply (impl_inv_base _ b)|]); (split; [done|]); split; auto.
Qed.

Lemma impl_GetByEmail_load_ok email u : impl_inv u ->
  wp (UsersImpl.GetByEmail_load email) (fun res u' => impl_inv u' /\ table u' = table u /\
    used (u_base u') = used (u_base u) /\
    match res with
    | Ok c => known (table u) c /\ User.Email c = email
    | Err e => is_DomainError e = true /\
        (error_type e = Some ErrTypeNotFound -> no_live_email (table u) email)
    end) u.
Proof.
  intros (Hok & Hem & Hc). unfold UsersImpl.GetByEmail_load. wp_step. wp_step.
  eapply wp_mono; [by apply repo_GetByEmail_law|]. cbn [lset lget l_d User.Email].
  intros res d (Ht & _ & Hres). destruct res as [s|e]; wp_steps.
  - destruct Hres as [Hs He]. apply wp_cache_Set. intros c' Hc'. wp_steps. cbn in *.
    apply stored_live_known in Hs as Hk.
    split; [|done]. unfold impl_inv, table. cbn. rewrite Ht. split_and!; [done|done|].
    intros e x Hx. cbn in Hx. eapply lookup_weaken in Hx; [|exact Hc'].
    unfold table. cbn. rewrite Ht.
    apply lookup_insert_Some in Hx as [[<-%cacheKey_inj [= ->]]|[_ Hx]]; [done|by apply Hc].
  - destruct Hres as [Hty Hno].
    destruct (mapRepoError_domain (A := User.t) e "get user by email" _ Hty eq_refl)
      as (e' & -> & Hd & Hint & Hsame).
    cbn. split; [by eapply impl_inv_shrink|].
    split; [done|]. split; [done|]. split; [done|]. intros He'.
    apply Hno. intros Hn. rewrite Hint in He' by done. done.
Qed.

Lemma impl_GetByEmail_ok email u : impl_inv u ->
  wp (UsersImpl.GetByEmail email) (fun res u' => impl_inv u' /\ table u' = table u /\
    used (u_base u') = used (u_base u) /\
    match res with
    | Ok c => known (table u) c /\ User.Email c = NormalizeEmail email
    | Err e => is_DomainError e = true /\
        (error_type e = Some ErrTypeNotFound -> no_live_email (table u) (NormalizeEmail email))
    end) u.
Proof.
  intros (Hok & Hem & Hc). unfold UsersImpl.GetByEmail. wp_steps. apply wp_cache_Get.
  intros res c' Hc' Hhit. cbn in *.
  assert (forall b, impl_inv (MkU b (u_d u) c')) as Hinv.
  { intros b. by eapply impl_inv_shrink. }
  destruct res as [[cached|n]|]; wp_steps; cbn.
  - split; [apply Hinv|]. split; [done|]. split; [done|]. apply Hc. by apply Hhit.
  - exact (impl_GetByEmail_load_ok _ (MkU _ (u_d u) c') (Hinv _)).
  - exact (impl_GetByEmail_load_ok _ (MkU _ (u_d u) c') (Hinv _)).
Qed.

Lemma impl_GetByID_ok id u : impl_inv u ->
  wp (UsersImpl.GetByID id) (fun res u' => impl_inv u' /\ table u' = table u /\
    used (u_base u') = used (u_base u) /\
    match res with
    | Ok s => stored_live (table u) s /\ sql_uuid id = Some (User.ID s)
    | Err e => is_DomainError e = true /\
        (error_type e = Some ErrTypeNotFound -> no_live_id (table u) id)
    end) u.
Proof.
  intros (Hok & Hem & Hc). unfold UsersImpl.GetByID. wp_step. wp_step.
  eapply wp_mono; [by apply repo_GetByID_law|]. cbn [lset lget l_d].
  intros res d (Ht & _ & Hres).
  assert (impl_inv (MkU (u_base u) d (u_cache u))) as Hinv.
  { by eapply impl_inv_shrink. }
  destruct res as [s|e]; wp_steps; cbn.
  - done.
  - destruct Hres as [Hty Hno].
    destruct (mapRepoError_domain (A := User.t) e "get user by id" _ Hty eq_refl)
      as (e' & -> & Hd & Hint & Hsame).
    split; [done|]. split; [done|]. split; [done|]. split; [done|]. intros He'.
    apply Hno. intros Hn. rewrite Hint in He' by done. done.
Qed.

Lemma impl_Activate_ok id u : impl_inv u ->
  wp (UsersImpl.Activate id) (fun res u' => impl_inv u' /\ used (u_base u') = used (u_base u) /\
    match res with
    | Ok _ => exists now, table u' = update_live id (activated now true) (table u)
    | Err e => is_DomainError e = true /\ table u' = table u
    end) u.
Proof.
  intros (Hok & Hem & Hc). unfold UsersImpl.Activate, Domain.Activate. wp_steps. apply wp_Now.
  intros t k. wp_steps. eapply wp_mono; [by apply repo_ChangeActiveUser_law|]. cbn.
  intros res d [Hok' Hres]. destruct res as [[]|e]; wp_steps.
  - destruct Hres as [now Ht].
    assert (emails_ok (dtable d)) as Hem'.
    { rewrite Ht. apply emails_ok_update_live; [by intros []|done]. }
    assert (forall b d' c', dtable d' = dtable d -> rist_view c' ⊆ rist_view (u_cache u) ->
      impl_inv (MkU b d' c')) as Hinv.
    { intros b d' c' Hd Hs. unfold impl_inv, table. cbn. rewrite Hd. split_and!; [done|done|].
      eapply cache_safe_table; [done| |done]. intros e x _ _ Hk. rewrite Hd, Ht.
      by apply known_activated. }
    eapply wp_mono; [by apply repo_GetByID_law|]. cbn. intros res d' (Hd & _ & Hres).
    destruct res as [ex|e]; wp_steps; cbn.
    + split; [by apply Hinv|]. split; [done|]. exists now. unfold table. cbn. by rewrite Hd, Ht.
    + apply wp_cache_Del1. intros c' Hc'. wp_steps. cbn in *.
      split; [apply Hinv; [done|]|].
      { etransitivity; [exact Hc'|apply delete_subseteq]. }
      split; [done|]. exists now. unfold table. cbn. by rewrite Hd, Ht.
    + split; [by apply Hinv|]. split; [done|]. exists now. unfold table. cbn. by rewrite Hd, Ht.
  - destruct Hres as [Ht He]. cbn. split; [by eapply impl_inv_shrink|done].
Qed.

Lemma impl_UpdatePassword_ok usr u : impl_inv u ->
  (forall x, usr = Some x -> knows_email (table u) x) ->
  wp (UsersImpl.UpdatePassword usr) (fun res u' => impl_inv u' /\
    used (u_base u') = used (u_base u) /\
    match res with
    | Ok _ => exists x, usr = Some x /\
        table u' = update_live (User.ID x) (repassworded x) (table u) /\
        ~ no_live_id (table u) (User.ID x)
    | Err e => is_DomainError e = true /\ table u' = table u
    end) u.
Proof.
  intros (Hok & Hem & Hc) Hkn. unfold UsersImpl.UpdatePassword.
  destruct usr as [x|]; [|by wp_steps]. specialize (Hkn x eq_refl).
  wp_step; [by wp_steps|]. wp_step. wp_step.
  eapply wp_mono; [by apply repo_UpdatePassword_law|]. cbn.
  intros res d (Hok' & _ & Hres). destruct res as [[]|e].
  - destruct Hres as [Ht Hlive]. wp_step. wp_step; [by destruct Hkn|]. wp_steps; [by destruct Hkn|].
    apply wp_cache_Del1. intros c' Hc'. wp_steps. cbn in *. split; [|split; [done|by exists x]].
    split_and!; [done| |].
    + unfold table. cbn. rewrite Ht. apply emails_ok_update_live; [by intros []|done].
    + assert (rist_view c' ⊆ rist_view (u_cache u)) as Hsub.
      { etransitivity; [exact Hc'|apply delete_subseteq]. }
      eapply cache_safe_table; [done| |done]. intros e y Hy Hye Hk. rewrite Ht.
      apply known_repassworded; [done|done| |done]. intros Heq. subst e.
      rewrite Heq in Hy. eapply lookup_weaken in Hy; [|exact Hc'].
      by rewrite lookup_delete_eq in Hy.
  - destruct Hres as (Hty & _ & Ht).
    destruct (mapRepoError_domain (A := unit) e ("update password for " +:+ User.ID x) _ Hty eq_refl)
      as (e' & -> & Hd & _).
    wp_steps. cbn. split; [by eapply impl_inv_shrink|done].
Qed.

#[export] Instance users_contract (cfg : UsersImpl.Config) :
  @UsersContract _ (UsersImpl.NewUsecase cfg).
Proof.
  refine (@Build_UsersContract _ (UsersImpl.NewUsecase cfg) impl_inv _ _ _ _ _ _ _).
  - by intros u (? & ? & _).
  - apply impl_inv_base.
  - apply impl_Store_ok.
  - intros. by apply impl_GetByEmail_ok.
  - intros. by apply impl_GetByID_ok.
  - intros. by apply impl_Activate_ok.
  - intros. by apply impl_UpdatePassword_ok.
Defined.
End impl_ok.
