(* ===== verification/UserLoads.v ===== *)
(** The users use case under concurrency: several calls of GetByEmail, UpdatePassword,
    Activate, Store and GetByID run at the same time and interleave at their calls of the
    repository, the cache and golang.org/x/sync/singleflight
    (src/internal/business/usecases/users).  UsersUsecase.v has the same operations as
    they run alone; [solo_*] says so. *)

From Stdlib Require Import Ascii String ZArith.
From stdpp Require Import base gmap strings list pretty relations.
From S2P Require Import Prelude GoStrings AppError Records Services World Domain Repository Caches.
From S2P Require Import UsersUsecase.

Open Scope string_scope.

(** [singleflight.Group]: "only one execution is in-flight for a given key at a time; a
    duplicate caller waits for the original to complete and receives the same results".
    Entering says whether the caller executes. *)
Class SingleflightLib := {
  group : Type;
  sf_enter : string -> group -> bool * group;
  sf_leave : string -> group -> group;
  in_flight : group -> gset string;
}.
Class SingleflightLaws `{SingleflightLib} : Prop := {
  sf_enter_law : forall k g, (sf_enter k g).1 = bool_decide (k ∉ in_flight g) /\
    in_flight (sf_enter k g).2 = {[k]} ∪ in_flight g;
  sf_leave_law : forall k g, in_flight (sf_leave k g) = in_flight g ∖ {[k]};
}.

(** Where a call is: what it does next, or its answer. *)
Inductive proc :=
| GetStart (email : string)                 (** look into the cache *)
| GetEnter (email : string)                 (** call [Do] *)
| GetRead (email : string)                  (** in [Do]: ask the repository *)
| GetSet (email : string) (user : User.t)   (** in [Do]: write the cache *)
| GetLeave (email : string) (r : result error User.t)   (** the function has returned *)
| GetWait (email : string)                  (** in [Do], for somebody else's answer *)
| UpdStart (req : option User.t)
| UpdLookup (user : User.t)                 (** the email is not known *)
| UpdDel (email : string)                   (** invalidate *)
| ActStart (userID : string)
| ActLookup (userID : string)
| ActDel (email : string)
| StoreStart (user : User.t)
| IdStart (userID : string)
| UserDone (r : result error User.t)
| UnitDone (r : result error unit).

Section loads.
Context `{UserRepository} `{!SingleflightLib}.
Variable cfg : UsersImpl.Config.

Record sys := Sys { st : UState; flights : group; procs : list proc }.

(** After [Do]. *)
Definition got (r : result error User.t) : proc :=
  UserDone (UsersImpl.mapRepoError r "get user by email").

(** The steps that do not concern singleflight: each makes at most one call of the
    repository or the cache that others could notice.  First those of GetByEmail. *)
Definition get_step (p : proc) : option (io UState proc) :=
  match p with
  | GetStart email =>
      let email := NormalizeEmail email in
      Some (val <- zoom l_cache (Ristretto.Get (UsersImpl.cacheKey email)) ;;
            match val with
            | Some (VUser cached) =>
                zoom l_base (ObserveCacheOp "ristretto" "get" "hit") ;;; ret (UserDone (Ok cached))
            | Some (VOther _) =>
                zoom l_base (ObserveCacheOp "ristretto" "get" "error") ;;; ret (GetEnter email)
            | None =>
                zoom l_base (ObserveCacheOp "ristretto" "get" "miss") ;;; ret (GetEnter email)
            end)
  | GetRead email =>
      Some (try user <- zoom l_d (repo_GetByEmail
                  (User.mk "" "" email "" false 0 zero_time None None None))
            catch repoErr => ret (GetLeave email (Err repoErr)) ;;
            ret (GetSet email user))
  | GetSet email user =>
      Some (zoom l_cache (Ristretto.Set_ (UsersImpl.cacheKey email) (VUser user)) ;;;
            zoom l_base (ObserveCacheOp "ristretto" "set" "ok") ;;;
            ret (GetLeave email (Ok user)))
  | _ => None
  end.

(** UpdatePassword: the write, the email if it is missing, the invalidation. *)
Definition upd_step (p : proc) : option (io UState proc) :=
  match p with
  | UpdStart None => Some (ret (UnitDone (Err (BadRequest "user id required"))))
  | UpdStart (Some user) =>
      Some (if (User.ID user =? "")%string then ret (UnitDone (Err (BadRequest "user id required"))) else
            try _ok <- zoom l_d (repo_UpdatePassword user)
            catch repoErr => ret (UnitDone (UsersImpl.mapRepoError (Err repoErr)
                                              ("update password for " +:+ User.ID user))) ;;
            ret (if (User.Email user =? "")%string then UpdLookup user else UpdDel (User.Email user)))
  | UpdLookup user =>
      Some (existing <- zoom l_d (repo_GetByID (User.ID user)) ;;
            ret (match existing with
                 | Ok existing => if negb (User.Email existing =? "")%string
                                  then UpdDel (User.Email existing) else UnitDone (Ok tt)
                 | Err _ => UnitDone (Ok tt)
                 end))
  | UpdDel email =>
      Some (zoom l_cache (Ristretto.Del [UsersImpl.cacheKey email]) ;;; ret (UnitDone (Ok tt)))
  | _ => None
  end.

(** Activate: the write, the email, the invalidation. *)
Definition act_step (p : proc) : option (io UState proc) :=
  match p with
  | ActStart userID =>
      Some (u <- zoom l_base (Domain.Activate
                  (User.mk userID "" "" "" false 0 zero_time None None None)) ;;
            try _ok <- zoom l_d (repo_ChangeActiveUser u)
            catch changeErr => ret (UnitDone (Err (InternalCause (EWrapped "activate user" changeErr)))) ;;
            ret (ActLookup userID))
  | ActLookup userID =>
      Some (existing <- zoom l_d (repo_GetByID userID) ;;
            ret (match existing with
                 | Ok existing => if negb (User.Email existing =? "")%string
                                  then ActDel (User.Email existing) else UnitDone (Ok tt)
                 | Err _ => UnitDone (Ok tt)
                 end))
  | ActDel email =>
      Some (zoom l_cache (Ristretto.Del [UsersImpl.cacheKey email]) ;;; ret (UnitDone (Ok tt)))
  | _ => None
  end.

Definition local (p : proc) : option (io UState proc) :=
  match p with
  | GetStart _ | GetRead _ | GetSet _ _ => get_step p
  | UpdStart _ | UpdLookup _ | UpdDel _ => upd_step p
  | ActStart _ | ActLookup _ | ActDel _ => act_step p
  | StoreStart user => Some (r <- UsersImpl.Store cfg user ;; ret (UserDone r))
  | IdStart userID => Some (r <- UsersImpl.GetByID userID ;; ret (UserDone r))
  | GetEnter _ | GetLeave _ _ | GetWait _ | UserDone _ | UnitDone _ => None
  end.

(** Everybody who waits for [email] gets the answer. *)
Definition deliver (email : string) (r : result error User.t) (p : proc) : proc :=
  match p with GetWait e => if (e =? email)%string then got r else p | _ => p end.

(** The next step of call [i]; [None] when it waits or is over. *)
Definition advance (i : nat) (s : sys) : option sys :=
  p ← procs s !! i;
  match p with
  | GetEnter email =>
      let '(executes, g) := sf_enter email (flights s) in
      Some (Sys (st s) g (<[i := if executes then GetRead email else GetWait email]> (procs s)))
  | GetLeave email r =>
      Some (Sys (st s) (sf_leave email (flights s)) (deliver email r <$> <[i := got r]> (procs s)))
  | p =>
      m ← local p;
      let '(p', u) := m (st s) in
      Some (Sys u (flights s) (<[i := p']> (procs s)))
  end.

Definition starting (p : proc) : bool :=
  match p with
  | GetStart _ | UpdStart _ | ActStart _ | StoreStart _ | IdStart _ => true
  | _ => false
  end.

(** Calls start and, as far as [may] lets them, advance in any order; meanwhile the base
    moves and the cache forgets. *)
Inductive step (may : nat -> sys -> Prop) : sys -> sys -> Prop :=
| st_start p s : starting p = true -> step may s (Sys (st s) (flights s) (procs s ++ [p]))
| st_advance i s s' : may i s -> advance i s = Some s' -> step may s s'
| st_env s b c :
    rist_view c ⊆ rist_view (u_cache (st s)) ->
    step may s (Sys (MkU b (u_d (st s)) c) (flights s) (procs s)).

(** Call [i] runs alone, for at most [fuel] steps. *)
Fixpoint solo (fuel i : nat) (s : sys) : sys :=
  match fuel with
  | O => s
  | S fuel => match advance i s with Some s' => solo fuel i s' | None => s end
  end.
End loads.
