(* ===== verification/UserLoadsProps.v ===== *)
(** What holds of the users use case under concurrency: one lookup per email, nobody waits
    for ever, and when the cache can be trusted. *)

From Stdlib Require Import Ascii String ZArith.
From stdpp Require Import base gmap strings list pretty relations.
From S2P Require Import Prelude GoStrings AppError Records Services World Domain Repository Caches.
From S2P Require Import UsersUsecase UserLoads.

Open Scope string_scope.

Section props.
Context `{PlatformLaws} `{!UserRepository} `{!UserRepositoryLaws} `{!SingleflightLib} `{!SingleflightLaws}.
#[local] Existing Instances pl_text pl_redis pl_sql pl_rist pl_rng.
Variable cfg : UsersImpl.Config.

#[local] Notation advance := (advance cfg).
#[local] Notation local := (local cfg).

Definition anything (i : nat) (s : sys) : Prop := True.

(** * Alone, the steps are the operation *)
Ltac compute_solo :=
  repeat (progress (unfold try_catch, bind, ret, zoom;
    cbn -[Ristretto.Del Ristretto.Set_ Ristretto.Get UsersImpl.mapRepoError Domain.Activate NormalizeEmail])).

Lemma solo_UpdatePassword req u g :
  solo cfg 3 0 (Sys u g [UpdStart req]) =
    let '(r, u') := UsersImpl.UpdatePassword req u in Sys u' g [UnitDone r].
Proof.
  destruct req as [user|]; [|done]. unfold UsersImpl.UpdatePassword. compute_solo.
  destruct (User.ID user =? "")%string; compute_solo; [done|].
  destruct (repo_UpdatePassword user (u_d u)) as [[[]|e] d]; compute_solo; [|done].
  destruct (User.Email user =? "")%string eqn:He; compute_solo.
  - destruct (repo_GetByID (User.ID user) d) as [[ex|e] d']; compute_solo; [|done].
    destruct (User.Email ex =? "")%string; compute_solo; [done|]. by destruct (Ristretto.Del _ _).
  - rewrite He. compute_solo. by destruct (Ristretto.Del _ _).
Qed.

Lemma solo_Activate id u g :
  solo cfg 3 0 (Sys u g [ActStart id]) =
    let '(r, u') := UsersImpl.Activate id u in Sys u' g [UnitDone r].
Proof.
  unfold UsersImpl.Activate. compute_solo. destruct (Domain.Activate _ _) as [x b]. compute_solo.
  destruct (repo_ChangeActiveUser x (u_d u)) as [[[]|e] d]; compute_solo; [|done].
  destruct (repo_GetByID id d) as [[ex|e] d']; compute_solo; [|done].
  destruct (User.Email ex =? "")%string; compute_solo; [done|]. by destruct (Ristretto.Del _ _).
Qed.

Lemma solo_GetByEmail email u g :
  NormalizeEmail email ∉ in_flight g ->
  exists g', in_flight g' = in_flight g /\
  solo cfg 5 0 (Sys u g [GetStart email]) =
    let '(r, u') := UsersImpl.GetByEmail email u in Sys u' g' [UserDone r].
Proof.
  intros Hn. set (e := NormalizeEmail email) in *. destruct (sf_enter_law e g) as [Hx Hf].
  destruct (sf_enter e g) as [executes g1] eqn:Hent. cbn in Hx, Hf. rewrite bool_decide_true in Hx by done.
  subst executes. assert (in_flight (sf_leave e g1) = in_flight g) as Hg by (rewrite sf_leave_law, Hf; set_solver).
  assert (forall u, let '(r, u') := UsersImpl.GetByEmail_load e u in
    solo cfg 4 0 (Sys u g [GetEnter e]) = Sys u' (sf_leave e g1) [UserDone r]) as Hload.
  { intros u1. unfold UsersImpl.GetByEmail_load. compute_solo. rewrite Hent. compute_solo.
    destruct (repo_GetByEmail _ (u_d u1)) as [[user|err] d]; compute_solo; [|done].
    destruct (Ristretto.Set_ _ _ _); compute_solo. done. }
  unfold UsersImpl.GetByEmail. fold e. remember 4%nat as n eqn:Hn4. compute_solo. fold e.
  destruct (Ristretto.Get (UsersImpl.cacheKey e) (u_cache u)) as [[[cached|z]|] c]; compute_solo; subst n.
  - exists g. done.
  - exists (sf_leave e g1). split; [done|].
    match goal with |- context [UsersImpl.GetByEmail_load e ?u1] => specialize (Hload u1) end.
    destruct (UsersImpl.GetByEmail_load e _). exact Hload.
  - exists (sf_leave e g1). split; [done|].
    match goal with |- context [UsersImpl.GetByEmail_load e ?u1] => specialize (Hload u1) end.
    destruct (UsersImpl.GetByEmail_load e _). exact Hload.
Qed.

(** The interleaved calls are the operations: a call that runs alone, with its email not
    in flight, gets the answer and leaves the state of GetByEmail, UpdatePassword or
    Activate as UsersUsecase.v has them, in at most five steps. *)
Theorem solo_sequential u g :
  (forall email, NormalizeEmail email ∉ in_flight g ->
     exists g', in_flight g' = in_flight g /\
     solo cfg 5 0 (Sys u g [GetStart email]) =
       let '(r, u') := UsersImpl.GetByEmail email u in Sys u' g' [UserDone r]) /\
  (forall req, solo cfg 3 0 (Sys u g [UpdStart req]) =
     let '(r, u') := UsersImpl.UpdatePassword req u in Sys u' g [UnitDone r]) /\
  (forall id, solo cfg 3 0 (Sys u g [ActStart id]) =
     let '(r, u') := UsersImpl.Activate id u in Sys u' g [UnitDone r]).
Proof.
  split_and!; [intros email; apply solo_GetByEmail|intros req; apply solo_UpdatePassword|intros id; apply solo_Activate].
Qed.

(** * One lookup per email *)
Definition executing (p : proc) : option string :=
  match p with GetRead e | GetSet e _ | GetLeave e _ => Some e | _ => None end.

(** The keys in flight are those somebody is executing; who waits, waits for one of them. *)
Definition execs (s : sys) : list (option string) := executing <$> procs s.

Record flights_ok (s : sys) : Prop := {
  fl_exec : forall e, e ∈ in_flight (flights s) <-> exists i, execs s !! i = Some (Some e);
  fl_one : forall i j e, execs s !! i = Some (Some e) -> execs s !! j = Some (Some e) -> i = j;
  fl_wait : forall i e, procs s !! i = Some (GetWait e) -> e ∈ in_flight (flights s);
}.

Definition rank (p : proc) : nat :=
  match p with
  | GetStart _ => 6 | GetEnter _ => 5 | GetRead _ => 4 | GetSet _ _ => 3 | GetLeave _ _ => 2
  | GetWait _ => 1
  | UpdStart _ | ActStart _ => 3 | UpdLookup _ | ActLookup _ => 2 | UpdDel _ | ActDel _ => 1
  | StoreStart _ | IdStart _ => 1
  | UserDone _ | UnitDone _ => 0
  end.

(** A step of a call stays inside or outside [Do], never starts to wait, and comes nearer
    to the answer. *)
Lemma local_keeps p m u : local p = Some m ->
  executing (m u).1 = executing p /\ (forall e, (m u).1 <> GetWait e) /\ rank (m u).1 < rank p.
Proof.
  destruct p as [em|em|em|em user|em r|em|[user|]|user|em|id|id|em|user|id|r|r]; cbn; try done; intros [= <-];
    unfold try_catch, bind, ret, zoom; cbn; try (split_and!; [done|done|lia]);
    repeat (match goal with
      | |- context [match ?x with _ => _ end] => destruct x eqn:?
      end; cbn; try (split_and!; [done|done|lia])).
Qed.

Lemma advance_inv i s s' : advance i s = Some s' ->
  (exists p m, procs s !! i = Some p /\ local p = Some m /\
     s' = Sys (m (st s)).2 (flights s) (<[i := (m (st s)).1]> (procs s))) \/
  (exists em, procs s !! i = Some (GetEnter em) /\
     s' = Sys (st s) (sf_enter em (flights s)).2
            (<[i := if (sf_enter em (flights s)).1 then GetRead em else GetWait em]> (procs s))) \/
  (exists em r, procs s !! i = Some (GetLeave em r) /\
     s' = Sys (st s) (sf_leave em (flights s)) (deliver em r <$> <[i := got r]> (procs s))).
Proof.
  unfold UserLoads.advance. destruct (procs s !! i) as [p|] eqn:Hp; [|done]. cbn.
  assert (forall m, local p = Some m -> (let '(p', u) := m (st s) in
    Some (Sys u (flights s) (<[i := p']> (procs s)))) = Some s' ->
    exists p0 m0, Some p = Some p0 /\ local p0 = Some m0 /\
      s' = Sys (m0 (st s)).2 (flights s) (<[i := (m0 (st s)).1]> (procs s))) as Hloc.
  { intros m Hm. destruct (m (st s)) as [p' u] eqn:Hr. intros [= <-]. exists p, m. by rewrite Hr. }
  destruct p; cbn -[UserLoads.local];
    try (destruct (local _) as [m|] eqn:Hm; [cbn; intros Hs; left; by apply (Hloc m)|done]).
  - destruct (sf_enter email (flights s)) as [x g] eqn:He. intros [= <-]. right. left. exists email. by rewrite He.
  - intros [= <-]. right. right. by exists email, r.
Qed.

Lemma execs_lookup s i p : procs s !! i = Some p -> execs s !! i = Some (executing p).
Proof. intros Hp. unfold execs. by rewrite list_lookup_fmap, Hp. Qed.

Lemma execs_same s u g i p p' :
  procs s !! i = Some p -> executing p' = executing p -> execs (Sys u g (<[i := p']> (procs s))) = execs s.
Proof.
  intros Hp He. unfold execs. cbn. rewrite list_fmap_insert, He. apply list_insert_id.
  by rewrite list_lookup_fmap, Hp.
Qed.

Lemma flights_execs s s' :
  flights_ok s -> execs s' = execs s -> in_flight (flights s') = in_flight (flights s) ->
  (forall i e, procs s' !! i = Some (GetWait e) ->
     procs s !! i = Some (GetWait e) \/ e ∈ in_flight (flights s)) -> flights_ok s'.
Proof.
  intros [He Ho Hw] Hx Hg Hw'. split; rewrite ?Hx, ?Hg; [done|done|].
  intros i e Hi. destruct (Hw' i e Hi); [by eapply Hw|done].
Qed.

Lemma deliver_executing em r p : executing (deliver em r p) = executing p.
Proof. destruct p; try done. cbn. by destruct (_ =? _)%string. Qed.

Lemma flights_enter s i em :
  flights_ok s -> procs s !! i = Some (GetEnter em) -> em ∉ in_flight (flights s) ->
  flights_ok (Sys (st s) (sf_enter em (flights s)).2 (<[i := GetRead em]> (procs s))).
Proof.
  intros [He Ho Hw] Hp Hn. destruct (sf_enter_law em (flights s)) as [_ Hf].
  assert (forall j e, <[i := Some em]> (execs s) !! j = Some (Some e) ->
    i = j /\ e = em \/ execs s !! j = Some (Some e) /\ e <> em) as Hin.
  { intros j e [(-> & [= <-] & _)|[_ Hj]]%list_lookup_insert_Some; [by left|right]. split; [done|].
    intros ->. apply Hn, He. by exists j. }
  assert (execs (Sys (st s) (sf_enter em (flights s)).2 (<[i := GetRead em]> (procs s))) =
    <[i := Some em]> (execs s)) as Hx by (unfold execs; cbn; by rewrite list_fmap_insert).
  assert (i < length (execs s)) as Hlen by (apply lookup_lt_is_Some; rewrite (execs_lookup _ _ _ Hp); by eexists).
  split; rewrite ?Hx; cbn.
  - intros e. rewrite Hf, elem_of_union, elem_of_singleton, He. split.
    + intros [->|[j Hj]]; [exists i; by apply list_lookup_insert_eq|]. exists j. rewrite list_lookup_insert_ne; [done|].
      intros <-. rewrite (execs_lookup _ _ _ Hp) in Hj. done.
    + intros [j [[_ ->]|[Hj _]]%Hin]; [by left|right; by exists j].
  - intros j1 j2 e [[<- ->]|[H1' Hne]]%Hin [[<- He2]|[H2' Hne2]]%Hin; try done. by eapply Ho.
  - intros j e [(_ & ? & _)|[_ Hj]]%list_lookup_insert_Some; [done|]. rewrite Hf. apply elem_of_union_r. by eapply Hw.
Qed.

Lemma flights_leave s i em r :
  flights_ok s -> procs s !! i = Some (GetLeave em r) ->
  flights_ok (Sys (st s) (sf_leave em (flights s)) (deliver em r <$> <[i := got r]> (procs s))).
Proof.
  intros [He Ho Hw] Hp. pose proof (execs_lookup _ _ _ Hp) as Hi. cbn in Hi.
  assert (execs (Sys (st s) (sf_leave em (flights s)) (deliver em r <$> <[i := got r]> (procs s))) =
    <[i := None]> (execs s)) as Hx.
  { unfold execs. cbn. rewrite <- list_fmap_compose, <- (list_fmap_insert executing _ i (got r)).
    apply list_fmap_ext. intros _ p _. apply deliver_executing. }
  assert (forall j e, <[i := None]> (execs s) !! j = Some (Some e) <->
    execs s !! j = Some (Some e) /\ e <> em) as Hin.
  { intros j e. rewrite list_lookup_insert_Some. split.
    - intros [(_ & ? & _)|[Hne Hj]]; [done|]. split; [done|]. intros ->. by apply Hne, (Ho i j em).
    - intros [Hj Hne]. right. split; [|done]. intros <-. rewrite Hi in Hj. congruence. }
  split; rewrite ?Hx; cbn.
  - intros e. rewrite sf_leave_law, elem_of_difference, elem_of_singleton, He. setoid_rewrite Hin. naive_solver.
  - intros j1 j2 e [H1' _]%Hin [H2' _]%Hin. by eapply Ho.
  - intros j e Hj. apply list_lookup_fmap_Some in Hj as (p & Hd & Hj).
    apply list_lookup_insert_Some in Hj as [(-> & <- & _)|[_ Hj]]; [done|].
    destruct p as [| | | | |em'| | | | | | | | | |]; try done. cbn in Hd.
    destruct (String.eqb_spec em' em) as [Heq|Hne]; [done|]. injection Hd as Hd. subst e.
    rewrite sf_leave_law, elem_of_difference, elem_of_singleton. split; [by eapply Hw|done].
Qed.

Lemma flights_step may s s' : flights_ok s -> step cfg may s s' -> flights_ok s'.
Proof.
  intros Hs Hst. destruct Hst as [p s Hp|i s s' _ Ha|s b c Hc]; [|destruct (advance_inv _ _ _ Ha)
    as [(p & m & Hi & Hm & ->)|[(em & Hi & ->)|(em & r & Hi & ->)]]|by destruct Hs].
  - destruct Hs as [He Ho Hw]. assert (executing p = None) as Hx by by destruct p.
    assert (forall j e, execs s !! j = Some (Some e) <->
      execs (Sys (st s) (flights s) (procs s ++ [p])) !! j = Some (Some e)) as Hin.
    { intros j e. unfold execs. cbn. rewrite fmap_app, lookup_app. cbn. rewrite Hx.
      destruct ((executing <$> procs s) !! j) as [o|] eqn:Hj; [done|]. split; [done|].
      intros Hl%list_elem_of_lookup_2. by apply list_elem_of_singleton in Hl. }
    split; cbn; [intros e; rewrite He; by setoid_rewrite Hin|intros ? ? ?; rewrite <- !Hin; apply Ho|].
    intros i e [Hj|[_ Hj]]%lookup_app_Some; [by eapply Hw|].
    apply list_elem_of_lookup_2, list_elem_of_singleton in Hj. by subst p.
  - destruct (local_keeps p m (st s) Hm) as (Hex & Hnw & _). eapply flights_execs; [done|by eapply execs_same|done|].
    intros j e [(_ & Hw & _)|[_ Hj]]%list_lookup_insert_Some; [by destruct (Hnw e)|by left].
  - destruct (sf_enter_law em (flights s)) as [Hx Hf]. rewrite Hx. case_bool_decide as Hn; [by apply flights_enter|].
    eapply flights_execs; [done|by eapply execs_same| |]; cbn.
    { rewrite Hf. set_solver. }
    intros j e [(_ & [= ->] & _)|[_ Hj]]%list_lookup_insert_Some; [by right|by left].
  - by apply flights_leave.
Qed.

(** Nobody has called yet. *)
Definition idle (s : sys) : Prop := procs s = [] /\ in_flight (flights s) = ∅.

Lemma flights_reachable may s0 s : idle s0 -> rtc (step cfg may) s0 s -> flights_ok s.
Proof.
  intros [Hp Hf] Hst. assert (flights_ok s0) as Hs.
  { split; unfold execs; rewrite ?Hp, ?Hf; [|done|done]. intros e. split; [set_solver|by intros [? ?]]. }
  clear Hp Hf. induction Hst as [s|s1 s2 s3 H12 _ IH]; [done|]. by eapply IH, flights_step.
Qed.

(** Singleflight at work: at any time at most one call looks an email up in the
    repository or is about to cache the answer, the keys in flight are exactly those
    emails, and whoever waits, waits for such a call. *)
Theorem single_flight may s0 s : idle s0 -> rtc (step cfg may) s0 s ->
  (forall i j p q e, procs s !! i = Some p -> procs s !! j = Some q ->
     executing p = Some e -> executing q = Some e -> i = j) /\
  (forall i e, procs s !! i = Some (GetWait e) -> exists j p, procs s !! j = Some p /\ executing p = Some e).
Proof.
  intros Hi Hst. destruct (flights_reachable _ _ _ Hi Hst) as [He Ho Hw]. split.
  - intros i j p q e Hp Hq Hep Heq. apply (Ho i j e); unfold execs; rewrite list_lookup_fmap.
    + by rewrite Hp, <- Hep.
    + by rewrite Hq, <- Heq.
  - intros i e Hj. apply Hw, He in Hj as [j Hj]. unfold execs in Hj. rewrite list_lookup_fmap in Hj.
    destruct (procs s !! j) as [p|] eqn:Hp; [|done]. exists j, p. split; [done|]. by injection Hj.
Qed.

(** * Everybody is answered *)
Definition work (s : sys) : nat := sum_list (rank <$> procs s).
Definition answered (p : proc) : bool := match p with UserDone _ | UnitDone _ => true | _ => false end.

Lemma sum_list_insert (l : list nat) i x y : l !! i = Some x -> y < x -> sum_list (<[i := y]> l) < sum_list l.
Proof.
  revert i. induction l as [|z l IH]; intros [|i] Hi Hlt; cbn in *; unfold id in *; [done|done| |].
  - simplify_eq. lia.
  - by apply Nat.add_lt_mono_l, IH.
Qed.

Lemma work_insert s u g i p p' :
  procs s !! i = Some p -> rank p' < rank p -> work (Sys u g (<[i := p']> (procs s))) < work s.
Proof.
  intros Hp Hlt. unfold work. cbn. rewrite list_fmap_insert. eapply sum_list_insert; [|exact Hlt].
  by rewrite list_lookup_fmap, Hp.
Qed.

Lemma deliver_rank em r l : sum_list (rank <$> (deliver em r <$> l)) <= sum_list (rank <$> l).
Proof.
  induction l as [|p l IH]; [done|]. cbn. assert (rank (deliver em r p) <= rank p); [|lia].
  destruct p; try done. cbn. destruct (_ =? _)%string; cbn; lia.
Qed.

Lemma advance_work i s s' : advance i s = Some s' -> work s' < work s.
Proof.
  intros [(p & m & Hi & Hm & ->)|[(em & Hi & ->)|(em & r & Hi & ->)]]%advance_inv.
  - eapply work_insert; [done|]. by destruct (local_keeps p m (st s) Hm) as (_ & _ & ?).
  - eapply work_insert; [done|]. destruct (sf_enter em (flights s)).1; cbn; lia.
  - eapply Nat.le_lt_trans; [apply deliver_rank|].
    change (work (Sys (st s) (flights s) (<[i := got r]> (procs s))) < work s).
    eapply work_insert; [done|]. cbn. lia.
Qed.

Lemma can_advance s i p :
  procs s !! i = Some p -> answered p = false -> (forall e, p <> GetWait e) -> is_Some (advance i s).
Proof.
  intros Hp Ha Hw. unfold UserLoads.advance. rewrite Hp. cbn -[UserLoads.local].
  assert (forall m, is_Some ((fun m => let '(p', u) := m (st s) in Some (Sys u (flights s) (<[i:=p']> (procs s))))
    (m : io UState proc))) as Hsome by (intros m; cbn; destruct (m (st s)); by eexists).
  destruct p as [em|em|em|em user|em r|em|[user|]|user|em|id|id|em|user|id|r|r]; try done;
    try (exact (Hsome _)); try (by destruct (Hw em)).
  destruct (sf_enter em (flights s)). by eexists.
Qed.

(** C18. Nobody waits for ever: each step of a call brings the whole nearer to an end, and
    as long as a call has no answer some call can move, so that without new calls a
    bounded number of steps answers everyone, whatever the repository, the cache and the
    order of the steps. *)
Theorem everyone_answered may s0 s : idle s0 -> rtc (step cfg may) s0 s ->
  (forall i s', advance i s = Some s' -> work s' < work s) /\
  (forall i p, procs s !! i = Some p -> answered p = false -> exists j, is_Some (advance j s)).
Proof.
  intros Hi Hst. split; [intros i s'; apply advance_work|]. intros i p Hp Ha.
  destruct p as [em|em|em|em user|em r|em|req|user|em|id|id|em|user|id|r|r]; try done;
    try (exists i; by eapply can_advance).
  destruct (flights_reachable _ _ _ Hi Hst) as [He _ Hw]. apply Hw, He in Hp as [j Hj].
  unfold execs in Hj. rewrite list_lookup_fmap in Hj. destruct (procs s !! j) as [q|] eqn:Hq; [|done].
  cbn in Hj. exists j. eapply can_advance; [done| |]; by destruct q.
Qed.

(** * When the cache can be trusted *)

(** No call writes the password of an email whose row another call has read and not yet
    cached; the caller of UpdatePassword knows the email, as the auth use case does. *)
Definition undisturbed (i : nat) (s : sys) : Prop :=
  forall user, procs s !! i = Some (UpdStart (Some user)) ->
    knows_email (table (st s)) user /\ forall u, GetSet (User.Email user) u ∉ procs s.

(** A cached user is the live row of its email, unless a call is about to drop it. *)
Record loads_ok (s : sys) : Prop := {
  lo_table : table_ok (table (st s));
  lo_emails : emails_ok (table (st s));
  lo_cache : forall e c, rist_view (u_cache (st s)) !! UsersImpl.cacheKey e = Some (VUser c) ->
    (known (table (st s)) c /\ User.Email c = e) \/ UpdDel e ∈ procs s;
  lo_sets : forall e u, GetSet e u ∈ procs s -> known (table (st s)) u /\ User.Email u = e;
}.

Lemma in_insert (l : list proc) i p p' q :
  l !! i = Some p -> q ∈ <[i := p']> l -> q = p' \/ q ∈ l.
Proof.
  intros Hp [j Hj]%list_elem_of_lookup. apply list_lookup_insert_Some in Hj as [(_ & <- & _)|[_ Hj]]; [by left|].
  right. by eapply list_elem_of_lookup_2.
Qed.

Lemma in_insert_keep (l : list proc) i p p' q :
  l !! i = Some p -> q ∈ l -> q <> p -> q ∈ <[i := p']> l.
Proof.
  intros Hp [j Hj]%list_elem_of_lookup Hne. apply (list_elem_of_lookup_2 _ j).
  rewrite list_lookup_insert_ne; [done|]. intros ->. congruence.
Qed.

(** A step of a call that only drops from the cache, and after which users stay known or
    the call drops their entries next. *)
Lemma loads_step s i p p' u g :
  loads_ok s -> procs s !! i = Some p -> (forall e, p <> UpdDel e) ->
  table_ok (table u) -> emails_ok (table u) ->
  rist_view (u_cache u) ⊆ rist_view (u_cache (st s)) ->
  (forall c, known (table (st s)) c -> known (table u) c \/
     p' = UpdDel (User.Email c) /\ forall x, GetSet (User.Email c) x ∉ procs s) ->
  (forall e x, p' = GetSet e x -> known (table u) x /\ User.Email x = e) ->
  loads_ok (Sys u g (<[i := p']> (procs s))).
Proof.
  intros [Ht He Hc Hs] Hp Hne HT HE Hv Hk Hset. split; cbn; [done|done| |].
  - intros e c Hl. eapply lookup_weaken in Hl; [|exact Hv].
    destruct (Hc e c Hl) as [[Hkn <-]|Hd]; [|right; by eapply in_insert_keep].
    destruct (Hk c Hkn) as [?|[-> _]]; [by left|right].
    eapply list_elem_of_lookup_2, list_lookup_insert_eq, lookup_lt_Some, Hp.
  - intros e x Hin. destruct (in_insert _ _ _ _ _ Hp Hin) as [Heq|Hin']; [by apply Hset|].
    destruct (Hs e x Hin') as [Hkn <-]. destruct (Hk x Hkn) as [?|[_ Hno]]; [done|]. by destruct (Hno x).
Qed.

Lemma loads_quiet s i p p' u g :
  loads_ok s -> procs s !! i = Some p -> (forall e, p <> UpdDel e) ->
  table u = table (st s) -> rist_view (u_cache u) ⊆ rist_view (u_cache (st s)) ->
  (forall e x, p' = GetSet e x -> known (table (st s)) x /\ User.Email x = e) ->
  loads_ok (Sys u g (<[i := p']> (procs s))).
Proof.
  intros Hs Hp Hne HT Hv Hset.
  eapply loads_step; try done; rewrite HT; [apply Hs|apply Hs|by left|done].
Qed.

(** A row that is new, or a password that is new. *)
Lemma Store_table usr u : table_ok (table u) -> emails_ok (table u) ->
  wp (UsersImpl.Store cfg usr) (fun _ u' => u_cache u' = u_cache u /\ table_ok (table u') /\
    emails_ok (table u') /\ forall c, known (table u) c -> known (table u') c) u.
Proof.
  intros Hok Hem. unfold UsersImpl.Store. wp_step. wp_step. apply wp_NewUser.
  intros res b Hb _ Hres. destruct res as [nu|e]; [|by wp_steps].
  destruct Hres as (now & -> & _ & _ & Hne & _). cbn [User.Password] in *.
  wp_steps. eapply wp_mono; [by apply repo_Store_law|]. cbn [lset l_base l_d lget u_d].
  intros res d (Hok' & _ & Hres).
  assert (dtable d = table u \/ exists id r, table u !! id = None /\ dtable d = <[id := r]> (table u) /\
    Users.Email r <> "" /\ NormalizeEmail (Users.Email r) = Users.Email r) as Hd.
  { destruct res as [s|e].
    - destruct Hres as (id & Hid & _ & _ & Ht & _). right. eexists id, _.
      split_and!; [done|exact Ht|done|apply NormalizeEmail_idem].
    - destruct Hres as ([Ht|(_ & id & Hid & Ht)] & _); [by left|right]. eexists id, _.
      split_and!; [done|exact Ht|done|apply NormalizeEmail_idem]. }
  assert (emails_ok (dtable d) /\ forall c, known (table u) c -> known (dtable d) c) as [Hem' Hk].
  { destruct Hd as [->|(id & r & Hid & -> & Hr & Hn)]; [done|].
    split; [by apply emails_ok_insert|intros c; by apply known_insert]. }
  destruct res; wp_steps; unfold table; cbn; (split_and!; [done|done|done|exact Hk]).
Qed.

(** ** Each kind of step *)
Section local_steps.
Context (s : sys) (i : nat) (g : group) (Hs : loads_ok s).

Definition next (p' : proc) (u : UState) : Prop := loads_ok (Sys u g (<[i := p']> (procs s))).

Ltac quiet := eapply loads_quiet; [exact Hs|eassumption|done|done|try done|try done].

Lemma step_GetStart em m : procs s !! i = Some (GetStart em) -> local (GetStart em) = Some m -> wp m next (st s).
Proof.
  intros Hp [= <-]. wp_steps. apply wp_cache_Get. intros res c' Hv _. cbn in *.
  destruct res as [[c|z]|]; wp_steps; cbn; quiet.
Qed.

Lemma step_GetRead em m : procs s !! i = Some (GetRead em) -> local (GetRead em) = Some m -> wp m next (st s).
Proof.
  intros Hp [= <-]. wp_step. wp_step. eapply wp_mono; [apply repo_GetByEmail_law, Hs|].
  cbn. intros res d (Ht & _ & Hres). destruct res as [u|e]; wp_steps; cbn; [|quiet].
  quiet. intros e x [= <- <-]. destruct Hres as [Hst <-]. split; [by apply stored_live_known|done].
Qed.

Lemma step_GetSet em u m : procs s !! i = Some (GetSet em u) -> local (GetSet em u) = Some m -> wp m next (st s).
Proof.
  intros Hp [= <-]. wp_steps. apply wp_cache_Set. intros c' Hv. wp_steps. cbn in *. unfold next.
  destruct Hs as [Ht He Hc Hset]. destruct (Hset em u) as [Hk Hem]; [by eapply list_elem_of_lookup_2|].
  split; cbn; [done|done| |].
  - intros e c Hl. eapply lookup_weaken in Hl; [|exact Hv].
    apply lookup_insert_Some in Hl as [[<-%cacheKey_inj [= <-]]|[_ Hl]]; [left; by split|].
    destruct (Hc e c Hl) as [?|Hd]; [by left|right]. by eapply in_insert_keep.
  - intros e x Hin. destruct (in_insert _ _ _ _ _ Hp Hin); [done|by apply Hset].
Qed.

Lemma step_UpdStart req m :
  undisturbed i s -> procs s !! i = Some (UpdStart req) -> local (UpdStart req) = Some m -> wp m next (st s).
Proof.
  intros Hu Hp. destruct req as [user|]; [|intros [= <-]; wp_steps; quiet].
  destruct (Hu user Hp) as [Hkn Hno]. intros [= <-]. wp_step; [wp_steps; quiet|].
  wp_step. wp_step. eapply wp_mono; [apply repo_UpdatePassword_law, Hs|]. cbn.
  intros res d (Hok & _ & Hres). destruct res as [[]|e]; wp_steps; cbn.
  2:{ destruct Hres as (_ & _ & Ht). quiet. }
  rewrite (proj2 (String.eqb_neq _ _) (proj1 Hkn)). destruct Hres as [Ht _].
  eapply loads_step; [exact Hs|exact Hp|done|done| |done| |done].
  - unfold table. cbn. rewrite Ht. apply emails_ok_update_live; [by intros []|apply Hs].
  - intros c Hk. unfold table. cbn. rewrite Ht.
    destruct (decide (User.Email c = User.Email user)) as [Heq|Hne]; [right; by rewrite Heq|left].
    apply known_repassworded; try done. apply Hs.
Qed.

Lemma step_UpdLookup user m : procs s !! i = Some (UpdLookup user) -> local (UpdLookup user) = Some m -> wp m next (st s).
Proof.
  intros Hp [= <-]. wp_step. wp_step. eapply wp_mono; [apply repo_GetByID_law, Hs|]. cbn.
  intros res d (Ht & _ & _). wp_steps. cbn. quiet. intros e x. destruct res as [ex|err]; [|done].
  by destruct (_ =? _)%string.
Qed.

(** Invalidation: the entry of the email goes, whoever put it there. *)
Lemma step_UpdDel em m : procs s !! i = Some (UpdDel em) -> local (UpdDel em) = Some m -> wp m next (st s).
Proof.
  intros Hp [= <-]. wp_steps. apply wp_cache_Del1. intros c' Hv. wp_steps. cbn in *. unfold next.
  destruct Hs as [Ht He Hc Hset]. split; cbn; [done|done| |].
  - intros e c Hl. eapply lookup_weaken in Hl; [|exact Hv].
    apply lookup_delete_Some in Hl as [Hne Hl]. destruct (Hc e c Hl) as [?|Hd]; [by left|right].
    eapply in_insert_keep; [done|done|]. intros [= ->]. done.
  - intros e x Hin. destruct (in_insert _ _ _ _ _ Hp Hin); [done|by apply Hset].
Qed.

Lemma step_ActDel em m : procs s !! i = Some (ActDel em) -> local (ActDel em) = Some m -> wp m next (st s).
Proof.
  intros Hp [= <-]. wp_steps. apply wp_cache_Del1. intros c' Hv. wp_steps. cbn in *. unfold next.
  quiet. cbn. etransitivity; [exact Hv|apply delete_subseteq].
Qed.

Lemma step_ActStart id m : procs s !! i = Some (ActStart id) -> local (ActStart id) = Some m -> wp m next (st s).
Proof.
  intros Hp [= <-]. unfold Domain.Activate. wp_steps. apply wp_Now. intros t k. wp_steps.
  eapply wp_mono; [apply repo_ChangeActiveUser_law, Hs|]. cbn. intros res d [Hok Hres].
  destruct res as [[]|e]; wp_steps; cbn; [|destruct Hres; quiet]. destruct Hres as [now Ht].
  eapply loads_step; [exact Hs|exact Hp|done|done| |done| |done].
  - unfold table. cbn. rewrite Ht. apply emails_ok_update_live; [by intros []|apply Hs].
  - intros c Hk. left. unfold table. cbn. rewrite Ht. by apply known_activated.
Qed.

Lemma step_ActLookup id m : procs s !! i = Some (ActLookup id) -> local (ActLookup id) = Some m -> wp m next (st s).
Proof.
  intros Hp [= <-]. wp_step. wp_step. eapply wp_mono; [apply repo_GetByID_law, Hs|]. cbn.
  intros res d (Ht & _ & _). wp_steps. cbn. quiet. intros e x. destruct res as [ex|err]; [|done].
  by destruct (_ =? _)%string.
Qed.

Lemma step_StoreStart x m : procs s !! i = Some (StoreStart x) -> local (StoreStart x) = Some m -> wp m next (st s).
Proof.
  intros Hp [= <-]. wp_step. eapply wp_mono; [apply Store_table; apply Hs|].
  intros res u (Hc & Hok & Hem & Hk). wp_steps.
  eapply loads_step; [exact Hs|exact Hp|done|done|done|by rewrite Hc| |done]. intros c Hkn. left. by apply Hk.
Qed.

Lemma step_IdStart id m : procs s !! i = Some (IdStart id) -> local (IdStart id) = Some m -> wp m next (st s).
Proof.
  intros Hp [= <-]. unfold UsersImpl.GetByID. wp_step. wp_step. wp_step.
  eapply wp_mono; [apply repo_GetByID_law, Hs|]. cbn. intros res d (Ht & _ & _).
  destruct res; wp_steps; cbn; quiet.
Qed.

Lemma step_local p m : undisturbed i s -> procs s !! i = Some p -> local p = Some m -> wp m next (st s).
Proof.
  intros Hu Hp Hm. destruct p; try done; eauto using step_GetStart, step_GetRead, step_GetSet, step_UpdStart,
    step_UpdLookup, step_UpdDel, step_ActStart, step_ActLookup, step_ActDel, step_StoreStart, step_IdStart.
Qed.
End local_steps.

(** A step that changes only where calls are. *)
Lemma loads_moved s g ps :
  loads_ok s -> (forall e, UpdDel e ∈ procs s -> UpdDel e ∈ ps) ->
  (forall e u, GetSet e u ∈ ps -> GetSet e u ∈ procs s) -> loads_ok (Sys (st s) g ps).
Proof.
  intros [Ht He Hc Hset] Hd Hg. split; cbn; [done|done| |].
  - intros e c Hl. destruct (Hc e c Hl); [by left|right; by apply Hd].
  - intros e u Hin. by apply Hset, Hg.
Qed.

Lemma loads_step_ok s s' : loads_ok s -> step cfg undisturbed s s' -> loads_ok s'.
Proof.
  intros Hs Hst. destruct Hst as [p s Hp|i s s' Hu Ha|s b c Hv].
  - apply loads_moved; [done| |]; intros e.
    + intros Hin. apply elem_of_app. by left.
    + intros u [Hin|Hin%list_elem_of_singleton]%elem_of_app; [done|by subst p].
  - destruct (advance_inv _ _ _ Ha) as [(p & m & Hi & Hm & ->)|[(em & Hi & ->)|(em & r & Hi & ->)]].
    + exact (wp_run _ _ _ _ _ (step_local s i (flights s) Hs p m Hu Hi Hm) (surjective_pairing _)).
    + apply loads_moved; [done| |].
      * intros e Hin. by eapply in_insert_keep.
      * intros e u Hin. destruct (in_insert _ _ _ _ _ Hi Hin) as [Heq|?]; [|done].
        by destruct (sf_enter em (flights s)).1.
    + apply loads_moved; [done| |].
      * intros e Hin. apply list_elem_of_fmap. exists (UpdDel e). split; [done|]. by eapply in_insert_keep.
      * intros e u (q & Hq & Hin)%list_elem_of_fmap. destruct q; try done; cbn in Hq; [|by destruct (_ =? _)%string].
        injection Hq as -> ->. by destruct (in_insert _ _ _ _ _ Hi Hin).
  - destruct Hs as [Ht He Hc Hset]. split; cbn; [done|done| |done].
    intros e x Hl. eapply Hc. by eapply lookup_weaken.
Qed.

(** C17. The cache under concurrency. Along every run in which no password is written
    between another call's read of that row and its write to the cache, a cached user is
    at every moment the live row of that email, up to a late activation, unless the call
    that changed its password is just about to drop it: once UpdatePassword has answered,
    nobody is given the old hash from the cache. *)
Theorem cache_coherent_concurrent s0 s e c :
  idle s0 -> impl_inv (st s0) -> rtc (step cfg undisturbed) s0 s ->
  rist_view (u_cache (st s)) !! UsersImpl.cacheKey e = Some (VUser c) -> UpdDel e ∉ procs s ->
  exists r, table (st s) !! User.ID c = Some r /\ live r = true /\ Users.Email r = e /\
    Users.Password r = User.Password c /\ Users.RoleId r = User.RoleID c /\
    Users.PasswordChangedAt r = User.PasswordChangedAt c /\ (User.Active c = true -> Users.Active r = true).
Proof.
  intros [Hp _] (Hok & Hem & Hsafe) Hst Hl Hno. assert (loads_ok s) as [_ _ Hc _].
  { assert (loads_ok s0) as Hs0.
    { split; [done|done| |]; rewrite Hp; [intros ? ? ?; left; by apply Hsafe|intros ? ? Hin; by apply not_elem_of_nil in Hin]. }
    clear - Hs0 Hst H0 H2. induction Hst as [s|s1 s2 s3 H12 _ IH]; [done|]. by eapply IH, loads_step_ok. }
  destruct (Hc e c Hl) as [[(r & Hr & Hlv & Ha) He]|]; [|done]. exists r.
  rewrite <- (ag_email _ _ Ha), <- (ag_password _ _ Ha), <- (ag_role _ _ Ha), <- (ag_changed _ _ Ha).
  split_and!; try done. apply (ag_active _ _ Ha).
Qed.

(** ** Schedules *)

(** The calls that move, one after the other; [None] when one of them cannot. *)
Fixpoint schedule (l : list nat) (s : sys) : option sys :=
  match l with [] => Some s | i :: l => s' ← advance i s; schedule l s' end.

Definition writes (i : nat) (s : sys) : bool :=
  match procs s !! i with Some (UpdStart (Some _)) => true | _ => false end.
Fixpoint no_writes (l : list nat) (s : sys) : bool :=
  match l with
  | [] => true
  | i :: l => negb (writes i s) && match advance i s with Some s' => no_writes l s' | None => true end
  end.

Lemma schedule_steps l s s' : schedule l s = Some s' -> rtc (step cfg anything) s s'.
Proof.
  revert s. induction l as [|i l IH]; intros s; [intros [= <-]; apply rtc_refl|]. cbn.
  destruct (advance i s) as [s1|] eqn:Ha; [|done]. cbn. intros Hr. eapply rtc_l; [by apply (st_advance _ _ i)|by apply IH].
Qed.

Lemma schedule_undisturbed l s s' :
  schedule l s = Some s' -> no_writes l s = true -> rtc (step cfg undisturbed) s s'.
Proof.
  revert s. induction l as [|i l IH]; intros s; [intros [= <-] _; apply rtc_refl|]. cbn.
  destruct (advance i s) as [s1|] eqn:Ha; [|done]. cbn. intros Hr [Hw Hn]%andb_true_iff.
  eapply rtc_l; [apply (st_advance _ _ i); [|exact Ha]|by apply IH].
  intros user Hu. unfold writes in Hw. by rewrite Hu in Hw.
Qed.
End props.
