(* ===== verification/Jwt.v ===== *)
(** JSON web tokens: src/pkg/jwt/jwt.go over golang-jwt, the clock abstraction
    src/pkg/clock/clock.go, and the interface of the service with its contract. *)

From Stdlib Require Import Ascii String ZArith.
From stdpp Require Import base gmap strings list pretty.
From S2P Require Import Prelude GoStrings AppError Records Services World Domain.

Open Scope string_scope.

(** * Clocks *)
Inductive Clock := RealClock | frozen (t : Time).

Definition Frozen (t : Time) : Clock := frozen t.

Definition clock_Now `{Platform} (c : Clock) : io Base Time :=
  match c with RealClock => Now | frozen t => ret t end.

(** The hand-controlled clock: its state is the reported instant. *)
Module Stub.
Definition Now : io Time Time := get_state.
Definition Set_ (t : Time) : io Time unit := modify (fun _ => t).
Definition Advance (d : Duration) : io Time unit := modify (fun t => time_Add t d).
End Stub.

(** * Claims and pairs

    Of the registered claims, those the program sets; golang-jwt checks the
    other time claims as well. *)
Definition KindAccess : string := "access".
Definition KindRefresh : string := "refresh".

Module Claims.
Record t := mk {
  UserID : string;
  IsAdmin : bool;
  Email : string;
  Kind : string;
  ID : string;
  ExpiresAt : option Time;
  NotBefore : option Time;
  Issuer : string;
  IssuedAt : option Time;
}.
End Claims.

Record TokenPair := MkPair {
  AccessToken : string;
  RefreshToken : string;
  AccessExpiresAt : Time;
  RefreshExpiresAt : Time;
  AccessJTI : string;
  RefreshJTI : string;
}.

(** * golang-jwt

    [ParseWithClaims] is given the instant at which it validates, the token text
    and the key function, which sees the signing method of the header and its
    ["alg"].  The last three fields look into a token. *)
Class JwtLib := {
  jwt_method : Type;
  SigningMethodHS256 : jwt_method;
  is_SigningMethodHMAC : jwt_method -> bool;
  NewNumericDate : Time -> Time;
  jwt_SignedString : jwt_method -> Claims.t -> string -> result error string;
  jwt_ParseWithClaims :
    Time -> string -> (jwt_method -> string -> result error string) ->
    result error (bool * Claims.t);
  jwt_header : string -> jwt_method * string;
  jwt_payload : string -> option Claims.t;
  jwt_verifies : jwt_method -> string -> string -> bool;
}.

(** Strings JSON can carry unchanged, dates in whole seconds. *)
Definition portable (c : Claims.t) : Prop :=
  valid_utf8 (Claims.UserID c) = true /\ valid_utf8 (Claims.Email c) = true /\
  valid_utf8 (Claims.Kind c) = true /\ valid_utf8 (Claims.ID c) = true /\
  valid_utf8 (Claims.Issuer c) = true /\
  (forall t, Claims.ExpiresAt c = Some t \/ Claims.NotBefore c = Some t \/
             Claims.IssuedAt c = Some t -> (t mod Second = 0)%Z).

Class JwtLaws `{JwtLib} : Prop := {
  hs256_hmac : is_SigningMethodHMAC SigningMethodHS256 = true;
  jwt_date_law : forall t, NewNumericDate t = (t / Second * Second)%Z;
  jwt_sign_law : forall m c key tok, jwt_SignedString m c key = Ok tok -> portable c ->
    (jwt_header tok).1 = m /\ jwt_payload tok = Some c /\ jwt_verifies m key tok = true;
  jwt_sound_law : forall now tok kf c,
    jwt_ParseWithClaims now tok kf = Ok (true, c) ->
    jwt_payload tok = Some c /\
    (exists key, kf (jwt_header tok).1 (jwt_header tok).2 = Ok key /\
       jwt_verifies (jwt_header tok).1 key tok = true) /\
    (forall e, Claims.ExpiresAt c = Some e -> (now < e)%Z);
  jwt_complete_law : forall now tok kf c key,
    jwt_payload tok = Some c ->
    kf (jwt_header tok).1 (jwt_header tok).2 = Ok key ->
    jwt_verifies (jwt_header tok).1 key tok = true ->
    (forall e, Claims.ExpiresAt c = Some e -> (now < e)%Z) ->
    Claims.NotBefore c = None ->
    jwt_ParseWithClaims now tok kf = Ok (true, c);
}.

(** * The interface *)
Class JWTService `{Platform} := {
  jwt_GenerateToken : string -> bool -> string -> io Base (result error string);
  jwt_GenerateTokenPair : string -> bool -> string -> io Base (result error TokenPair);
  jwt_ParseToken : string -> io Base (result error Claims.t);
  jwt_ParseRefreshToken : string -> io Base (result error Claims.t);
}.

(** What the clients rely on: a pair has fresh identifiers, a parse answers with
    the claims the token carries, of the right kind. *)
Class JWTContract `{JWTService} := {
  token_claims : string -> option Claims.t;
  (** ids and emails a token carries unchanged *)
  jwt_portable : string -> string -> Prop;
  jwt_pair_spec : forall id adm em b,
    wp (jwt_GenerateTokenPair id adm em) (fun res b' => used b ⊆ used b' /\
      match res with
      | Ok p => RefreshJTI p ∉ used b /\ RefreshJTI p ∈ used b' /\
          AccessJTI p ∉ used b /\ AccessJTI p <> RefreshJTI p /\
          (jwt_portable id em ->
             (exists c, token_claims (RefreshToken p) = Some c /\ Claims.ID c = RefreshJTI p /\
               Claims.UserID c = id /\ Claims.Email c = em /\ Claims.Kind c = KindRefresh) /\
             (exists c, token_claims (AccessToken p) = Some c /\ Claims.ID c = AccessJTI p /\
               Claims.UserID c = id /\ Claims.Email c = em /\ Claims.Kind c = KindAccess /\
               Claims.IsAdmin c = adm))
      | Err _ => True
      end) b;
  jwt_refresh_spec : forall tok b,
    wp (jwt_ParseRefreshToken tok) (fun res b' => used b' = used b /\
      match res with
      | Ok c => token_claims tok = Some c /\ Claims.Kind c = KindRefresh
      | Err _ => True
      end) b;
  jwt_access_spec : forall tok b,
    wp (jwt_ParseToken tok) (fun res b' => used b' = used b /\
      match res with
      | Ok c => token_claims tok = Some c /\
          (Claims.Kind c = "" \/ Claims.Kind c = KindAccess)
      | Err _ => True
      end) b;
}.

(** * The implementation *)
Module Jwt.

Record jwtService := MkService {
  secretKey : string;
  issuer : string;
  expired : Z;          (** hours *)
  refreshExpired : Z;   (** days *)
  clock : Clock;
}.

Definition NewJWTService (secretKey issuer : string) (expired : Z) : jwtService :=
  MkService secretKey issuer expired 7 RealClock.

Definition NewJWTServiceWithRefresh (secretKey issuer : string)
    (expiredHours refreshExpiredDays : Z) : jwtService :=
  MkService secretKey issuer expiredHours refreshExpiredDays RealClock.

(** On a [*jwtService] (the other case returns the service unchanged). *)
Definition WithClock (s : jwtService) (c : Clock) : jwtService :=
  MkService (secretKey s) (issuer s) (expired s) (refreshExpired s) c.

Section jwt.
Context `{Platform} `{JwtLib}.

Definition sign (j : jwtService) (claims : Claims.t) : result error string :=
  match jwt_SignedString SigningMethodHS256 claims (secretKey j) with
  | Err err => Err (EWrapped "sign jwt" err)
  | Ok signed => Ok signed
  end.

Definition signAccess (j : jwtService) (userID : string) (isAdmin : bool) (email : string)
    : io Base (result error (string * Time * string)) :=
  now <- clock_Now (clock j) ;;
  let expiresAt := time_Add now (mul64 Hour (expired j)) in
  jti <- uuid ;;
  let claims := Claims.mk userID isAdmin email KindAccess jti
    (Some (NewNumericDate expiresAt)) None (issuer j) (Some (NewNumericDate now)) in
  match sign j claims with
  | Err err => ret (Err err)
  | Ok token => ret (Ok (token, expiresAt, jti))
  end.

Definition signRefresh (j : jwtService) (userID email : string)
    : io Base (result error (string * Time * string)) :=
  now <- clock_Now (clock j) ;;
  let expiresAt := time_Add now (mul64 (24 * Hour) (refreshExpired j)) in
  jti <- uuid ;;
  let claims := Claims.mk userID false email KindRefresh jti
    (Some (NewNumericDate expiresAt)) None (issuer j) (Some (NewNumericDate now)) in
  match sign j claims with
  | Err err => ret (Err err)
  | Ok token => ret (Ok (token, expiresAt, jti))
  end.

Definition GenerateToken (j : jwtService) (userID : string) (isAdmin : bool) (email : string)
    : io Base (result error string) :=
  r <- signAccess j userID isAdmin email ;;
  ret (match r with Ok (tok, _, _) => Ok tok | Err err => Err err end).

Definition GenerateTokenPair (j : jwtService) (userID : string) (isAdmin : bool) (email : string)
    : io Base (result error TokenPair) :=
  try a <- signAccess j userID isAdmin email catch err => ret (Err err) ;;
  let '(access, accessExp, accessJTI) := a in
  try r <- signRefresh j userID email catch err => ret (Err err) ;;
  let '(refresh, refreshExp, refreshJTI) := r in
  ret (Ok (MkPair access refresh accessExp refreshExp accessJTI refreshJTI)).

(** The key function: only HMAC methods get the secret. *)
Definition keyfunc (j : jwtService) (m : jwt_method) (alg : string) : result error string :=
  if negb (is_SigningMethodHMAC m)
  then Err (EText ("unexpected signing method: " +:+ alg))
  else Ok (secretKey j).

(** golang-jwt reads the wall clock itself, not the service's clock. *)
Definition parse (j : jwtService) (tokenString : string) : io Base (result error Claims.t) :=
  now <- Now ;;
  match jwt_ParseWithClaims now tokenString (keyfunc j) with
  | Err err => ret (Err (ESuffixed (ESent ErrInvalidToken) (Error err)))
  | Ok (valid, claims) =>
      if negb valid then ret (Err (ESent ErrInvalidToken)) else ret (Ok claims)
  end.

Definition ParseToken (j : jwtService) (tokenString : string) : io Base (result error Claims.t) :=
  try claims <- parse j tokenString catch err => ret (Err err) ;;
  if negb (Claims.Kind claims =? "")%string && negb (Claims.Kind claims =? KindAccess)%string
  then ret (Err (ESent ErrWrongTokenKind)) else ret (Ok claims).

Definition ParseRefreshToken (j : jwtService) (tokenString : string)
    : io Base (result error Claims.t) :=
  try claims <- parse j tokenString catch err => ret (Err err) ;;
  if negb (Claims.Kind claims =? KindRefresh)%string
  then ret (Err (ESent ErrWrongTokenKind)) else ret (Ok claims).
End jwt.

Definition service `{Platform} `{JwtLib} (j : jwtService) : JWTService := {|
  jwt_GenerateToken := GenerateToken j;
  jwt_GenerateTokenPair := GenerateTokenPair j;
  jwt_ParseToken := ParseToken j;
  jwt_ParseRefreshToken := ParseRefreshToken j;
|}.
End Jwt.

(** * Lemmas *)
Section jwt_ok.
Context `{PlatformLaws} `{JwtLaws}.
#[local] Existing Instances pl_text pl_redis pl_sql pl_rist pl_rng.

Definition lifetime (d : Z) (unit_ : Duration) : Duration := mul64 unit_ d.

(** The clock of the service shows some instant and moves nothing else. *)
Lemma wp_clock_Now c (Q : Time -> Base -> Prop) b :
  (forall t k, Q t (MkBase (b_rng b) k (b_obs b))) -> wp (clock_Now c) Q b.
Proof.
  intros HQ. destruct c; simpl; [by apply wp_Now|]. apply wp_ret.
  destruct b. apply HQ.
Qed.

Lemma wp_uuid (Q : string -> Base -> Prop) b :
  (forall id g, id ∉ used b -> isASCII id = true -> rng_used g = {[id]} ∪ used b ->
     Q id (MkBase g (b_clk b) (b_obs b))) ->
  wp uuid Q b.
Proof.
  intros HQ. unfold uuid. wp_step. apply wp_intro. intros id g Heq.
  pose proof (uuid_law (b_rng b)) as (Hf & Ha & Hu). simpl in *. rewrite Heq in *. by apply HQ.
Qed.

Lemma NewNumericDate_second t : (NewNumericDate t mod Second = 0)%Z.
Proof. rewrite jwt_date_law. by apply Z.mod_mul. Qed.

Lemma NewNumericDate_le t : (NewNumericDate t <= t < NewNumericDate t + Second)%Z.
Proof.
  rewrite jwt_date_law. unfold Second, Second.
  pose proof (Z.div_mod t 1000000000 ltac:(lia)).
  pose proof (Z.mod_pos_bound t 1000000000 ltac:(lia)). lia.
Qed.

Lemma valid_utf8_ascii s : isASCII s = true -> valid_utf8 s = true.
Proof.
  unfold valid_utf8. induction s as [|a s IH]; [done|]. intros [Ha Hs]%isASCII_cons.
  unfold is_ascii_byte in Ha. cbn [valid_utf8_go rune_len]. rewrite Ha. by apply IH.
Qed.

(** The claims a refresh token is signed with. *)
Definition refresh_claims (j : Jwt.jwtService) (userID email jti : string) (now exp : Time)
    : Claims.t :=
  Claims.mk userID false email KindRefresh jti (Some (NewNumericDate exp)) None
    (Jwt.issuer j) (Some (NewNumericDate now)).

Definition access_claims (j : Jwt.jwtService) (userID : string) (adm : bool) (email jti : string)
    (now exp : Time) : Claims.t :=
  Claims.mk userID adm email KindAccess jti (Some (NewNumericDate exp)) None
    (Jwt.issuer j) (Some (NewNumericDate now)).

Lemma wp_signRefresh j userID email (Q : result error (string * Time * string) -> Base -> Prop) b :
  (forall res b', used b ⊆ used b' ->
     match res with
     | Ok (tok, exp, jti) => jti ∉ used b /\ used b' = {[jti]} ∪ used b /\ isASCII jti = true /\
         exists now, exp = (now + mul64 (24 * Hour) (Jwt.refreshExpired j))%Z /\
         jwt_SignedString SigningMethodHS256 (refresh_claims j userID email jti now exp)
           (Jwt.secretKey j) = Ok tok
     | Err e => exists e', e = EWrapped "sign jwt" e'
     end -> Q res b') ->
  wp (Jwt.signRefresh j userID email) Q b.
Proof.
  intros HQ. unfold Jwt.signRefresh. wp_step. apply wp_clock_Now. intros now k. wp_step.
  apply wp_uuid. intros jti g Hf Ha Hu. unfold Jwt.sign.
  destruct (jwt_SignedString _ _ _) as [tok|e] eqn:Es; wp_steps; apply HQ.
  - unfold used in *. simpl in *. set_solver.
  - split_and!; [done|done|done|]. by exists now.
  - unfold used in *. simpl in *. set_solver.
  - eauto.
Qed.

Lemma wp_signAccess j userID adm email (Q : result error (string * Time * string) -> Base -> Prop) b :
  (forall res b', used b ⊆ used b' ->
     match res with
     | Ok (tok, exp, jti) => jti ∉ used b /\ used b' = {[jti]} ∪ used b /\ isASCII jti = true /\
         exists now, exp = (now + mul64 Hour (Jwt.expired j))%Z /\
         jwt_SignedString SigningMethodHS256 (access_claims j userID adm email jti now exp)
           (Jwt.secretKey j) = Ok tok
     | Err e => exists e', e = EWrapped "sign jwt" e'
     end -> Q res b') ->
  wp (Jwt.signAccess j userID adm email) Q b.
Proof.
  intros HQ. unfold Jwt.signAccess. wp_step. apply wp_clock_Now. intros now k. wp_step.
  apply wp_uuid. intros jti g Hf Ha Hu. unfold Jwt.sign.
  destruct (jwt_SignedString _ _ _) as [tok|e] eqn:Es; wp_steps; apply HQ.
  - unfold used in *. simpl in *. set_solver.
  - split_and!; [done|done|done|]. by exists now.
  - unfold used in *. simpl in *. set_solver.
  - eauto.
Qed.

Lemma refresh_claims_portable j userID email jti now exp :
  valid_utf8 userID = true -> valid_utf8 email = true -> valid_utf8 (Jwt.issuer j) = true ->
  isASCII jti = true -> portable (refresh_claims j userID email jti now exp).
Proof.
  intros. split_and!; try done; [by apply valid_utf8_ascii|].
  intros t [[= <-]|[[=]|[= <-]]]; apply NewNumericDate_second.
Qed.

Lemma access_claims_portable j userID adm email jti now exp :
  valid_utf8 userID = true -> valid_utf8 email = true -> valid_utf8 (Jwt.issuer j) = true ->
  isASCII jti = true -> portable (access_claims j userID adm email jti now exp).
Proof.
  intros. split_and!; try done; [by apply valid_utf8_ascii|].
  intros t [[= <-]|[[=]|[= <-]]]; apply NewNumericDate_second.
Qed.

Lemma wp_parse j tok (Q : result error Claims.t -> Base -> Prop) b :
  (forall res b', used b' = used b ->
     match res with
     | Ok c => jwt_payload tok = Some c /\
         is_SigningMethodHMAC (jwt_header tok).1 = true /\
         jwt_verifies (jwt_header tok).1 (Jwt.secretKey j) tok = true
     | Err e => errors_Is e ErrInvalidToken = true /\ error_type e = None
     end -> Q res b') ->
  wp (Jwt.parse j tok) Q b.
Proof.
  intros HQ. unfold Jwt.parse. wp_step. apply wp_Now. intros now k.
  destruct (jwt_ParseWithClaims _ _ _) as [[[] c]|e] eqn:Ep; simpl; apply wp_ret, HQ; try done.
  apply jwt_sound_law in Ep as (Hp & (key & Hk & Hv) & _). unfold Jwt.keyfunc in Hk.
  destruct (is_SigningMethodHMAC _); [|done]. injection Hk as ->. done.
Qed.
End jwt_ok.

#[export] Instance jwt_contract `{PlatformLaws} `{JwtLaws} (j : Jwt.jwtService) :
  @JWTContract _ (Jwt.service j).
Proof.
  refine (@Build_JWTContract _ (Jwt.service j) jwt_payload
    (fun id em => valid_utf8 id = true /\ valid_utf8 em = true /\ valid_utf8 (Jwt.issuer j) = true)
    _ _ _); simpl; intros.
  - unfold Jwt.GenerateTokenPair. wp_step. apply wp_signAccess. intros ra b1 Hs1 Ha.
    destruct ra as [[[ta ea] ja]|e]; [|by wp_steps].
    wp_step. apply wp_signRefresh. intros rr b2 Hs2 Hr.
    destruct rr as [[[tr er] jr]|e];
      [|wp_steps; split; [by etransitivity|done]].
    wp_steps. simpl. destruct Ha as (? & Hu1 & Haa & na & -> & Hsa), Hr as (? & Hu2 & Har & nr & -> & Hsr).
    split; [by etransitivity|]. rewrite Hu2, Hu1 in *. split_and!; [set_solver..|].
    intros (Hid & Hem & Hiss). split.
    + apply jwt_sign_law in Hsr as (_ & Hp & _); [|by apply refresh_claims_portable].
      by eexists.
    + apply jwt_sign_law in Hsa as (_ & Hp & _); [|by apply access_claims_portable].
      by eexists.
  - unfold Jwt.ParseRefreshToken. wp_step. apply wp_parse. intros res b' Hu Hc.
    destruct res as [c|e]; wp_steps; naive_solver.
  - unfold Jwt.ParseToken. wp_step. apply wp_parse. intros res b' Hu Hc.
    destruct res as [c|e]; [|by wp_steps].
    destruct (String.eqb_spec (Claims.Kind c) ""); [wp_steps; naive_solver|].
    destruct (String.eqb_spec (Claims.Kind c) KindAccess); wp_steps; naive_solver.
Defined.
