(* ===== verification/OtpCode.v ===== *)
(** Random codes: the one-time password of src/pkg/helpers/helper.otp_code_generator.go
    (rejection sampling over crypto/rand) and the opaque reset token of
    src/internal/business/usecases/auth/auth.forgot_password.go. *)

From Stdlib Require Import Ascii String ZArith.
From stdpp Require Import base gmap strings list pretty.
From S2P Require Import Prelude GoStrings AppError Records Services World Domain.

Open Scope string_scope.

Definition otpPayloads : string := "0123456789".

Definition otpCharsLength : N := N.of_nat (String.length otpPayloads).

(** The largest multiple of [otpCharsLength] that fits in a byte. *)
Definition maxValid : N := (256 - 256 mod otpCharsLength)%N.

Definition otp_digit (b : N) : ascii :=
  default "0"%char (String.get (N.to_nat (b mod otpCharsLength)) otpPayloads).

(** The [for _, b := range buf] loop: [result] holds the digits filled so far. *)
Fixpoint otp_fill (length : nat) (result : string) (buf : list N) : string :=
  match buf with
  | [] => result
  | b :: buf =>
      if (length <=? String.length result)%nat then result
      else if (b <? maxValid)%N
           then otp_fill length (result +:+ String (otp_digit b) "") buf
           else otp_fill length result buf
  end.

Section otp.
Context `{Platform}.

(** The outer loop, one buffer of [length + 10] bytes per round; [None]: still
    not filled after [fuel] rounds. *)
Fixpoint otp_loop (fuel : nat) (length : nat) (filled : string)
    : io Base (option (result error string)) :=
  if (length <=? String.length filled)%nat then ret (Some (Ok filled)) else
  match fuel with
  | O => ret None
  | S fuel =>
      try buf <- rand_Read (length + 10) catch err => ret (Some (Err err)) ;;
      otp_loop fuel length (otp_fill length filled buf)
  end.

Definition GenerateOTPCode (fuel : nat) (length : nat) : io Base (option (result error string)) :=
  otp_loop fuel length "".
End otp.

(** * [base64.RawURLEncoding.EncodeToString] *)

Definition base64_char (n : N) : ascii :=
  if (n <? 26)%N then chr (65 + n)
  else if (n <? 52)%N then chr (97 + (n - 26))
  else if (n <? 62)%N then chr (48 + (n - 52))
  else if (n =? 62)%N then "-"%char else "_"%char.

(** Groups of three bytes give four characters, a rest of one or two bytes two
    or three, without padding. *)
Fixpoint base64_raw_url (bs : list N) : string :=
  match bs with
  | [] => ""
  | [a] => String (base64_char (a / 4)) (String (base64_char ((a mod 4) * 16)) "")
  | [a; b] =>
      String (base64_char (a / 4))
        (String (base64_char ((a mod 4) * 16 + b / 16))
          (String (base64_char ((b mod 16) * 4)) ""))
  | a :: b :: c :: bs =>
      String (base64_char (a / 4))
        (String (base64_char ((a mod 4) * 16 + b / 16))
          (String (base64_char ((b mod 16) * 4 + c / 64))
            (String (base64_char (c mod 64)) (base64_raw_url bs))))
  end.

Definition resetTokenBytes : nat := 32.

Definition generateResetToken `{Platform} : io Base (result error string) :=
  try buf <- rand_Read resetTokenBytes catch err => ret (Err err) ;;
  ret (Ok (base64_raw_url buf)).

(** * Lemmas *)

(** A byte's contribution: the digit it stands for, or nothing. *)
Definition otp_accept (b : N) : option ascii :=
  if (b <? maxValid)%N then Some (otp_digit b) else None.

Definition is_digit (a : ascii) : bool := ((48 <=? code a) && (code a <=? 57))%N.

Definition bytes : list N := map N.of_nat (seq 0 256).

(** How many byte values give each of the ten digits, and how many none. *)
Definition otp_counts : list nat :=
  map (fun d => length (filter (fun b => otp_accept b = Some d) bytes))
    ["0"; "1"; "2"; "3"; "4"; "5"; "6"; "7"; "8"; "9"]%char.

(** The bytes of the rounds that count. *)
Definition accepted (buf : list N) : nat := length (filter (fun b => (b < maxValid)%N) buf).

Lemma otp_digit_digit b : is_digit (otp_digit b) = true.
Proof.
  unfold otp_digit. assert (N.to_nat (b mod otpCharsLength) < 10) as Hlt.
  { change otpCharsLength with 10%N. pose proof (N.mod_lt b 10 ltac:(lia)). lia. }
  revert Hlt. generalize (N.to_nat (b mod otpCharsLength)) as k. intros k Hk.
  do 10 (destruct k as [|k]; [reflexivity|]). lia.
Qed.

(** Filling keeps digits digits, never overshoots, and gains what is accepted. *)
Lemma otp_fill_spec length result buf :
  String.length result <= length -> string_forall is_digit result = true ->
  let out := otp_fill length result buf in
  string_forall is_digit out = true /\
  String.length out = Nat.min length (String.length result + accepted buf).
Proof.
  revert result. induction buf as [|b buf IH]; intros result Hle Hd; simpl.
  - split; [done|]. unfold accepted. simpl. lia.
  - destruct (Nat.leb_spec length (String.length result)).
    + split; [done|]. lia.
    + unfold accepted. rewrite filter_cons. destruct (N.ltb_spec b maxValid).
      * rewrite decide_True by done. simpl.
        destruct (IH (result +:+ String (otp_digit b) "")) as [IH1 IH2].
        -- rewrite length_app_string. simpl. lia.
        -- rewrite string_forall_app, Hd. simpl. by rewrite otp_digit_digit.
        -- split; [done|]. rewrite IH2, length_app_string. unfold accepted. simpl. lia.
      * rewrite decide_False by lia. destruct (IH result) as [IH1 IH2]; [lia|done|].
        split; [done|]. by rewrite IH2.
Qed.
