(* ===== verification/AuthUsecase.v ===== *)
(** The auth use case (src/internal/business/usecases/auth): credential checks,
    sessions (access and refresh tokens), account activation by one-time code,
    password change and reset, over the users use case, the token service, the
    mailer and the Redis cache. *)

From Stdlib Require Import Ascii String ZArith.
From stdpp Require Import base gmap strings list pretty.
From S2P Require Import Prelude GoStrings AppError Records Services World Domain Caches.
From S2P Require Import UsersUsecase Jwt OtpCode.

Open Scope string_scope.

(** * Redis keys (auth.redis_keys.go) *)
Definition prefixRefresh := "refresh:".
Definition prefixUserOTP := "user_otp:".
Definition prefixOTPAttempts := "otp_attempts:".
Definition prefixLoginAttempts := "login_attempts:".
Definition prefixForgotAttempts := "forgot_attempts:".
Definition prefixPasswordReset := "pwd_reset:".
Definition prefixUserResetIndex := "pwd_reset_user:".
Definition prefixPasswordCutoff := "pwd_cutoff:".

Definition RefreshKey (jti : string) : string := prefixRefresh +:+ jti.
Definition UserOTPKey (email : string) : string := prefixUserOTP +:+ email.
Definition OTPAttemptsKey (email : string) : string := prefixOTPAttempts +:+ email.
Definition LoginAttemptsKey (email : string) : string := prefixLoginAttempts +:+ email.
Definition ForgotAttemptsKey (email : string) : string := prefixForgotAttempts +:+ email.
Definition PasswordResetKey (token : string) : string := prefixPasswordReset +:+ token.
Definition UserResetIndexKey (userID : string) : string := prefixUserResetIndex +:+ userID.
Definition TokenCutoffKey (userID : string) : string := prefixPasswordCutoff +:+ userID.

#[global] Arguments RefreshKey : simpl never.
#[global] Arguments UserOTPKey : simpl never.
#[global] Arguments OTPAttemptsKey : simpl never.
#[global] Arguments LoginAttemptsKey : simpl never.
#[global] Arguments ForgotAttemptsKey : simpl never.
#[global] Arguments PasswordResetKey : simpl never.
#[global] Arguments UserResetIndexKey : simpl never.
#[global] Arguments TokenCutoffKey : simpl never.

Module Auth.

(** auth.config.go *)
Record Config := MkConfig {
  OTPMaxAttempts : Z;
  OTPTTL : Duration;
  PasswordResetTTL : Duration;
  BcryptCost : Z;
  LoginMaxAttempts : Z;
  LoginLockoutTTL : Duration;
  ForgotMaxAttempts : Z;
  ForgotLockoutTTL : Duration;
}.

(** The part of the struct that is data; the collaborators are the classes. *)
Record usecase := NewUsecase { redisCache : Redis.redisCache; cfg : Config }.

Record LoginResponse := MkLogin {
  User : User.t;
  AccessToken : string;
  RefreshToken : string;
}.

Definition dummyBcryptHash : string :=
  "$2a$10$N9qo8uLOickgx2ZMRZoMyeIjZAgcfl7p92ldGxad68LJZdL17lhWy".

Definition tokenCutoffTTL : Duration := (24 * Hour)%Z.

Section auth.
Context `{Platform} `{!OTPMailer} `{!UsersUsecase} `{!JWTService}.
Variable uc : usecase.

(** ** Calls on the collaborators, on the whole state *)
Definition cache_Set (k v : string) : io World (result error unit) :=
  zoom l_redis (Redis.Set_ (redisCache uc) k v).
Definition cache_Get (k : string) : io World (result error string) := zoom l_redis (Redis.Get k).
Definition cache_Del (k : string) : io World (result error unit) := zoom l_redis (Redis.Del k).
Definition cache_Incr (k : string) : io World (result error Z) := zoom l_redis (Redis.Incr k).
Definition cache_Expire (k : string) (d : Duration) : io World (result error unit) :=
  zoom l_redis (Redis.Expire k d).

(** ** auth.impl.go *)
Definition recordTokenCutoff (userID : string) (when : Time) : io World unit :=
  let key := TokenCutoffKey userID in
  try _ok <- cache_Set key (Itoa (time_Unix when)) catch _err => ret tt ;;
  cache_Expire key tokenCutoffTTL ;;; ret tt.

Definition rememberRefresh (pair : TokenPair) : io World (result error unit) :=
  now <- zoom l_wbase Now ;;
  let ttl := time_Sub (RefreshExpiresAt pair) now in
  if (ttl <=? 0)%Z then ret (Err (EText "refresh token already expired")) else
  try _ok <- cache_Set (RefreshKey (RefreshJTI pair)) (RefreshJTI pair)
  catch err => ret (Err err) ;;
  cache_Expire (RefreshKey (RefreshJTI pair)) ttl.

(** The attempt counter of Login, VerifyOTP and ForgotPassword: the number of
    attempts, 0 when Redis fails; the first attempt starts the window. *)
Definition count_attempt (key : string) (ttl : Duration) : io World Z :=
  try attempts <- cache_Incr key catch _err => ret 0%Z ;;
  (if (attempts =? 1)%Z then cache_Expire key ttl ;;; ret tt else ret tt) ;;;
  ret attempts.

(** ** auth.register.go *)
Definition Register (in_ : User.t) : io World (result error User.t) :=
  try stored <- zoom l_u (users_Store in_) catch err => ret (Err err) ;;
  ret (Ok stored).

(** ** auth.login.go *)

(** From the lookup on: what follows the brute-force guard. *)
Definition Login_checked (email password attemptsKey : string)
    : io World (result error LoginResponse) :=
  try user <- zoom l_u (users_GetByEmail email)
  catch _err =>
    (let _ := ValidateHash password dummyBcryptHash in
     ret (Err (Unauthorized "invalid email or password"))) ;;
  if negb (User.Active user) then ret (Err (Forbidden "account is not activated")) else
  if negb (VerifyPassword user password)
  then ret (Err (Unauthorized "invalid email or password")) else
  try pair <- zoom l_wbase (jwt_GenerateTokenPair (User.ID user) (IsAdmin user) (User.Email user))
  catch mintErr => ret (Err (InternalCause (EWrapped "generate token" mintErr))) ;;
  try _ok <- rememberRefresh pair
  catch persistErr => ret (Err (InternalCause (EWrapped "persist refresh" persistErr))) ;;
  cache_Del attemptsKey ;;;
  ret (Ok (MkLogin user (Jwt.AccessToken pair) (Jwt.RefreshToken pair))).

Definition Login (email password : string) : io World (result error LoginResponse) :=
  let email := NormalizeEmail email in
  let attemptsKey := LoginAttemptsKey email in
  if (0 <? LoginMaxAttempts (cfg uc))%Z then
    attempts <- count_attempt attemptsKey (LoginLockoutTTL (cfg uc)) ;;
    if (LoginMaxAttempts (cfg uc) <? attempts)%Z
    then ret (Err (Forbidden "too many failed login attempts, please try again later"))
    else Login_checked email password attemptsKey
  else Login_checked email password attemptsKey.

(** ** auth.send_otp.go; [fuel] bounds the rounds of the code generator *)
Definition SendOTP (fuel : nat) (email : string) : io World (option (result error unit)) :=
  let email := NormalizeEmail email in
  try user <- zoom l_u (users_GetByEmail email)
  catch _err => ret (Some (Err (NotFound "email not found"))) ;;
  if User.Active user then ret (Some (Err (BadRequest "account already activated"))) else
  generated <- zoom l_wbase (GenerateOTPCode fuel 6) ;;
  match generated with
  | None => ret None
  | Some (Err otpErr) => ret (Some (Err (InternalCause (EWrapped "generate otp" otpErr))))
  | Some (Ok code) =>
      try _ok <- zoom l_mail (mailer_SendOTP code email)
      catch mailErr =>
        (zoom l_wbase (ObserveMailerOp "queue_full") ;;;
         ret (Some (Err (InternalCause (EWrapped "send otp" mailErr))))) ;;
      let otpKey := UserOTPKey email in
      stored <- cache_Set otpKey code ;;
      zoom l_wbase (ObserveCacheOp "redis" "set" (if is_Ok stored then "ok" else "error")) ;;;
      cache_Del (OTPAttemptsKey email) ;;;
      ret (Some (Ok tt))
  end.

(** ** auth.verify_otp.go *)
Definition VerifyOTP (email otpCode : string) : io World (result error unit) :=
  let email := NormalizeEmail email in
  try user <- zoom l_u (users_GetByEmail email)
  catch _err => ret (Err (NotFound "email not found")) ;;
  if User.Active user then ret (Err (BadRequest "account already activated")) else
  let attemptsKey := OTPAttemptsKey email in
  attempts <- count_attempt attemptsKey (OTPTTL (cfg uc)) ;;
  if (OTPMaxAttempts (cfg uc) <? attempts)%Z
  then ret (Err (Forbidden "too many invalid otp attempts, please request a new code")) else
  let otpKey := UserOTPKey email in
  try otpRedis <- cache_Get otpKey
  catch _err =>
    (zoom l_wbase (ObserveCacheOp "redis" "get" "miss") ;;;
     ret (Err (BadRequest "otp code expired or not found"))) ;;
  zoom l_wbase (ObserveCacheOp "redis" "get" "hit") ;;;
  (* subtle.ConstantTimeCompare: equal lengths and equal bytes *)
  if negb (otpRedis =? otpCode)%string then ret (Err (BadRequest "invalid otp code")) else
  try _ok <- zoom l_u (users_Activate (User.ID user)) catch err => ret (Err err) ;;
  cache_Del otpKey ;;;
  cache_Del attemptsKey ;;;
  ret (Ok tt).

(** ** auth.refresh.go *)
Definition Refresh (refreshToken : string) : io World (result error LoginResponse) :=
  try claims <- zoom l_wbase (jwt_ParseRefreshToken refreshToken)
  catch _err => ret (Err (Unauthorized "invalid refresh token")) ;;
  try _live <- cache_Get (RefreshKey (Claims.ID claims))
  catch _err => ret (Err (Unauthorized "refresh token has been revoked")) ;;
  try user <- zoom l_u (users_GetByEmail (Claims.Email claims))
  catch _err => ret (Err (Unauthorized "user no longer exists")) ;;
  if negb (User.Active user) then ret (Err (Forbidden "account is not activated")) else
  let cutoff := TokensRevokedBefore user in
  if negb (time_IsZero cutoff)
     && match Claims.IssuedAt claims with Some iat => time_Before iat cutoff | None => false end
  then ret (Err (Unauthorized "refresh token has been revoked")) else
  try pair <- zoom l_wbase (jwt_GenerateTokenPair (User.ID user) (IsAdmin user) (User.Email user))
  catch mintErr => ret (Err (InternalCause (EWrapped "generate token" mintErr))) ;;
  try _ok <- rememberRefresh pair
  catch persistErr => ret (Err (InternalCause (EWrapped "persist refresh" persistErr))) ;;
  cache_Del (RefreshKey (Claims.ID claims)) ;;;
  ret (Ok (MkLogin user (Jwt.AccessToken pair) (Jwt.RefreshToken pair))).

(** ** auth.logout.go *)
Definition Logout (refreshToken : string) : io World (result error unit) :=
  try claims <- zoom l_wbase (jwt_ParseRefreshToken refreshToken)
  catch _err => ret (Err (Unauthorized "invalid refresh token")) ;;
  try _ok <- cache_Del (RefreshKey (Claims.ID claims))
  catch delErr => ret (Err (InternalCause (EWrapped "revoke refresh" delErr))) ;;
  ret (Ok tt).

(** ** auth.change_password.go *)
Definition ChangePassword (userID currentPassword newPassword : string)
    : io World (result error unit) :=
  if (newPassword =? "")%string then ret (Err (BadRequest "new password is required")) else
  try user <- zoom l_u (users_GetByID userID) catch err => ret (Err err) ;;
  if negb (VerifyPassword user currentPassword)
  then ret (Err (Unauthorized "current password is incorrect")) else
  try user <- zoom l_wbase (Domain.ChangePassword user newPassword (BcryptCost (cfg uc)))
  catch hashErr =>
    (if errors_Is hashErr ErrEmptyPassword then ret (Err (BadRequest (Error hashErr)))
     else ret (Err (InternalCause (EWrapped "hash new password" hashErr)))) ;;
  try _ok <- zoom l_u (users_UpdatePassword (Some user)) catch err => ret (Err err) ;;
  match User.PasswordChangedAt user with
  | Some when => recordTokenCutoff userID when ;;; ret (Ok tt)
  | None => ret (Ok tt)
  end.

(** ** auth.forgot_password.go *)
Definition ForgotPassword_limited (email : string) : io World (result error unit) :=
  try token <- zoom l_wbase generateResetToken
  catch tokenErr => ret (Err (InternalCause (EWrapped "generate reset token" tokenErr))) ;;
  try user <- zoom l_u (users_GetByEmail email)
  catch lookupErr =>
    (if bool_decide (error_type lookupErr = Some ErrTypeNotFound) then
       (let decoyKey := PasswordResetKey token in
        cache_Set decoyKey "decoy" ;;;
        cache_Expire decoyKey (PasswordResetTTL (cfg uc)) ;;;
        cache_Del decoyKey ;;;
        ret (Ok tt))
     else ret (Err lookupErr)) ;;
  prior <- cache_Get (UserResetIndexKey (User.ID user)) ;;
  match prior with
  | Ok prior => if negb (prior =? "")%string
                then cache_Del (PasswordResetKey prior) ;;; ret tt else ret tt
  | Err _ => ret tt
  end ;;;
  try _ok <- cache_Set (PasswordResetKey token) (User.ID user)
  catch setErr => ret (Err (InternalCause (EWrapped "persist reset token" setErr))) ;;
  cache_Expire (PasswordResetKey token) (PasswordResetTTL (cfg uc)) ;;;
  idx <- cache_Set (UserResetIndexKey (User.ID user)) token ;;
  match idx with
  | Err _ => ret tt
  | Ok _ => cache_Expire (UserResetIndexKey (User.ID user)) (PasswordResetTTL (cfg uc)) ;;; ret tt
  end ;;;
  try _ok <- zoom l_mail (mailer_SendPasswordReset token email)
  catch mailErr => ret (Err (InternalCause (EWrapped "send reset email" mailErr))) ;;
  ret (Ok tt).

Definition ForgotPassword (email : string) : io World (result error unit) :=
  let email := NormalizeEmail email in
  if (0 <? ForgotMaxAttempts (cfg uc))%Z then
    attempts <- count_attempt (ForgotAttemptsKey email) (ForgotLockoutTTL (cfg uc)) ;;
    if (ForgotMaxAttempts (cfg uc) <? attempts)%Z
    then ret (Err (Forbidden "too many password reset requests, please try again later"))
    else ForgotPassword_limited email
  else ForgotPassword_limited email.

(** ** auth.reset_password.go *)
Definition ResetPassword (token newPassword : string) : io World (result error unit) :=
  if (newPassword =? "")%string then ret (Err (BadRequest "new password is required")) else
  if (token =? "")%string then ret (Err (BadRequest "reset token is required")) else
  try userID <- cache_Get (PasswordResetKey token)
  catch _err => ret (Err (Unauthorized "reset token is invalid or expired")) ;;
  if (userID =? "")%string then ret (Err (Unauthorized "reset token is invalid or expired")) else
  try user <- zoom l_u (users_GetByID userID) catch err => ret (Err err) ;;
  try user <- zoom l_wbase (Domain.ChangePassword user newPassword (BcryptCost (cfg uc)))
  catch hashErr =>
    (if errors_Is hashErr ErrEmptyPassword then ret (Err (BadRequest (Error hashErr)))
     else ret (Err (InternalCause (EWrapped "hash reset password" hashErr)))) ;;
  try _ok <- zoom l_u (users_UpdatePassword (Some user)) catch err => ret (Err err) ;;
  cache_Del (PasswordResetKey token) ;;;
  cache_Del (UserResetIndexKey userID) ;;;
  match User.PasswordChangedAt user with
  | Some when => recordTokenCutoff userID when ;;; ret (Ok tt)
  | None => ret (Ok tt)
  end.
End auth.
End Auth.
