(* ===== verification/AuthLemmas.v ===== *)
(** Reasoning about the auth use case: the key families of Redis, the frame a
    running operation stays in, and one rule per call on a collaborator.  The
    rules are proved against the interfaces' contracts, so they hold for every
    users use case, token service and mailer that keep them. *)

From Stdlib Require Import Ascii String ZArith.
From stdpp Require Import base gmap strings list pretty.
From S2P Require Import Prelude GoStrings AppError Records Services World Domain Repository Caches.
From S2P Require Import UsersUsecase Jwt OtpCode AuthUsecase.

Open Scope string_scope.

(** * Keys *)

Inductive key :=
| KRefresh (jti : string)
| KUserOTP (email : string)
| KOTPAttempts (email : string)
| KLoginAttempts (email : string)
| KForgotAttempts (email : string)
| KPasswordReset (token : string)
| KUserResetIndex (userID : string)
| KPasswordCutoff (userID : string).

#[export] Instance key_eq_dec : EqDecision key.
Proof. solve_decision. Defined.

Definition key_text (k : key) : string :=
  match k with
  | KRefresh s => RefreshKey s
  | KUserOTP s => UserOTPKey s
  | KOTPAttempts s => OTPAttemptsKey s
  | KLoginAttempts s => LoginAttemptsKey s
  | KForgotAttempts s => ForgotAttemptsKey s
  | KPasswordReset s => PasswordResetKey s
  | KUserResetIndex s => UserResetIndexKey s
  | KPasswordCutoff s => TokenCutoffKey s
  end.

Ltac unfold_keys :=
  unfold RefreshKey, UserOTPKey, OTPAttemptsKey, LoginAttemptsKey, ForgotAttemptsKey,
    PasswordResetKey, UserResetIndexKey, TokenCutoffKey in *;
  unfold prefixRefresh, prefixUserOTP, prefixOTPAttempts, prefixLoginAttempts,
    prefixForgotAttempts, prefixPasswordReset, prefixUserResetIndex, prefixPasswordCutoff in *;
  rewrite ?app_cons_string, ?app_nil_l_string in *.

Lemma key_text_injective k1 k2 : key_text k1 = key_text k2 -> k1 = k2.
Proof.
  destruct k1, k2; cbn [key_text]; unfold_keys; intros Heq; try discriminate Heq; by simplify_eq.
Qed.

(** Two keys of different families, or of one family and different suffixes. *)
Ltac key_ne :=
  let H := fresh in
  intros H;
  lazymatch type of H with
  | ?a = ?b => unfold_keys; first [discriminate H | by simplify_eq]
  end.

(** * The frame *)
Section auth_rules.
Context `{PlatformLaws} `{!OTPMailer} `{!UsersUsecase} `{!UsersContract}
  `{!JWTService} `{!JWTContract}.
#[local] Existing Instances pl_text pl_redis pl_sql pl_rist pl_rng.
Variable uc : Auth.usecase.

(** Where an operation started in [w0] may be: the use case's invariant holds,
    the table is [T], identifiers are only added, and outside the keys of [K]
    Redis holds what it held, or has dropped it. *)
Record at_ (K : string -> Prop) (w0 : World) (T : gmap string Users.t) (w : World) : Prop := {
  at_inv : users_inv (w_u w);
  at_rows : rows w = T;
  at_issued : issued w0 ⊆ issued w;
  at_keys : forall k, ~ K k -> keys w !! k = keys w0 !! k \/ keys w !! k = None;
}.

Lemma at_start K w : users_inv (w_u w) -> at_ K w (rows w) w.
Proof. intros Hi. split; [done|done|done|by left]. Qed.

(** Every auth operation may write the keys of its own families, and refresh
    keys only for identifiers that were new. *)
Definition fresh_refresh (w0 : World) (k : string) : Prop :=
  forall jti, k = RefreshKey jti -> jti ∉ issued w0.

Lemma at_weaken (K K' : string -> Prop) w0 T w :
  (forall k, K k -> K' k) -> at_ K w0 T w -> at_ K' w0 T w.
Proof. intros HK []. split; auto. Qed.

Lemma at_redis K w0 T w r k :
  at_ K w0 T w -> K k -> only_key k (keys w) (redis_view r) ->
  at_ K w0 T (MkW (w_u w) r (w_mail w)).
Proof.
  intros [Hi Hr Hs Hk] HK Ho. split; [done|done|done|].
  intros k' Hk'. unfold keys. cbn. assert (k' <> k) as Hne by (intros ->; auto).
  destruct (Ho k' Hne) as [->|]; [|by right]. auto.
Qed.

Lemma at_redis_subset K w0 T w r :
  at_ K w0 T w -> redis_view r ⊆ keys w -> at_ K w0 T (MkW (w_u w) r (w_mail w)).
Proof.
  intros [Hi Hr Hs Hk] Hsub. split; [done|done|done|]. intros k' Hk'. unfold keys. cbn.
  destruct (redis_view r !! k') as [e|] eqn:E; [|by right]. left.
  eapply lookup_weaken in E as E'; [|exact Hsub].
  destruct (Hk k' Hk') as [Heq|Heq]; rewrite E' in Heq; done.
Qed.

Lemma at_base K w0 T w b :
  at_ K w0 T w -> used (u_base (w_u w)) ⊆ used b ->
  at_ K w0 T (lset l_wbase b w).
Proof.
  intros [Hi Hr Hs Hk] Hb. split; [by apply users_inv_base|done| |done].
  unfold issued in *. cbn. set_solver.
Qed.

Lemma at_mail K w0 T w m : at_ K w0 T w -> at_ K w0 T (MkW (w_u w) (w_redis w) m).
Proof. by intros []. Qed.

Lemma at_users K w0 T w u T' :
  at_ K w0 T w -> users_inv u -> table u = T' -> used (u_base u) = issued w ->
  at_ K w0 T' (MkW u (w_redis w) (w_mail w)).
Proof. intros [Hi Hr Hs Hk] Hi' Ht Hu. split; [done|done| |done]. unfold issued. cbn. by rewrite Hu. Qed.

(** ** Rules: Redis *)
Section rules.
Context (K : string -> Prop) (w0 : World) (T : gmap string Users.t).

Lemma wp_at_Set k v (Q : result error unit -> World -> Prop) w :
  at_ K w0 T w -> K k ->
  (forall res r', let w' := MkW (w_u w) r' (w_mail w) in
     at_ K w0 T w' -> Q res w') ->
  wp (Auth.cache_Set uc k v) Q w.
Proof.
  intros Hat HK HQ. unfold Auth.cache_Set. wp_step. apply wp_Set. intros res r' Ho e _.
  apply HQ. by eapply at_redis.
Qed.

Lemma wp_at_Get k (Q : result error string -> World -> Prop) w :
  at_ K w0 T w ->
  (forall res r', let w' := MkW (w_u w) r' (w_mail w) in
     at_ K w0 T w' ->
     match res with
     | Ok s => exists e, keys w !! k = Some e /\ json_Unmarshal (re_val e) = Some s
     | Err _ => True
     end -> Q res w') ->
  wp (Auth.cache_Get k) Q w.
Proof.
  intros Hat HQ. unfold Auth.cache_Get. wp_step. apply wp_Get. intros res r' Hs Hres.
  apply HQ; [by apply at_redis_subset|]. destruct res; [|done].
  destruct Hres as (e & He & Hj). exists e. split; [|done]. by eapply lookup_weaken.
Qed.

(** Deleting needs no permission: it only drops. *)
Lemma wp_at_Del k (Q : result error unit -> World -> Prop) w :
  at_ K w0 T w ->
  (forall res r', let w' := MkW (w_u w) r' (w_mail w) in
     at_ K w0 T w' -> (res = Ok tt -> keys w' !! k = None) -> Q res w') ->
  wp (Auth.cache_Del k) Q w.
Proof.
  intros Hat HQ. unfold Auth.cache_Del. wp_step. apply wp_Del. intros res r' _ Hs Hres.
  apply HQ; [by apply at_redis_subset|]. intros ->. by destruct Hres.
Qed.

Lemma wp_at_Expire k d (Q : result error unit -> World -> Prop) w :
  at_ K w0 T w -> K k ->
  (forall res r', let w' := MkW (w_u w) r' (w_mail w) in
     at_ K w0 T w' -> Q res w') ->
  wp (Auth.cache_Expire k d) Q w.
Proof.
  intros Hat HK HQ. unfold Auth.cache_Expire. wp_step. apply wp_Expire. intros res r' Ho _.
  apply HQ. by eapply at_redis.
Qed.

Lemma wp_at_count k d (Q : Z -> World -> Prop) w :
  at_ K w0 T w -> K k ->
  (forall n r', let w' := MkW (w_u w) r' (w_mail w) in
     at_ K w0 T w' -> Q n w') ->
  wp (Auth.count_attempt k d) Q w.
Proof.
  intros Hat HK HQ. unfold Auth.count_attempt. wp_step. unfold Auth.cache_Incr. wp_step.
  apply wp_Incr. intros res r' Ho. pose proof (at_redis _ _ _ _ _ _ Hat HK Ho) as Hat'.
  destruct res as [n|e]; wp_steps; [| |by apply HQ].
  - eapply wp_at_Expire; [done|done|]. intros res r2 w2 Hat2. wp_steps. by apply HQ.
  - by apply HQ.
Qed.

(** ** Rules: clock, metrics, randomness, mailer *)
Lemma wp_at_base {A} (m : io Base A) (Q : A -> World -> Prop) w :
  at_ K w0 T w ->
  (forall b, wp m (fun _ b' => used b ⊆ used b') b) ->
  (forall a b', let w' := lset l_wbase b' w in at_ K w0 T w' -> Q a w') ->
  wp (zoom l_wbase m) Q w.
Proof.
  intros Hat Hm HQ. wp_step. eapply wp_mono; [apply Hm|]. intros a b' Hb. apply HQ.
  by apply at_base.
Qed.

Lemma wp_at_mail {A} (m : io mail A) (Q : A -> World -> Prop) w :
  at_ K w0 T w ->
  (forall a m', let w' := MkW (w_u w) (w_redis w) m' in at_ K w0 T w' -> Q a w') ->
  wp (zoom l_mail m) Q w.
Proof. intros Hat HQ. wp_step. apply wp_intro. intros a m' _. apply HQ. by apply at_mail. Qed.

(** ** Rules: the token service *)
Lemma wp_at_pair id adm em (Q : result error TokenPair -> World -> Prop) w :
  at_ K w0 T w ->
  (forall res b', let w' := lset l_wbase b' w in at_ K w0 T w' ->
     match res with
     | Ok p => RefreshJTI p ∉ issued w0 /\ RefreshJTI p ∈ issued w' /\
         (jwt_portable id em -> exists c, token_claims (RefreshToken p) = Some c /\
            Claims.ID c = RefreshJTI p /\ Claims.UserID c = id /\ Claims.Email c = em)
     | Err _ => True
     end -> Q res w') ->
  wp (zoom l_wbase (jwt_GenerateTokenPair id adm em)) Q w.
Proof.
  intros Hat HQ. wp_step. eapply wp_mono; [apply jwt_pair_spec|]. intros res b' [Hs Hres].
  apply HQ; [by apply at_base|]. destruct res as [p|]; [|done].
  destruct Hres as (Hf & Hu & _ & _ & Hc). split; [|split; [done|]].
  - intros Hin. apply Hf. by apply (at_issued _ _ _ _ Hat).
  - intros Hp. destruct (Hc Hp) as [(c & ? & ? & ? & ? & ?) _]. by exists c.
Qed.

Lemma wp_at_refresh tok (Q : result error Claims.t -> World -> Prop) w :
  at_ K w0 T w ->
  (forall res b', let w' := lset l_wbase b' w in at_ K w0 T w' ->
     match res with
     | Ok c => token_claims tok = Some c /\ Claims.Kind c = KindRefresh
     | Err _ => True
     end -> Q res w') ->
  wp (zoom l_wbase (jwt_ParseRefreshToken tok)) Q w.
Proof.
  intros Hat HQ. wp_step. eapply wp_mono; [apply jwt_refresh_spec|]. intros res b' [Hs Hres].
  apply HQ; [|done]. apply at_base; [done|]. cbn. unfold issued in *. by rewrite Hs.
Qed.

(** ** Rules: the users use case *)
Lemma wp_at_GetByEmail email (Q : result error User.t -> World -> Prop) w :
  at_ K w0 T w ->
  (forall res u', let w' := MkW u' (w_redis w) (w_mail w) in at_ K w0 T w' ->
     match res with
     | Ok c => known T c /\ User.Email c = NormalizeEmail email
     | Err e => is_DomainError e = true /\
         (error_type e = Some ErrTypeNotFound -> no_live_email T (NormalizeEmail email))
     end -> Q res w') ->
  wp (zoom l_u (users_GetByEmail email)) Q w.
Proof.
  intros Hat HQ. destruct (Hat) as [Hi Hr _ _]. wp_step.
  eapply wp_mono; [by apply users_GetByEmail_spec|]. intros res u' (Hi' & Ht & Hu & Hres).
  unfold rows in Hr. cbn in *. rewrite Hr in *. apply HQ; [|done].
  by eapply at_users.
Qed.

Lemma wp_at_GetByID id (Q : result error User.t -> World -> Prop) w :
  at_ K w0 T w ->
  (forall res u', let w' := MkW u' (w_redis w) (w_mail w) in at_ K w0 T w' ->
     match res with
     | Ok c => stored_live T c /\ sql_uuid id = Some (User.ID c)
     | Err e => is_DomainError e = true /\
         (error_type e = Some ErrTypeNotFound -> no_live_id T id)
     end -> Q res w') ->
  wp (zoom l_u (users_GetByID id)) Q w.
Proof.
  intros Hat HQ. destruct (Hat) as [Hi Hr _ _]. wp_step.
  eapply wp_mono; [by apply users_GetByID_spec|]. intros res u' (Hi' & Ht & Hu & Hres).
  unfold rows in Hr. cbn in *. rewrite Hr in *. apply HQ; [|done].
  by eapply at_users.
Qed.

Lemma wp_at_Activate id (Q : result error unit -> World -> Prop) w :
  at_ K w0 T w ->
  (forall res u' T', let w' := MkW u' (w_redis w) (w_mail w) in at_ K w0 T' w' ->
     match res with
     | Ok _ => exists now, T' = update_live id (activated now true) T
     | Err e => is_DomainError e = true /\ T' = T
     end -> Q res w') ->
  wp (zoom l_u (users_Activate id)) Q w.
Proof.
  intros Hat HQ. destruct (Hat) as [Hi Hr _ _]. wp_step.
  eapply wp_mono; [by apply users_Activate_spec|]. intros res u' (Hi' & Hu & Hres).
  unfold rows in Hr. cbn in *. rewrite Hr in *. apply (HQ res u' (table u')); [|done].
  by eapply at_users.
Qed.

Lemma wp_at_UpdatePassword x (Q : result error unit -> World -> Prop) w :
  at_ K w0 T w -> knows_email T x ->
  (forall res u' T', let w' := MkW u' (w_redis w) (w_mail w) in at_ K w0 T' w' ->
     match res with
     | Ok _ => T' = update_live (User.ID x) (repassworded x) T
     | Err e => is_DomainError e = true /\ T' = T
     end -> Q res w') ->
  wp (zoom l_u (users_UpdatePassword (Some x))) Q w.
Proof.
  intros Hat Hkn HQ. destruct (Hat) as [Hi Hr _ _]. wp_step. unfold rows in Hr.
  eapply wp_mono; [apply users_UpdatePassword_spec; [done|]|].
  { intros y [= <-]. cbn. by rewrite Hr. }
  intros res u' (Hi' & Hu & Hres). cbn in *. rewrite Hr in *.
  apply (HQ res u' (table u')); [by eapply at_users|].
  destruct res; [|done]. by destruct Hres as (y & [= <-] & Ht & _).
Qed.

Lemma wp_at_Store x (Q : result error User.t -> World -> Prop) w :
  at_ K w0 T w ->
  (forall res u' T', let w' := MkW u' (w_redis w) (w_mail w) in at_ K w0 T' w' ->
     match res with
     | Ok s => exists id r, T !! id = None /\ T' = <[id := r]> T /\
         s = ToV1Domain r /\ live r = true /\ Users.Active r = false /\
         Users.Email r = NormalizeEmail (User.Email x) /\
         Users.Username r = TrimSpace (User.Username x) /\
         Users.RoleId r = User.RoleID x /\ User.Password x <> "" /\
         VerifyPassword s (User.Password x) = true
     | Err e => is_DomainError e = true /\
         (T' = T \/ error_type e = Some ErrTypeInternal /\ exists id r, T !! id = None /\
           T' = <[id := r]> T /\ Users.Active r = false /\ Users.RoleId r = User.RoleID x)
     end -> Q res w') ->
  wp (zoom l_u (users_Store x)) Q w.
Proof.
  intros Hat HQ. destruct (Hat) as [Hi Hr _ _]. wp_step.
  eapply wp_mono; [by apply users_Store_spec|]. intros res u' (Hi' & Hu & Hres).
  unfold rows in Hr. cbn in *. rewrite Hr in *. apply (HQ res u' (table u')); [|done].
  by eapply at_users.
Qed.
End rules.

(** ** What only moves the shared base *)
Definition grows {A} (m : io Base A) : Prop := forall b, wp m (fun _ b' => used b ⊆ used b') b.

Lemma grows_Now : grows Now.
Proof. intros b. by apply wp_Now. Qed.

Lemma grows_observe m : grows (observe m).
Proof. intros b. unfold observe. by wp_steps. Qed.

Lemma grows_rand n : grows (rand_Read n).
Proof.
  intros b. unfold rand_Read. wp_step. apply wp_intro. intros res g Heq.
  pose proof (rand_read_law n (b_rng b)) as [Hu _]. cbn in Heq. rewrite Heq in Hu. cbn in *.
  unfold used. cbn. by rewrite Hu.
Qed.

Lemma grows_reset_token : grows generateResetToken.
Proof.
  intros b. unfold generateResetToken. wp_step. eapply wp_mono; [apply grows_rand|].
  intros [bs|e] b' Hb; by wp_steps.
Qed.

Lemma grows_otp_loop fuel n filled : grows (otp_loop fuel n filled).
Proof.
  revert filled. induction fuel as [|fuel IH]; intros filled b; simpl; wp_step; try by wp_steps.
  wp_step. eapply wp_mono; [apply grows_rand|]. intros [bs|e] b' Hb; [|by wp_steps].
  eapply wp_mono; [apply IH|]. intros ? ? ?. by etransitivity.
Qed.

Lemma grows_otp fuel n : grows (GenerateOTPCode fuel n).
Proof. apply grows_otp_loop. Qed.

(** ** The two helpers of auth.impl.go *)
Section helpers.
Context (K : string -> Prop) (w0 : World) (T : gmap string Users.t).

Lemma wp_at_remember p (Q : result error unit -> World -> Prop) w :
  at_ K w0 T w -> K (RefreshKey (RefreshJTI p)) ->
  (forall res w', at_ K w0 T w' -> issued w ⊆ issued w' -> Q res w') ->
  wp (Auth.rememberRefresh uc p) Q w.
Proof.
  intros Hat HK HQ. unfold Auth.rememberRefresh. wp_step. wp_step. apply wp_Now. intros t c.
  assert (at_ K w0 T (lset l_wbase (MkBase (b_rng (u_base (w_u w))) c (b_obs (u_base (w_u w)))) w))
    as Hat1 by by apply at_base.
  wp_step; [by apply wp_ret, HQ|]. wp_step. eapply wp_at_Set; [done|done|].
  intros res r' w2 Hat2. destruct res as [[]|e]; [|by apply wp_ret, HQ].
  eapply wp_at_Expire; [done|done|]. intros res2 r2 w3 Hat3. by apply HQ.
Qed.

Lemma wp_at_cutoff id t (Q : unit -> World -> Prop) w :
  at_ K w0 T w -> K (TokenCutoffKey id) ->
  (forall r', let w' := MkW (w_u w) r' (w_mail w) in at_ K w0 T w' -> Q tt w') ->
  wp (Auth.recordTokenCutoff uc id t) Q w.
Proof.
  intros Hat HK HQ. unfold Auth.recordTokenCutoff. wp_step. eapply wp_at_Set; [done|done|].
  intros res r' w2 Hat2. destruct res as [[]|e]; wp_steps; [|by apply HQ].
  eapply wp_at_Expire; [done|done|]. intros res2 r2 w3 Hat3. wp_steps. by apply HQ.
Qed.

Lemma wp_at_domain_change u pw cost (Q : result error User.t -> World -> Prop) w :
  at_ K w0 T w ->
  (forall res b', let w' := lset l_wbase b' w in at_ K w0 T w' ->
     match res with
     | Ok u' => exists h now, u' = with_Password u h now /\ pw <> "" /\ VerifyPassword u' pw = true
     | Err e => pw = "" -> e = ESent ErrEmptyPassword
     end -> Q res w') ->
  wp (zoom l_wbase (Domain.ChangePassword u pw cost)) Q w.
Proof.
  intros Hat HQ. wp_step. apply wp_ChangePassword. intros res b' Hu _ Hres.
  apply HQ; [|done]. apply at_base; [done|]. unfold issued. cbn in *. by rewrite Hu.
Qed.
End helpers.
End auth_rules.

#[export] Hint Resolve grows_Now grows_observe grows_rand grows_reset_token grows_otp : wp.
