(* ===== verification/AuthEffects.v ===== *)
(** One effect lemma per auth operation: which keys it may write, how the table
    ends, and what a success or an error means.  The properties of
    [AuthProps.v] are read off these. *)

From Stdlib Require Import Ascii String ZArith.
From stdpp Require Import base gmap strings list pretty.
From S2P Require Import Prelude GoStrings AppError Records Services World Domain Repository Caches.
From S2P Require Import UsersUsecase Jwt OtpCode AuthUsecase AuthLemmas.

Open Scope string_scope.

Section effects.
Context `{PlatformLaws} `{!OTPMailer} `{!UsersUsecase} `{!UsersContract}
  `{!JWTService} `{!JWTContract}.
#[local] Existing Instances pl_text pl_redis pl_sql pl_rist pl_rng.
Variable uc : Auth.usecase.

(** The keys an operation may write. *)
Definition new_refresh (w0 : World) (k : string) : Prop :=
  exists jti, k = RefreshKey jti /\ jti ∉ issued w0.

Definition login_keys (w0 : World) (email k : string) : Prop :=
  k = LoginAttemptsKey (NormalizeEmail email) \/ new_refresh w0 k.

Definition verify_keys (email k : string) : Prop := k = OTPAttemptsKey (NormalizeEmail email).

Definition send_keys (email k : string) : Prop := k = UserOTPKey (NormalizeEmail email).

Definition cutoff_keys (id k : string) : Prop := k = TokenCutoffKey id.

Definition forgot_keys (email k : string) : Prop :=
  k = ForgotAttemptsKey (NormalizeEmail email) \/
  (exists token, k = PasswordResetKey token) \/ (exists id, k = UserResetIndexKey id).

Definition no_keys (k : string) : Prop := False.

Lemma NormalizeEmail_twice e : NormalizeEmail (NormalizeEmail e) = NormalizeEmail e.
Proof. apply NormalizeEmail_idem. Qed.

(** A user the lookup by email answers with, told apart by the live row. *)
Lemma known_row T c : known T c ->
  exists r, T !! User.ID c = Some r /\ live r = true /\ agrees c r.
Proof. done. Qed.

(** ** The part Login and Refresh share: mint a pair, remember its refresh token *)
Definition minted (w0 : World) (id email : string) (w' : World) (tok : string) : Prop :=
  exists jti, jti ∉ issued w0 /\ jti ∈ issued w' /\
    (jwt_portable id email -> exists c, token_claims tok = Some c /\ Claims.ID c = jti /\
       Claims.UserID c = id /\ Claims.Email c = email).

Lemma Login_checked_effect K w0 T email password ak w :
  at_ K w0 T w -> (forall k, new_refresh w0 k -> K k) -> NormalizeEmail email = email ->
  wp (Auth.Login_checked uc email password ak) (fun res w' => at_ K w0 T w' /\
    match res with
    | Ok resp =>
        known T (Auth.User resp) /\ User.Active (Auth.User resp) = true /\
        User.Email (Auth.User resp) = email /\
        VerifyPassword (Auth.User resp) password = true /\
        minted w0 (User.ID (Auth.User resp)) email w' (Auth.RefreshToken resp)
    | Err e => is_DomainError e = true /\
        e <> Forbidden "too many failed login attempts, please try again later"
    end) w.
Proof.
  intros Hat HK Hn. unfold Auth.Login_checked. wp_step.
  eapply wp_at_GetByEmail; [done|]. intros res u1 w1 Hat1 Hres.
  destruct res as [user|e]; [|by wp_steps]. rewrite Hn in Hres. destruct Hres as [Hkn Hem].
  destruct (User.Active user) eqn:Ea; simpl; [|by wp_steps].
  destruct (VerifyPassword user password) eqn:Ev; simpl; [|by wp_steps].
  wp_step. eapply wp_at_pair; [done|]. intros res b2 w2 Hat2 Hres.
  destruct res as [p|e]; [|by wp_steps]. destruct Hres as (Hf & Hu & Hc). rewrite Hem in Hc.
  wp_step. eapply wp_at_remember; [done|apply HK; by eexists|]. intros res w3 Hat3 Hs.
  destruct res as [[]|e]; [|by wp_steps]. wp_step. eapply wp_at_Del; [done|].
  intros res r4 w4 Hat4 _. wp_steps. split; [done|]. simpl. split_and!; try done.
  exists (RefreshJTI p). split_and!; [done|by apply Hs|done].
Qed.

Lemma Login_effect email password w0 : users_inv (w_u w0) ->
  wp (Auth.Login uc email password) (fun res w' => at_ (login_keys w0 email) w0 (rows w0) w' /\
    match res with
    | Ok resp =>
        known (rows w0) (Auth.User resp) /\ User.Active (Auth.User resp) = true /\
        User.Email (Auth.User resp) = NormalizeEmail email /\
        VerifyPassword (Auth.User resp) password = true /\
        minted w0 (User.ID (Auth.User resp)) (NormalizeEmail email) w' (Auth.RefreshToken resp)
    | Err e => is_DomainError e = true
    end) w0.
Proof.
  intros Hi. pose proof (at_start (login_keys w0 email) w0 Hi) as Hat. unfold Auth.Login.
  assert (forall w, at_ (login_keys w0 email) w0 (rows w0) w ->
    wp (Auth.Login_checked uc (NormalizeEmail email) password
          (LoginAttemptsKey (NormalizeEmail email)))
       (fun res w' => at_ (login_keys w0 email) w0 (rows w0) w' /\
    match res with
    | Ok resp =>
        known (rows w0) (Auth.User resp) /\ User.Active (Auth.User resp) = true /\
        User.Email (Auth.User resp) = NormalizeEmail email /\
        VerifyPassword (Auth.User resp) password = true /\
        minted w0 (User.ID (Auth.User resp)) (NormalizeEmail email) w' (Auth.RefreshToken resp)
    | Err e => is_DomainError e = true
    end) w) as Hchk.
  { intros w Hw. eapply wp_mono; [apply Login_checked_effect; [exact Hw|by right|apply NormalizeEmail_twice]|].
    intros [resp|e] w' [Hat' Hres]; split; naive_solver. }
  wp_step; [|by apply Hchk]. wp_step. eapply wp_at_count; [done|by left|].
  intros n r1 w1 Hat1. wp_step; [by wp_steps|by apply Hchk].
Qed.

Lemma Register_effect x w0 : users_inv (w_u w0) ->
  wp (Auth.Register x) (fun res w' => exists T', at_ no_keys w0 T' w' /\
    match res with
    | Ok s => exists id r, rows w0 !! id = None /\ T' = <[id := r]> (rows w0) /\
        s = ToV1Domain r /\ live r = true /\ Users.Active r = false /\
        Users.Email r = NormalizeEmail (User.Email x) /\
        Users.Username r = TrimSpace (User.Username x) /\
        Users.RoleId r = User.RoleID x /\ User.Password x <> "" /\
        VerifyPassword s (User.Password x) = true
    | Err e => is_DomainError e = true /\
        (T' = rows w0 \/ error_type e = Some ErrTypeInternal /\ exists id r,
           rows w0 !! id = None /\ T' = <[id := r]> (rows w0) /\ Users.Active r = false /\
           Users.RoleId r = User.RoleID x)
    end) w0.
Proof.
  intros Hi. pose proof (at_start no_keys w0 Hi) as Hat. unfold Auth.Register. wp_step.
  eapply wp_at_Store; [done|]. intros res u1 T' w1 Hat1 Hres.
  destruct res; wp_steps; by exists T'.
Qed.

(** Only a call that succeeds has written a code. *)
Lemma SendOTP_effect fuel email w0 : users_inv (w_u w0) ->
  wp (Auth.SendOTP uc fuel email) (fun res w' =>
    match res with
    | Some (Ok _) => at_ (send_keys email) w0 (rows w0) w' /\ exists c, known (rows w0) c /\
        User.Email c = NormalizeEmail email /\ User.Active c = false
    | Some (Err e) => at_ no_keys w0 (rows w0) w' /\ is_DomainError e = true
    | None => at_ no_keys w0 (rows w0) w'
    end) w0.
Proof.
  intros Hi. pose proof (at_start no_keys w0 Hi) as Hat. unfold Auth.SendOTP. wp_step.
  eapply wp_at_GetByEmail; [done|]. intros res u1 w1 Hat1 Hres.
  destruct res as [user|e]; [|by wp_steps]. rewrite NormalizeEmail_twice in Hres.
  wp_step; [by wp_steps|]. wp_step. eapply wp_at_base; [done|apply grows_otp|].
  intros res b2 w2 Hat2. destruct res as [[code|e]|]; [|by wp_steps..].
  wp_step. eapply wp_at_mail; [done|]. intros res m3 w3 Hat3. destruct res as [[]|e].
  - apply (at_weaken _ (send_keys email)) in Hat3; [|by intros ? []].
    wp_step. eapply wp_at_Set; [done|done|]. intros res r4 w4 Hat4. wp_step.
    eapply wp_at_base; [done|apply grows_observe|]. intros [] b5 w5 Hat5. wp_step.
    eapply wp_at_Del; [done|]. intros r6' r6 w6 Hat6 _. wp_steps. split; [done|].
    exists user. naive_solver.
  - wp_step. eapply wp_at_base; [done|apply grows_observe|]. intros [] b5 w5 Hat5. by wp_steps.
Qed.

(** A code that Redis holds for the email. *)
Definition otp_stored (w : World) (email otpCode : string) : Prop :=
  exists e, keys w !! UserOTPKey (NormalizeEmail email) = Some e /\
    json_Unmarshal (re_val e) = Some otpCode.

Lemma VerifyOTP_effect email otpCode w0 : users_inv (w_u w0) ->
  wp (Auth.VerifyOTP uc email otpCode) (fun res w' => exists T',
    at_ (verify_keys email) w0 T' w' /\
    match res with
    | Ok _ => otp_stored w0 email otpCode /\ exists c now, known (rows w0) c /\
        User.Email c = NormalizeEmail email /\ User.Active c = false /\
        T' = update_live (User.ID c) (activated now true) (rows w0)
    | Err e => is_DomainError e = true /\ T' = rows w0
    end) w0.
Proof.
  intros Hi. pose proof (at_start (verify_keys email) w0 Hi) as Hat. unfold Auth.VerifyOTP.
  wp_step. eapply wp_at_GetByEmail; [done|]. intros res u1 w1 Hat1 Hres.
  destruct res as [user|e]; [|wp_steps; by eexists]. rewrite NormalizeEmail_twice in Hres.
  wp_step; [wp_steps; by eexists|]. wp_step. eapply wp_at_count; [done|done|].
  intros n r2 w2 Hat2. wp_step; [wp_steps; by eexists|]. wp_step.
  eapply wp_at_Get; [done|]. intros res r3 w3 Hat3 Hotp. destruct res as [otp|e].
  2:{ wp_step. eapply wp_at_base; [done|apply grows_observe|]. intros [] b4 w4 Hat4.
      wp_steps. by eexists. }
  wp_step. eapply wp_at_base; [done|apply grows_observe|]. intros [] b4 w4 Hat4.
  wp_step; [|wp_steps; by eexists]. subst otp. wp_step. eapply wp_at_Activate; [done|].
  intros res u5 T' w5 Hat5 Hact. destruct res as [[]|e]; [|wp_steps; by eexists].
  wp_step. eapply wp_at_Del; [done|]. intros d6 r6 w6 Hat6 _.
  wp_step. eapply wp_at_Del; [done|]. intros d7 r7 w7 Hat7 _. wp_steps. exists T'.
  split; [done|]. destruct Hres as [Hkn Hem], Hact as [now ->]. split; [|by exists user, now].
  destruct Hotp as (x & Hx & Hj). exists x. split; [|done].
  destruct (at_keys _ _ _ _ Hat2 (UserOTPKey (NormalizeEmail email))) as [<-|Hk]; [|done|].
  - unfold verify_keys. key_ne.
  - by rewrite Hk in Hx.
Qed.

(** The check of the cutoff in Refresh, once passed. *)
Lemma not_cut_off user iat0 :
  negb (time_IsZero (TokensRevokedBefore user))
    && match iat0 with Some iat => time_Before iat (TokensRevokedBefore user) | None => false end = false ->
  forall t iat, User.PasswordChangedAt user = Some t -> t <> zero_time -> iat0 = Some iat -> (t <= iat)%Z.
Proof.
  intros Hcut t iat Ht Hz ->. unfold TokensRevokedBefore in Hcut. rewrite Ht in Hcut.
  unfold time_IsZero, time_Before in Hcut. rewrite (proj2 (Z.eqb_neq _ _) Hz) in Hcut.
  simpl in Hcut. by apply Z.ltb_ge.
Qed.

Lemma Refresh_effect tok w0 : users_inv (w_u w0) ->
  wp (Auth.Refresh uc tok) (fun res w' => at_ (new_refresh w0) w0 (rows w0) w' /\
    match res with
    | Ok resp => exists c, token_claims tok = Some c /\ Claims.Kind c = KindRefresh /\
        (exists e, keys w0 !! RefreshKey (Claims.ID c) = Some e) /\
        known (rows w0) (Auth.User resp) /\ User.Active (Auth.User resp) = true /\
        User.Email (Auth.User resp) = NormalizeEmail (Claims.Email c) /\
        (forall t iat, User.PasswordChangedAt (Auth.User resp) = Some t -> t <> zero_time ->
           Claims.IssuedAt c = Some iat -> (t <= iat)%Z) /\
        minted w0 (User.ID (Auth.User resp)) (User.Email (Auth.User resp)) w'
          (Auth.RefreshToken resp)
    | Err e => is_DomainError e = true
    end) w0.
Proof.
  intros Hi. pose proof (at_start (new_refresh w0) w0 Hi) as Hat. unfold Auth.Refresh.
  wp_step. eapply wp_at_refresh; [done|]. intros res b1 w1 Hat1 Hc.
  destruct res as [c|e]; [|by wp_steps]. destruct Hc as [Hc Hkind].
  wp_step. eapply wp_at_Get; [done|]. intros res r2 w2 Hat2 Hlive.
  destruct res as [live_|e]; [|by wp_steps]. destruct Hlive as (x & Hx & _).
  wp_step. eapply wp_at_GetByEmail; [done|]. intros res u3 w3 Hat3 Hres.
  destruct res as [user|e]; [|by wp_steps]. destruct Hres as [Hkn Hem].
  destruct (User.Active user) eqn:Ea; simpl; [|by wp_steps].
  wp_step; [by wp_steps|]. rename Heqb into Hcut.
  wp_step. eapply wp_at_pair; [done|]. intros res b4 w4 Hat4 Hres.
  destruct res as [p|e]; [|by wp_steps]. destruct Hres as (Hf & Hu & Hcl).
  wp_step. eapply wp_at_remember; [done|by eexists|]. intros res w5 Hat5 Hs.
  destruct res as [[]|e]; [|by wp_steps]. wp_step. eapply wp_at_Del; [done|].
  intros d6 r6 w6 Hat6 _. wp_steps. split; [done|]. simpl. exists c.
  split_and!; try done.
  - by exists x.
  - by apply not_cut_off.
  - exists (RefreshJTI p). split_and!; [done|by apply Hs|done].
Qed.

Lemma Logout_effect tok w0 : users_inv (w_u w0) ->
  wp (Auth.Logout tok) (fun res w' => at_ no_keys w0 (rows w0) w' /\
    match res with
    | Ok _ => exists c, token_claims tok = Some c /\ Claims.Kind c = KindRefresh /\
        keys w' !! RefreshKey (Claims.ID c) = None
    | Err e => is_DomainError e = true
    end) w0.
Proof.
  intros Hi. pose proof (at_start no_keys w0 Hi) as Hat. unfold Auth.Logout.
  wp_step. eapply wp_at_refresh; [done|]. intros res b1 w1 Hat1 Hc.
  destruct res as [c|e]; [|by wp_steps]. wp_step. eapply wp_at_Del; [done|].
  intros res r2 w2 Hat2 Hd. destruct res as [[]|e]; wp_steps; [|done].
  split; [done|]. exists c. naive_solver.
Qed.

(** The email of a stored user is what [UpdatePassword] needs to know. *)
Lemma stored_knows_email T usr h now :
  table_ok T -> emails_ok T -> stored_live T usr -> knows_email T (with_Password usr h now).
Proof.
  intros Hok Hem [Hs _]. split; simpl.
  - apply (Hem _ _ Hs).
  - intros id r Hid Hr. rewrite (proj2 (tbl_key _ Hok _ _ Hs)) in Hid. simplify_eq. done.
Qed.

(** The row of [usr] after its password was replaced by [u']. *)
Definition password_replaced (T T' : gmap string Users.t) (usr : User.t) (pw : string) : Prop :=
  exists h now, T' = update_live (User.ID usr) (repassworded (with_Password usr h now)) T /\
    bcrypt_CompareHashAndPassword h pw = None.

Lemma password_replaced_intro T T' usr h now pw :
  T' = update_live (User.ID (with_Password usr h now))
         (repassworded (with_Password usr h now)) T ->
  VerifyPassword (with_Password usr h now) pw = true ->
  password_replaced T T' usr pw.
Proof.
  intros HT Hv. exists h, now. split; [done|]. unfold VerifyPassword in Hv. simpl in Hv.
  by destruct (bcrypt_CompareHashAndPassword h pw).
Qed.

Lemma ChangePassword_effect id cur new w0 : users_inv (w_u w0) ->
  wp (Auth.ChangePassword uc id cur new) (fun res w' => exists T',
    at_ (cutoff_keys id) w0 T' w' /\
    match res with
    | Ok _ => exists usr, stored_live (rows w0) usr /\ sql_uuid id = Some (User.ID usr) /\
        VerifyPassword usr cur = true /\ password_replaced (rows w0) T' usr new
    | Err e => is_DomainError e = true /\ T' = rows w0
    end) w0.
Proof.
  intros Hi. pose proof (at_start (cutoff_keys id) w0 Hi) as Hat.
  destruct (users_inv_table _ Hi) as [Hok Hem]. unfold Auth.ChangePassword.
  wp_step; [wp_steps; by eexists|]. wp_step. eapply wp_at_GetByID; [done|].
  intros res u1 w1 Hat1 Hres. destruct res as [usr|e]; [|wp_steps; eexists; naive_solver].
  destruct Hres as [Hst Hid]. destruct (VerifyPassword usr cur) eqn:Ev; simpl; [|wp_steps; by eexists].
  wp_step. eapply wp_at_domain_change; [done|]. intros res b2 w2 Hat2 Hres.
  destruct res as [u'|e]; [|wp_steps; by eexists]. destruct Hres as (h & now & -> & Hnew & Hv).
  wp_step. eapply wp_at_UpdatePassword; [done|by apply stored_knows_email|].
  intros res u3 T' w3 Hat3 HT. destruct res as [[]|e]; [|wp_steps; by eexists].
  simpl. wp_step. eapply wp_at_cutoff; [done|done|]. intros r4 w4 Hat4. wp_steps.
  exists T'. split; [done|]. exists usr. split_and!; try done.
  by eapply password_replaced_intro.
Qed.

Definition reset_stored (w : World) (token userID : string) : Prop :=
  exists e, keys w !! PasswordResetKey token = Some e /\ json_Unmarshal (re_val e) = Some userID.

Definition any_cutoff (k : string) : Prop := exists id, k = TokenCutoffKey id.

Lemma ResetPassword_effect token new w0 : users_inv (w_u w0) ->
  wp (Auth.ResetPassword uc token new) (fun res w' => exists T',
    at_ any_cutoff w0 T' w' /\
    match res with
    | Ok _ => exists userID usr, reset_stored w0 token userID /\ token <> "" /\ userID <> "" /\
        stored_live (rows w0) usr /\ sql_uuid userID = Some (User.ID usr) /\
        password_replaced (rows w0) T' usr new
    | Err e => is_DomainError e = true /\ T' = rows w0
    end) w0.
Proof.
  intros Hi. pose proof (at_start any_cutoff w0 Hi) as Hat.
  destruct (users_inv_table _ Hi) as [Hok Hem]. unfold Auth.ResetPassword.
  wp_step; [wp_steps; by eexists|]. wp_step; [wp_steps; by eexists|]. wp_step.
  eapply wp_at_Get; [done|]. intros res r1 w1 Hat1 Hget.
  destruct res as [userID|e]; [|wp_steps; by eexists].
  wp_step; [wp_steps; by eexists|]. wp_step. eapply wp_at_GetByID; [done|].
  intros res u2 w2 Hat2 Hres. destruct res as [usr|e]; [|wp_steps; eexists; naive_solver].
  destruct Hres as [Hst Hid]. wp_step. eapply wp_at_domain_change; [done|].
  intros res b3 w3 Hat3 Hres. destruct res as [u'|e]; [|wp_steps; by eexists].
  destruct Hres as (h & now & -> & Hnew & Hv). wp_step.
  eapply wp_at_UpdatePassword; [done|by apply stored_knows_email|].
  intros res u4 T' w4 Hat4 HT. destruct res as [[]|e]; [|wp_steps; by eexists].
  wp_step. eapply wp_at_Del; [done|]. intros d5 r5 w5 Hat5 _.
  wp_step. eapply wp_at_Del; [done|]. intros d6 r6 w6 Hat6 _. simpl.
  wp_step. eapply wp_at_cutoff; [done|by eexists|]. intros r7 w7 Hat7. wp_steps.
  exists T'. split; [done|]. exists userID, usr. split_and!; try done.
  by eapply password_replaced_intro.
Qed.

Lemma ForgotPassword_limited_effect K w0 email w : at_ K w0 (rows w0) w ->
  NormalizeEmail email = email ->
  (forall k, (exists token, k = PasswordResetKey token) \/ (exists id, k = UserResetIndexKey id) ->
     K k) ->
  wp (Auth.ForgotPassword_limited uc email) (fun res w' => at_ K w0 (rows w0) w' /\
    match res with
    | Ok _ => no_live_email (rows w0) email \/
        exists c, known (rows w0) c /\ User.Email c = email
    | Err e => is_DomainError e = true /\ error_type e <> Some ErrTypeNotFound
    end) w.
Proof.
  intros Hat Hn HK. unfold Auth.ForgotPassword_limited. wp_step.
  eapply wp_at_base; [done|apply grows_reset_token|]. intros res b1 w1 Hat1.
  destruct res as [token|e]; [|by wp_steps]. wp_step. eapply wp_at_GetByEmail; [done|].
  intros res u2 w2 Hat2 Hres. rewrite Hn in Hres. destruct res as [usr|e].
  - wp_step. eapply wp_at_Get; [done|]. intros prior r3 w3 Hat3 _.
    wp_step. eapply wp_mono with (P := fun _ w' => at_ K w0 (rows w0) w').
    { destruct prior as [prior|e]; [|by wp_steps]. destruct (negb _); [|by wp_steps].
      wp_step. eapply wp_at_Del; [done|]. intros d4 r4 w4 Hat4 _. by wp_steps. }
    intros _ w4 Hat4. wp_step. eapply wp_at_Set; [done|apply HK; eauto|].
    intros res r5 w5 Hat5. destruct res as [[]|e]; [|by wp_steps]. wp_step.
    eapply wp_at_Expire; [done|apply HK; eauto|]. intros d6 r6 w6 Hat6. wp_step.
    eapply wp_at_Set; [done|apply HK; eauto|]. intros idx r7 w7 Hat7. wp_step.
    eapply wp_mono with (P := fun _ w' => at_ K w0 (rows w0) w').
    { destruct idx as [[]|e]; [|by wp_steps]. wp_step.
      eapply wp_at_Expire; [done|apply HK; eauto|]. intros d8 r8 w8 Hat8. by wp_steps. }
    intros _ w8 Hat8. wp_step. eapply wp_at_mail; [done|]. intros res m9 w9 Hat9.
    destruct res as [[]|e]; wp_steps; split; naive_solver.
  - case_bool_decide as Hnf; [|wp_steps; naive_solver]. wp_step.
    eapply wp_at_Set; [done|apply HK; eauto|]. intros d3 r3 w3 Hat3. wp_step.
    eapply wp_at_Expire; [done|apply HK; eauto|]. intros d4 r4 w4 Hat4. wp_step.
    eapply wp_at_Del; [done|]. intros d5 r5 w5 Hat5 _. wp_steps. naive_solver.
Qed.

Lemma ForgotPassword_effect email w0 : users_inv (w_u w0) ->
  wp (Auth.ForgotPassword uc email) (fun res w' => at_ (forgot_keys email) w0 (rows w0) w' /\
    match res with
    | Ok _ => no_live_email (rows w0) (NormalizeEmail email) \/
        exists c, known (rows w0) c /\ User.Email c = NormalizeEmail email
    | Err e => is_DomainError e = true /\ error_type e <> Some ErrTypeNotFound
    end) w0.
Proof.
  intros Hi. pose proof (at_start (forgot_keys email) w0 Hi) as Hat. unfold Auth.ForgotPassword.
  assert (forall k, (exists token, k = PasswordResetKey token) \/
    (exists id, k = UserResetIndexKey id) -> forgot_keys email k) as HK by by right.
  wp_step; [|apply ForgotPassword_limited_effect; [done|apply NormalizeEmail_twice|done]].
  wp_step. eapply wp_at_count; [done|by left|]. intros n r1 w1 Hat1.
  wp_step; [by wp_steps|]. apply ForgotPassword_limited_effect; [done|apply NormalizeEmail_twice|done].
Qed.
End effects.
