(* ===== verification/AuthSystem.v ===== *)
(** The auth service as a transition system: every sequence of calls of the nine
    operations, in any order and with any arguments, interleaved with what the
    environment does between calls.  Its safety properties: sessions that were
    closed stay closed, accounts change only when the caller was entitled to. *)

From Stdlib Require Import Ascii String ZArith.
From stdpp Require Import base gmap strings list pretty relations.
From S2P Require Import Prelude GoStrings AppError Records Services World Domain Repository Caches.
From S2P Require Import UsersUsecase Jwt OtpCode AuthUsecase AuthLemmas AuthEffects.

Open Scope string_scope.

(** [auth.Usecase]: the calls of the input boundary. *)
Inductive auth_call :=
| CRegister (user : User.t)
| CLogin (email password : string)
| CSendOTP (fuel : nat) (email : string)
| CVerifyOTP (email otpCode : string)
| CRefresh (refreshToken : string)
| CLogout (refreshToken : string)
| CChangePassword (userID currentPassword newPassword : string)
| CForgotPassword (email : string)
| CResetPassword (token newPassword : string).

Section system.
Context `{PlatformLaws} `{!OTPMailer} `{!UsersUsecase} `{!UsersContract}
  `{!JWTService} `{!JWTContract}.
#[local] Existing Instances pl_text pl_redis pl_sql pl_rist pl_rng.
Variable uc : Auth.usecase.

(** The error half of an answer. *)
Definition forget {A} (m : io World (result error A)) : io World (option (result error unit)) :=
  r <- m ;; ret (Some (match r with Ok _ => Ok tt | Err e => Err e end)).

(** Runs a call; [None] only for a SendOTP whose code generator is not done. *)
Definition run (c : auth_call) : io World (option (result error unit)) :=
  match c with
  | CRegister user => forget (Auth.Register user)
  | CLogin email password => forget (Auth.Login uc email password)
  | CSendOTP fuel email => Auth.SendOTP uc fuel email
  | CVerifyOTP email otpCode => forget (Auth.VerifyOTP uc email otpCode)
  | CRefresh tok => forget (Auth.Refresh uc tok)
  | CLogout tok => forget (Auth.Logout tok)
  | CChangePassword id cur new => forget (Auth.ChangePassword uc id cur new)
  | CForgotPassword email => forget (Auth.ForgotPassword uc email)
  | CResetPassword token new => forget (Auth.ResetPassword uc token new)
  end.

(** Between calls time passes, keys run out and the mailer works. *)
Inductive auth_step : World -> World -> Prop :=
| step_call c w : auth_step w (run c w).2
| step_env w b r m :
    used b = issued w -> redis_view r ⊆ keys w ->
    auth_step w (MkW (MkU b (u_d (w_u w)) (u_cache (w_u w))) r m).

(** ** What one call does to the table *)
Inductive table_change (w : World) : auth_call -> gmap string Users.t -> Prop :=
| tc_none c : table_change w c (rows w)
| tc_register x id r :
    rows w !! id = None -> Users.Active r = false -> Users.RoleId r = User.RoleID x ->
    table_change w (CRegister x) (<[id := r]> (rows w))
| tc_activate email otpCode c now :
    otp_stored w email otpCode -> known (rows w) c ->
    User.Email c = NormalizeEmail email -> User.Active c = false ->
    table_change w (CVerifyOTP email otpCode)
      (update_live (User.ID c) (activated now true) (rows w))
| tc_change id cur new usr T' :
    stored_live (rows w) usr -> sql_uuid id = Some (User.ID usr) ->
    VerifyPassword usr cur = true -> password_replaced (rows w) T' usr new ->
    table_change w (CChangePassword id cur new) T'
| tc_reset token new userID usr T' :
    reset_stored w token userID -> stored_live (rows w) usr ->
    sql_uuid userID = Some (User.ID usr) -> password_replaced (rows w) T' usr new ->
    table_change w (CResetPassword token new) T'.

(** The whole effect of a call on what the theorems speak of. *)
Record call_effect (w : World) (c : auth_call) (res : option (result error unit)) (w' : World)
    : Prop := {
  ce_inv : users_inv (w_u w');
  ce_issued : issued w ⊆ issued w';
  ce_table : table_change w c (rows w');
  ce_refresh : forall jti, jti ∈ issued w -> keys w !! RefreshKey jti = None ->
    keys w' !! RefreshKey jti = None;
  ce_error : forall e, res = Some (Err e) -> is_DomainError e = true /\
    (rows w' = rows w \/ error_type e = Some ErrTypeInternal /\
       exists x id r, c = CRegister x /\ rows w !! id = None /\ rows w' = <[id := r]> (rows w));
}.

Lemma wp_forget {A} (m : io World (result error A)) (Q : option (result error unit) -> World -> Prop) w :
  wp m (fun r w' => Q (Some (match r with Ok _ => Ok tt | Err e => Err e end)) w') w ->
  wp (forget m) Q w.
Proof. intros Hm. unfold forget. wp_step. eapply wp_mono; [exact Hm|]. intros r w' HQ. by wp_steps. Qed.

Lemma at_effect (K : string -> Prop) w T' w' c res :
  at_ K w T' w' ->
  (forall jti, K (RefreshKey jti) -> jti ∉ issued w) ->
  table_change w c T' ->
  (forall e, res = Some (Err e) -> is_DomainError e = true /\
    (T' = rows w \/ error_type e = Some ErrTypeInternal /\
       exists x id r, c = CRegister x /\ rows w !! id = None /\ T' = <[id := r]> (rows w))) ->
  call_effect w c res w'.
Proof.
  intros [Hi Hr Hs Hk] HK Ht He. split; [done|done|by rewrite Hr| |by rewrite Hr].
  intros jti Hj Hn. destruct (Hk (RefreshKey jti)) as [->|]; [|done|done].
  intros HKj. by apply (HK jti HKj).
Qed.

Lemma new_refresh_fresh w jti : new_refresh w (RefreshKey jti) -> jti ∉ issued w.
Proof. intros (j & Heq & Hj). change (key_text (KRefresh jti) = key_text (KRefresh j)) in Heq.
  apply key_text_injective in Heq. by simplify_eq. Qed.

Ltac not_refresh := let H := fresh in intros ? H; exfalso; red in H; revert H; key_ne.

Lemma run_effect c w : users_inv (w_u w) -> wp (run c) (fun res w' => call_effect w c res w') w.
Proof.
  intros Hi. destruct c; cbn [run]; try apply wp_forget.
  - eapply wp_mono; [by apply Register_effect|]. intros res w' (T' & Hat & Hres).
    eapply at_effect; [exact Hat|done| |].
    + destruct res; [destruct Hres as (id & r & Hid & -> & _ & _ & Ha & _ & _ & Hro & _); by constructor|].
      destruct Hres as [_ [->|(_ & id & r & Hid & -> & Ha & Hro)]]; by constructor.
    + intros e He. destruct res; [done|]. injection He as ->. destruct Hres as [Hd Hr].
      split; [done|]. destruct Hr as [->|(? & id & r & ? & ? & _)]; [by left|right].
      split; [done|]. by exists user, id, r.
  - eapply wp_mono; [by apply Login_effect|]. intros res w' [Hat Hres].
    eapply at_effect; [exact Hat| |constructor|].
    + intros jti [HK|HK]; [exfalso; revert HK; key_ne|by apply new_refresh_fresh].
    + intros e He. destruct res; [done|]. injection He as ->. auto.
  - eapply wp_mono; [by apply SendOTP_effect|]. intros [[[]|e]|] w' Hres.
    + destruct Hres as [Hat _]. by eapply at_effect; [exact Hat|not_refresh|constructor|].
    + destruct Hres as [Hat Hd]. eapply at_effect; [exact Hat|done|constructor|]. intros ? [= <-]. auto.
    + by eapply at_effect; [exact Hres|done|constructor|].
  - eapply wp_mono; [by apply VerifyOTP_effect|]. intros res w' (T' & Hat & Hres).
    eapply at_effect; [exact Hat|not_refresh| |].
    + destruct res as [[]|e]; [|destruct Hres as [_ ->]; constructor].
      destruct Hres as (Ho & c & now & Hk & Hem & Ha & ->). by constructor.
    + intros e He. destruct res; [done|]. injection He as ->. naive_solver.
  - eapply wp_mono; [by apply Refresh_effect|]. intros res w' [Hat Hres].
    eapply at_effect; [exact Hat|apply new_refresh_fresh|constructor|].
    intros e He. destruct res; [done|]. injection He as ->. auto.
  - eapply wp_mono; [by apply Logout_effect|]. intros res w' [Hat Hres].
    eapply at_effect; [exact Hat|done|constructor|].
    intros e He. destruct res; [done|]. injection He as ->. auto.
  - eapply wp_mono; [by apply ChangePassword_effect|]. intros res w' (T' & Hat & Hres).
    eapply at_effect; [exact Hat|not_refresh| |].
    + destruct res as [[]|e]; [|destruct Hres as [_ ->]; constructor].
      destruct Hres as (usr & ? & ? & ? & ?). by econstructor.
    + intros e He. destruct res; [done|]. injection He as ->. naive_solver.
  - eapply wp_mono; [by apply ForgotPassword_effect|]. intros res w' [Hat Hres].
    eapply at_effect; [exact Hat| |constructor|].
    + intros jti [HK|[[t HK]|[t HK]]]; exfalso; revert HK; key_ne.
    + intros e He. destruct res; [done|]. injection He as ->. naive_solver.
  - eapply wp_mono; [by apply ResetPassword_effect|]. intros res w' (T' & Hat & Hres).
    eapply at_effect; [exact Hat| | |].
    + intros jti [id HK]; exfalso; revert HK; key_ne.
    + destruct res as [[]|e]; [|destruct Hres as [_ ->]; constructor].
      destruct Hres as (userID & usr & ? & ? & ? & ? & ? & ?). by econstructor.
    + intros e He. destruct res; [done|]. injection He as ->. naive_solver.
Qed.

(** ** Along every trace *)

(** What nobody can change about an account through this service. *)
Record row_evolves (r r' : Users.t) : Prop := {
  re_id : Users.Id r' = Users.Id r;
  re_name : Users.Username r' = Users.Username r;
  re_email : Users.Email r' = Users.Email r;
  re_role : Users.RoleId r' = Users.RoleId r;
  re_created : Users.CreatedAt r' = Users.CreatedAt r;
  re_deleted : Users.DeletedAt r' = Users.DeletedAt r;
  re_active : Users.Active r = true -> Users.Active r' = true;
}.

#[export] Instance row_evolves_preorder : PreOrder row_evolves.
Proof.
  split; [by intros r; split|]. intros r1 r2 r3 [] []. split; try congruence. auto.
Qed.

Definition evolves (T T' : gmap string Users.t) : Prop :=
  forall id r, T !! id = Some r -> exists r', T' !! id = Some r' /\ row_evolves r r'.

#[export] Instance evolves_preorder : PreOrder evolves.
Proof.
  split; [intros T id r Hr; by exists r|]. intros T1 T2 T3 HT1 HT2 id r Hr.
  destruct (HT1 _ _ Hr) as (r2 & Hr2 & He2), (HT2 _ _ Hr2) as (r3 & Hr3 & He3).
  exists r3. split; [done|]. by etransitivity.
Qed.

Lemma evolves_update_live id f T :
  (forall r, row_evolves r (f r)) -> evolves T (update_live id f T).
Proof.
  intros Hf i r Hr. eexists. split; [by apply update_live_lookup|].
  destruct (eval_where _ r); [apply Hf|done].
Qed.

Lemma table_change_evolves w c T' : table_change w c T' -> evolves (rows w) T'.
Proof.
  destruct 1 as [c|x id r Hid Ha Hro|email code c now|id cur new usr T' ? ? ? (h & now & -> & _)
    |token new userID usr T' ? ? ? (h & now & -> & _)].
  - done.
  - intros i s Hs. exists s. split; [|done]. rewrite lookup_insert_ne; [done|]. intros ->. congruence.
  - apply evolves_update_live. intros []. by split.
  - apply evolves_update_live. intros []. by split.
  - apply evolves_update_live. intros []. by split.
Qed.

(** The invariant of the traces from [w0]. *)
Record since (w0 w : World) : Prop := {
  sn_inv : users_inv (w_u w);
  sn_issued : issued w0 ⊆ issued w;
  sn_rows : evolves (rows w0) (rows w);
  sn_refresh : forall jti, jti ∈ issued w0 -> keys w0 !! RefreshKey jti = None ->
    keys w !! RefreshKey jti = None;
}.

Lemma since_step w0 w w' : since w0 w -> auth_step w w' -> since w0 w'.
Proof.
  intros [Hi Hs Hr Hk] Hstep. destruct Hstep as [c w|w b r m Hb Hsub].
  - destruct (run_effect c w Hi) as [Hi' Hs' Ht' Hk' _].
    split; [done|by etransitivity| |auto].
    etransitivity; [exact Hr|]. by eapply table_change_evolves.
  - split; [by apply users_inv_base| |done|].
    + unfold issued in *. cbn. by rewrite Hb.
    + intros jti Hj Hn. eapply (lookup_weaken_None _ (keys w)); [by apply Hk|exact Hsub].
Qed.

Lemma since_trace w0 w : users_inv (w_u w0) -> rtc auth_step w0 w -> since w0 w.
Proof.
  intros Hi Htr. assert (since w0 w0) as Hs by by split.
  revert Hs. generalize w0 at 1 3 as w1. intros w1. clear Hi. induction Htr as [|x y z Hxy Hyz IH]; [done|].
  intros Hs. apply IH. by eapply since_step.
Qed.
End system.
