(* ===== verification/AuthProps.v ===== *)
(** Safety properties of the auth service, for every users use case, token
    service and mailer that keep their contracts. *)

From Stdlib Require Import Ascii String ZArith.
From stdpp Require Import base gmap strings list pretty relations.
From S2P Require Import Prelude GoStrings AppError Records Services World Domain Repository Caches.
From S2P Require Import UsersUsecase Jwt OtpCode AuthUsecase AuthLemmas AuthEffects AuthSystem.

Open Scope string_scope.

Section props.
Context `{PlatformLaws} `{!OTPMailer} `{!UsersUsecase} `{!UsersContract}
  `{!JWTService} `{!JWTContract}.
#[local] Existing Instances pl_text pl_redis pl_sql pl_rist pl_rng.
Variable uc : Auth.usecase.

Lemma VerifyPassword_row c r pw :
  agrees c r -> VerifyPassword c pw = true ->
  bcrypt_CompareHashAndPassword (Users.Password r) pw = None.
Proof.
  intros Ha Hv. unfold VerifyPassword in Hv. rewrite (ag_password _ _ Ha) in Hv.
  by destruct (bcrypt_CompareHashAndPassword (Users.Password r) pw).
Qed.

(** A refresh token whose identifier is no longer in Redis is refused. *)
Lemma Refresh_absent tok c w :
  token_claims tok = Some c -> keys w !! RefreshKey (Claims.ID c) = None ->
  wp (Auth.Refresh uc tok) (fun res _ =>
    exists e, res = Err e /\ error_type e = Some ErrTypeUnauthorized) w.
Proof.
  intros Hc Hk. unfold Auth.Refresh. wp_steps. eapply wp_mono; [apply jwt_refresh_spec|].
  intros [c'|e] b' [_ Hres]; [|wp_steps; by eexists]. destruct Hres as [Hc' _]. simplify_eq.
  wp_step. unfold Auth.cache_Get. wp_step. apply wp_Get. intros [s|e] r' Hs Hget.
  - destruct Hget as (x & Hx & _). eapply lookup_weaken in Hx; [|exact Hs].
    unfold keys in Hk. cbn in Hx. rewrite Hk in Hx. done.
  - wp_steps. by eexists.
Qed.

(** The live row of an email is unique. *)
Lemma live_unique T id r c :
  table_ok T -> T !! id = Some r -> live r = true -> known T c ->
  User.Email c = Users.Email r -> User.ID c = id /\ agrees c r.
Proof.
  intros Hok Hr Hl (s & Hs & Hls & Ha) He.
  assert (User.ID c = id) as Hid.
  { eapply (tbl_email _ Hok); [exact Hs|exact Hr|done|done|].
    rewrite <- (ag_email _ _ Ha). done. }
  rewrite Hid in Hs. simplify_eq. done.
Qed.

(** A refresh token from before the account's last password change is refused. *)
Lemma Refresh_stale tok c iat id r t w :
  users_inv (w_u w) -> rows w !! id = Some r -> live r = true ->
  Users.Email r = NormalizeEmail (Claims.Email c) ->
  Users.PasswordChangedAt r = Some t -> t <> zero_time ->
  token_claims tok = Some c -> Claims.IssuedAt c = Some iat -> (iat < t)%Z ->
  wp (Auth.Refresh uc tok) (fun res _ => is_Ok res = false) w.
Proof.
  intros Hi Hr Hl Hem Ht Hz Hc Hiat Hlt. destruct (users_inv_table _ Hi) as [Hok _].
  eapply wp_mono; [by apply Refresh_effect|]. intros [resp|e] w' [_ Hres]; [exfalso|done].
  destruct Hres as (c' & Hc' & _ & _ & Hk & _ & He & Hcut & _). simplify_eq.
  destruct (live_unique _ _ _ _ Hok Hr Hl Hk) as [_ Ha]; [by rewrite He|].
  assert (t <= iat)%Z; [|lia]. apply Hcut; [|done|done].
  by rewrite (ag_changed _ _ Ha).
Qed.

(** After a password was replaced, the row carries the stamp. *)
Lemma password_replaced_row T T' usr pw :
  table_ok T -> stored_live T usr -> password_replaced T T' usr pw ->
  exists r t, T' !! User.ID usr = Some r /\ live r = true /\ Users.Email r = User.Email usr /\
    Users.PasswordChangedAt r = Some t /\
    bcrypt_CompareHashAndPassword (Users.Password r) pw = None.
Proof.
  intros Hok [Hs Hd] (h & now & -> & Hc).
  eexists _, (pg_time now). split; [by apply update_live_lookup|].
  rewrite (proj2 (eval_live_id (User.ID usr) (FromUsersV1Domain usr))).
  - split_and!; try done. by apply live_None.
  - split; [|by apply live_None]. exact (proj2 (tbl_key _ Hok _ _ Hs)).
Qed.

(** The row whose hash a password change replaces. *)
Lemma password_replaced_at T T' usr pw id r r' :
  table_ok T -> stored_live T usr -> password_replaced T T' usr pw ->
  T !! id = Some r -> T' !! id = Some r' -> Users.Password r <> Users.Password r' ->
  User.ID usr = id /\ FromUsersV1Domain usr = r /\
  bcrypt_CompareHashAndPassword (Users.Password r') pw = None.
Proof.
  intros Hok [Hs Hd] (h & now & -> & Hc) Hr Hr' Hp. rewrite (update_live_lookup _ _ _ _ _ Hr) in Hr'.
  destruct (eval_where _ r) eqn:E; [|by simplify_eq]. apply eval_live_id in E as [E _].
  cbn [User.ID with_Password] in E. rewrite (proj2 (tbl_key _ Hok _ _ Hs)) in E.
  injection E as E. rewrite (proj1 (tbl_key _ Hok _ _ Hr)) in E. rewrite E in Hs.
  simplify_eq. done.
Qed.

(** * Login *)

(** A successful Login names a live, activated account of that email whose
    stored hash the password verifies (although the lookup may be answered from
    the cache), changes no account, and hands out a refresh token with a new
    identifier made for that account. *)
Theorem Login_sound email password w resp w' :
  users_inv (w_u w) -> Auth.Login uc email password w = (Ok resp, w') ->
  rows w' = rows w /\
  (exists r, rows w !! User.ID (Auth.User resp) = Some r /\ live r = true /\
     Users.Active r = true /\ Users.Email r = NormalizeEmail email /\
     bcrypt_CompareHashAndPassword (Users.Password r) password = None) /\
  minted w (User.ID (Auth.User resp)) (NormalizeEmail email) w' (Auth.RefreshToken resp).
Proof.
  intros Hi Hrun. destruct (wp_run _ _ _ _ _ (Login_effect uc email password w Hi) Hrun)
    as [Hat (Hk & Ha & He & Hv & Hm)].
  split; [by apply (at_rows _ _ _ _ Hat)|]. split; [|done].
  destruct Hk as (r & Hr & Hl & Hag). exists r. split_and!; [done|done| | |].
  - by apply (ag_active _ _ Hag).
  - by rewrite <- (ag_email _ _ Hag).
  - by eapply VerifyPassword_row.
Qed.

(** * Sessions *)

(** A successful Refresh needs a refresh token whose identifier is live in
    Redis, of a live activated account, issued no earlier than the account's
    last password change; the new token has a new identifier. *)
Theorem Refresh_sound tok w resp w' :
  users_inv (w_u w) -> Auth.Refresh uc tok w = (Ok resp, w') ->
  rows w' = rows w /\
  exists c r, token_claims tok = Some c /\ Claims.Kind c = KindRefresh /\
    is_Some (keys w !! RefreshKey (Claims.ID c)) /\
    rows w !! User.ID (Auth.User resp) = Some r /\ live r = true /\ Users.Active r = true /\
    Users.Email r = NormalizeEmail (Claims.Email c) /\
    (forall t iat, Users.PasswordChangedAt r = Some t -> t <> zero_time ->
       Claims.IssuedAt c = Some iat -> (t <= iat)%Z) /\
    minted w (User.ID (Auth.User resp)) (Users.Email r) w' (Auth.RefreshToken resp).
Proof.
  intros Hi Hrun. destruct (wp_run _ _ _ _ _ (Refresh_effect uc tok w Hi) Hrun)
    as [Hat (c & Hc & Hkind & [x Hx] & (r & Hr & Hl & Hag) & Ha & He & Hcut & Hm)].
  split; [by apply (at_rows _ _ _ _ Hat)|]. exists c, r.
  rewrite <- (ag_email _ _ Hag), <- (ag_changed _ _ Hag). split_and!; try done.
  by apply (ag_active _ _ Hag).
Qed.

(** An identifier that was handed out and is not live in Redis stays dead: along
    every sequence of calls of the service, whatever the environment does in
    between, a refresh token with it is refused as unauthorized. *)
Theorem revoked_stays_revoked tok c w w' :
  users_inv (w_u w) -> token_claims tok = Some c -> Claims.ID c ∈ issued w ->
  keys w !! RefreshKey (Claims.ID c) = None -> rtc (auth_step uc) w w' ->
  exists e, (Auth.Refresh uc tok w').1 = Err e /\ error_type e = Some ErrTypeUnauthorized.
Proof.
  intros Hi Hc Hj Hk Htr. destruct (since_trace uc _ _ Hi Htr) as [_ _ _ Hdead].
  destruct (Refresh_absent tok c w' Hc (Hdead _ Hj Hk)) as (e & He & Ht). by exists e.
Qed.

(** Once Logout has answered without an error, the refresh token is refused for
    ever. *)
Theorem Logout_closes_session tok c w w1 w2 :
  users_inv (w_u w) -> token_claims tok = Some c -> Claims.ID c ∈ issued w ->
  Auth.Logout tok w = (Ok tt, w1) -> rtc (auth_step uc) w1 w2 ->
  exists e, (Auth.Refresh uc tok w2).1 = Err e /\ error_type e = Some ErrTypeUnauthorized.
Proof.
  intros Hi Hc Hj Hrun Htr.
  destruct (wp_run _ _ _ _ _ (Logout_effect tok w Hi) Hrun) as [Hat (c' & Hc' & _ & Hk)].
  simplify_eq. destruct (since_trace uc _ _ (at_inv _ _ _ _ Hat) Htr) as [_ _ _ Hdead].
  destruct (Refresh_absent tok c w2 Hc) as (e & He & Ht); [|by exists e].
  apply Hdead; [|done]. by apply (at_issued _ _ _ _ Hat).
Qed.

(** C11. A password change closes the sessions from before: it stamps the account, and
    afterwards every refresh token of the account issued before the stamp is
    refused, even though its identifier is live. *)
Theorem ChangePassword_closes_sessions id cur new w w1 :
  users_inv (w_u w) -> Auth.ChangePassword uc id cur new w = (Ok tt, w1) ->
  exists uid r t, sql_uuid id = Some uid /\ rows w1 !! uid = Some r /\
    Users.PasswordChangedAt r = Some t /\
    bcrypt_CompareHashAndPassword (Users.Password r) new = None /\
    (t <> zero_time -> forall tok c iat, token_claims tok = Some c ->
       NormalizeEmail (Claims.Email c) = Users.Email r ->
       Claims.IssuedAt c = Some iat -> (iat < t)%Z ->
       is_Ok (Auth.Refresh uc tok w1).1 = false).
Proof.
  intros Hi Hrun.
  destruct (wp_run _ _ _ _ _ (ChangePassword_effect uc id cur new w Hi) Hrun)
    as (T' & Hat & usr & Hst & Hid & _ & Hrep).
  destruct (users_inv_table _ Hi) as [Hok _].
  destruct (password_replaced_row _ _ _ _ Hok Hst Hrep) as (r & t & Hr & Hl & Hem & Ht & Hpw).
  exists (User.ID usr), r, t. rewrite (at_rows _ _ _ _ Hat). split_and!; try done.
  intros Hz tok c iat Hc Hemc Hiat Hlt.
  eapply (Refresh_stale tok c iat (User.ID usr) r t w1); try done.
  - by apply (at_inv _ _ _ _ Hat).
  - by rewrite (at_rows _ _ _ _ Hat).
Qed.

(** The same for ResetPassword, which moreover needs a token that Redis holds for
    that account. *)
Theorem ResetPassword_closes_sessions token new w w1 :
  users_inv (w_u w) -> Auth.ResetPassword uc token new w = (Ok tt, w1) ->
  exists userID uid r t, reset_stored w token userID /\ sql_uuid userID = Some uid /\
    rows w1 !! uid = Some r /\ Users.PasswordChangedAt r = Some t /\
    bcrypt_CompareHashAndPassword (Users.Password r) new = None /\
    (t <> zero_time -> forall tok c iat, token_claims tok = Some c ->
       NormalizeEmail (Claims.Email c) = Users.Email r ->
       Claims.IssuedAt c = Some iat -> (iat < t)%Z ->
       is_Ok (Auth.Refresh uc tok w1).1 = false).
Proof.
  intros Hi Hrun.
  destruct (wp_run _ _ _ _ _ (ResetPassword_effect uc token new w Hi) Hrun)
    as (T' & Hat & userID & usr & Hs & _ & _ & Hst & Hid & Hrep).
  destruct (users_inv_table _ Hi) as [Hok _].
  destruct (password_replaced_row _ _ _ _ Hok Hst Hrep) as (r & t & Hr & Hl & Hem & Ht & Hpw).
  exists userID, (User.ID usr), r, t. rewrite (at_rows _ _ _ _ Hat). split_and!; try done.
  intros Hz tok c iat Hc Hemc Hiat Hlt.
  eapply (Refresh_stale tok c iat (User.ID usr) r t w1); try done.
  - by apply (at_inv _ _ _ _ Hat).
  - by rewrite (at_rows _ _ _ _ Hat).
Qed.

(** * Accounts *)

(** Only VerifyOTP activates, and only with the code Redis holds for the email of
    the account. *)
Theorem activation_authorised c w res w' id r r' :
  users_inv (w_u w) -> run uc c w = (res, w') ->
  rows w !! id = Some r -> rows w' !! id = Some r' ->
  Users.Active r = false -> Users.Active r' = true ->
  exists email otpCode, c = CVerifyOTP email otpCode /\
    Users.Email r = NormalizeEmail email /\ otp_stored w email otpCode.
Proof.
  intros Hi Hrun Hr Hr' Ha Ha'. pose proof (wp_run _ _ _ _ _ (run_effect uc c w Hi) Hrun) as Hce.
  destruct (users_inv_table _ Hi) as [Hok _]. destruct Hce as [_ _ Ht _ _].
  remember (rows w') as T' eqn:HT.
  assert (forall usr pw, password_replaced (rows w) T' usr pw -> False) as Hno.
  { intros usr pw (h & now & -> & _). rewrite (update_live_lookup _ _ _ _ _ Hr) in Hr'.
    destruct (eval_where _ r); simplify_eq; [|congruence]. destruct r. simpl in *. congruence. }
  destruct Ht as [c|x i s Hi' Hs Hro|email code u now Hotp Hk He Hua|? ? ? usr T' ? ? ? Hrep
    |? ? ? usr T' ? ? ? Hrep]; [congruence| | |by destruct (Hno _ _ Hrep)..].
  - rewrite lookup_insert_ne in Hr' by congruence. congruence.
  - exists email, code. split; [done|]. split; [|done].
    rewrite (update_live_lookup _ _ _ _ _ Hr) in Hr'.
    destruct (eval_where _ r) eqn:E; [|congruence]. apply eval_live_id in E as [E _].
    destruct Hk as (s & Hs & _ & Hag). rewrite (proj2 (tbl_key _ Hok _ _ Hs)) in E.
    injection E as E. rewrite (proj1 (tbl_key _ Hok _ _ Hr)) in E. rewrite E in Hs. simplify_eq.
    by rewrite <- (ag_email _ _ Hag).
Qed.

(** A password hash changes only through ChangePassword with the current password
    of that account, or through ResetPassword with a token Redis holds for it. *)
Theorem password_change_authorised c w res w' id r r' :
  users_inv (w_u w) -> run uc c w = (res, w') ->
  rows w !! id = Some r -> rows w' !! id = Some r' ->
  Users.Password r <> Users.Password r' ->
  (exists userID cur new, c = CChangePassword userID cur new /\ sql_uuid userID = Some id /\
     bcrypt_CompareHashAndPassword (Users.Password r) cur = None /\
     bcrypt_CompareHashAndPassword (Users.Password r') new = None) \/
  (exists token new userID, c = CResetPassword token new /\ reset_stored w token userID /\
     sql_uuid userID = Some id /\
     bcrypt_CompareHashAndPassword (Users.Password r') new = None).
Proof.
  intros Hi Hrun Hr Hr' Hp. pose proof (wp_run _ _ _ _ _ (run_effect uc c w Hi) Hrun) as Hce.
  destruct (users_inv_table _ Hi) as [Hok _]. destruct Hce as [_ _ Ht _ _].
  remember (rows w') as T' eqn:HT.
  destruct Ht as [c|x i s Hi' Hs Hro|email code u now Hotp Hk He Hua|uid cur new usr T' Hst Hid Hv Hre
    |token new uid usr T' Hrs Hst Hid Hre]; [congruence| | | |].
  - rewrite lookup_insert_ne in Hr' by congruence. congruence.
  - rewrite (update_live_lookup _ _ _ _ _ Hr) in Hr'.
    destruct (eval_where _ r); simplify_eq. by destruct r.
  - left. destruct (password_replaced_at _ _ _ _ _ _ _ Hok Hst Hre Hr Hr' Hp) as (<- & <- & Hc). exists uid, cur, new. split_and!; try done.
    unfold VerifyPassword in Hv. simpl. by destruct (bcrypt_CompareHashAndPassword _ cur).
  - right. destruct (password_replaced_at _ _ _ _ _ _ _ Hok Hst Hre Hr Hr' Hp) as (<- & _ & Hc). by exists token, new, uid.
Qed.

(** Along every trace accounts are never removed, keep id, name, email, role,
    creation and deletion stamps, and never become inactive again; the use
    case's invariant holds throughout. *)
Theorem accounts_evolve w w' :
  users_inv (w_u w) -> rtc (auth_step uc) w w' ->
  evolves (rows w) (rows w') /\ users_inv (w_u w') /\ table_ok (rows w').
Proof.
  intros Hi Htr. destruct (since_trace uc _ _ Hi Htr) as [Hi' _ He _].
  split_and!; [done|done|]. by apply users_inv_table in Hi' as [? _].
Qed.

(** C29. Every error a call answers with is a DomainError, which the transport maps
    to a status; and a failed call leaves all accounts as they were, except that
    an INSERT may have gone through whose answer was lost (an internal error of
    Register). *)
Theorem errors_typed c w e w' :
  users_inv (w_u w) -> run uc c w = (Some (Err e), w') ->
  is_DomainError e = true /\
  (rows w' = rows w \/
   error_type e = Some ErrTypeInternal /\ exists x id r, c = CRegister x /\
     rows w !! id = None /\ rows w' = <[id := r]> (rows w)).
Proof.
  intros Hi Hrun. destruct (wp_run _ _ _ _ _ (run_effect uc c w Hi) Hrun) as [_ _ _ _ He].
  by apply He.
Qed.

(** VerifyOTP succeeds only with the stored code, for an account the service saw
    inactive; afterwards the row is activated, and no other row has changed. *)
Theorem VerifyOTP_sound email otpCode w w' :
  users_inv (w_u w) -> Auth.VerifyOTP uc email otpCode w = (Ok tt, w') ->
  otp_stored w email otpCode /\
  exists id r r', rows w !! id = Some r /\ Users.Email r = NormalizeEmail email /\
    rows w' !! id = Some r' /\ Users.Active r' = true /\
    forall id', id' <> id -> rows w' !! id' = rows w !! id'.
Proof.
  intros Hi Hrun. destruct (users_inv_table _ Hi) as [Hok _].
  destruct (wp_run _ _ _ _ _ (VerifyOTP_effect uc email otpCode w Hi) Hrun)
    as (T' & Hat & Hotp & c & now & (r & Hr & Hl & Hag) & He & _ & HT).
  split; [done|]. rewrite (at_rows _ _ _ _ Hat), HT.
  assert (sql_uuid (User.ID c) = Some (User.ID c)) as Hu by exact (proj2 (tbl_key _ Hok _ _ Hr)).
  eexists (User.ID c), r, _. split_and!; [done|by rewrite <- (ag_email _ _ Hag)| | |].
  - by apply update_live_lookup.
  - rewrite (proj2 (eval_live_id _ r)); [by destruct r|].
    split; [|done]. by rewrite (proj1 (tbl_key _ Hok _ _ Hr)).
  - intros id' Hne. destruct (rows w !! id') as [s|] eqn:Hs.
    + rewrite (update_live_lookup _ _ _ _ _ Hs). destruct (eval_where _ s) eqn:E; [|done].
      apply eval_live_id in E as [E _]. rewrite Hu in E. injection E as E.
      by rewrite E, (proj1 (tbl_key _ Hok _ _ Hs)) in Hne.
    + unfold update_live. by rewrite lookup_fmap, Hs.
Qed.

(** Register on success has stored exactly one new row, live and inactive, with
    the trimmed name, the normalized email and a hash the password verifies. *)
Theorem Register_sound x w s w' :
  users_inv (w_u w) -> Auth.Register x w = (Ok s, w') ->
  exists id r, rows w !! id = None /\ rows w' = <[id := r]> (rows w) /\ s = ToV1Domain r /\
    Users.Id r = id /\ live r = true /\ Users.Active r = false /\
    Users.Username r = TrimSpace (User.Username x) /\
    Users.Email r = NormalizeEmail (User.Email x) /\ Users.Email r <> "" /\
    no_live_email (rows w) (Users.Email r) /\
    bcrypt_CompareHashAndPassword (Users.Password r) (User.Password x) = None.
Proof.
  intros Hi Hrun.
  destruct (wp_run _ _ _ _ _ (Register_effect x w Hi) Hrun)
    as (T' & Hat & id & r & Hid & HT & -> & Hl & Ha & Hem & Hun & _ & _ & Hv).
  pose proof (at_inv _ _ _ _ Hat) as Hi'. apply users_inv_table in Hi' as [Hok' Hems'].
  pose proof (at_rows _ _ _ _ Hat) as Hrows. rewrite HT in Hrows.
  assert (rows w' !! id = Some r) as Hr by (rewrite Hrows; apply lookup_insert_eq).
  exists id, r. split_and!; try done.
  - exact (proj1 (tbl_key _ Hok' _ _ Hr)).
  - exact (proj1 (Hems' _ _ Hr)).
  - intros i s Hs Hls He. assert (i = id); [|by subst; rewrite Hid in Hs].
    assert (i <> id) as Hne by (intros ->; by rewrite Hid in Hs).
    eapply (tbl_email _ Hok' i id s r); try done.
    change (rows w' !! i = Some s). rewrite Hrows. by rewrite lookup_insert_ne.
  - unfold VerifyPassword in Hv. simpl in Hv. by destruct (bcrypt_CompareHashAndPassword _ _).
Qed.
End props.
