(* ===== verification/AuthHealthy.v ===== *)
(** The auth service while Redis answers and no key runs out: the lockout
    counters count, a rotated refresh token is spent, a reset token works once and
    a new one replaces the old. *)

From Stdlib Require Import Ascii String ZArith.
From stdpp Require Import base gmap strings list pretty relations.
From S2P Require Import Prelude GoStrings AppError Records Services World Domain Repository Caches.
From S2P Require Import UsersUsecase Jwt OtpCode AuthUsecase AuthLemmas AuthEffects AuthSystem.
From S2P Require Import AuthProps.

Open Scope string_scope.

Section healthy.
Context `{PlatformLaws} `{!RedisHealthy} `{!OTPMailer} `{!UsersUsecase} `{!JWTService}.
#[local] Existing Instances pl_text pl_redis pl_sql pl_rist pl_rng.
Variable uc : Auth.usecase.

Definition good (w : World) : Prop := redis_healthy (w_redis w).

(** Redis is healthy and holds [m]. *)
Definition holds (m : gmap string rentry) (w : World) : Prop := good w /\ keys w = m.

(** ** Rules *)
Section rules.
Context (m : gmap string rentry).

Lemma wp_h_Set k v (Q : result error unit -> World -> Prop) w :
  holds m w ->
  (forall r', let w' := MkW (w_u w) r' (w_mail w) in
     holds (<[k := entry_set (json_Marshal v) (mul64 (Redis.expires (Auth.redisCache uc)) Minute)]> m) w' ->
     Q (Ok tt) w') ->
  wp (Auth.cache_Set uc k v) Q w.
Proof.
  intros [Hg <-] HQ. unfold Auth.cache_Set. wp_step. apply wp_intro. intros res r' Heq.
  unfold Redis.Set_ in Heq. cbn in Heq.
  edestruct (healthy_set k (json_Marshal v) (mul64 (Redis.expires (Auth.redisCache uc)) Minute)
    (w_redis w) Hg) as (Hg' & Hr & Hv). rewrite Heq in *. cbn in *. subst res. by apply HQ.
Qed.

Lemma wp_h_Get k (Q : result error string -> World -> Prop) w :
  holds m w ->
  (forall res r', let w' := MkW (w_u w) r' (w_mail w) in holds m w' ->
     match res with
     | Ok s => exists e, m !! k = Some e /\ json_Unmarshal (re_val e) = Some s
     | Err _ => forall e, m !! k = Some e -> json_Unmarshal (re_val e) = None
     end -> Q res w') ->
  wp (Auth.cache_Get k) Q w.
Proof.
  intros [Hg <-] HQ. unfold Auth.cache_Get. wp_step. unfold Redis.Get. apply wp_try, wp_intro.
  intros res r' Heq. destruct (healthy_get k (w_redis w) Hg) as (Hg' & Hv & Hr).
  cbn in Heq. rewrite Heq in *. cbn in *. subst res. unfold keys in *.
  destruct (redis_view (w_redis w) !! k) as [e|] eqn:Ek.
  - destruct (json_Unmarshal (re_val e)) eqn:Ej; apply wp_ret, HQ; try done; [by exists e|].
    intros e' He'. by simplify_eq.
  - apply wp_ret, HQ; [done|]. intros e He. by simplify_eq.
Qed.

Lemma wp_h_Del k (Q : result error unit -> World -> Prop) w :
  holds m w ->
  (forall r', let w' := MkW (w_u w) r' (w_mail w) in holds (delete k m) w' -> Q (Ok tt) w') ->
  wp (Auth.cache_Del k) Q w.
Proof.
  intros [Hg <-] HQ. unfold Auth.cache_Del. wp_step. apply wp_intro. intros res r' Heq.
  unfold Redis.Del in Heq. cbn in Heq. destruct (healthy_del k (w_redis w) Hg) as (Hg' & Hr & Hv).
  rewrite Heq in *. cbn in *. subst res. by apply HQ.
Qed.

Lemma wp_h_Expire k d (Q : result error unit -> World -> Prop) w :
  holds m w -> (0 < d)%Z ->
  (forall r', let w' := MkW (w_u w) r' (w_mail w) in
     holds (alter (entry_expire d) k m) w' -> Q (Ok tt) w') ->
  wp (Auth.cache_Expire k d) Q w.
Proof.
  intros [Hg <-] Hd HQ. unfold Auth.cache_Expire. wp_step. apply wp_intro. intros res r' Heq.
  unfold Redis.Expire in Heq. cbn in Heq.
  destruct (healthy_expire k d (w_redis w) Hg Hd) as (Hg' & Hr & Hv).
  rewrite Heq in *. cbn in *. subst res. by apply HQ.
Qed.

(** Calls on the other collaborators do not reach Redis. *)
Lemma wp_h_users {A} (p : io UState A) (Q : A -> World -> Prop) w :
  holds m w ->
  (forall a u', let w' := MkW u' (w_redis w) (w_mail w) in holds m w' -> Q a w') ->
  wp (zoom l_u p) Q w.
Proof. intros Hh HQ. wp_step. apply wp_intro. intros a u' _. by apply HQ. Qed.

Lemma wp_h_base {A} (p : io Base A) (Q : A -> World -> Prop) w :
  holds m w ->
  (forall a b', let w' := lset l_wbase b' w in holds m w' -> Q a w') ->
  wp (zoom l_wbase p) Q w.
Proof. intros Hh HQ. wp_step. apply wp_intro. intros a b' _. by apply HQ. Qed.

Lemma wp_h_mail {A} (p : io mail A) (Q : A -> World -> Prop) w :
  holds m w ->
  (forall a m', let w' := MkW (w_u w) (w_redis w) m' in holds m w' -> Q a w') ->
  wp (zoom l_mail p) Q w.
Proof. intros Hh HQ. wp_step. apply wp_intro. intros a m' _. by apply HQ. Qed.
End rules.

(** ** Counters *)

(** The counter at [k] stands at [n]. *)
Definition counter (m : gmap string rentry) (k : string) (n : Z) : Prop :=
  (n = 0%Z /\ m !! k = None) \/
  ((0 < n)%Z /\ exists e, m !! k = Some e /\ re_val e = Itoa n).

Lemma counter_same m m' k n : m' !! k = m !! k -> counter m k n -> counter m' k n.
Proof. unfold counter. intros ->. done. Qed.

Lemma in_int64_small n : (0 <= n < int64_max)%Z -> in_int64 (n + 1) = true.
Proof.
  unfold in_int64, int64_min, int64_max. intros Hn.
  apply andb_true_intro. split; apply Z.leb_le; lia.
Qed.

Lemma in_int64_mid n : (0 <= n < int64_max)%Z -> in_int64 n = true.
Proof.
  unfold in_int64, int64_min, int64_max. intros Hn.
  apply andb_true_intro. split; apply Z.leb_le; lia.
Qed.

(** Whatever the counter's key holds, counting touches that key only. *)
Lemma wp_h_count_any m k d (Q : Z -> World -> Prop) w :
  holds m w -> (0 < d)%Z ->
  (forall n r' m', let w' := MkW (w_u w) r' (w_mail w) in
     holds m' w' -> (forall k', k' <> k -> m' !! k' = m !! k') -> Q n w') ->
  wp (Auth.count_attempt k d) Q w.
Proof.
  intros [Hg <-] Hd HQ. unfold Auth.count_attempt, Auth.cache_Incr.
  wp_step. wp_step. apply wp_intro. intros res r' Heq. unfold Redis.Incr in Heq. cbn in Heq.
  destruct (healthy_incr k (w_redis w) Hg) as [Hg' Hv].
  pose proof (healthy_incr_other k (w_redis w)) as Hother. rewrite Heq in *. cbn in *.
  assert (forall k', k' <> k -> redis_view r' !! k' = keys w !! k') as Hsame.
  { unfold keys. intros k' Hne. destruct (redis_view (w_redis w) !! k) as [e|] eqn:Ek.
    - destruct (decide (exists m, ParseInt (re_val e) = Some m /\ re_val e = Itoa m))
        as [(m & Hm & He)|Hno].
      + specialize (Hv m He (ParseInt_range _ _ Hm)). destruct (in_int64 (m + 1)), Hv as [_ ->]; [|done].
        by rewrite lookup_insert_ne.
      + destruct (Hother e Hg eq_refl) as [_ ->]; [|done]. intros m Hm He. apply Hno. exists m.
        split; [|done]. rewrite He. by apply ParseInt_Itoa.
    - destruct Hv as [_ ->]. by rewrite lookup_insert_ne. }
  destruct res as [n|e]; wp_steps; [|by eapply HQ..].
  eapply wp_h_Expire; [by split|done|]. intros r2 w2 Hh2. wp_steps. eapply HQ; [exact Hh2|].
  intros k' Hne. rewrite lookup_alter_ne by done. by apply Hsame.
Qed.

(** One attempt: the counter is one higher, and that is the answer. *)
Lemma wp_h_count m k d n (Q : Z -> World -> Prop) w :
  holds m w -> (0 < d)%Z -> counter m k n -> (0 <= n < int64_max)%Z ->
  (forall r' m', let w' := MkW (w_u w) r' (w_mail w) in
     holds m' w' -> counter m' k (n + 1) ->
     (forall k', k' <> k -> m' !! k' = m !! k') -> Q (n + 1)%Z w') ->
  wp (Auth.count_attempt k d) Q w.
Proof.
  intros [Hg <-] Hd Hc Hn HQ. pose proof (in_int64_small n Hn) as Hn1.
  unfold Auth.count_attempt, Auth.cache_Incr.
  wp_step. wp_step. apply wp_intro. intros res r' Heq. unfold Redis.Incr in Heq. cbn in Heq.
  destruct (healthy_incr k (w_redis w) Hg) as [Hg' Hv]. rewrite Heq in *. cbn in *.
  destruct Hc as [[-> Hk]|[Hpos (e & Hk & Hp)]]; unfold keys in Hk; rewrite Hk in Hv.
  - destruct Hv as [-> Hv]. cbn. wp_step. wp_step. eapply wp_h_Expire; [by split|done|].
    intros r2 w2 Hh2. wp_steps. eapply HQ; [exact Hh2| |].
    + right. split; [done|]. eexists.
      split; [by rewrite lookup_alter_eq, lookup_insert_eq|done].
    + intros k' Hne. by rewrite lookup_alter_ne, lookup_insert_ne by done.
  - specialize (Hv n Hp (in_int64_mid n ltac:(lia))). rewrite Hn1 in Hv. destruct Hv as [-> Hv']. cbn. wp_step.
    destruct (Z.eqb_spec (n + 1) 1) as [|_]; [lia|]. wp_steps. eapply HQ; [by split| |].
    + right. split; [lia|]. eexists. by split; [by rewrite lookup_insert_eq|].
    + intros k' Hne. by rewrite lookup_insert_ne by done.
Qed.

(** ** Login *)

Lemma wp_h_remember m p (Q : result error unit -> World -> Prop) w :
  holds m w ->
  (forall res w' m', holds m' w' ->
     (forall k, k <> RefreshKey (RefreshJTI p) -> m' !! k = m !! k) -> Q res w') ->
  wp (Auth.rememberRefresh uc p) Q w.
Proof.
  intros Hh HQ. unfold Auth.rememberRefresh. wp_step. eapply wp_h_base; [done|].
  intros t b1 w1 Hh1. destruct (_ <=? 0)%Z eqn:Ettl; [by eapply wp_ret, HQ|]. wp_step.
  eapply wp_h_Set; [done|]. intros r2 w2 Hh2. cbn. eapply wp_h_Expire; [done|lia|].
  intros r3 w3 Hh3. eapply HQ; [done|]. intros k Hk.
  by rewrite lookup_alter_ne, lookup_insert_ne by done.
Qed.

(** A Login past the guard that fails leaves the counter alone. *)
Lemma Login_checked_counter m email pw w :
  holds m w ->
  wp (Auth.Login_checked uc email pw (LoginAttemptsKey email)) (fun res w' =>
    is_Ok res = false -> exists m', holds m' w' /\
      m' !! LoginAttemptsKey email = m !! LoginAttemptsKey email) w.
Proof.
  intros Hh. unfold Auth.Login_checked. wp_step. eapply wp_h_users; [done|].
  intros res u1 w1 Hh1. destruct res as [user|e]; [|wp_steps; by exists m].
  destruct (User.Active user); simpl; [|wp_steps; by exists m].
  destruct (VerifyPassword user pw); simpl; [|wp_steps; by exists m].
  wp_step. eapply wp_h_base; [done|]. intros res b2 w2 Hh2.
  destruct res as [p|e]; [|wp_steps; by exists m]. wp_step. eapply wp_h_remember; [done|].
  intros res w3 m3 Hh3 Hm3. destruct res as [[]|e].
  - wp_step. eapply wp_h_Del; [done|]. intros r4 w4 Hh4. by wp_steps.
  - wp_steps. intros _. exists m3. split; [done|]. apply Hm3. key_ne.
Qed.

Definition locked_out : error :=
  Forbidden "too many failed login attempts, please try again later".

(** Past the limit the answer is the lockout, whatever the password. *)
Lemma Login_step m email pw n w :
  (0 < Auth.LoginMaxAttempts (Auth.cfg uc))%Z -> (0 < Auth.LoginLockoutTTL (Auth.cfg uc))%Z ->
  holds m w -> counter m (LoginAttemptsKey (NormalizeEmail email)) n ->
  (0 <= n < int64_max)%Z ->
  wp (Auth.Login uc email pw) (fun res w' =>
    ((Auth.LoginMaxAttempts (Auth.cfg uc) <= n)%Z -> res = Err locked_out) /\
    (is_Ok res = false -> exists m', holds m' w' /\
       counter m' (LoginAttemptsKey (NormalizeEmail email)) (n + 1))) w.
Proof.
  intros Hmax Httl Hh Hc Hn. unfold Auth.Login. rewrite (proj2 (Z.ltb_lt _ _) Hmax).
  wp_step. eapply wp_h_count; [done|done|done|done|]. intros r1 m1 w1 Hh1 Hc1 Hsame.
  destruct (Z.ltb_spec (Auth.LoginMaxAttempts (Auth.cfg uc)) (n + 1)) as [Hlt|Hge].
  - wp_steps. split; [done|]. intros _. by exists m1.
  - eapply wp_mono; [by apply Login_checked_counter|]. intros res w2 Hres.
    split; [lia|]. intros Hno. destruct (Hres Hno) as (m2 & Hh2 & Hk). exists m2.
    split; [done|]. by eapply counter_same.
Qed.

(** A series of attempts on one email, one password each. *)
Fixpoint logins (email : string) (pws : list string)
    : io World (list (result error Auth.LoginResponse)) :=
  match pws with
  | [] => ret []
  | pw :: pws => r <- Auth.Login uc email pw ;; rs <- logins email pws ;; ret (r :: rs)
  end.

Lemma logins_locked m email pws n w :
  (0 < Auth.LoginMaxAttempts (Auth.cfg uc))%Z -> (0 < Auth.LoginLockoutTTL (Auth.cfg uc))%Z ->
  holds m w -> counter m (LoginAttemptsKey (NormalizeEmail email)) n ->
  (0 <= n)%Z -> (n + Z.of_nat (length pws) < int64_max)%Z ->
  wp (logins email pws) (fun rs _ =>
    (forall i r, rs !! i = Some r -> (n + Z.of_nat i < Auth.LoginMaxAttempts (Auth.cfg uc))%Z ->
       is_Ok r = false) ->
    forall i r, rs !! i = Some r -> (Auth.LoginMaxAttempts (Auth.cfg uc) <= n + Z.of_nat i)%Z ->
      r = Err locked_out) w.
Proof.
  intros Hmax Httl. revert m n w. induction pws as [|pw pws IH]; intros m n w Hh Hc Hn Hlen.
  { simpl. apply wp_ret. intros _ i r Hi. by rewrite lookup_nil in Hi. }
  cbn [logins]. wp_step. eapply wp_mono; [eapply Login_step; [done|done|exact Hh|exact Hc|]|].
  { simpl in Hlen. lia. }
  intros r1 w1 [Hlock Hnext]. cbn [length] in Hlen. apply wp_bind, wp_intro. intros rs w2 Hrun.
  apply wp_ret. intros Hfail i r Hi Hge.
  assert (is_Ok r1 = false) as Hr1.
  { destruct (Z.leb_spec (Auth.LoginMaxAttempts (Auth.cfg uc)) n) as [Hle|Hlt].
    - by rewrite (Hlock Hle).
    - apply (Hfail 0 r1); [done|lia]. }
  destruct i as [|i]; [injection Hi as <-; apply Hlock; lia|].
  destruct (Hnext Hr1) as (m1 & Hh1 & Hc1).
  eapply (wp_run _ _ _ _ _ (IH m1 (n + 1)%Z w1 Hh1 Hc1 ltac:(lia) ltac:(lia)) Hrun).
  - intros j s Hj Hlt. apply (Hfail (S j) s); [done|lia].
  - exact Hi.
  - lia.
Qed.

(** Brute force: in any series of Login attempts on an email, starting from a
    fresh counter, once the first [LoginMaxAttempts] have failed every further
    attempt is answered with the lockout, also one with the right password. *)
Theorem Login_lockout email pws w rs w' :
  (0 < Auth.LoginMaxAttempts (Auth.cfg uc))%Z -> (0 < Auth.LoginLockoutTTL (Auth.cfg uc))%Z ->
  redis_healthy (w_redis w) -> keys w !! LoginAttemptsKey (NormalizeEmail email) = None ->
  (Z.of_nat (length pws) < int64_max)%Z ->
  logins email pws w = (rs, w') ->
  (forall i r, rs !! i = Some r -> (Z.of_nat i < Auth.LoginMaxAttempts (Auth.cfg uc))%Z ->
     is_Ok r = false) ->
  forall i r, rs !! i = Some r -> (Auth.LoginMaxAttempts (Auth.cfg uc) <= Z.of_nat i)%Z ->
    r = Err locked_out.
Proof.
  intros Hmax Httl Hg Hk Hlen Hrun Hfail i r Hi Hge.
  assert (holds (keys w) w) as Hh by done.
  eapply (wp_run _ _ _ _ _ (logins_locked (keys w) email pws 0 w Hmax Httl Hh (or_introl (conj eq_refl Hk))
    ltac:(lia) ltac:(lia)) Hrun).
  - intros j s Hj Hlt. apply (Hfail j s); [done|lia].
  - exact Hi.
  - lia.
Qed.

(** ** VerifyOTP *)

(** Past [OTPMaxAttempts] attempts VerifyOTP no longer looks at the code: the
    answer is the lockout (or that there is no such inactive account), and
    neither the table nor the stored code has changed. *)
Theorem VerifyOTP_lockout `{!UsersContract} email code m n w res w' :
  users_inv (w_u w) -> (0 < Auth.OTPTTL (Auth.cfg uc))%Z -> holds m w ->
  counter m (OTPAttemptsKey (NormalizeEmail email)) n ->
  (0 <= n < int64_max)%Z -> (Auth.OTPMaxAttempts (Auth.cfg uc) <= n)%Z ->
  Auth.VerifyOTP uc email code w = (res, w') ->
  is_Ok res = false /\ rows w' = rows w /\
  keys w' !! UserOTPKey (NormalizeEmail email) = m !! UserOTPKey (NormalizeEmail email).
Proof.
  intros Hi Httl Hh Hc Hn Hmax Hrun.
  refine (wp_run _ (fun res w' => is_Ok res = false /\ rows w' = rows w /\
    keys w' !! UserOTPKey (NormalizeEmail email) = m !! UserOTPKey (NormalizeEmail email))
    _ _ _ _ Hrun).
  unfold Auth.VerifyOTP. wp_step. wp_step. eapply wp_mono; [by apply users_GetByEmail_spec|].
  intros r1 u1 (_ & Ht & _). cbn in Ht. destruct Hh as [Hg Hm].
  assert (forall res : result error unit, is_Ok res = false ->
    wp (ret res) (fun res w' => is_Ok res = false /\ rows w' = rows w /\
    keys w' !! UserOTPKey (NormalizeEmail email) = m !! UserOTPKey (NormalizeEmail email))
    (lset l_u u1 w)) as Hret.
  { intros r Hr. apply wp_ret. split_and!; [done|exact Ht|]. unfold keys in *. cbn. by rewrite Hm. }
  destruct r1 as [user|e]; [|by apply Hret]. destruct (User.Active user); [by apply Hret|].
  wp_step. eapply wp_h_count; [split; [exact Hg|exact Hm]|done|done|done|].
  intros r2 m2 w2 Hh2 Hc2 Hsame.
  destruct (Z.ltb_spec (Auth.OTPMaxAttempts (Auth.cfg uc)) (n + 1)); [|lia]. wp_steps.
  split_and!; [done|exact Ht|]. destruct Hh2 as [_ ->]. apply Hsame. key_ne.
Qed.

(** ** Refresh *)
Lemma Refresh_spends `{!JWTContract} tok m w :
  holds m w ->
  wp (Auth.Refresh uc tok) (fun res w' => is_Ok res = true ->
    exists c, token_claims tok = Some c /\ keys w' !! RefreshKey (Claims.ID c) = None) w.
Proof.
  intros Hh. unfold Auth.Refresh. wp_step. wp_step.
  eapply wp_mono; [apply jwt_refresh_spec|]. intros [c|e] b1 [_ Hc]; [|by wp_steps].
  destruct Hc as [Hc _]. assert (holds m (lset l_wbase b1 w)) as Hh1 by done.
  wp_step. eapply wp_h_Get; [done|]. intros res r2 w2 Hh2 _. destruct res as [s|e]; [|by wp_steps].
  wp_step. eapply wp_h_users; [done|]. intros res u3 w3 Hh3.
  destruct res as [user|e]; [|by wp_steps].
  destruct (User.Active user); simpl; [|by wp_steps]. wp_step; [by wp_steps|].
  wp_step. eapply wp_h_base; [done|]. intros res b4 w4 Hh4. destruct res as [p|e]; [|by wp_steps].
  wp_step. eapply wp_h_remember; [done|]. intros res w5 m5 Hh5 _.
  destruct res as [[]|e]; [|by wp_steps]. wp_step. eapply wp_h_Del; [done|].
  intros r6 w6 [_ Hh6]. wp_steps. intros _. exists c. split; [done|].
  rewrite Hh6. apply lookup_delete_eq.
Qed.

(** C10. Rotation: once a refresh token has been exchanged while Redis was healthy, it
    is refused for ever, whatever else happens, even if Redis fails later. *)
Theorem Refresh_rotates `{!UsersContract} `{!JWTContract} tok c w resp w1 w2 :
  users_inv (w_u w) -> redis_healthy (w_redis w) ->
  token_claims tok = Some c -> Claims.ID c ∈ issued w ->
  Auth.Refresh uc tok w = (Ok resp, w1) -> rtc (auth_step uc) w1 w2 ->
  exists e, (Auth.Refresh uc tok w2).1 = Err e /\ error_type e = Some ErrTypeUnauthorized.
Proof.
  intros Hi Hg Hc Hj Hrun Htr.
  destruct (wp_run _ _ _ _ _ (Refresh_spends tok (keys w) w (conj Hg eq_refl)) Hrun eq_refl)
    as (c' & Hc' & Hk). simplify_eq.
  destruct (wp_run _ _ _ _ _ (Refresh_effect uc tok w Hi) Hrun) as [Hat _].
  destruct (since_trace uc _ _ (at_inv _ _ _ _ Hat) Htr) as [_ _ _ Hdead].
  destruct (Refresh_absent uc tok c w2 Hc) as (e & He & Ht); [|by exists e].
  apply Hdead; [|done]. by apply (at_issued _ _ _ _ Hat).
Qed.

(** ** ResetPassword *)
Lemma wp_h_cutoff m id t (Q : unit -> World -> Prop) w :
  holds m w ->
  (forall w' m', holds m' w' -> w_u w' = w_u w ->
     (exists e, m' !! TokenCutoffKey id = Some e /\ re_val e = json_Marshal (Itoa (time_Unix t))) ->
     (forall k, k <> TokenCutoffKey id -> m' !! k = m !! k) -> Q tt w') ->
  wp (Auth.recordTokenCutoff uc id t) Q w.
Proof.
  intros Hh HQ. unfold Auth.recordTokenCutoff. wp_step. eapply wp_h_Set; [done|].
  intros r1 w1 Hh1. cbn. wp_step. eapply wp_h_Expire; [done|done|]. intros r2 w2 Hh2. wp_steps.
  eapply HQ; [done|done| |].
  - eexists. rewrite lookup_alter_eq, lookup_insert_eq. by split.
  - intros k Hk. by rewrite lookup_alter_ne, lookup_insert_ne by done.
Qed.

Lemma ResetPassword_spends token new m w :
  holds m w ->
  wp (Auth.ResetPassword uc token new) (fun res w' => is_Ok res = true ->
    exists m', holds m' w' /\ m' !! PasswordResetKey token = None) w.
Proof.
  intros Hh. unfold Auth.ResetPassword. wp_step; [by wp_steps|]. wp_step; [by wp_steps|].
  wp_step. eapply wp_h_Get; [done|]. intros res r1 w1 Hh1 _. destruct res as [userID|e]; [|by wp_steps].
  wp_step; [by wp_steps|]. wp_step. eapply wp_h_users; [done|]. intros res u2 w2 Hh2.
  destruct res as [usr|e]; [|by wp_steps]. wp_step. eapply wp_h_base; [done|].
  intros res b3 w3 Hh3. destruct res as [u'|e]; [|destruct (errors_Is e ErrEmptyPassword); by wp_steps].
  wp_step. eapply wp_h_users; [done|]. intros res u4 w4 Hh4. destruct res as [[]|e]; [|by wp_steps].
  wp_step. eapply wp_h_Del; [done|]. intros r5 w5 Hh5. wp_step. eapply wp_h_Del; [done|].
  intros r6 w6 Hh6.
  assert (delete (UserResetIndexKey userID) (delete (PasswordResetKey token) m)
    !! PasswordResetKey token = None) as Hnone.
  { rewrite lookup_delete_ne by (key_ne). apply lookup_delete_eq. }
  destruct (User.PasswordChangedAt u'); [|wp_steps; intros _; by eexists].
  wp_step. eapply wp_h_cutoff; [done|]. intros w7 m7 Hh7 _ _ Hm7. wp_steps. intros _. exists m7.
  split; [done|]. rewrite Hm7; [done|]. key_ne.
Qed.

(** A reset token works once: after a successful ResetPassword while Redis was
    healthy, the same token is refused. *)
Theorem ResetPassword_once token new new' w w1 :
  redis_healthy (w_redis w) -> Auth.ResetPassword uc token new w = (Ok tt, w1) ->
  is_Ok (Auth.ResetPassword uc token new' w1).1 = false /\
  keys w1 !! PasswordResetKey token = None.
Proof.
  intros Hg Hrun.
  destruct (wp_run _ _ _ _ _ (ResetPassword_spends token new (keys w) w (conj Hg eq_refl)) Hrun eq_refl)
    as (m1 & Hh1 & Hk). split; [|by destruct Hh1 as [_ ->]].
  change (wp (Auth.ResetPassword uc token new') (fun res _ => is_Ok res = false) w1).
  unfold Auth.ResetPassword. wp_step; [by wp_steps|]. wp_step; [by wp_steps|].
  wp_step. eapply wp_h_Get; [done|]. intros res r2 w2 Hh2 Hres.
  destruct res as [userID|e]; [|by wp_steps]. destruct Hres as (x & Hx & _). by rewrite Hk in Hx.
Qed.

(** ** ForgotPassword *)
Lemma ForgotPassword_limited_token `{!UsersContract} m email id r w :
  users_inv (w_u w) -> (0 < Auth.PasswordResetTTL (Auth.cfg uc))%Z -> holds m w ->
  NormalizeEmail email = email ->
  rows w !! id = Some r -> live r = true -> Users.Email r = email ->
  wp (Auth.ForgotPassword_limited uc email) (fun res w' => res = Ok tt -> exists token m',
    holds m' w' /\
    (exists e, m' !! PasswordResetKey token = Some e /\ re_val e = json_Marshal id) /\
    (exists e, m' !! UserResetIndexKey id = Some e /\ re_val e = json_Marshal token) /\
    forall x prior, m !! UserResetIndexKey id = Some x -> json_Unmarshal (re_val x) = Some prior ->
      prior <> "" -> prior <> token -> m' !! PasswordResetKey prior = None) w.
Proof.
  intros Hi Httl Hh Hn Hr Hl He. destruct (users_inv_table _ Hi) as [Hok _].
  unfold Auth.ForgotPassword_limited. wp_step. wp_step. eapply wp_mono; [apply grows_reset_token|].
  intros res b1 Hb1. assert (holds m (lset l_wbase b1 w)) as Hh1 by done.
  destruct res as [token|e]; [|by wp_steps]. wp_step. wp_step.
  eapply wp_mono; [apply users_GetByEmail_spec; by apply users_inv_base|].
  intros res u2 (_ & _ & _ & Hres). cbn in Hres. rewrite Hn in Hres. destruct res as [usr|e].
  2:{ case_bool_decide as Hnf; [|by wp_steps]. destruct Hres as [_ Hno].
      by destruct (Hno Hnf id r Hr Hl). }
  destruct Hres as [Hk Hem]. destruct (live_unique _ _ _ _ Hok Hr Hl Hk) as [Hid _]; [by rewrite He|].
  rewrite Hid. assert (holds m (lset l_u u2 (lset l_wbase b1 w))) as Hh2 by done.
  wp_step. eapply wp_h_Get; [exact Hh2|]. intros prior r3 w3 Hh3 Hprior. wp_step.
  eapply wp_mono with (P := fun _ w' => exists m', holds m' w' /\
    forall p, prior = Ok p -> p <> "" -> m' !! PasswordResetKey p = None).
  { destruct prior as [p|e]; [|wp_steps; by exists m].
    destruct (String.eqb_spec p ""); simpl; [wp_steps; exists m; split; [done|]; by intros ? [= <-]|].
    wp_step. eapply wp_h_Del; [done|]. intros r4 w4 Hh4. wp_steps. eexists. split; [done|].
    intros p' [= <-] _. apply lookup_delete_eq. }
  intros _ w4 (m4 & Hh4 & Hp4). wp_step. eapply wp_h_Set; [done|]. intros r5 w5 Hh5. cbn.
  wp_step. eapply wp_h_Expire; [done|done|]. intros r6 w6 Hh6. wp_step.
  eapply wp_h_Set; [done|]. intros r7 w7 Hh7. cbn. wp_step. wp_step.
  eapply wp_h_Expire; [done|done|]. intros r8 w8 Hh8. wp_step. wp_step. eapply wp_h_mail; [done|].
  intros res m9 w9 Hh9. destruct res as [[]|e]; wp_steps; [intros _|by intros [=]].
  exists token. eexists. split; [exact Hh9|]. split_and!.
  - eexists. rewrite lookup_alter_ne by key_ne. rewrite lookup_insert_ne by key_ne.
    rewrite lookup_alter_eq, lookup_insert_eq. by split.
  - eexists. rewrite lookup_alter_eq, lookup_insert_eq. by split.
  - intros x p Hx Hj Hp Hne. rewrite lookup_alter_ne by key_ne. rewrite lookup_insert_ne by key_ne.
    assert (PasswordResetKey token <> PasswordResetKey p) as Hkne.
    { intros Heq. change (key_text (KPasswordReset token) = key_text (KPasswordReset p)) in Heq.
      apply key_text_injective in Heq. by simplify_eq. }
    rewrite lookup_alter_ne, lookup_insert_ne by done. apply Hp4; [|done].
    destruct prior as [q|e]; [|by rewrite (Hprior x Hx) in Hj].
    destruct Hprior as (y & Hy & Hjy). by simplify_eq.
Qed.

(** Some token is recorded for the account and opens it; [prior], if another, does
    not. *)
Definition one_token (w : World) (id prior : string) : Prop :=
  exists token,
    (exists e, keys w !! PasswordResetKey token = Some e /\ re_val e = json_Marshal id) /\
    (exists e, keys w !! UserResetIndexKey id = Some e /\ re_val e = json_Marshal token) /\
    (prior <> token -> keys w !! PasswordResetKey prior = None).

(** Requesting a reset twice: after ForgotPassword for an account, while Redis is
    healthy, the new token stands for the account and is its only recorded one,
    and the token recorded before (if another) no longer opens anything. *)
Theorem ForgotPassword_single_token `{!UsersContract} email id r x prior w w' :
  users_inv (w_u w) -> redis_healthy (w_redis w) ->
  (0 < Auth.PasswordResetTTL (Auth.cfg uc))%Z -> (0 < Auth.ForgotLockoutTTL (Auth.cfg uc))%Z ->
  rows w !! id = Some r -> live r = true -> Users.Email r = NormalizeEmail email ->
  keys w !! UserResetIndexKey id = Some x -> json_Unmarshal (re_val x) = Some prior ->
  prior <> "" ->
  Auth.ForgotPassword uc email w = (Ok tt, w') ->
  one_token w' id prior.
Proof.
  intros Hi Hg Httl Hlttl Hr Hl He Hx Hj Hp Hrun.
  refine (wp_run _ (fun res w' => res = Ok tt -> one_token w' id prior) _ _ _ _ Hrun eq_refl). clear w' Hrun.
  assert (forall m w1, holds m w1 -> w_u w1 = w_u w -> m !! UserResetIndexKey id = Some x ->
    wp (Auth.ForgotPassword_limited uc (NormalizeEmail email)) (fun res w' =>
      res = Ok tt -> one_token w' id prior) w1) as Hlim.
  { intros m w1 Hh Hu Hm. eapply wp_mono; [apply (ForgotPassword_limited_token m _ id r)|]; try done.
    - by rewrite Hu.
    - apply NormalizeEmail_twice.
    - unfold rows. by rewrite Hu.
    - intros res w2 Hres Hok. destruct (Hres Hok) as (token & m' & [_ <-] & ? & ? & Hlast).
      exists token. split_and!; try done. intros Hne. by apply (Hlast x). }
  unfold Auth.ForgotPassword. wp_step; [|by eapply Hlim]. wp_step.
  eapply wp_h_count_any; [done|done|]. intros n r1 m1 w1 Hh1 Hsame. wp_step; [by wp_steps|].
  eapply Hlim; [done|done|]. rewrite Hsame; [done|]. key_ne.
Qed.

(** C28. ForgotPassword does not tell whether an email is known: no answer of the call
    is a "not found", and for an unknown email the mailer is not called. *)
Theorem ForgotPassword_hides `{!UsersContract} email w res w' :
  users_inv (w_u w) -> Auth.ForgotPassword uc email w = (res, w') ->
  (forall e, res = Err e -> error_type e <> Some ErrTypeNotFound) /\
  (no_live_email (rows w) (NormalizeEmail email) -> w_mail w' = w_mail w).
Proof.
  intros Hi Hrun.
  split.
  { intros e ->. by destruct (wp_run _ _ _ _ _ (ForgotPassword_effect uc email w Hi) Hrun)
      as [_ [_ ?]]. }
  intros Hno. refine (wp_run _ (fun _ w' => w_mail w' = w_mail w) _ _ _ _ Hrun).
  assert (forall w1, w_u w1 = w_u w -> w_mail w1 = w_mail w ->
    wp (Auth.ForgotPassword_limited uc (NormalizeEmail email))
       (fun _ w' => w_mail w' = w_mail w) w1) as Hlim.
  { intros w1 Hu Hm. unfold Auth.ForgotPassword_limited. wp_step. wp_step. apply wp_intro.
    intros [token|e] b1 _; [|by wp_steps]. wp_step. wp_step.
    eapply wp_mono; [apply users_GetByEmail_spec; apply users_inv_base; cbn; by rewrite Hu|].
    intros [usr|e] u2 (_ & _ & _ & Hres).
    - exfalso. rewrite NormalizeEmail_twice in Hres. cbn in Hres. rewrite Hu in Hres.
      destruct Hres as [(s & Hs & Hls & Ha) Hem]. apply (Hno _ _ Hs Hls).
      by rewrite <- (ag_email _ _ Ha).
    - case_bool_decide; [|by wp_steps].
      unfold Auth.cache_Set, Auth.cache_Expire, Auth.cache_Del.
      do 3 (wp_step; wp_step; apply wp_intro; intros ? ? _). by wp_steps. }
  unfold Auth.ForgotPassword. wp_step; [|by apply Hlim]. wp_step. unfold Auth.count_attempt.
  wp_step. unfold Auth.cache_Incr. wp_step. apply wp_intro. intros [n|e] r1 _.
  - wp_step. unfold Auth.cache_Expire.
    destruct (n =? 1)%Z; [|wp_steps; [done|by apply Hlim]].
    wp_steps. apply wp_intro. intros d2 r2 _. wp_steps; [done|by apply Hlim].
  - wp_steps; [done|by apply Hlim].
Qed.
End healthy.
