(* ===== verification/Validators.v ===== *)
(** Payload validation: src/pkg/validators over go-playground/validator, which is a
    parameter, and src/pkg/helpers/helper.common.go. *)

From Stdlib Require Import Ascii String ZArith.
From stdpp Require Import base gmap strings list pretty.
From S2P Require Import Prelude GoStrings AppError.

Open Scope string_scope.

(** * Runes: [for _, r := range s] *)

Definition byte_at (s : string) (i : nat) : N :=
  match String.get i s with Some a => code a | None => 0%N end.

(** The rune at the front of a string whose first sequence has [n] bytes; an
    invalid byte ([n = 0]) yields U+FFFD. *)
Definition rune_value (n : nat) (s : string) : N :=
  match n with
  | 1 => byte_at s 0
  | 2 => (byte_at s 0 mod 32 * 64 + byte_at s 1 mod 64)%N
  | 3 => (byte_at s 0 mod 16 * 4096 + byte_at s 1 mod 64 * 64 + byte_at s 2 mod 64)%N
  | 4 => (byte_at s 0 mod 8 * 262144 + byte_at s 1 mod 64 * 4096
          + byte_at s 2 mod 64 * 64 + byte_at s 3 mod 64)%N
  | _ => 65533%N
  end.

Fixpoint runes_go (skip : nat) (s : string) : list N :=
  match s with
  | EmptyString => []
  | String _ r =>
      match skip with
      | S k => runes_go k r
      | O => rune_value (rune_len s) s :: runes_go (Nat.pred (rune_len s)) r
      end
  end.
Definition runes (s : string) : list N := runes_go 0 s.

(** [utf8.RuneCountInString] *)
Definition rune_count (s : string) : nat := length (runes s).

(** * validator.user.go *)
Section strong.
Context `{GoText}.

Record classes := Classes { hasUpper : bool; hasLower : bool; hasDigit : bool; hasSpecial : bool }.

(** One turn of the loop: the first class that fits is noted. *)
Definition classify (c : classes) (r : N) : classes :=
  if rune_IsUpper r then Classes true (hasLower c) (hasDigit c) (hasSpecial c)
  else if rune_IsLower r then Classes (hasUpper c) true (hasDigit c) (hasSpecial c)
  else if rune_IsDigit r then Classes (hasUpper c) (hasLower c) true (hasSpecial c)
  else if rune_IsPunct r || rune_IsSymbol r
  then Classes (hasUpper c) (hasLower c) (hasDigit c) true
  else c.

(** On a field that is a string. *)
Definition StrongPassword (password : string) : bool :=
  let c := fold_left classify (runes password) (Classes false false false false) in
  hasUpper c && hasLower c && hasDigit c && hasSpecial c.
End strong.

(** * go-playground/validator

    The rules of the struct tags in use; a payload is its fields in order, each
    with its tag and value (all are strings). *)
Inductive rule := required | email | min (n : nat) | max (n : nat) | numeric | strongpassword.

Record field := Field { f_name : string; f_tag : list rule; f_value : string }.

(** [validator.FieldError]: what its accessors answer; [fe_Value] is [None] when the
    value is not a string. *)
Record fielderr := FieldErr {
  fe_Field : string; fe_Tag : string; fe_Param : string; fe_Value : option string }.

Inductive struct_error := SFields (errs : list fielderr) | SOther (e : error).

Class ValidatorLib := {
  is_email : string -> bool;
  is_numeric : string -> bool;
  (** [Struct], given the function registered as "strongpassword" *)
  validator_Struct : (string -> bool) -> list field -> option struct_error;
  strconv_Quote : string -> string;
}.

Definition rule_ok `{ValidatorLib} (strong : string -> bool) (v : string) (r : rule) : Prop :=
  match r with
  | required => v <> ""
  | email => is_email v = true
  | min n => n <= rune_count v
  | max n => rune_count v <= n
  | numeric => is_numeric v = true
  | strongpassword => strong v = true
  end.

Definition fields_ok `{ValidatorLib} (strong : string -> bool) (p : list field) : Prop :=
  Forall (fun f => Forall (rule_ok strong (f_value f)) (f_tag f)) p.

(** A payload passes exactly when every field meets its tag. *)
Class ValidatorLaws `{ValidatorLib} : Prop := {
  struct_law : forall strong p, validator_Struct strong p = None <-> fields_ok strong p;
}.

(** The library's own error for what is no struct is none of the application's. *)
Class ValidatorErrors `{ValidatorLib} : Prop := {
  struct_other : forall strong p e, validator_Struct strong p = Some (SOther e) -> error_type e = None;
}.

(** * validator.payload.go *)
Record FieldError := MkFieldError { fld_Field : string; fld_Tag : string; fld_Message : string }.

(** [*ValidationErrors], or the error the library answers with otherwise. *)
Inductive payload_error := EValidation (errs : list FieldError) | EPlain (e : error).

Definition ValidationErrors_Error (errs : list FieldError) : string :=
  match errs with
  | [] => "validation failed"
  | _ => String.concat "; " (map (fun e => fld_Field e +:+ ": " +:+ fld_Message e) errs)
  end.

Definition mapHelper (tag : string) : option string :=
  if (tag =? "required")%string then Some "is a required field"
  else if (tag =? "email")%string then Some "is not a valid email address"
  else if (tag =? "lowercase")%string then Some "must contain at least one lowercase letter"
  else if (tag =? "uppercase")%string then Some "must contain at least one uppercase letter"
  else if (tag =? "numeric")%string then Some "must contain at least one digit"
  else if (tag =? "strongpassword")%string
  then Some "must contain uppercase, lowercase, digit, and special character"
  else None.

Definition needParam : list string := ["min"; "max"; "containsany"].

Fixpoint IsArrayContains (arr : list string) (str : string) : bool :=
  match arr with
  | [] => false
  | a :: arr => if (a =? str)%string then true else IsArrayContains arr str
  end.

Definition paramMessage (value tag param : string) : string :=
  if (tag =? "min")%string then "must be at least " +:+ param +:+ " characters long"
  else if (tag =? "max")%string then "must be less than " +:+ param +:+ " characters"
  else if (tag =? "containsany")%string
  then "must contain at least one symbol of '" +:+ param +:+ "'"
  else "failed " +:+ tag +:+ " validation".

Section payloads.
Context `{GoText} `{ValidatorLib}.

Definition messageFor (e : fielderr) : string :=
  let value := default "" (fe_Value e) in
  if IsArrayContains needParam (fe_Tag e) then paramMessage value (fe_Tag e) (fe_Param e) else
  match mapHelper (fe_Tag e) with
  | Some msg => if negb (value =? "")%string then "'" +:+ value +:+ "' " +:+ msg else msg
  | None => "failed validation on " +:+ strconv_Quote (fe_Tag e)
  end.

Definition ValidatePayloads (payload : list field) : option payload_error :=
  match validator_Struct StrongPassword payload with
  | None => None
  | Some (SOther err) => Some (EPlain err)
  | Some (SFields ve) =>
      Some (EValidation (map (fun e =>
        MkFieldError (ToLower (fe_Field e)) (fe_Tag e) (messageFor e)) ve))
  end.
End payloads.

(** * Lemmas *)
Section strong_ok.
Context `{GoText}.

Lemma classify_fold l c :
  fold_left classify l c = Classes
    (hasUpper c || existsb rune_IsUpper l)
    (hasLower c || existsb (fun r => negb (rune_IsUpper r) && rune_IsLower r) l)
    (hasDigit c || existsb (fun r => negb (rune_IsUpper r) && negb (rune_IsLower r)
                                     && rune_IsDigit r) l)
    (hasSpecial c || existsb (fun r => negb (rune_IsUpper r) && negb (rune_IsLower r)
       && negb (rune_IsDigit r) && (rune_IsPunct r || rune_IsSymbol r)) l).
Proof.
  revert c. induction l as [|r l IH]; intros [u lo d s]; simpl; [by rewrite !orb_false_r|].
  rewrite IH. unfold classify.
  destruct (rune_IsUpper r), (rune_IsLower r), (rune_IsDigit r), (rune_IsPunct r),
    (rune_IsSymbol r); simpl; rewrite ?orb_true_r, ?orb_false_r; done.
Qed.

(** The rule in its own words: a rune of each class, no rune counted twice. *)
Lemma StrongPassword_spec s :
  StrongPassword s = true <->
    (exists r, r ∈ runes s /\ rune_IsUpper r = true) /\
    (exists r, r ∈ runes s /\ rune_IsUpper r = false /\ rune_IsLower r = true) /\
    (exists r, r ∈ runes s /\ rune_IsUpper r = false /\ rune_IsLower r = false /\
       rune_IsDigit r = true) /\
    (exists r, r ∈ runes s /\ rune_IsUpper r = false /\ rune_IsLower r = false /\
       rune_IsDigit r = false /\ (rune_IsPunct r = true \/ rune_IsSymbol r = true)).
Proof.
  unfold StrongPassword. rewrite classify_fold. simpl.
  rewrite !andb_true_iff, !existsb_exists.
  setoid_rewrite list_elem_of_In. setoid_rewrite andb_true_iff.
  setoid_rewrite andb_true_iff. setoid_rewrite andb_true_iff.
  setoid_rewrite orb_true_iff. setoid_rewrite negb_true_iff. naive_solver.
Qed.
End strong_ok.
