(* ===== verification/Middleware.v ===== *)
(** The authentication middleware
    (src/internal/http/middlewares/middleware.auth.go): which requests reach a
    protected handler. *)

From Stdlib Require Import Ascii String ZArith.
From stdpp Require Import base gmap strings list pretty relations.
From S2P Require Import Prelude GoStrings AppError Records Services World Domain Repository Caches.
From S2P Require Import UsersUsecase Jwt OtpCode AuthUsecase AuthLemmas AuthEffects AuthSystem.
From S2P Require Import AuthProps AuthHealthy.

Open Scope string_scope.

Module AuthMiddleware.

(** [redisCache] may be nil. *)
Record t := NewAuthMiddleware { redisCache : bool; isAdmin : bool }.

(** The chain is aborted with a 401 and that message, or goes on with the claims
    stored under [CtxAuthenticatedUserKey]. *)
Inductive outcome := Abort (message : string) | Next (user : Claims.t).

Section middleware.
Context `{Platform} `{!OTPMailer} `{!JWTService}.

(** Was the token issued before the published cutoff?  Redis errors, an absent or
    unreadable cutoff and a token without [iat] let it pass. *)
Definition revoked (m : t) (user : Claims.t) : io World bool :=
  match redisCache m, Claims.IssuedAt user with
  | true, Some issuedAt =>
      got <- Auth.cache_Get (TokenCutoffKey (Claims.UserID user)) ;;
      ret (match got with
           | Ok cutoffStr =>
               if negb (cutoffStr =? "")%string then
                 match ParseInt cutoffStr with
                 | Some cutoff => (time_Unix issuedAt <? cutoff)%Z
                 | None => false
                 end
               else false
           | Err _ => false
           end)
  | _, _ => ret false
  end.

Definition Handle (m : t) (authHeader : string) : io World outcome :=
  if (authHeader =? "")%string then ret (Abort "missing authorization header") else
  match Split_space authHeader with
  | [scheme; token] =>
      if negb (scheme =? "Bearer")%string then ret (Abort "token must content bearer") else
      try user <- zoom l_wbase (jwt_ParseToken token) catch _err => ret (Abort "invalid token") ;;
      rev <- revoked m user ;;
      if (rev : bool) then ret (Abort "token has been revoked") else
      if negb (Bool.eqb (Claims.IsAdmin user) (isAdmin m)) && negb (Claims.IsAdmin user)
      then ret (Abort "you don't have access for this action")
      else ret (Next user)
  | _ => ret (Abort "invalid header format")
  end.
End middleware.
End AuthMiddleware.

(** * Splitting at spaces *)
Definition no_space (s : string) : bool := string_forall (fun a => negb (code a =? 32)%N) s.

Lemma split_not_nil cur s : split_space_go cur s = [] -> False.
Proof.
  revert cur. induction s as [|a s IH]; intros cur; simpl; [done|].
  destruct (code a =? 32)%N; [done|apply IH].
Qed.

Lemma split_space_go_spec cur s x y :
  no_space cur = true -> split_space_go cur s = [x; y] ->
  cur +:+ s = x +:+ " " +:+ y /\ no_space x = true /\ no_space y = true.
Proof.
  revert cur. induction s as [|a s IH]; intros cur Hc; [done|]. simpl.
  destruct (N.eqb_spec (code a) 32) as [Ha|Ha].
  - intros [= -> Hy]. assert (a = " "%char) as ->.
    { unfold code in Ha. rewrite <- (ascii_N_embedding a), Ha. done. }
    rewrite app_cons_string, app_nil_l_string.
    assert (forall cur s y, no_space cur = true -> split_space_go cur s = [y] ->
      cur +:+ s = y /\ no_space y = true) as Hone.
    { clear. intros cur s. revert cur. induction s as [|a s IH]; intros cur y Hc; simpl.
      - intros [= <-]. by rewrite app_nil_r_string.
      - destruct (N.eqb_spec (code a) 32).
        + intros [= -> Hs]. by apply split_not_nil in Hs.
        + intros Hs. apply IH in Hs as [<- Hs].
          * split; [|done]. by rewrite <- app_assoc_string, app_cons_string, app_nil_l_string.
          * unfold no_space in *. rewrite string_forall_app, Hc. simpl.
            by rewrite (proj2 (N.eqb_neq _ _)). }
    apply (Hone "") in Hy as [<- Hy]; [|done]. by rewrite app_nil_l_string.
  - intros Hs. apply IH in Hs as [Hs Hxy].
    + split; [|done]. rewrite <- Hs, <- app_assoc_string. by rewrite app_cons_string, app_nil_l_string.
    + unfold no_space in *. rewrite string_forall_app, Hc. simpl.
      by rewrite (proj2 (N.eqb_neq _ _)).
Qed.

Lemma Split_space_two s x y :
  Split_space s = [x; y] -> s = x +:+ " " +:+ y /\ no_space x = true /\ no_space y = true.
Proof. intros Hs. by apply (split_space_go_spec "") in Hs. Qed.

Lemma split_no_space cur s : no_space s = true -> split_space_go cur s = [cur +:+ s].
Proof.
  revert cur. induction s as [|a s IH]; intros cur Hs; simpl; [by rewrite app_nil_r_string|].
  unfold no_space in *. simpl in Hs. apply andb_prop in Hs as [Ha Hs].
  destruct (code a =? 32)%N; [done|]. rewrite IH by done.
  by rewrite <- app_assoc_string, app_cons_string, app_nil_l_string.
Qed.

Lemma Split_space_bearer tok :
  no_space tok = true -> Split_space ("Bearer " +:+ tok) = ["Bearer"; tok].
Proof.
  intros Hs. unfold Split_space. rewrite !app_cons_string, app_nil_l_string. simpl.
  by rewrite split_no_space, app_nil_l_string.
Qed.

(** * Properties *)
Section middleware_props.
Context `{PlatformLaws} `{!OTPMailer} `{!UsersUsecase} `{!JWTService} `{!JWTContract}.
#[local] Existing Instances pl_text pl_redis pl_sql pl_rist pl_rng.

(** The part of a run after the header was taken apart. *)
Lemma Handle_run m h w c w' :
  AuthMiddleware.Handle m h w = (AuthMiddleware.Next c, w') ->
  exists tok, Split_space h = ["Bearer"; tok] /\
    wp (AuthMiddleware.Handle m h) (fun o _ => o = AuthMiddleware.Next c) w.
Proof.
  intros Hrun.
  assert (wp (AuthMiddleware.Handle m h) (fun o _ => o = AuthMiddleware.Next c) w) as Hwp.
  { unfold wp. by rewrite Hrun. }
  unfold AuthMiddleware.Handle in Hrun. destruct (String.eqb_spec h ""); [done|].
  destruct (Split_space h) as [|s [|t [|]]] eqn:Es; try done.
  destruct (String.eqb_spec s "Bearer") as [->|]; [|done]. by exists t.
Qed.

(** What an accepted token is. *)
Lemma Handle_ok m tok h w :
  Split_space h = ["Bearer"; tok] ->
  wp (AuthMiddleware.Handle m h) (fun o w' => (u_d (w_u w') = u_d (w_u w) /\ u_cache (w_u w') = u_cache (w_u w)) /\
    forall c, o = AuthMiddleware.Next c ->
    token_claims tok = Some c /\ (Claims.Kind c = "" \/ Claims.Kind c = KindAccess) /\
    (AuthMiddleware.isAdmin m = true -> Claims.IsAdmin c = true)) w.
Proof.
  intros Hs. unfold AuthMiddleware.Handle. rewrite Hs. wp_step; [by wp_steps|]. simpl.
  wp_step. wp_step. eapply wp_mono; [apply jwt_access_spec|]. intros [c|e] b1 [_ Hc]; [|by wp_steps].
  destruct Hc as [Hc Hk]. wp_step. unfold AuthMiddleware.revoked.
  assert (forall w1 (r : bool), u_d (w_u w1) = u_d (w_u w) /\ u_cache (w_u w1) = u_cache (w_u w) ->
    wp (if r then ret (AuthMiddleware.Abort "token has been revoked") else
      if negb (Bool.eqb (Claims.IsAdmin c) (AuthMiddleware.isAdmin m)) && negb (Claims.IsAdmin c)
      then ret (AuthMiddleware.Abort "you don't have access for this action")
      else ret (AuthMiddleware.Next c))
      (fun o w' => (u_d (w_u w') = u_d (w_u w) /\ u_cache (w_u w') = u_cache (w_u w)) /\
        forall c', o = AuthMiddleware.Next c' ->
        token_claims tok = Some c' /\ (Claims.Kind c' = "" \/ Claims.Kind c' = KindAccess) /\
        (AuthMiddleware.isAdmin m = true -> Claims.IsAdmin c' = true)) w1) as Hend.
  { intros w1 r Hw. destruct r; [by wp_steps|]. wp_step; [by wp_steps|]. wp_steps.
    split; [done|]. intros c' [= <-]. split_and!; [done|done|]. intros Ha. rewrite Ha in Heqb.
    by destruct (Claims.IsAdmin c). }
  destruct (AuthMiddleware.redisCache m); [|wp_step; by apply (Hend _ false)].
  destruct (Claims.IssuedAt c); [|wp_step; by apply (Hend _ false)]. wp_step. unfold Auth.cache_Get. wp_step.
  apply wp_intro. intros got r2 _. wp_step. by apply Hend.
Qed.


(** A published cutoff turns away older tokens. *)
Lemma Handle_cutoff `{!RedisHealthy} m h e cutoff tok c iat mp w :
  AuthMiddleware.redisCache m = true -> holds mp w ->
  mp !! TokenCutoffKey (Claims.UserID c) = Some e -> re_val e = json_Marshal (Itoa cutoff) ->
  in_int64 cutoff = true -> token_claims tok = Some c -> Claims.IssuedAt c = Some iat ->
  (time_Unix iat < cutoff)%Z -> Split_space h = ["Bearer"; tok] ->
  wp (AuthMiddleware.Handle m h) (fun o _ => forall c, o <> AuthMiddleware.Next c) w.
Proof.
  intros Hm Hh He Hv Hin Hc Hiat Hlt Hs. unfold AuthMiddleware.Handle. rewrite Hs.
  wp_step; [by wp_steps|]. simpl. wp_step. wp_step. eapply wp_mono; [apply jwt_access_spec|].
  intros [c'|er] b1 [_ Hc']; [|by wp_steps]. destruct Hc' as [Hc' _]. simplify_eq.
  assert (holds mp (lset l_wbase b1 w)) as Hh1 by done. wp_step.
  unfold AuthMiddleware.revoked. rewrite Hm, Hiat. wp_step. eapply wp_h_Get; [done|].
  intros got r2 w2 Hh2 Hgot. destruct got as [s|er].
  - destruct Hgot as (x & Hx & Hj). simplify_eq. rewrite Hv in Hj.
    rewrite json_roundtrip in Hj by apply Itoa_ascii. injection Hj as <-. wp_step.
    rewrite ParseInt_Itoa by done. rewrite (proj2 (Z.ltb_lt _ _) Hlt).
    destruct (String.eqb_spec (Itoa cutoff) "") as [Hnil|]; [|by wp_steps].
    pose proof (ParseInt_Itoa cutoff Hin) as Hp. by rewrite Hnil in Hp.
  - exfalso. specialize (Hgot _ He). by rewrite Hv, json_roundtrip in Hgot by apply Itoa_ascii.
Qed.

(** The successful ChangePassword publishes the stamp it gave the account. *)
Lemma ChangePassword_publishes `{!UsersContract} `{!RedisHealthy} uc id cur new m w :
  users_inv (w_u w) -> holds m w ->
  wp (Auth.ChangePassword uc id cur new) (fun res w' => res = Ok tt ->
    exists uid r t m' e, sql_uuid id = Some uid /\ rows w' !! uid = Some r /\
      Users.PasswordChangedAt r = Some (pg_time t) /\ holds m' w' /\
      m' !! TokenCutoffKey id = Some e /\ re_val e = json_Marshal (Itoa (time_Unix t))) w.
Proof.
  intros Hi Hh. pose proof (at_start (fun _ => True) w Hi) as Hat.
  destruct (users_inv_table _ Hi) as [Hok Hem]. unfold Auth.ChangePassword.
  wp_step; [by wp_steps|]. wp_step. eapply wp_at_GetByID; [done|].
  intros res u1 w1 Hat1 Hres. destruct res as [usr|e]; [|by wp_steps].
  destruct Hres as [Hst Hid]. destruct (VerifyPassword usr cur) eqn:Ev; simpl; [|by wp_steps].
  wp_step. eapply wp_at_domain_change; [done|]. intros res b2 w2 Hat2 Hres.
  destruct res as [u'|e]; [|destruct (errors_Is e ErrEmptyPassword); by wp_steps].
  destruct Hres as (h & now & -> & _ & _).
  wp_step. eapply wp_at_UpdatePassword; [done|by apply stored_knows_email|].
  intros res u3 T' w3 Hat3 HT. destruct res as [[]|e]; [|by wp_steps].
  simpl. wp_step. eapply (wp_h_cutoff uc m); [exact Hh|]. intros w4 m4 Hh4 Hu4 (e & He & Hv) _.
  wp_steps. intros _. destruct Hst as [Hs Hd].
  exists (User.ID usr), (repassworded (with_Password usr h now) (FromUsersV1Domain usr)), now, m4, e.
  split_and!; [done| | |done|done|done].
  - unfold rows. rewrite Hu4. pose proof (at_rows _ _ _ _ Hat3) as Hr3. unfold rows in Hr3.
    rewrite Hr3, HT. rewrite (update_live_lookup _ _ _ _ _ Hs).
    cbn [User.ID with_Password]. rewrite (proj2 (eval_live_id _ _)); [done|].
    split; [|by apply live_None]. exact (proj2 (tbl_key _ Hok _ _ Hs)).
  - done.
Qed.

(** C13. After a successful ChangePassword while Redis was healthy, every access token
    of that user id issued in an earlier second than the new password stamp is
    turned away. *)
Theorem ChangePassword_revokes_access `{!UsersContract} `{!RedisHealthy} uc id cur new w w1 :
  users_inv (w_u w) -> redis_healthy (w_redis w) ->
  Auth.ChangePassword uc id cur new w = (Ok tt, w1) ->
  exists uid r t, sql_uuid id = Some uid /\ rows w1 !! uid = Some r /\
    Users.PasswordChangedAt r = Some (pg_time t) /\
    (in_int64 (time_Unix t) = true -> forall m tok c iat,
       AuthMiddleware.redisCache m = true -> no_space tok = true ->
       token_claims tok = Some c -> Claims.UserID c = id ->
       Claims.IssuedAt c = Some iat -> (time_Unix iat < time_Unix t)%Z ->
       forall c', (AuthMiddleware.Handle m ("Bearer " +:+ tok) w1).1 <> AuthMiddleware.Next c').
Proof.
  intros Hi Hg Hrun.
  destruct (wp_run _ _ _ _ _ (ChangePassword_publishes uc id cur new (keys w) w Hi (conj Hg eq_refl))
    Hrun eq_refl) as (uid & r & t & m1 & e & Hu & Hr & Ht & Hh & He & Hv).
  exists uid, r, t. split_and!; try done. intros Hin m tok c iat Hm Hns Hc <- Hiat Hlt.
  assert (Split_space ("Bearer " +:+ tok) = ["Bearer"; tok]) as Hs by by apply Split_space_bearer.
  exact (Handle_cutoff m _ e _ tok c iat m1 w1 Hm Hh He Hv Hin Hc Hiat Hlt Hs).
Qed.
End middleware_props.
