(* ===== verification/Http.v ===== *)
(** The HTTP layer: request and response types
    (src/internal/http/datatransfers), the response envelope and the mapping of
    errors (src/internal/http/handlers/v1/handler.base_response.go), the audit
    stream (src/pkg/audit), the current user (src/internal/http/auth) and the ten
    handlers (src/internal/http/handlers/v1/auth, .../users).

    gin is a parameter: what a handler reads of its context is the record [gin], and
    [ShouldBindJSON] has given a request or an error ([None]) when it starts. *)

From Stdlib Require Import Ascii String ZArith.
From stdpp Require Import base gmap strings list pretty.
From S2P Require Import Prelude GoStrings AppError Records Services World Domain Repository Caches.
From S2P Require Import UsersUsecase Jwt OtpCode AuthUsecase Validators Middleware.

Open Scope string_scope.

(** * Requests: their fields with the tags of the struct, and the entity *)
Record RegisterRequest := MkRegisterReq { reg_Username : string; reg_Email : string; reg_Password : string }.
Record LoginRequest := MkLoginReq { log_Email : string; log_Password : string }.
Record VerifyOTPRequest := MkVerifyReq { ver_Email : string; ver_Code : string }.
Record ChangePasswordRequest := MkChangeReq { chg_CurrentPassword : string; chg_NewPassword : string }.
Record ResetPasswordRequest := MkResetReq { rst_Token : string; rst_NewPassword : string }.

Definition email_tag : list rule := [required; email; max 50].
Definition new_password_tag : list rule := [required; min 12; max 72; strongpassword].

Definition register_fields (r : RegisterRequest) : list field :=
  [Field "Username" [required; min 3; max 25] (reg_Username r);
   Field "Email" email_tag (reg_Email r);
   Field "Password" new_password_tag (reg_Password r)].
Definition login_fields (r : LoginRequest) : list field :=
  [Field "Email" email_tag (log_Email r);
   Field "Password" [required; min 1; max 72] (log_Password r)].
Definition email_fields (mail : string) : list field := [Field "Email" email_tag mail].
Definition verify_fields (r : VerifyOTPRequest) : list field :=
  [Field "Email" email_tag (ver_Email r); Field "Code" [required; numeric] (ver_Code r)].
Definition refresh_fields (tok : string) : list field := [Field "RefreshToken" [required] tok].
Definition change_fields (r : ChangePasswordRequest) : list field :=
  [Field "CurrentPassword" [required; min 1; max 72] (chg_CurrentPassword r);
   Field "NewPassword" new_password_tag (chg_NewPassword r)].
Definition reset_fields (r : ResetPasswordRequest) : list field :=
  [Field "Token" [required] (rst_Token r);
   Field "NewPassword" new_password_tag (rst_NewPassword r)].

Definition RegisterRequest_ToV1Domain (r : RegisterRequest) : User.t :=
  User.mk "" (reg_Username r) (reg_Email r) (reg_Password r) false 2 zero_time None None None.

(** * Responses *)
Record UserResponse := MkUserResponse {
  rsp_Id : string;
  rsp_Username : string;
  rsp_Email : string;
  rsp_RoleId : Z;
  rsp_Token : string;
  rsp_RefreshToken : string;
  rsp_CreatedAt : Time;
  rsp_UpdatedAt : option Time;
}.

Definition FromV1Domain (u : User.t) : UserResponse :=
  MkUserResponse (User.ID u) (User.Username u) (User.Email u) (User.RoleID u) "" ""
    (User.CreatedAt u) (User.UpdatedAt u).

Definition FromLoginResponse (r : Auth.LoginResponse) : UserResponse :=
  let resp := FromV1Domain (Auth.User r) in
  MkUserResponse (rsp_Id resp) (rsp_Username resp) (rsp_Email resp) (rsp_RoleId resp)
    (Auth.AccessToken r) (Auth.RefreshToken r) (rsp_CreatedAt resp) (rsp_UpdatedAt resp).

Definition ToResponseList (domains : list User.t) : list UserResponse :=
  fold_left (fun result val => result ++ [FromV1Domain val])%list domains [].

(** [interface{}] data of the envelope. *)
Inductive data :=
| NoData
| DUserEntry (u : UserResponse)          (** [{"user": ...}] *)
| DUserData (u : UserResponse)
| DErrors (errs : list FieldError).      (** [{"errors": ...}] *)

Record BaseResponse := MkBaseResponse {
  Status : bool; Message : string; Data : data; RequestID : string }.

Record response := Resp { code_ : Z; body : BaseResponse }.

Definition StatusOK : Z := 200.
Definition StatusCreated : Z := 201.
Definition StatusBadRequest : Z := 400.
Definition StatusUnauthorized : Z := 401.
Definition StatusForbidden : Z := 403.
Definition StatusNotFound : Z := 404.
Definition StatusConflict : Z := 409.
Definition StatusUnprocessableEntity : Z := 422.
Definition StatusInternalServerError : Z := 500.

(** * The request context *)
Inductive ctx_value := VClaims (c : Claims.t) | VAny (n : N).

Record gin := MkGin {
  g_request_id : string;
  g_client_ip : string;
  g_user_agent : string;
  g_trace_id : string;
  g_user : option ctx_value;       (** under [CtxAuthenticatedUserKey] *)
}.

Record CurrentUser := MkCurrent { cu_ID : string; cu_Email : string; cu_IsAdmin : bool; cu_JTI : string }.

(** [None] is [ErrNotAuthenticated]. *)
Definition CurrentUserFromContext (c : gin) : option CurrentUser :=
  match g_user c with
  | None => None
  | Some (VAny _) => None
  | Some (VClaims claims) =>
      Some (MkCurrent (Claims.UserID claims) (Claims.Email claims) (Claims.IsAdmin claims)
              (Claims.ID claims))
  end.

Definition NewSuccessResponse (c : gin) (statusCode : Z) (message : string) (d : data) : response :=
  Resp statusCode (MkBaseResponse true message d (g_request_id c)).

Definition NewErrorResponse (c : gin) (statusCode : Z) (err : string) : response :=
  Resp statusCode (MkBaseResponse false err NoData (g_request_id c)).

Definition NewAbortResponse (c : gin) (message : string) : response :=
  Resp StatusUnauthorized (MkBaseResponse false message NoData (g_request_id c)).

Definition mapDomainErrorToHTTP (err : error) : Z :=
  match error_type err with
  | Some ErrTypeNotFound => StatusNotFound
  | Some ErrTypeUnauthorized => StatusUnauthorized
  | Some ErrTypeForbidden => StatusForbidden
  | Some ErrTypeConflict => StatusConflict
  | Some ErrTypeBadRequest => StatusBadRequest
  | Some ErrTypeInternal => StatusInternalServerError
  | None => StatusInternalServerError
  end.

(** * The audit stream *)
Inductive EventType :=
| EventRegister | EventLoginSuccess | EventLoginFailure | EventLogout
| EventRefreshOK | EventRefreshFail | EventOTPSent
| EventOTPVerifyOK | EventOTPVerifyFail | EventOTPLockout
| EventPasswordChangeOK | EventPasswordChangeFail
| EventPasswordForgotOK | EventPasswordForgotFail
| EventPasswordResetOK | EventPasswordResetFail.

Record Event := MkEvent {
  ev_Time : Time;
  ev_Type : EventType;
  ev_Success : bool;
  ev_UserID : string;
  ev_Email : string;
  ev_IP : string;
  ev_UserAgent : string;
  ev_RequestID : string;
  ev_TraceID : string;
  ev_Reason : string;
}.

Section http.
Context `{Platform} `{!OTPMailer} `{!UsersUsecase} `{!JWTService} `{!ValidatorLib}.

(** The audit stream and the logged causes of internal errors, latest first. *)
Record HState := MkH { h_world : World; h_audit : list Event; h_causes : list string }.

Definition l_world : lens HState World :=
  Lens h_world (fun w h => MkH w (h_audit h) (h_causes h)).

(** [audit.Record]; a write error is dropped, so every event counts as written. *)
Definition Record_ (e : Event) : io HState unit :=
  now <- (if time_IsZero (ev_Time e) then zoom l_world (zoom l_wbase Now) else ret (ev_Time e)) ;;
  modify (fun h => MkH (h_world h)
    (MkEvent now (ev_Type e) (ev_Success e) (ev_UserID e) (ev_Email e) (ev_IP e) (ev_UserAgent e)
       (ev_RequestID e) (ev_TraceID e) (ev_Reason e) :: h_audit h) (h_causes h)).

(** [auditFromGin] and the fields a handler sets. *)
Definition event (c : gin) (t : EventType) (success : bool) (userID email reason : string) : Event :=
  MkEvent zero_time t success userID email (g_client_ip c) (g_user_agent c) (g_request_id c)
    (g_trace_id c) reason.

Definition log_cause (cause : string) : io HState unit :=
  modify (fun h => MkH (h_world h) (h_audit h) (cause :: h_causes h)).

Definition RespondWithError (c : gin) (err : payload_error) : io HState response :=
  match err with
  | EValidation errs =>
      ret (Resp StatusUnprocessableEntity
             (MkBaseResponse false "validation failed" (DErrors errs) (g_request_id c)))
  | EPlain err =>
      let status := mapDomainErrorToHTTP err in
      if (StatusInternalServerError <=? status)%Z then
        log_cause (match errors_As_domain err with
                   | Some (_, _, Some cause) => Error cause
                   | _ => Error err
                   end) ;;;
        ret (NewErrorResponse c status "internal server error")
      else ret (NewErrorResponse c status (Error err))
  end.

(** The beginning all handlers with a body share. *)
Definition with_body {Req A} (c : gin) (bound : option Req) (fields : Req -> list field)
    (reply : response -> A) (k : Req -> io HState A) : io HState A :=
  match bound with
  | None => ret (reply (NewErrorResponse c StatusBadRequest "invalid request body"))
  | Some req =>
      match ValidatePayloads (fields req) with
      | Some err => r <- RespondWithError c err ;; ret (reply r)
      | None => k req
      end
  end.
End http.

Module Handler.
Section handlers.
Context `{Platform} `{!OTPMailer} `{!UsersUsecase} `{!JWTService} `{!ValidatorLib}.
Variable usecase : Auth.usecase.

Definition Register (c : gin) (bound : option RegisterRequest) : io HState response :=
  with_body c bound register_fields (fun r => r) (fun req =>
  try user <- zoom l_world (Auth.Register (RegisterRequest_ToV1Domain req))
  catch err =>
    (Record_ (event c EventRegister false "" (reg_Email req) (Error err)) ;;;
     RespondWithError c (EPlain err)) ;;
  Record_ (event c EventRegister true (User.ID user) (User.Email user) "") ;;;
  ret (NewSuccessResponse c StatusCreated "registration user success"
         (DUserEntry (FromV1Domain user)))).

Definition Login (c : gin) (bound : option LoginRequest) : io HState response :=
  with_body c bound login_fields (fun r => r) (fun req =>
  try result <- zoom l_world (Auth.Login usecase (log_Email req) (log_Password req))
  catch err =>
    (Record_ (event c EventLoginFailure false "" (log_Email req) (Error err)) ;;;
     RespondWithError c (EPlain err)) ;;
  Record_ (event c EventLoginSuccess true (User.ID (Auth.User result))
             (User.Email (Auth.User result)) "") ;;;
  ret (NewSuccessResponse c StatusOK "login success" (DUserData (FromLoginResponse result)))).

(** [None]: the generator of the code is not done after [fuel] rounds. *)
Definition SendOTP (fuel : nat) (c : gin) (bound : option string) : io HState (option response) :=
  with_body c bound email_fields Some (fun req =>
  sent <- zoom l_world (Auth.SendOTP usecase fuel req) ;;
  match sent with
  | None => ret None
  | Some (Err err) => r <- RespondWithError c (EPlain err) ;; ret (Some r)
  | Some (Ok _) =>
      Record_ (event c EventOTPSent true "" req "") ;;;
      ret (Some (NewSuccessResponse c StatusOK ("otp code has been send to " +:+ req) NoData))
  end).

Definition VerifyOTP (c : gin) (bound : option VerifyOTPRequest) : io HState response :=
  with_body c bound verify_fields (fun r => r) (fun req =>
  try _ok <- zoom l_world (Auth.VerifyOTP usecase (ver_Email req) (ver_Code req))
  catch err =>
    (let t := if bool_decide (error_type err = Some ErrTypeForbidden)
              then EventOTPLockout else EventOTPVerifyFail in
     Record_ (event c t false "" (ver_Email req) (Error err)) ;;;
     RespondWithError c (EPlain err)) ;;
  Record_ (event c EventOTPVerifyOK true "" (ver_Email req) "") ;;;
  ret (NewSuccessResponse c StatusOK "otp verification success" NoData)).

Definition Refresh (c : gin) (bound : option string) : io HState response :=
  with_body c bound refresh_fields (fun r => r) (fun req =>
  try result <- zoom l_world (Auth.Refresh usecase req)
  catch err =>
    (Record_ (event c EventRefreshFail false "" "" (Error err)) ;;;
     RespondWithError c (EPlain err)) ;;
  Record_ (event c EventRefreshOK true (User.ID (Auth.User result))
             (User.Email (Auth.User result)) "") ;;;
  ret (NewSuccessResponse c StatusOK "token refreshed" (DUserData (FromLoginResponse result)))).

Definition Logout (c : gin) (bound : option string) : io HState response :=
  with_body c bound refresh_fields (fun r => r) (fun req =>
  try _ok <- zoom l_world (Auth.Logout req)
  catch err => RespondWithError c (EPlain err) ;;
  Record_ (event c EventLogout true "" "" "") ;;;
  ret (NewSuccessResponse c StatusOK "logout success" NoData)).

Definition ChangePassword (c : gin) (bound : option ChangePasswordRequest) : io HState response :=
  match CurrentUserFromContext c with
  | None => ret (NewErrorResponse c StatusUnauthorized "request is not authenticated")
  | Some current =>
      with_body c bound change_fields (fun r => r) (fun req =>
      try _ok <- zoom l_world (Auth.ChangePassword usecase (cu_ID current)
                   (chg_CurrentPassword req) (chg_NewPassword req))
      catch err =>
        (Record_ (event c EventPasswordChangeFail false (cu_ID current) (cu_Email current)
                    (Error err)) ;;;
         RespondWithError c (EPlain err)) ;;
      Record_ (event c EventPasswordChangeOK true (cu_ID current) (cu_Email current) "") ;;;
      ret (NewSuccessResponse c StatusOK "password changed" NoData))
  end.

Definition ForgotPassword (c : gin) (bound : option string) : io HState response :=
  with_body c bound email_fields (fun r => r) (fun req =>
  try _ok <- zoom l_world (Auth.ForgotPassword usecase req)
  catch err =>
    (Record_ (event c EventPasswordForgotFail false "" req (Error err)) ;;;
     RespondWithError c (EPlain err)) ;;
  Record_ (event c EventPasswordForgotOK true "" req "") ;;;
  ret (NewSuccessResponse c StatusOK "if the email is registered, a reset link has been sent"
         NoData)).

Definition ResetPassword (c : gin) (bound : option ResetPasswordRequest) : io HState response :=
  with_body c bound reset_fields (fun r => r) (fun req =>
  try _ok <- zoom l_world (Auth.ResetPassword usecase (rst_Token req) (rst_NewPassword req))
  catch err =>
    (Record_ (event c EventPasswordResetFail false "" "" (Error err)) ;;;
     RespondWithError c (EPlain err)) ;;
  Record_ (event c EventPasswordResetOK true "" "" "") ;;;
  ret (NewSuccessResponse c StatusOK "password reset" NoData)).

Definition GetUserData (c : gin) : io HState response :=
  match CurrentUserFromContext c with
  | None => ret (NewErrorResponse c StatusUnauthorized "request is not authenticated")
  | Some user =>
      try found <- zoom l_world (zoom l_u (users_GetByEmail (cu_Email user)))
      catch err => RespondWithError c (EPlain err) ;;
      ret (NewSuccessResponse c StatusOK "user data fetched successfully"
             (DUserEntry (FromV1Domain found)))
  end.
End handlers.
End Handler.

(** * Routes (src/internal/http/routes), behind the rate limiter and the body cap *)
Inductive route :=
| PostRegister (b : option RegisterRequest)
| PostLogin (b : option LoginRequest)
| PostSendOTP (fuel : nat) (b : option string)
| PostVerifyOTP (b : option VerifyOTPRequest)
| PostRefresh (b : option string)
| PostLogout (b : option string)
| PostForgot (b : option string)
| PostReset (b : option ResetPasswordRequest)
| PutChange (authHeader : string) (b : option ChangePasswordRequest)
| GetMe (authHeader : string).

Section routes.
Context `{Platform} `{!OTPMailer} `{!UsersUsecase} `{!JWTService} `{!ValidatorLib}.
Variables (usecase : Auth.usecase) (guard : AuthMiddleware.t).

Definition answered (m : io HState response) : io HState (option response) :=
  r <- m ;; ret (Some r).

(** The authentication middleware in front of a handler. *)
Definition guarded (authHeader : string) (c : gin) (h : gin -> io HState response)
    : io HState response :=
  o <- zoom l_world (AuthMiddleware.Handle guard authHeader) ;;
  match o with
  | AuthMiddleware.Abort message => ret (NewAbortResponse c message)
  | AuthMiddleware.Next user =>
      h (MkGin (g_request_id c) (g_client_ip c) (g_user_agent c) (g_trace_id c)
           (Some (VClaims user)))
  end.

(** The context of a request no middleware has put a user in. *)
Definition fresh_ctx (rid ip ua tid : string) : gin := MkGin rid ip ua tid None.

Definition serve (c : gin) (r : route) : io HState (option response) :=
  match r with
  | PostRegister b => answered (Handler.Register c b)
  | PostLogin b => answered (Handler.Login usecase c b)
  | PostSendOTP fuel b => Handler.SendOTP usecase fuel c b
  | PostVerifyOTP b => answered (Handler.VerifyOTP usecase c b)
  | PostRefresh b => answered (Handler.Refresh usecase c b)
  | PostLogout b => answered (Handler.Logout c b)
  | PostForgot b => answered (Handler.ForgotPassword usecase c b)
  | PostReset b => answered (Handler.ResetPassword usecase c b)
  | PutChange hdr b => answered (guarded hdr c (fun c => Handler.ChangePassword usecase c b))
  | GetMe hdr => answered (guarded hdr c Handler.GetUserData)
  end.
End routes.
