(* ===== verification/HttpProps.v ===== *)
(** Properties of the HTTP layer: what a client can learn from a response, what a
    request can change, and what the audit stream records of it. *)

From Stdlib Require Import Ascii String ZArith.
From stdpp Require Import base gmap strings list pretty relations.
From S2P Require Import Prelude GoStrings AppError Records Services World Domain Repository Caches.
From S2P Require Import UsersUsecase Jwt OtpCode AuthUsecase AuthLemmas AuthEffects AuthSystem AuthProps.
From S2P Require Import Validators Middleware Http.

Open Scope string_scope.

Section http_props.
Context `{PlatformLaws} `{!OTPMailer} `{!UsersUsecase} `{!UsersContract}
  `{!JWTService} `{!JWTContract} `{!ValidatorLib}.
#[local] Existing Instances pl_text pl_redis pl_sql pl_rist pl_rng.
Variables (uc : Auth.usecase) (guard : AuthMiddleware.t).

(** * Replies *)

Definition statuses : list Z :=
  [StatusOK; StatusCreated; StatusBadRequest; StatusUnauthorized; StatusForbidden; StatusNotFound;
   StatusConflict; StatusUnprocessableEntity; StatusInternalServerError].

(** What every reply looks like, and when a cause is logged. *)
Record clean (c : gin) (before after : list string) (out : response) : Prop := {
  cl_code : code_ out ∈ statuses;
  cl_status : Status (body out) = true <-> (code_ out < 300)%Z;
  cl_rid : RequestID (body out) = g_request_id c;
  cl_internal : code_ out = StatusInternalServerError ->
    Message (body out) = "internal server error" /\ Data (body out) = NoData /\
    exists cause, after = cause :: before;
  cl_other : code_ out <> StatusInternalServerError -> after = before;
}.

Lemma clean_error c l code msg :
  code ∈ statuses -> (300 <= code)%Z -> code <> StatusInternalServerError ->
  clean c l l (NewErrorResponse c code msg).
Proof. intros Hc Hlt Hne. split; simpl; try done. lia. Qed.

Lemma clean_success c l code msg d :
  code ∈ statuses -> (code < 300)%Z -> clean c l l (NewSuccessResponse c code msg d).
Proof. intros Hc Hlt. split; simpl; try done. intros ->. unfold StatusInternalServerError in *. lia. Qed.

Lemma mapDomainErrorToHTTP_spec e :
  mapDomainErrorToHTTP e ∈ statuses /\ (400 <= mapDomainErrorToHTTP e)%Z /\
  ((StatusInternalServerError <=? mapDomainErrorToHTTP e)%Z = false ->
   mapDomainErrorToHTTP e <> StatusInternalServerError).
Proof.
  unfold mapDomainErrorToHTTP, statuses. destruct (error_type e) as [[]|];
    (split; [set_solver|]); split; done.
Qed.

Lemma wp_RespondWithError c e (Q : response -> HState -> Prop) h :
  (forall out causes, clean c (h_causes h) causes out -> (400 <= code_ out)%Z ->
     Q out (MkH (h_world h) (h_audit h) causes)) ->
  wp (RespondWithError c e) Q h.
Proof.
  intros HQ. unfold RespondWithError. destruct e as [errs|e].
  - apply wp_ret. destruct h. apply HQ; [|done]. split; simpl; try done. set_solver.
  - destruct (mapDomainErrorToHTTP_spec e) as (Hin & Hge & Hne).
    destruct (StatusInternalServerError <=? mapDomainErrorToHTTP e)%Z eqn:E.
    + wp_step. apply wp_modify. apply wp_ret. apply HQ; [|done].
      split; simpl; [done|split; [done|lia]|done| |].
      * intros _. split_and!; [done|done|by eexists].
      * intros Hx. destruct Hx. unfold statuses in Hin. unfold StatusInternalServerError in *.
        apply Z.leb_le in E. repeat (apply elem_of_cons in Hin as [Hin|Hin]; [by rewrite Hin in *|]).
        by apply not_elem_of_nil in Hin.
    + apply wp_ret. destruct h. apply HQ; [|done]. apply clean_error; [done|lia|by apply Hne].
Qed.

(** * Events *)

(** The stream got [o], if anything; [Record] has put the time in. *)
Definition recorded (o : option Event) (before after : list Event) : Prop :=
  match o with
  | None => after = before
  | Some e => exists t, after = MkEvent t (ev_Type e) (ev_Success e) (ev_UserID e) (ev_Email e)
      (ev_IP e) (ev_UserAgent e) (ev_RequestID e) (ev_TraceID e) (ev_Reason e) :: before
  end.

(** Only the clock has moved on. *)
Definition later (w w' : World) : Prop :=
  u_d (w_u w') = u_d (w_u w) /\ u_cache (w_u w') = u_cache (w_u w) /\ w_redis w' = w_redis w /\
  used (u_base (w_u w')) = used (u_base (w_u w)).

Lemma later_refl w : later w w.
Proof. done. Qed.

Lemma later_rows w w' : later w w' -> rows w' = rows w.
Proof. intros (Hd & _). unfold rows, table. by rewrite Hd. Qed.

Lemma later_inv w w' : later w w' -> users_inv (w_u w) -> users_inv (w_u w').
Proof.
  intros (Hd & Hc & _) Hi. destruct (w_u w') as [b d ch]. simpl in *. subst.
  by apply users_inv_base.
Qed.

Lemma wp_Record e (Q : unit -> HState -> Prop) h :
  (forall w l, later (h_world h) w -> recorded (Some e) (h_audit h) l ->
     Q tt (MkH w l (h_causes h))) ->
  wp (Record_ e) Q h.
Proof.
  intros HQ. unfold Record_. wp_step. destruct (time_IsZero (ev_Time e)).
  - wp_step. wp_step. apply wp_Now. intros now k. apply wp_modify. apply HQ; [done|by exists now].
  - apply wp_ret. apply wp_modify. destruct h. apply HQ; [done|by eexists].
Qed.

Definition record_opt (o : option Event) : io HState unit :=
  match o with Some e => Record_ e | None => ret tt end.

Lemma wp_record_opt o (Q : unit -> HState -> Prop) h :
  (forall w l, later (h_world h) w -> recorded o (h_audit h) l ->
     Q tt (MkH w l (h_causes h))) ->
  wp (record_opt o) Q h.
Proof.
  intros HQ. destruct o; [by apply wp_Record|]. apply wp_ret. destruct h. by apply HQ.
Qed.

(** * The common shape of the handlers *)

(** What follows a call of a use case. *)
Definition finish {A} (c : gin) (fail : error -> option Event) (succ : A -> Event)
    (reply : A -> response) (res : result error A) : io HState response :=
  match res with
  | Err err => record_opt (fail err) ;;; RespondWithError c (EPlain err)
  | Ok a => Record_ (succ a) ;;; ret (reply a)
  end.

Definition endpoint {Req A} (c : gin) (bound : option Req) (fields : Req -> list field)
    (m : Req -> io World (option (result error A)))
    (fail : Req -> error -> option Event) (succ : Req -> A -> Event) (reply : Req -> A -> response)
    : io HState (option response) :=
  with_body c bound fields Some (fun req =>
    res <- zoom l_world (m req) ;;
    match res with
    | None => ret None
    | Some res => out <- finish c (fail req) (succ req) (reply req) res ;; ret (Some out)
    end).

(** A call was made from [w0], and this is how it was answered. *)
Definition called {A} (c : gin) (h h' : HState) (o : option response) (w0 w1 : World)
    (res : option (result error A)) (fail : error -> option Event) (succ : A -> Event)
    (reply : A -> response) : Prop :=
  later w1 (h_world h') /\
  match res with
  | None => o = None /\ h_audit h' = h_audit h /\ h_causes h' = h_causes h
  | Some (Ok a) => o = Some (reply a) /\ recorded (Some (succ a)) (h_audit h) (h_audit h') /\
      h_causes h' = h_causes h
  | Some (Err e) => recorded (fail e) (h_audit h) (h_audit h') /\
      exists out, o = Some out /\ clean c (h_causes h) (h_causes h') out /\ (400 <= code_ out)%Z
  end.

(** The request was turned away before the use case. *)
Definition refused (c : gin) (h h' : HState) (o : option response) : Prop :=
  h_world h' = h_world h /\ h_audit h' = h_audit h /\
  exists out, o = Some out /\ clean c (h_causes h) (h_causes h') out /\ (400 <= code_ out)%Z.

Lemma wp_endpoint {Req A} c (bound : option Req) fields
    (m : Req -> io World (option (result error A))) fail succ reply
    (Q : option response -> HState -> Prop) h :
  (forall o h', refused c h h' o -> Q o h') ->
  (forall req res w1 o h', bound = Some req -> ValidatePayloads (fields req) = None ->
     m req (h_world h) = (res, w1) ->
     called c h h' o (h_world h) w1 res (fail req) (succ req) (reply req) -> Q o h') ->
  wp (endpoint c bound fields m fail succ reply) Q h.
Proof.
  intros Href Hcall. unfold endpoint, with_body. destruct bound as [req|].
  - destruct (ValidatePayloads (fields req)) as [err|] eqn:Ev.
    + wp_step. apply wp_RespondWithError. intros out causes Hcl Hge. apply wp_ret.
      apply Href. split_and!; [done|done|]. by exists out.
    + wp_step. wp_step. apply wp_intro. intros res w1 Hm. cbn [lget lset l_world] in *.
      destruct res as [res|]; [|apply wp_ret; eapply Hcall; [done|done|exact Hm|done]].
      wp_step. unfold finish. destruct res as [a|e].
      * wp_step. apply wp_Record. intros w l Hw Hl. do 2 wp_step.
        eapply Hcall; [done|done|exact Hm|]. by split.
      * wp_step. apply wp_record_opt. intros w l Hw Hl. apply wp_RespondWithError.
        intros out causes Hcl Hge. wp_step. eapply Hcall; [done|done|exact Hm|].
        split; [done|]. split; [done|]. by exists out.
  - apply wp_ret. apply Href. split_and!; [done|done|]. eexists. split; [done|].
    split; [by apply clean_error; [set_solver|..]|done].
Qed.

(** * Each route is such an endpoint *)

Definition some {A} (m : io World (result error A)) : io World (option (result error A)) :=
  r <- m ;; ret (Some r).

Ltac endpoint_eq b :=
  unfold answered, endpoint, with_body, finish, record_opt, some, try_catch, bind, zoom, ret;
  destruct b as [req|]; [|done]; destruct (ValidatePayloads _) as [err|];
  [by destruct (RespondWithError _ err _)|];
  cbn [lget lset l_world];
  match goal with |- context [match ?m (h_world ?h) with pair _ _ => _ end] =>
    destruct (m (h_world h)) as [[a|e] w] end;
  cbn beta iota; match goal with |- context [match Record_ ?e ?s with pair _ _ => _ end] =>
    destruct (Record_ e s) | _ => idtac end; cbn beta iota; try done;
  match goal with |- context [match RespondWithError ?c ?e ?s with pair _ _ => _ end] =>
    by destruct (RespondWithError c e s) end.

Lemma Register_endpoint c b h :
  answered (Handler.Register c b) h = endpoint c b register_fields
    (fun req => some (Auth.Register (RegisterRequest_ToV1Domain req)))
    (fun req err => Some (event c EventRegister false "" (reg_Email req) (Error err)))
    (fun req user => event c EventRegister true (User.ID user) (User.Email user) "")
    (fun req user => NewSuccessResponse c StatusCreated "registration user success"
       (DUserEntry (FromV1Domain user))) h.
Proof. unfold Handler.Register. endpoint_eq b. Qed.

Lemma Login_endpoint c b h :
  answered (Handler.Login uc c b) h = endpoint c b login_fields
    (fun req => some (Auth.Login uc (log_Email req) (log_Password req)))
    (fun req err => Some (event c EventLoginFailure false "" (log_Email req) (Error err)))
    (fun req result => event c EventLoginSuccess true (User.ID (Auth.User result))
       (User.Email (Auth.User result)) "")
    (fun req result => NewSuccessResponse c StatusOK "login success"
       (DUserData (FromLoginResponse result))) h.
Proof. unfold Handler.Login. endpoint_eq b. Qed.

Lemma SendOTP_endpoint fuel c b h :
  Handler.SendOTP uc fuel c b h = endpoint c b email_fields (fun req => Auth.SendOTP uc fuel req)
    (fun req err => None)
    (fun req _ => event c EventOTPSent true "" req "")
    (fun req _ => NewSuccessResponse c StatusOK ("otp code has been send to " +:+ req) NoData) h.
Proof.
  unfold Handler.SendOTP, endpoint, with_body, finish, record_opt, bind, zoom, ret.
  destruct b as [req|]; [|done]. destruct (ValidatePayloads _) as [err|]; [done|].
  simpl. destruct (Auth.SendOTP uc fuel req (h_world h)) as [[[[]|e]|] w]; simpl; [|done..].
  by destruct (Record_ _ _).
Qed.

Lemma VerifyOTP_endpoint c b h :
  answered (Handler.VerifyOTP uc c b) h = endpoint c b verify_fields
    (fun req => some (Auth.VerifyOTP uc (ver_Email req) (ver_Code req)))
    (fun req err => Some (event c (if bool_decide (error_type err = Some ErrTypeForbidden)
       then EventOTPLockout else EventOTPVerifyFail) false "" (ver_Email req) (Error err)))
    (fun req _ => event c EventOTPVerifyOK true "" (ver_Email req) "")
    (fun req _ => NewSuccessResponse c StatusOK "otp verification success" NoData) h.
Proof. unfold Handler.VerifyOTP. endpoint_eq b. Qed.

Lemma Refresh_endpoint c b h :
  answered (Handler.Refresh uc c b) h = endpoint c b refresh_fields
    (fun req => some (Auth.Refresh uc req))
    (fun req err => Some (event c EventRefreshFail false "" "" (Error err)))
    (fun req result => event c EventRefreshOK true (User.ID (Auth.User result))
       (User.Email (Auth.User result)) "")
    (fun req result => NewSuccessResponse c StatusOK "token refreshed"
       (DUserData (FromLoginResponse result))) h.
Proof. unfold Handler.Refresh. endpoint_eq b. Qed.

Lemma Logout_endpoint c b h :
  answered (Handler.Logout c b) h = endpoint c b refresh_fields
    (fun req => some (Auth.Logout req)) (fun req err => None)
    (fun req _ => event c EventLogout true "" "" "")
    (fun req _ => NewSuccessResponse c StatusOK "logout success" NoData) h.
Proof. unfold Handler.Logout. endpoint_eq b. Qed.

Lemma ForgotPassword_endpoint c b h :
  answered (Handler.ForgotPassword uc c b) h = endpoint c b email_fields
    (fun req => some (Auth.ForgotPassword uc req))
    (fun req err => Some (event c EventPasswordForgotFail false "" req (Error err)))
    (fun req _ => event c EventPasswordForgotOK true "" req "")
    (fun req _ => NewSuccessResponse c StatusOK
       "if the email is registered, a reset link has been sent" NoData) h.
Proof. unfold Handler.ForgotPassword. endpoint_eq b. Qed.

Lemma ResetPassword_endpoint c b h :
  answered (Handler.ResetPassword uc c b) h = endpoint c b reset_fields
    (fun req => some (Auth.ResetPassword uc (rst_Token req) (rst_NewPassword req)))
    (fun req err => Some (event c EventPasswordResetFail false "" "" (Error err)))
    (fun req _ => event c EventPasswordResetOK true "" "" "")
    (fun req _ => NewSuccessResponse c StatusOK "password reset" NoData) h.
Proof. unfold Handler.ResetPassword. endpoint_eq b. Qed.

Lemma ChangePassword_endpoint c cu b h :
  CurrentUserFromContext c = Some cu ->
  answered (Handler.ChangePassword uc c b) h = endpoint c b change_fields
    (fun req => some (Auth.ChangePassword uc (cu_ID cu) (chg_CurrentPassword req)
       (chg_NewPassword req)))
    (fun req err => Some (event c EventPasswordChangeFail false (cu_ID cu) (cu_Email cu) (Error err)))
    (fun req _ => event c EventPasswordChangeOK true (cu_ID cu) (cu_Email cu) "")
    (fun req _ => NewSuccessResponse c StatusOK "password changed" NoData) h.
Proof. intros Hcu. unfold Handler.ChangePassword. rewrite Hcu. endpoint_eq b. Qed.

(** * What a request may do *)

(** The calls a route makes; a protected one only for the bearer of an access token. *)
Inductive route_call : route -> auth_call -> Prop :=
| rc_register req :
    ValidatePayloads (register_fields req) = None ->
    route_call (PostRegister (Some req)) (CRegister (RegisterRequest_ToV1Domain req))
| rc_login req :
    route_call (PostLogin (Some req)) (CLogin (log_Email req) (log_Password req))
| rc_send fuel req : route_call (PostSendOTP fuel (Some req)) (CSendOTP fuel req)
| rc_verify req :
    route_call (PostVerifyOTP (Some req)) (CVerifyOTP (ver_Email req) (ver_Code req))
| rc_refresh req : route_call (PostRefresh (Some req)) (CRefresh req)
| rc_logout req : route_call (PostLogout (Some req)) (CLogout req)
| rc_forgot req : route_call (PostForgot (Some req)) (CForgotPassword req)
| rc_reset req :
    ValidatePayloads (reset_fields req) = None ->
    route_call (PostReset (Some req)) (CResetPassword (rst_Token req) (rst_NewPassword req))
| rc_change tok cl req :
    ValidatePayloads (change_fields req) = None ->
    token_claims tok = Some cl -> Claims.Kind cl <> KindRefresh ->
    route_call (PutChange ("Bearer " +:+ tok) (Some req))
      (CChangePassword (Claims.UserID cl) (chg_CurrentPassword req) (chg_NewPassword req)).

(** Of the refusals of a use case these two are not recorded. *)
Definition unrecorded (r : route) : bool :=
  match r with PostSendOTP _ _ | PostLogout _ => true | _ => false end.

(** An event of this request. *)
Definition event_of (c : gin) (success : bool) (e : Event) : Prop :=
  ev_Success e = success /\ ev_IP e = g_client_ip c /\ ev_RequestID e = g_request_id c.

(** Behind the authentication middleware. *)
Definition protected (r : route) : bool :=
  match r with PutChange _ _ | GetMe _ => true | _ => false end.

(** The use case was called, on the state as the middleware left it, and answered. *)
Definition call_made (c : gin) (r : route) (h : HState) (o : option response) (h' : HState) : Prop :=
  exists w0 call res w1, (protected r = false -> w0 = h_world h) /\
    rows w0 = rows (h_world h) /\ users_inv (w_u w0) /\ route_call r call /\
    run uc call w0 = (res, w1) /\ rows (h_world h') = rows w1 /\
    match res with
    | None => o = None /\ h_audit h' = h_audit h
    | Some (Ok _) => (exists e, h_audit h' = e :: h_audit h /\ event_of c true e) /\
        exists out, o = Some out /\ (code_ out < 300)%Z
    | Some (Err _) => ((exists e, h_audit h' = e :: h_audit h /\ event_of c false e) \/
          (unrecorded r = true /\ h_audit h' = h_audit h)) /\
        exists out, o = Some out /\ (400 <= code_ out)%Z
    end.

Record effect (c : gin) (r : route) (h : HState) (o : option response) (h' : HState) : Prop := {
  ef_inv : users_inv (w_u (h_world h'));
  ef_clean : forall out, o = Some out -> clean c (h_causes h) (h_causes h') out;
  ef_done : (rows (h_world h') = rows (h_world h) /\ h_audit h' = h_audit h /\
       exists out, o = Some out /\ ((code_ out < 300)%Z -> exists hdr, r = GetMe hdr)) \/
    call_made c r h o h';
}.

Definition forget_res {A} (res : option (result error A)) : option (result error unit) :=
  match res with
  | None => None
  | Some (Ok _) => Some (Ok tt)
  | Some (Err e) => Some (Err e)
  end.

Lemma refused_effect c r h o h' :
  users_inv (w_u (h_world h)) -> refused c h h' o -> effect c r h o h'.
Proof.
  intros Hi (Hw & Ha & out & -> & Hcl & Hge). split.
  - by rewrite Hw.
  - by intros ? [= <-].
  - left. rewrite Hw. split_and!; [done|done|]. exists out. split; [done|]. lia.
Qed.

Lemma called_effect {A} c r call h h' o w1 (res : option (result error A)) fail succ reply :
  users_inv (w_u (h_world h)) -> route_call r call ->
  run uc call (h_world h) = (forget_res res, w1) ->
  (forall e, fail e = None -> unrecorded r = true) ->
  (forall e ev, fail e = Some ev -> event_of c false ev) -> (forall a, event_of c true (succ a)) ->
  (forall a, code_ (reply a) ∈ statuses /\ (code_ (reply a) < 300)%Z /\
     Status (body (reply a)) = true /\ RequestID (body (reply a)) = g_request_id c) ->
  called c h h' o (h_world h) w1 res fail succ reply -> effect c r h o h'.
Proof.
  intros Hi Hrc Hrun Hf1 Hf2 Hs Hrep [Hl Hres].
  pose proof (run_effect uc call (h_world h) Hi) as Hce. unfold wp in Hce. rewrite Hrun in Hce.
  destruct Hce as [Hi1 _ _ _ _]. simpl in Hi1. pose proof (later_rows _ _ Hl) as Hrows.
  split.
  - by eapply later_inv.
  - intros out Ho. destruct res as [[a|e]|].
    + destruct Hres as (-> & _ & ->). injection Ho as <-.
      destruct (Hrep a) as (Hc & Hlt & Hst & Hrid). split; try done.
      intros Heq. unfold StatusInternalServerError in *. lia.
    + destruct Hres as (_ & out' & -> & Hcl & _). by injection Ho as <-.
    + by destruct Hres as [-> _].
  - right. exists (h_world h), call, (forget_res res), w1. split_and!; try done.
    destruct res as [[a|e]|]; simpl.
    + destruct Hres as (-> & (t & ->) & _). split.
      * eexists. split; [done|]. by destruct (Hs a) as (? & ? & ?).
      * eexists. split; [done|]. by destruct (Hrep a) as (_ & ? & _).
    + destruct Hres as (Hrec & out & -> & _ & Hge). split; [|by exists out].
      destruct (fail e) as [ev|] eqn:Ef; simpl in Hrec.
      * left. destruct Hrec as (t & ->). eexists. split; [done|].
        by destruct (Hf2 _ _ Ef) as (? & ? & ?).
      * right. split; [by eapply Hf1|done].
    + by destruct Hres as (? & ? & _).
Qed.

(** The context and the state as the middleware hands them on. *)
Lemma effect_transport c c' r h h1 o h' :
  protected r = true -> g_client_ip c' = g_client_ip c -> g_request_id c' = g_request_id c ->
  rows (h_world h1) = rows (h_world h) -> h_audit h1 = h_audit h -> h_causes h1 = h_causes h ->
  effect c' r h1 o h' -> effect c r h o h'.
Proof.
  intros Hpr Hip Hrid Hr Ha Hca [Hi Hcl Hdone]. split; [done| |].
  - intros out Ho. rewrite <- Hca. destruct (Hcl out Ho). split; try done. by rewrite <- Hrid.
  - rewrite <- Hr, <- Ha.
    destruct Hdone as [?|(w0 & call & res & w1 & _ & H1' & H2' & H3' & H4' & H5' & Hres)]; [by left|right].
    exists w0, call, res, w1. rewrite <- Hr. split_and!; try done; [by rewrite Hpr|]. unfold event_of in *.
    rewrite <- Ha, <- Hip, <- Hrid. exact Hres.
Qed.

(** The middleware, whatever it decides. *)
Lemma wp_Handle m hdr (Q : AuthMiddleware.outcome -> World -> Prop) w :
  (forall o w', u_d (w_u w') = u_d (w_u w) -> u_cache (w_u w') = u_cache (w_u w) ->
     (forall cl, o = AuthMiddleware.Next cl -> exists tok, hdr = "Bearer " +:+ tok /\
        token_claims tok = Some cl /\ Claims.Kind cl <> KindRefresh) -> Q o w') ->
  wp (AuthMiddleware.Handle m hdr) Q w.
Proof.
  intros HQ.
  assert ((exists tok, Split_space hdr = ["Bearer"; tok]) \/
    exists msg, AuthMiddleware.Handle m hdr w = (AuthMiddleware.Abort msg, w)) as [[tok Hs]|[msg Hm]].
  { unfold AuthMiddleware.Handle. destruct (String.eqb_spec hdr ""); [right; by eexists|].
    destruct (Split_space hdr) as [|x [|y [|]]] eqn:Es; try (right; by eexists).
    destruct (String.eqb_spec x "Bearer") as [->|]; [left; by eexists|right; by eexists]. }
  - eapply wp_mono; [by apply (Handle_ok m tok hdr w)|]. intros o w' [[Hd Hc] Hok].
    apply HQ; [done|done|]. intros cl Hcl. destruct (Hok cl Hcl) as (Htok & Hk & _). exists tok.
    apply Split_space_two in Hs as (-> & _ & _). split_and!; [done|done|].
    intros Hr. rewrite Hr in Hk. by destruct Hk.
  - unfold wp. rewrite Hm. by apply HQ.
Qed.

Lemma wp_guarded hdr c r (f : gin -> io HState response) h :
  users_inv (w_u (h_world h)) -> protected r = true ->
  (forall cl tok h1, hdr = "Bearer " +:+ tok -> token_claims tok = Some cl ->
     Claims.Kind cl <> KindRefresh -> users_inv (w_u (h_world h1)) ->
     let c' := MkGin (g_request_id c) (g_client_ip c) (g_user_agent c) (g_trace_id c)
                 (Some (VClaims cl)) in
     wp (answered (f c')) (fun o h' => effect c' r h1 o h') h1) ->
  wp (answered (guarded guard hdr c f)) (fun o h' => effect c r h o h') h.
Proof.
  intros Hi Hpr Hf. unfold answered, guarded. wp_step. wp_step. wp_step. apply wp_Handle.
  intros o w' Hd Hc Htok. cbn [lget lset l_world] in *.
  assert (rows w' = rows (h_world h)) as Hr by (unfold rows, table; by rewrite Hd).
  assert (users_inv (w_u w')) as Hi'.
  { destruct (w_u w') as [b d ch]. simpl in *. subst. by apply users_inv_base. }
  destruct o as [msg|cl].
  - do 2 wp_step. split; [done| |].
    + intros out [= <-]. by apply clean_error; [set_solver|..].
    + left. split_and!; [done|done|]. eexists. split; [done|]. simpl.
      unfold StatusUnauthorized. lia.
  - destruct (Htok cl eq_refl) as (tok & Hh & Ht & Hk).
    specialize (Hf cl tok (MkH w' (h_audit h) (h_causes h)) Hh Ht Hk Hi').
    cbv zeta in Hf. unfold answered in Hf.
    unfold wp, bind in Hf |- *. simpl in *.
    destruct (f _ _) as [out h'] eqn:Ef. simpl in *. by eapply effect_transport, Hf.
Qed.

(** From the endpoint to its call. *)
Lemma endpoint_effect {Req A} c r (b : option Req) fields m fail succ (reply : Req -> A -> response)
    (call : Req -> auth_call) h :
  users_inv (w_u (h_world h)) ->
  (forall req, b = Some req -> ValidatePayloads (fields req) = None -> route_call r (call req)) ->
  (forall req w res w1, m req w = (res, w1) -> run uc (call req) w = (forget_res res, w1)) ->
  (forall req e, fail req e = None -> unrecorded r = true) ->
  (forall req e ev, fail req e = Some ev -> event_of c false ev) ->
  (forall req a, event_of c true (succ req a)) ->
  (forall req a, code_ (reply req a) ∈ statuses /\ (code_ (reply req a) < 300)%Z /\
     Status (body (reply req a)) = true /\ RequestID (body (reply req a)) = g_request_id c) ->
  wp (endpoint c b fields m fail succ reply) (fun o h' => effect c r h o h') h.
Proof.
  intros Hi Hrc Hrun Hf1 Hf2 Hs Hrep. apply wp_endpoint; [by intros; apply refused_effect|].
  intros req res w1 o h' Hb Hv Hm Hcall.
  eapply called_effect; [exact Hi|by eapply Hrc|by eapply Hrun|..|exact Hcall]; eauto.
Qed.

Lemma some_run {A} (m : io World (result error A)) w res w1 :
  some m w = (res, w1) -> forget m w = (forget_res res, w1).
Proof.
  unfold some, forget, bind, ret. destruct (m w) as [[a|e] w']; by intros [= <- <-].
Qed.

Ltac events := intros; first [by intuition congruence | simplify_eq; by split_and!].
Ltac replies := intros; split_and!; [set_solver|done|done|done].

Lemma wp_eq {S A} (m m' : io S A) Q s : m s = m' s -> wp m' Q s -> wp m Q s.
Proof. unfold wp. by intros ->. Qed.

Lemma GetUserData_effect c hdr h :
  users_inv (w_u (h_world h)) ->
  wp (answered (Handler.GetUserData c)) (fun o h' => effect c (GetMe hdr) h o h') h.
Proof.
  intros Hi. unfold answered. wp_step. unfold Handler.GetUserData.
  assert (forall h1 out, users_inv (w_u (h_world h1)) -> rows (h_world h1) = rows (h_world h) ->
    h_audit h1 = h_audit h -> clean c (h_causes h) (h_causes h1) out ->
    effect c (GetMe hdr) h (Some out) h1) as Hend.
  { intros h1 out Hi1 Hr Ha Hcl. split; [done|by intros ? [= <-]|].
    left. split_and!; [done|done|]. exists out. split; [done|]. intros _. by exists hdr. }
  destruct (CurrentUserFromContext c) as [cu|].
  - wp_step. wp_step. wp_step. eapply wp_mono; [by apply users_GetByEmail_spec|].
    intros res u' (Hi' & Ht & _). destruct res as [usr|e].
    + do 2 wp_step. apply Hend; [done|exact Ht|done|]. by apply clean_success; [set_solver|].
    + apply wp_RespondWithError. intros out causes Hcl _. wp_step. by apply Hend.
  - do 2 wp_step. apply Hend; [done..|]. by apply clean_error; [set_solver|..].
Qed.

Lemma serve_effect c r h :
  users_inv (w_u (h_world h)) ->
  wp (serve uc guard c r) (fun o h' => effect c r h o h') h.
Proof.
  intros Hi. destruct r as [b|b|fuel b|b|b|b|b|b|hdr b|hdr]; cbn [serve].
  - eapply wp_eq; [apply Register_endpoint|].
    apply (endpoint_effect _ _ _ _ _ _ _ _ (fun req => CRegister (RegisterRequest_ToV1Domain req)));
      [done|intros req -> Hv; by constructor|intros req; apply some_run|events..|replies].
  - eapply wp_eq; [apply Login_endpoint|].
    apply (endpoint_effect _ _ _ _ _ _ _ _ (fun req => CLogin (log_Email req) (log_Password req)));
      [done|intros req -> Hv; by constructor|intros req; apply some_run|events..|replies].
  - eapply wp_eq; [apply SendOTP_endpoint|].
    apply (endpoint_effect _ _ _ _ _ _ _ _ (fun req => CSendOTP fuel req));
      [done|intros req -> Hv; by constructor| |events..|replies].
    intros req w res w1. cbn [run]. intros ->. by destruct res as [[[]|e]|].
  - eapply wp_eq; [apply VerifyOTP_endpoint|].
    apply (endpoint_effect _ _ _ _ _ _ _ _ (fun req => CVerifyOTP (ver_Email req) (ver_Code req)));
      [done|intros req -> Hv; by constructor|intros req; apply some_run|events..|replies].
  - eapply wp_eq; [apply Refresh_endpoint|].
    apply (endpoint_effect _ _ _ _ _ _ _ _ (fun req => CRefresh req));
      [done|intros req -> Hv; by constructor|intros req; apply some_run|events..|replies].
  - eapply wp_eq; [apply Logout_endpoint|].
    apply (endpoint_effect _ _ _ _ _ _ _ _ (fun req => CLogout req));
      [done|intros req -> Hv; by constructor|intros req; apply some_run|events..|replies].
  - eapply wp_eq; [apply ForgotPassword_endpoint|].
    apply (endpoint_effect _ _ _ _ _ _ _ _ (fun req => CForgotPassword req));
      [done|intros req -> Hv; by constructor|intros req; apply some_run|events..|replies].
  - eapply wp_eq; [apply ResetPassword_endpoint|].
    apply (endpoint_effect _ _ _ _ _ _ _ _
      (fun req => CResetPassword (rst_Token req) (rst_NewPassword req)));
      [done|intros req -> Hv; by constructor|intros req; apply some_run|events..|replies].
  - apply wp_guarded; [done|done|]. intros cl tok h1 -> Ht Hk Hi1 c'.
    eapply wp_eq; [by apply ChangePassword_endpoint|].
    apply (endpoint_effect _ _ _ _ _ _ _ _ (fun req => CChangePassword (Claims.UserID cl)
      (chg_CurrentPassword req) (chg_NewPassword req)));
      [done|intros req -> Hv; by econstructor|intros req; apply some_run|events..|replies].
  - apply wp_guarded; [done|done|]. intros cl tok h1 -> Ht Hk Hi1 c'. by apply GetUserData_effect.
Qed.

(** Only the code generator may not be done. *)
Lemma run_none call w w1 : run uc call w = (None, w1) -> exists fuel email, call = CSendOTP fuel email.
Proof.
  destruct call as [x|em pw|fuel email| | | | | |]; intros Hrun; [|..];
    try (by exists fuel, email); exfalso; revert Hrun; cbn [run]; unfold forget, bind, ret;
    match goal with |- context [match ?m w with pair _ _ => _ end] => by destruct (m w) end.
Qed.

(** * Properties *)



(** Requests in any order, with what the environment does between them. *)
Inductive http_step : HState -> HState -> Prop :=
| hs_serve c r h : http_step h (serve uc guard c r h).2
| hs_env h b r m :
    used b = issued (h_world h) -> redis_view r ⊆ keys (h_world h) ->
    http_step h (MkH (MkW (MkU b (u_d (w_u (h_world h))) (u_cache (w_u (h_world h)))) r m)
      (h_audit h) (h_causes h)).

(** No account is an administrator that was none. *)
Definition no_new_admin (T T' : gmap string Users.t) : Prop :=
  forall id r', T' !! id = Some r' -> Users.RoleId r' = RoleAdmin ->
    exists r, T !! id = Some r /\ Users.RoleId r = RoleAdmin.

#[export] Instance no_new_admin_preorder : PreOrder no_new_admin.
Proof.
  split; [intros T id r Hr Ha; by exists r|]. intros T1 T2 T3 H12 H23 id r3 Hr3 Ha.
  destruct (H23 _ _ Hr3 Ha) as (r2 & Hr2 & Ha2). by eapply H12.
Qed.

Lemma no_new_admin_update id f T :
  (forall r, Users.RoleId (f r) = Users.RoleId r) -> no_new_admin T (update_live id f T).
Proof.
  intros Hf i r'. unfold update_live. rewrite lookup_fmap. intros (r & Hr & ->)%fmap_Some Ha.
  exists r. split; [done|]. destruct (eval_where _ r); [by rewrite <- Hf|done].
Qed.

Lemma route_no_new_admin r call w T' :
  route_call r call -> table_change w call T' -> no_new_admin (rows w) T'.
Proof.
  intros Hrc Ht. revert Hrc.
  destruct Ht as [c|x id s Hid Ha Hro|email code c now|id cur new usr T1 ? ? ? (h & now & -> & _)
    |token new userID usr T1 ? ? ? (h & now & -> & _)]; intros Hrc;
    try (apply no_new_admin_update; by intros []); [done|].
  intros i s' [[<- <-]|[? Hs]]%lookup_insert_Some Hadm; [|by exists s'].
  exfalso. rewrite Hro in Hadm. by inversion Hrc; subst.
Qed.

Lemma effect_no_new_admin c r h o h' :
  effect c r h o h' -> no_new_admin (rows (h_world h)) (rows (h_world h')).
Proof.
  intros [_ _ [(Hr & _)|(w0 & call & res & w1 & _ & Hr0 & Hi0 & Hrc & Hcall & Hr1 & _)]].
  - rewrite Hr. reflexivity.
  - pose proof (wp_run _ _ _ _ _ (run_effect uc call w0 Hi0) Hcall) as [_ _ Ht _ _].
    rewrite Hr1, <- Hr0. by eapply route_no_new_admin.
Qed.

(** No privilege escalation: along any sequence of requests an account is an
    administrator only if it was one at the start; registration makes regular
    users, and no route changes a role. *)
Theorem no_admin_by_api h h' :
  users_inv (w_u (h_world h)) -> rtc http_step h h' ->
  no_new_admin (rows (h_world h)) (rows (h_world h')) /\ users_inv (w_u (h_world h')).
Proof.
  intros Hi Htr. induction Htr as [h|h1 h2 h3 Hstep Htr IH]; [by split|].
  assert (no_new_admin (rows (h_world h1)) (rows (h_world h2)) /\ users_inv (w_u (h_world h2)))
    as [Hna Hi2].
  { destruct Hstep as [c r h|h b r m Hu Hs]; [|split; [reflexivity|by apply users_inv_base]].
    pose proof (serve_effect c r h Hi) as Hef. split; [by eapply effect_no_new_admin|apply (ef_inv _ _ _ _ _ Hef)]. }
  destruct (IH Hi2) as [H23 ?]. split; [by etransitivity|done].
Qed.

(** The new password passed validation. *)
Definition strong_password (pw : string) : Prop :=
  12 <= rune_count pw /\ rune_count pw <= 72 /\ StrongPassword pw = true.

Lemma valid_fields `{!ValidatorLaws} p : ValidatePayloads p = None -> fields_ok StrongPassword p.
Proof.
  unfold ValidatePayloads. intros Hv. apply struct_law.
  by destruct (validator_Struct StrongPassword p) as [[]|].
Qed.

Lemma strong_new_password name pw :
  Forall (rule_ok StrongPassword (f_value (Field name new_password_tag pw)))
    (f_tag (Field name new_password_tag pw)) -> strong_password pw.
Proof. unfold new_password_tag. simpl. intros Hf. by decompose_Forall_hyps. Qed.

(** C14. The only requests that change the password of an account are the
    authenticated PUT /auth/password/change with an access token of that account
    and its current password, and POST /auth/password/reset with a token Redis
    holds for it; either way the new password is strong. *)
Theorem password_routes `{!ValidatorLaws} c r h o h' id s s' :
  users_inv (w_u (h_world h)) -> serve uc guard c r h = (o, h') ->
  rows (h_world h) !! id = Some s -> rows (h_world h') !! id = Some s' ->
  Users.Password s <> Users.Password s' ->
  (exists tok cl req, r = PutChange ("Bearer " +:+ tok) (Some req) /\
     token_claims tok = Some cl /\ Claims.Kind cl <> KindRefresh /\
     sql_uuid (Claims.UserID cl) = Some id /\
     bcrypt_CompareHashAndPassword (Users.Password s) (chg_CurrentPassword req) = None /\
     bcrypt_CompareHashAndPassword (Users.Password s') (chg_NewPassword req) = None /\
     strong_password (chg_NewPassword req)) \/
  (exists req userID, r = PostReset (Some req) /\
     reset_stored (h_world h) (rst_Token req) userID /\ sql_uuid userID = Some id /\
     bcrypt_CompareHashAndPassword (Users.Password s') (rst_NewPassword req) = None /\
     strong_password (rst_NewPassword req)).
Proof.
  intros Hi Hrun Hs Hs' Hp.
  destruct (wp_run _ _ _ _ _ (serve_effect c r h Hi) Hrun) as [_ _ [(Hr & _)|Hc]].
  { rewrite Hr in Hs'. congruence. }
  destruct Hc as (w0 & call & res & w1 & Hw0 & Hr0 & Hi0 & Hrc & Hcall & Hr1 & _).
  pose proof (wp_run _ _ _ _ _ (run_effect uc call w0 Hi0) Hcall) as [_ _ Ht _ _].
  rewrite Hr1 in Hs'. rewrite <- Hr0 in Hs. destruct (users_inv_table _ Hi0) as [Hok _].
  remember (rows w1) as T' eqn:HT.
  destruct Ht as [call|x i t Hid Ha Hro|em code u now Ho Hk He Hua|uid cur new usr T1 Hst Hid Hv Hre
    |token new uid usr T1 Hrs Hst Hid Hre].
  - congruence.
  - rewrite lookup_insert_ne in Hs' by congruence. congruence.
  - rewrite (update_live_lookup _ _ _ _ _ Hs) in Hs'.
    destruct (eval_where _ s); simplify_eq. by destruct s.
  - left. destruct (password_replaced_at _ _ _ _ _ _ _ Hok Hst Hre Hs Hs' Hp) as (<- & <- & Hc).
    inversion Hrc as [| | | | | | | |tok cl req Hval Htok Hk]; subst. exists tok, cl, req.
    split_and!; try done.
    + unfold VerifyPassword in Hv. simpl. by destruct (bcrypt_CompareHashAndPassword _ _).
    + apply valid_fields in Hval. unfold fields_ok, change_fields in Hval. decompose_Forall_hyps.
      by apply (strong_new_password "NewPassword").
  - right. destruct (password_replaced_at _ _ _ _ _ _ _ Hok Hst Hre Hs Hs' Hp) as (<- & _ & Hc).
    inversion Hrc as [| | | | | | |req Hval|]; subst. exists req, uid. rewrite <- Hw0 by done.
    split_and!; try done. apply valid_fields in Hval. unfold fields_ok, reset_fields in Hval.
    decompose_Forall_hyps. by apply (strong_new_password "NewPassword").
Qed.
End http_props.
