(* ===== verification/ComponentProps.v ===== *)
(** Properties of the components below the use cases: the user entity and the
    token service. *)

From Stdlib Require Import Ascii String ZArith Sorted.
From stdpp Require Import base gmap strings list pretty.
From S2P Require Import Prelude GoStrings AppError Records Services World Domain Repository Caches.
From S2P Require Import Jwt OtpCode.

Open Scope string_scope.

Section component_props.
Context `{PlatformLaws}.
#[local] Existing Instances pl_text pl_redis pl_sql pl_rist pl_rng.

(** * The user entity *)

(** A fresh entity made from registration input. *)
Definition registered (un em pw : string) (role : Z) (u : User.t) : Prop :=
  TrimSpace un <> "" /\ pw <> "" /\ mail_ParseAddress (NormalizeEmail em) = true /\
  User.Username u = TrimSpace un /\ User.Email u = NormalizeEmail em /\
  NormalizeEmail (User.Email u) = User.Email u /\ User.Email u <> "" /\
  User.RoleID u = role /\ User.Active u = false /\ VerifyPassword u pw = true /\
  (String.length pw <= 72)%nat.

(** NewUser checks, in this order, the trimmed name, the password, the
    normalized email and its syntax; what it builds is inactive, carries the
    checked values, and its hash verifies the password. *)
Theorem NewUser_spec un em pw role cost b :
  let run := NewUser un em pw role cost b in
  (TrimSpace un = "" -> run = (Err (ESent ErrEmptyUsername), b)) /\
  (TrimSpace un <> "" -> pw = "" -> run = (Err (ESent ErrEmptyPassword), b)) /\
  (TrimSpace un <> "" -> pw <> "" -> NormalizeEmail em = "" -> run = (Err (ESent ErrEmptyEmail), b)) /\
  (TrimSpace un <> "" -> pw <> "" -> NormalizeEmail em <> "" ->
     mail_ParseAddress (NormalizeEmail em) = false -> run = (Err (ESent ErrInvalidEmail), b)) /\
  (forall u, run.1 = Ok u ->
     registered un em pw role u).
Proof.
  cbn zeta. split_and!.
  - intros Hu. unfold NewUser. by rewrite Hu.
  - intros Hu ->. unfold NewUser. by rewrite (proj2 (String.eqb_neq _ _) Hu).
  - intros Hu Hp He. unfold NewUser.
    by rewrite (proj2 (String.eqb_neq _ _) Hu), (proj2 (String.eqb_neq _ _) Hp), He.
  - intros Hu Hp He Hm. unfold NewUser.
    by rewrite (proj2 (String.eqb_neq _ _) Hu), (proj2 (String.eqb_neq _ _) Hp),
      (proj2 (String.eqb_neq _ _) He), Hm.
  - intros u. apply (wp_NewUser un em pw role cost
      (fun res _ => res = Ok u -> registered un em pw role u)).
    intros res b2 _ _ Hres ->. destruct Hres as (now & -> & Hun & Hpw & Hne & Hm & Hv & Hlen).
    unfold registered. cbn. pose proof (NormalizeEmail_idem em). by split_and!.
Qed.

(** * Tokens *)
Section tokens.
Context `{JwtLaws}.
Variable j : Jwt.jwtService.

(** A token that verifies under the service's secret and is not expired parses to
    its claims. *)
Lemma parse_complete tok c b :
  jwt_payload tok = Some c -> is_SigningMethodHMAC (jwt_header tok).1 = true ->
  jwt_verifies (jwt_header tok).1 (Jwt.secretKey j) tok = true ->
  (forall e, Claims.ExpiresAt c = Some e -> ((time_Now (b_clk b)).1 < e)%Z) ->
  Claims.NotBefore c = None ->
  (Jwt.parse j tok b).1 = Ok c.
Proof.
  intros Hp Hm Hv He Hn. unfold Jwt.parse, bind, Now, zoom. simpl.
  destruct (time_Now (b_clk b)) as [now k]. simpl in He.
  rewrite (jwt_complete_law now tok (Jwt.keyfunc j) c (Jwt.secretKey j)); [done|done| |done..].
  unfold Jwt.keyfunc. by rewrite Hm.
Qed.

Lemma ParseToken_fst tok b :
  (Jwt.ParseToken j tok b).1 = match (Jwt.parse j tok b).1 with
    | Ok c => if negb (Claims.Kind c =? "")%string && negb (Claims.Kind c =? KindAccess)%string
              then Err (ESent ErrWrongTokenKind) else Ok c
    | Err e => Err e end.
Proof.
  unfold Jwt.ParseToken, try_catch, bind. destruct (Jwt.parse j tok b) as [[c|e] b']; [|done].
  simpl. by destruct (_ && _).
Qed.

Lemma ParseRefreshToken_fst tok b :
  (Jwt.ParseRefreshToken j tok b).1 = match (Jwt.parse j tok b).1 with
    | Ok c => if negb (Claims.Kind c =? KindRefresh)%string
              then Err (ESent ErrWrongTokenKind) else Ok c
    | Err e => Err e end.
Proof.
  unfold Jwt.ParseRefreshToken, try_catch, bind.
  destruct (Jwt.parse j tok b) as [[c|e] b']; [|done]. simpl. by destruct (negb _).
Qed.

(** What the two parsers answer. *)
Lemma wp_ParseToken tok (Q : result error Claims.t -> Base -> Prop) b :
  (forall res b', match res with
     | Ok c => jwt_payload tok = Some c /\ is_SigningMethodHMAC (jwt_header tok).1 = true /\
         jwt_verifies (jwt_header tok).1 (Jwt.secretKey j) tok = true /\
         (Claims.Kind c = "" \/ Claims.Kind c = KindAccess)
     | Err e => errors_Is e ErrInvalidToken = true \/ errors_Is e ErrWrongTokenKind = true
     end -> Q res b') ->
  wp (Jwt.ParseToken j tok) Q b.
Proof.
  intros HQ. unfold Jwt.ParseToken. wp_step. apply wp_parse. intros [c|e] b' _ Hc.
  - destruct (String.eqb_spec (Claims.Kind c) ""); [wp_steps; apply HQ; naive_solver|].
    destruct (String.eqb_spec (Claims.Kind c) KindAccess); wp_steps; apply HQ; naive_solver.
  - wp_steps. apply HQ. naive_solver.
Qed.

Lemma wp_ParseRefreshToken tok (Q : result error Claims.t -> Base -> Prop) b :
  (forall res b', match res with
     | Ok c => jwt_payload tok = Some c /\ is_SigningMethodHMAC (jwt_header tok).1 = true /\
         jwt_verifies (jwt_header tok).1 (Jwt.secretKey j) tok = true /\
         Claims.Kind c = KindRefresh
     | Err e => errors_Is e ErrInvalidToken = true \/ errors_Is e ErrWrongTokenKind = true
     end -> Q res b') ->
  wp (Jwt.ParseRefreshToken j tok) Q b.
Proof.
  intros HQ. unfold Jwt.ParseRefreshToken. wp_step. apply wp_parse. intros [c|e] b' _ Hc.
  - destruct (String.eqb_spec (Claims.Kind c) KindRefresh); wp_steps; apply HQ; naive_solver.
  - wp_steps. apply HQ. naive_solver.
Qed.

(** What is in a pair the service minted. *)
Lemma minted_pair id adm em b p b1 :
  Jwt.GenerateTokenPair j id adm em b = (Ok p, b1) ->
  valid_utf8 id = true -> valid_utf8 em = true -> valid_utf8 (Jwt.issuer j) = true ->
  exists na nr,
    AccessExpiresAt p = (na + mul64 Hour (Jwt.expired j))%Z /\
    RefreshExpiresAt p = (nr + mul64 (24 * Hour) (Jwt.refreshExpired j))%Z /\
    (forall t, Jwt.clock j = frozen t -> na = t /\ nr = t) /\
    forall tok c, (tok = AccessToken p /\
        c = access_claims j id adm em (AccessJTI p) na (AccessExpiresAt p)) \/
      (tok = RefreshToken p /\
        c = refresh_claims j id em (RefreshJTI p) nr (RefreshExpiresAt p)) ->
      jwt_payload tok = Some c /\ is_SigningMethodHMAC (jwt_header tok).1 = true /\
      jwt_verifies (jwt_header tok).1 (Jwt.secretKey j) tok = true.
Proof.
  intros Hrun Hid Hem His.
  unfold Jwt.GenerateTokenPair, Jwt.signAccess, Jwt.signRefresh, try_catch, bind in Hrun.
  destruct (clock_Now (Jwt.clock j) b) as [na b2] eqn:Ena.
  destruct (uuid b2) as [ja b3] eqn:Eja. unfold Jwt.sign in Hrun.
  destruct (jwt_SignedString _ _ _) as [ta|e] eqn:Esa in Hrun; [|done]. simpl in Hrun.
  destruct (clock_Now (Jwt.clock j) b3) as [nr b4] eqn:Enr.
  destruct (uuid b4) as [jr b5] eqn:Ejr.
  destruct (jwt_SignedString _ _ _) as [tr|e] eqn:Esr in Hrun; [|done]. simpl in Hrun.
  injection Hrun as <- <-. exists na, nr. simpl. split_and!; [done|done| |].
  - intros t Ht. rewrite Ht in *. simpl in *. by injection Ena as -> _; injection Enr as -> _.
  - pose proof (wp_uuid (fun i _ => isASCII i = true) b2 ltac:(auto)) as Ha. unfold wp in Ha.
    rewrite Eja in Ha. simpl in Ha.
    pose proof (wp_uuid (fun i _ => isASCII i = true) b4 ltac:(auto)) as Hr. unfold wp in Hr.
    rewrite Ejr in Hr. simpl in Hr.
    intros tok c [[-> ->]|[-> ->]].
    + apply jwt_sign_law in Esa as (Hm & Hp & Hv); [|by apply access_claims_portable].
      rewrite Hm. split_and!; [exact Hp|apply hs256_hmac|exact Hv].
    + apply jwt_sign_law in Esr as (Hm & Hp & Hv); [|by apply refresh_claims_portable].
      rewrite Hm. split_and!; [exact Hp|apply hs256_hmac|exact Hv].
Qed.

(** C30. Round trip: as long as a minted token has not expired, it parses, as its own
    kind, to the identity it was minted for and the identifier of the pair. *)
Theorem pair_round_trip id adm em b p b1 b2 :
  Jwt.GenerateTokenPair j id adm em b = (Ok p, b1) ->
  valid_utf8 id = true -> valid_utf8 em = true -> valid_utf8 (Jwt.issuer j) = true ->
  (((time_Now (b_clk b2)).1 < NewNumericDate (AccessExpiresAt p))%Z ->
   exists c, (Jwt.ParseToken j (AccessToken p) b2).1 = Ok c /\ Claims.UserID c = id /\
     Claims.IsAdmin c = adm /\ Claims.Email c = em /\ Claims.ID c = AccessJTI p) /\
  (((time_Now (b_clk b2)).1 < NewNumericDate (RefreshExpiresAt p))%Z ->
   exists c, (Jwt.ParseRefreshToken j (RefreshToken p) b2).1 = Ok c /\ Claims.UserID c = id /\
     Claims.IsAdmin c = false /\ Claims.Email c = em /\ Claims.ID c = RefreshJTI p).
Proof.
  intros Hrun Hid Hem His. destruct (minted_pair _ _ _ _ _ _ Hrun Hid Hem His)
    as (na & nr & _ & _ & _ & Htok). split; intros Hlt.
  - destruct (Htok _ _ (or_introl (conj eq_refl eq_refl))) as (Hp & Hm & Hv).
    eexists. rewrite ParseToken_fst, (parse_complete _ _ b2 Hp Hm Hv); [|by intros e [= <-]|done].
    by split.
  - destruct (Htok _ _ (or_intror (conj eq_refl eq_refl))) as (Hp & Hm & Hv).
    eexists. rewrite ParseRefreshToken_fst, (parse_complete _ _ b2 Hp Hm Hv); [|by intros e [= <-]|done].
    by split.
Qed.

(** The kinds are not interchangeable: a minted refresh token is refused as an
    access token and the other way round, at any time. *)
Theorem pair_kinds_distinct id adm em b p b1 b2 :
  Jwt.GenerateTokenPair j id adm em b = (Ok p, b1) ->
  valid_utf8 id = true -> valid_utf8 em = true -> valid_utf8 (Jwt.issuer j) = true ->
  is_Ok (Jwt.ParseToken j (RefreshToken p) b2).1 = false /\
  is_Ok (Jwt.ParseRefreshToken j (AccessToken p) b2).1 = false.
Proof.
  intros Hrun Hid Hem His. destruct (minted_pair _ _ _ _ _ _ Hrun Hid Hem His)
    as (na & nr & _ & _ & _ & Htok). split.
  - destruct (Htok _ _ (or_intror (conj eq_refl eq_refl))) as (Hp & _).
    apply (wp_ParseToken (RefreshToken p) (fun res _ => is_Ok res = false)).
    intros [c|e] b' Hc; [|done]. destruct Hc as (Hc & _ & _ & Hk). rewrite Hp in Hc.
    injection Hc as <-. simpl in Hk. unfold KindAccess, KindRefresh in Hk. naive_solver.
  - destruct (Htok _ _ (or_introl (conj eq_refl eq_refl))) as (Hp & _).
    apply (wp_ParseRefreshToken (AccessToken p) (fun res _ => is_Ok res = false)).
    intros [c|e] b' Hc; [|done]. destruct Hc as (Hc & _ & _ & Hk). rewrite Hp in Hc.
    injection Hc as <-. simpl in Hk. unfold KindAccess, KindRefresh in Hk. naive_solver.
Qed.

(** Algorithm confusion: whatever a token says, it is accepted only when its
    header names an HMAC method and it verifies under the service's secret; a
    refusal is an [ErrInvalidToken] or an [ErrWrongTokenKind]. *)
Theorem only_hmac_accepted tok b :
  match (Jwt.ParseToken j tok b).1 with
  | Ok c => is_SigningMethodHMAC (jwt_header tok).1 = true /\
      jwt_verifies (jwt_header tok).1 (Jwt.secretKey j) tok = true /\
      jwt_payload tok = Some c /\ (Claims.Kind c = "" \/ Claims.Kind c = KindAccess)
  | Err e => errors_Is e ErrInvalidToken = true \/ errors_Is e ErrWrongTokenKind = true
  end.
Proof.
  apply (wp_ParseToken tok (fun res _ => match res with
    | Ok c => is_SigningMethodHMAC (jwt_header tok).1 = true /\
      jwt_verifies (jwt_header tok).1 (Jwt.secretKey j) tok = true /\
      jwt_payload tok = Some c /\ (Claims.Kind c = "" \/ Claims.Kind c = KindAccess)
    | Err e => errors_Is e ErrInvalidToken = true \/ errors_Is e ErrWrongTokenKind = true
    end)).
  intros [c|e] b'; naive_solver.
Qed.

(** Lifetimes: up to 2562047 hours and 106751 days the expiry instants are exactly
    issue time plus the configured lifetime (the configuration allows 720 and
    365); one hour or day more overflows a Duration and the token would be born
    expired. *)
Theorem lifetime_exact id adm em b p b1 t :
  Jwt.clock j = frozen t -> Jwt.GenerateTokenPair j id adm em b = (Ok p, b1) ->
  valid_utf8 id = true -> valid_utf8 em = true -> valid_utf8 (Jwt.issuer j) = true ->
  ((0 <= Jwt.expired j <= 2562047)%Z ->
     AccessExpiresAt p = (t + Jwt.expired j * Hour)%Z) /\
  ((0 <= Jwt.refreshExpired j <= 106751)%Z ->
     RefreshExpiresAt p = (t + Jwt.refreshExpired j * (24 * Hour))%Z) /\
  (Jwt.expired j = 2562048%Z -> (AccessExpiresAt p < t)%Z) /\
  (Jwt.refreshExpired j = 106752%Z -> (RefreshExpiresAt p < t)%Z).
Proof.
  intros Hcl Hrun Hid Hem His. destruct (minted_pair _ _ _ _ _ _ Hrun Hid Hem His)
    as (na & nr & -> & -> & Hf & _). destruct (Hf t Hcl) as [-> ->].
  assert (Hour = 3600000000000%Z) as Hh by reflexivity.
  split_and!.
  - intros Hb. unfold mul64. rewrite wrap64_id; [lia|].
    unfold in_int64, int64_min, int64_max. rewrite Hh. apply andb_true_intro; split; apply Z.leb_le; lia.
  - intros Hb. unfold mul64. rewrite wrap64_id; [lia|].
    unfold in_int64, int64_min, int64_max. rewrite Hh. apply andb_true_intro; split; apply Z.leb_le; lia.
  - intros ->. change (mul64 Hour 2562048) with (-9223371273709551616)%Z. lia.
  - intros ->. change (mul64 (24 * Hour) 106752) with (-9223371273709551616)%Z. lia.
Qed.
End tokens.
End component_props.
