(* ===== verification/CodeProps.v ===== *)
(** Properties of the random codes: the digits of a one-time password are the
    accepted random bytes in order, every digit is as likely as any other, the
    rejection loop ends; a reset token is the text of 32 random bytes and can be
    read back. *)

From Stdlib Require Import Ascii String ZArith.
From stdpp Require Import base gmap strings list pretty.
From S2P Require Import Prelude GoStrings AppError Records Services World Domain OtpCode.

Open Scope string_scope.

(** * The rejection loop against a reference definition *)

(** The first [n] digits the stream of random bytes gives, buffers ignored. *)
Definition otp_reference (n : nat) (stream : list N) : list ascii :=
  take n (omap otp_accept stream).

Lemma list_ascii_app s t :
  list_ascii_of_string (s +:+ t) = (list_ascii_of_string s ++ list_ascii_of_string t)%list.
Proof. induction s as [|a s IH]; [done|]. rewrite app_cons_string. simpl. by rewrite IH. Qed.

Lemma list_ascii_length s : length (list_ascii_of_string s) = String.length s.
Proof. induction s as [|a s IH]; [done|]. simpl. by rewrite IH. Qed.

Lemma otp_fill_take n result buf :
  String.length result <= n ->
  list_ascii_of_string (otp_fill n result buf)
  = take n (list_ascii_of_string result ++ omap otp_accept buf).
Proof.
  revert result. induction buf as [|b buf IH]; intros result Hle; simpl.
  - rewrite app_nil_r, take_ge; [done|]. by rewrite list_ascii_length.
  - destruct (Nat.leb_spec n (String.length result)).
    + by rewrite take_app_le, take_ge by (rewrite list_ascii_length; lia).
    + assert (otp_accept b = if (b <? maxValid)%N then Some (otp_digit b) else None) as -> by done.
      destruct (b <? maxValid)%N.
      * rewrite IH; [|rewrite length_app_string; simpl; lia].
        rewrite list_ascii_app, <- app_assoc. done.
      * by apply IH.
Qed.

Lemma otp_fill_le n result buf :
  String.length result <= n -> String.length (otp_fill n result buf) <= n.
Proof.
  intros Hle. rewrite <- list_ascii_length, otp_fill_take by done. rewrite length_take. lia.
Qed.

(** However the random bytes are cut into buffers, the code filled so far is the
    first digits of the accepted bytes of the whole stream, in order. *)
Theorem otp_fill_reference n bufs :
  list_ascii_of_string (fold_left (otp_fill n) bufs "") = otp_reference n (concat bufs).
Proof.
  assert (forall result, String.length result <= n ->
    list_ascii_of_string (fold_left (otp_fill n) bufs result)
    = take n (list_ascii_of_string result ++ omap otp_accept (concat bufs))) as Hgen.
  { induction bufs as [|buf bufs IH]; intros result Hle; simpl.
    - rewrite app_nil_r, take_ge; [done|]. by rewrite list_ascii_length.
    - rewrite IH by by apply otp_fill_le. rewrite otp_fill_take by done.
      rewrite omap_app, app_assoc. generalize (list_ascii_of_string result ++ omap otp_accept buf)%list.
      generalize (omap otp_accept (concat bufs)). intros ys xs.
      destruct (decide (length xs <= n)); [by rewrite (take_ge xs)|].
      rewrite take_app_le by (rewrite length_take; lia).
      rewrite take_take, Nat.min_id, take_app_le by lia. done. }
  by apply (Hgen ""), Nat.le_0_l.
Qed.

(** No modulo bias: of the 256 values of a random byte exactly 25 give each of
    the ten digits (6 are rejected). *)
Theorem otp_unbiased :
  otp_counts = replicate 10 25 /\
  length (filter (fun b => otp_accept b = None) bytes) = 6.
Proof. split; vm_compute; reflexivity. Qed.

Section codes.
Context `{PlatformLaws}.
#[local] Existing Instances pl_text pl_redis pl_sql pl_rist pl_rng.

Lemma otp_loop_shape fuel n filled b :
  String.length filled <= n -> string_forall is_digit filled = true ->
  wp (otp_loop fuel n filled) (fun res _ => forall code, res = Some (Ok code) ->
    String.length code = n /\ string_forall is_digit code = true) b.
Proof.
  revert filled b. induction fuel as [|fuel IH]; intros filled b Hle Hd; simpl.
  - destruct (Nat.leb_spec n (String.length filled)); apply wp_ret; [|done].
    intros code [= <-]. split; [lia|done].
  - destruct (Nat.leb_spec n (String.length filled)).
    { apply wp_ret. intros code [= <-]. split; [lia|done]. }
    wp_step. apply wp_intro. intros [buf|e] b1 _; [|by wp_steps].
    apply IH; [by apply otp_fill_le|]. by apply otp_fill_spec.
Qed.

(** A generated code has the requested length and consists of digits. *)
Theorem GenerateOTPCode_shape fuel n b code b' :
  GenerateOTPCode fuel n b = (Some (Ok code), b') ->
  String.length code = n /\ string_forall is_digit code = true.
Proof.
  intros Hrun. by eapply (wp_run _ _ _ _ _ (otp_loop_shape fuel n "" b (Nat.le_0_l _) eq_refl) Hrun).
Qed.

(** A random source of which every buffer has at least one acceptable byte. *)
Definition productive (n : nat) : Prop :=
  forall g buf, (rand_read (n + 10) g).1 = Ok buf -> 0 < accepted buf.

Lemma otp_loop_ends n fuel filled b :
  productive n -> String.length filled <= n -> string_forall is_digit filled = true ->
  n <= String.length filled + fuel ->
  is_Some (otp_loop fuel n filled b).1 /\
  forall k, otp_loop (fuel + k) n filled b = otp_loop fuel n filled b.
Proof.
  intros Hp. revert filled b. induction fuel as [|fuel IH]; intros filled b Hle Hd Hn.
  - assert (n <=? String.length filled = true)%nat as Hfull by (apply Nat.leb_le; lia).
    split; [|intros [|k]]; simpl; rewrite Hfull; eauto.
  - simpl. destruct (Nat.leb_spec n (String.length filled)); [by split; eauto|].
    unfold try_catch, bind, rand_Read, zoom. simpl.
    destruct (rand_read (n + 10) (b_rng b)) as [[buf|e] g] eqn:Er; [|by split; eauto].
    assert (0 < accepted buf) as Ha by (apply (Hp (b_rng b)); by rewrite Er).
    destruct (otp_fill_spec n filled buf Hle Hd) as [Hd' Hlen].
    apply IH; [by apply otp_fill_le|done|]. lia.
Qed.

(** C32. The generator ends: when every buffer has an acceptable byte, as many rounds
    as digits are enough, and more rounds change nothing. *)
Theorem GenerateOTPCode_terminates n fuel b :
  productive n -> n <= fuel ->
  is_Some (GenerateOTPCode fuel n b).1 /\
  GenerateOTPCode fuel n b = GenerateOTPCode n n b.
Proof.
  intros Hp Hle. unfold GenerateOTPCode.
  destruct (otp_loop_ends n n "" b Hp) as [Hs Hk]; [simpl; lia|done|simpl; lia|].
  replace fuel with (n + (fuel - n)) by lia. by rewrite Hk.
Qed.
End codes.

(** * base64url *)

Definition base64_value (a : ascii) : option N :=
  let n := code a in
  if ((65 <=? n) && (n <=? 90))%N then Some (n - 65)%N
  else if ((97 <=? n) && (n <=? 122))%N then Some (n - 97 + 26)%N
  else if ((48 <=? n) && (n <=? 57))%N then Some (n - 48 + 52)%N
  else if (n =? 45)%N then Some 62%N
  else if (n =? 95)%N then Some 63%N else None.

(** A decoder, written from RFC 4648: four characters give three bytes. *)
Fixpoint base64_decode (s : string) : option (list N) :=
  match s with
  | "" => Some []
  | String a (String b "") =>
      x ← base64_value a; y ← base64_value b; Some [(x * 4 + y / 16)%N]
  | String a (String b (String c "")) =>
      x ← base64_value a; y ← base64_value b; z ← base64_value c;
      Some [(x * 4 + y / 16)%N; (y mod 16 * 16 + z / 4)%N]
  | String a (String b (String c (String d s))) =>
      x ← base64_value a; y ← base64_value b; z ← base64_value c; w ← base64_value d;
      rest ← base64_decode s;
      Some ((x * 4 + y / 16)%N :: (y mod 16 * 16 + z / 4)%N :: (z mod 4 * 64 + w)%N :: rest)
  | _ => None
  end.

Definition sextets : list N := map N.of_nat (seq 0 64).

Lemma base64_value_char n : (n < 64)%N -> base64_value (base64_char n) = Some n.
Proof.
  intros Hn. assert (Forall (fun n => base64_value (base64_char n) = Some n) sextets) as Hall.
  { apply Forall_forall. intros x Hx. revert x Hx. apply Forall_forall.
    unfold sextets. simpl. repeat (constructor; [vm_compute; reflexivity|]). constructor. }
  rewrite Forall_forall in Hall. apply Hall. unfold sextets. apply list_elem_of_fmap.
  exists (N.to_nat n). rewrite N2Nat.id. split; [done|]. apply elem_of_seq. lia.
Qed.

Lemma base64_split (a d : N) : (d <> 0)%N -> (a = a / d * d + a mod d)%N.
Proof. intros Hd. rewrite N.mul_comm. by apply N.div_mod. Qed.

Lemma base64_join (q r d : N) :
  (r < d)%N -> ((q * d + r) / d = q)%N /\ ((q * d + r) mod d = r)%N.
Proof.
  intros Hr. split.
  - by rewrite N.div_add_l, N.div_small, N.add_0_r by lia.
  - by rewrite N.add_comm, N.Div0.mod_add, N.mod_small by lia.
Qed.

(** One group of three bytes, four sextets and back. *)
Lemma sextets_of_bytes a b c :
  (a < 256)%N -> (b < 256)%N -> (c < 256)%N ->
  let x := (a / 4)%N in let y := (a mod 4 * 16 + b / 16)%N in
  let z := (b mod 16 * 4 + c / 64)%N in let w := (c mod 64)%N in
  ((x < 64)%N /\ (y < 64)%N /\ (z < 64)%N /\ (w < 64)%N) /\
  (x * 4 + y / 16)%N = a /\ (y mod 16 * 16 + z / 4)%N = b /\ (z mod 4 * 64 + w)%N = c.
Proof.
  intros Ha Hb Hc. cbv zeta.
  pose proof (N.mod_lt a 4 ltac:(lia)). pose proof (N.mod_lt b 16 ltac:(lia)).
  pose proof (N.mod_lt c 64 ltac:(lia)).
  assert (a / 4 < 64)%N by (apply N.Div0.div_lt_upper_bound; lia).
  assert (b / 16 < 16)%N by (apply N.Div0.div_lt_upper_bound; lia).
  assert (c / 64 < 4)%N by (apply N.Div0.div_lt_upper_bound; lia).
  destruct (base64_join (a mod 4) (b / 16) 16) as [-> ->]; [done|].
  destruct (base64_join (b mod 16) (c / 64) 4) as [-> ->]; [done|].
  split; [split_and!; lia|]. split_and!; symmetry; by apply base64_split.
Qed.

Lemma sextet_zero_last a : (a < 256)%N ->
  (a / 4 < 64)%N /\ (a mod 4 * 16 < 64)%N /\ (a / 4 * 4 + a mod 4 * 16 / 16)%N = a.
Proof.
  intros Ha. destruct (sextets_of_bytes a 0 0 Ha ltac:(lia) ltac:(lia)) as ((? & ? & _) & Hx & _).
  change (0 / 16)%N with 0%N in *. by rewrite N.add_0_r in *.
Qed.

Lemma sextet_zero_last2 a b : (a < 256)%N -> (b < 256)%N ->
  (a / 4 < 64)%N /\ (a mod 4 * 16 + b / 16 < 64)%N /\ (b mod 16 * 4 < 64)%N /\
  (a / 4 * 4 + (a mod 4 * 16 + b / 16) / 16)%N = a /\
  ((a mod 4 * 16 + b / 16) mod 16 * 16 + b mod 16 * 4 / 4)%N = b.
Proof.
  intros Ha Hb. destruct (sextets_of_bytes a b 0 Ha Hb ltac:(lia)) as ((? & ? & ? & _) & ? & ? & _).
  change (0 / 64)%N with 0%N in *. by rewrite N.add_0_r in *.
Qed.

Lemma base64_decode_encode n bs :
  length bs <= n -> Forall (fun b => (b < 256)%N) bs ->
  base64_decode (base64_raw_url bs) = Some bs.
Proof.
  revert bs. induction n as [|n IH]; intros bs Hlen Hbs;
    [by destruct bs; [|simpl in Hlen; lia]|].
  destruct bs as [|a [|b [|c bs]]]; [done| | |]; decompose_Forall_hyps.
  - destruct (sextet_zero_last a) as (? & ? & Ha); [done|].
    cbn [base64_raw_url base64_decode]. rewrite !base64_value_char by done. cbn.
    by rewrite Ha.
  - destruct (sextet_zero_last2 a b) as (? & ? & ? & Ha & Hb); [done..|].
    cbn [base64_raw_url base64_decode]. rewrite !base64_value_char by done.
    cbn -[N.mul N.add N.div N.modulo]. by rewrite Ha, Hb.
  - destruct (sextets_of_bytes a b c) as ((? & ? & ? & ?) & Ha & Hb & Hc); [done..|].
    cbn [base64_raw_url]. cbn [base64_decode]. rewrite !base64_value_char by done.
    rewrite IH; [|simpl in Hlen; lia|done].
    cbn -[N.mul N.add N.div N.modulo]. by rewrite Ha, Hb, Hc.
Qed.

Lemma base64_length n bs :
  length bs <= n -> String.length (base64_raw_url bs) = ((4 * length bs + 2) / 3)%nat.
Proof.
  revert bs. induction n as [|n IH]; intros bs Hlen;
    [by destruct bs; [|simpl in Hlen; lia]|].
  destruct bs as [|a [|b [|c bs]]]; [done..|]. cbn [base64_raw_url String.length].
  rewrite IH by (simpl in Hlen; lia).
  change (length (a :: b :: c :: bs)) with (3 + length bs).
  replace (4 * (3 + length bs) + 2) with (4 * 3 + (4 * length bs + 2)) by lia.
  by rewrite (Nat.div_add_l 4 3).
Qed.

(** A reset token is 43 characters of the URL alphabet and stands for exactly the
    32 bytes the random source gave. *)
Theorem generateResetToken_spec `{PlatformLaws} b tok b' :
  generateResetToken b = (Ok tok, b') ->
  String.length tok = 43 /\
  exists buf, (rand_read resetTokenBytes (b_rng b)).1 = Ok buf /\
    length buf = resetTokenBytes /\ base64_decode tok = Some buf.
Proof.
  unfold generateResetToken, try_catch, bind, rand_Read, zoom. simpl.
  pose proof (@rand_read_law _ pl_rng resetTokenBytes (b_rng b)) as [_ Hlaw].
  destruct (rand_read resetTokenBytes (b_rng b)) as [[buf|e] g] eqn:Er; [|done].
  intros [= <- _]. destruct (Hlaw buf eq_refl) as [Hlen Hbs]. split.
  - by rewrite (base64_length (length buf)), Hlen.
  - exists buf. split_and!; [done..|]. by apply (base64_decode_encode (length buf)).
Qed.
