(* ===== verification/RepositoryProps.v ===== *)
(** Properties of the PostgreSQL adapter beyond the interface's laws: the text of
    the listing statement, what a listing returns, deletion, and the result sets
    left open. *)

From Stdlib Require Import Ascii String ZArith Sorted.
From stdpp Require Import base gmap strings list pretty.
From S2P Require Import Prelude GoStrings AppError Records Services World Repository.

Open Scope string_scope.

(** * The listing statement against a reference renderer *)

(** A condition as SQL text, with the next placeholder number and the argument it
    takes. *)
Definition pred_sql (idx : Z) (p : sql_pred) : string * list Z :=
  match p with
  | PNotDeleted => ("deleted_at IS NULL", [])
  | PRoleEq role => ("role_id = $" +:+ Itoa idx, [role])
  | PActive => ("active = true", [])
  | PIdEq _ => ("id = $" +:+ Itoa idx, [])
  | PEmailEq _ => ("email = $" +:+ Itoa idx, [])
  end.

Fixpoint preds_sql (idx : Z) (ps : list sql_pred) : list string * list Z :=
  match ps with
  | [] => ([], [])
  | p :: ps =>
      let '(text, args) := pred_sql idx p in
      let '(texts, argss) := preds_sql (idx + Z.of_nat (length args)) ps in
      (text :: texts, args ++ argss)%list
  end.

(** The whole statement for a list of conditions; placeholders are numbered in the
    order of the arguments. *)
Definition select_sql (ps : list sql_pred) (limit offset : Z) : string * list Z :=
  let '(texts, args) := preds_sql 1 ps in
  let next := (1 + Z.of_nat (length args))%Z in
  ("SELECT * FROM users"
   +:+ (match texts with [] => "" | _ => " WHERE " +:+ String.concat " AND " texts end)
   +:+ " ORDER BY created_at DESC LIMIT $" +:+ Itoa next +:+ " OFFSET $" +:+ Itoa (next + 1),
   (args ++ [limit; offset])%list).

(** C33. The statement List builds step by step is the text of its conditions, for
    every filter: placeholders and arguments stay aligned, and no filter value is
    in the text. *)
Theorem list_query_renders f offset limit :
  Postgres.list_query f offset limit = select_sql (Postgres.list_preds f) limit offset.
Proof.
  destruct f as [role act del].
  unfold Postgres.list_query, Postgres.list_where, Postgres.list_preds, select_sql. simpl.
  destruct del, (role =? 0)%Z, act; cbn [negb app preds_sql pred_sql length];
    rewrite ?app_nil_r; try reflexivity; by rewrite ?app_assoc_string.
Qed.

Section repository_props.
Context `{Platform} `{!SqlLaws}.

(** * Listing *)

(** What a filter asks of a user. *)
Definition passes (f : UserListFilter) (u : User.t) : Prop :=
  (filter_IncludeDeleted f = false -> User.DeletedAt u = None) /\
  (filter_RoleID f <> 0%Z -> User.RoleID u = filter_RoleID f) /\
  (filter_ActiveOnly f = true -> User.Active u = true).

Lemma passes_where f r :
  eval_where (Postgres.list_preds f) r = true <-> passes f (ToV1Domain r).
Proof.
  destruct f as [role act del]. unfold eval_where, Postgres.list_preds, passes. simpl.
  destruct del, (Z.eqb_spec role 0) as [->|], act; simpl; rewrite ?andb_true_r, ?andb_true_iff,
    ?Z.eqb_eq; destruct (Users.DeletedAt r); naive_solver.
Qed.

Definition newest_first (u1 u2 : User.t) : Prop := (User.CreatedAt u2 <= User.CreatedAt u1)%Z.

Lemma StronglySorted_take {A} (R : A -> A -> Prop) n l :
  StronglySorted R l -> StronglySorted R (take n l).
Proof.
  intros Hs. revert n. induction Hs as [|x l Hs IH Hall]; intros [|n]; simpl; constructor; auto.
  by apply Forall_take.
Qed.

Lemma StronglySorted_drop {A} (R : A -> A -> Prop) n l :
  StronglySorted R l -> StronglySorted R (drop n l).
Proof. intros Hs. revert n. by induction Hs; intros [|n]; simpl; try constructor. Qed.

Lemma StronglySorted_map {A B} (R : A -> A -> Prop) (S : B -> B -> Prop) (f : A -> B) l :
  (forall x y, R x y -> S (f x) (f y)) -> StronglySorted R l -> StronglySorted S (map f l).
Proof.
  intros Hf. induction 1 as [|x l Hs IH Hall]; simpl; constructor; [done|].
  apply Forall_fmap. eapply Forall_impl; [exact Hall|]. auto.
Qed.

Lemma clamp_limit_range limit : (0 < Postgres.clamp_limit limit <= 200)%Z.
Proof.
  unfold Postgres.clamp_limit, Postgres.hardLimit.
  destruct (Z.leb_spec limit 0), (Z.ltb_spec 200 limit); simpl; lia.
Qed.

(** A listing returns at most 200 users (at most [limit] when that is sensible),
    newest first, all of which are rows that pass the filter; when everything
    that passes fits on the first page, all of it is there. *)
Theorem List_sound f offset limit d us d' :
  Postgres.List f offset limit d = (Ok us, d') ->
  dtable d' = dtable d /\ length us <= 200 /\
  ((0 < limit)%Z -> length us <= Z.to_nat limit) /\
  StronglySorted newest_first us /\
  (forall u, u ∈ us -> exists id r, dtable d !! id = Some r /\ u = ToV1Domain r /\ passes f u) /\
  ((offset <= 0)%Z -> length us < Z.to_nat (Postgres.clamp_limit limit) ->
   forall id r, dtable d !! id = Some r -> passes f (ToV1Domain r) -> ToV1Domain r ∈ us).
Proof.
  unfold Postgres.List, try_catch, bind, zoom. cbn [lget lset l_db].
  pose proof (sql_select_law (Postgres.list_preds f) (Postgres.clamp_limit limit)
    (Postgres.clamp_offset offset) (d_db d)) as [Ht Hr].
  destruct (sql_select _ _ _ (d_db d)) as [[rs|e] d1]; [|done]. simpl in *.
  intros [= <- <-]. destruct Hr as (all & -> & Hsort & Hperm).
  pose proof (clamp_limit_range limit) as Hlim. split_and!.
  - exact Ht.
  - rewrite length_map, length_take. lia.
  - rewrite length_map, length_take. unfold Postgres.clamp_limit, Postgres.hardLimit.
    destruct (Z.leb_spec limit 0), (Z.ltb_spec 200 limit); cbn [orb]; lia.
  - apply (StronglySorted_map created_desc); [by intros|].
    by apply StronglySorted_take, StronglySorted_drop.
  - intros u (r & -> & Hin)%list_elem_of_fmap. apply elem_of_take in Hin as (i & Hi & _).
    rewrite lookup_drop in Hi. apply list_elem_of_lookup_2 in Hi. rewrite Hperm in Hi.
    apply list_elem_of_filter in Hi as [Hw Hi].
    apply list_elem_of_fmap in Hi as ([id r'] & -> & Hi%elem_of_map_to_list).
    exists id, r'. split_and!; [done|done|by apply passes_where].
  - intros Hoff Hlen id r Hr Hp. apply list_elem_of_fmap. exists r. split; [done|].
    assert (Postgres.clamp_offset offset = 0%Z) as Hz.
    { unfold Postgres.clamp_offset. destruct (Z.ltb_spec offset 0); lia. }
    rewrite Hz in *. change (drop (Z.to_nat 0) all) with all in *.
    rewrite length_map, length_take in Hlen. rewrite take_ge by lia. rewrite Hperm.
    apply list_elem_of_filter. split; [by apply passes_where|].
    apply list_elem_of_fmap. exists (id, r). split; [done|]. by apply elem_of_map_to_list.
Qed.

(** * Deletion *)

(** A successful SoftDelete hides exactly the live row of that id: it gets its
    deletion stamp and no lookup by id sees it any more; every other row, and
    every column but the two stamps, is as before. *)
Theorem SoftDelete_spec id d d' :
  table_ok (dtable d) -> Postgres.SoftDelete id d = (Ok tt, d') ->
  exists uid r now, sql_uuid id = Some uid /\ dtable d !! uid = Some r /\ live r = true /\
    dtable d' = <[uid := soft_deleted now r]> (dtable d) /\
    no_live_id (dtable d') id /\ no_live_email (dtable d') (Users.Email r).
Proof.
  intros Hok Hrun. refine (wp_run _ (fun res d' => res = Ok tt -> exists uid r now,
    sql_uuid id = Some uid /\ dtable d !! uid = Some r /\ live r = true /\
    dtable d' = <[uid := soft_deleted now r]> (dtable d) /\
    no_live_id (dtable d') id /\ no_live_email (dtable d') (Users.Email r)) _ _ _ _ Hrun eq_refl).
  unfold Postgres.SoftDelete. wp_step. apply wp_sql_update. intros res d1 _ Hres.
  destruct res as [r0|e]; [|by wp_steps]. destruct Hres as (now & Ht & ->).
  rewrite (apply_update_update_live _ _ (soft_deleted now)) in Ht by by intros [].
  destruct (size _) as [|n] eqn:Hn; wp_step; try lia; wp_steps; try done.
  intros _. destruct (map_choose (filter (fun kr => eval_where [PIdEq id; PNotDeleted] kr.2 = true)
    (dtable d))) as (uid & r & [Hr Hw]%map_lookup_filter_Some).
  { intros He. by rewrite He, map_size_empty in Hn. }
  simpl in Hw. apply eval_live_id in Hw as [Hid Hl].
  rewrite (proj1 (tbl_key _ Hok _ _ Hr)) in Hid. exists uid, r, now.
  assert (dtable d1 = <[uid := soft_deleted now r]> (dtable d)) as Hd1.
  { rewrite Ht. apply map_eq. intros i. destruct (decide (i = uid)) as [->|Hne].
    - rewrite lookup_insert_eq, (update_live_lookup _ _ _ _ _ Hr).
      rewrite (proj2 (eval_live_id id r)); [done|].
      split; [by rewrite (proj1 (tbl_key _ Hok _ _ Hr))|done].
    - rewrite lookup_insert_ne by done. destruct (dtable d !! i) as [s|] eqn:Hs.
      + rewrite (update_live_lookup _ _ _ _ _ Hs). destruct (eval_where _ s) eqn:E; [|done].
        apply eval_live_id in E as [E _]. rewrite (proj1 (tbl_key _ Hok _ _ Hs)) in E.
        congruence.
      + unfold update_live. by rewrite lookup_fmap, Hs. }
  assert (live (soft_deleted now r) = false) as Hdead by by destruct r.
  split_and!; try done; rewrite Hd1; intros i s [[<- <-]|[Hne Hs]]%lookup_insert_Some Hls.
  - congruence.
  - congruence.
  - congruence.
  - intros He. apply Hne. by eapply (tbl_email _ Hok).
Qed.

(** * Result sets *)

(** Of the repository's methods ChangeActiveUser alone leaves a result set open:
    one for every call that succeeds. *)
Theorem rows_left_open u id f offset limit d :
  d_open (Postgres.ChangeActiveUser u d).2
    = (d_open d + if is_Ok (Postgres.ChangeActiveUser u d).1 then 1 else 0)%Z /\
  Forall (fun d' => d_open d' = d_open d)
    [(Postgres.Store u d).2; (Postgres.GetByEmail u d).2; (Postgres.GetByID id d).2;
     (Postgres.List f offset limit d).2; (Postgres.UpdatePassword u d).2;
     (Postgres.SoftDelete id d).2].
Proof.
  split.
  - unfold Postgres.ChangeActiveUser, try_catch, bind, zoom, open_rows, modify. cbn [lget lset l_db].
    destruct (sql_update _ _ (d_db d)) as [[r|e] d1]; simpl; lia.
  - repeat constructor; unfold Postgres.Store, Postgres.GetByEmail, Postgres.GetByID, Postgres.List,
      Postgres.UpdatePassword, Postgres.SoftDelete, try_catch, bind, zoom, open_rows, modify;
      cbn [lget lset l_db].
    + destruct (sql_insert _ (d_db d)) as [[[[s|e]|]|e] d1]; simpl; [lia..|]. by case_bool_decide.
    + destruct (sql_get _ (d_db d)) as [[r|e] d1]; simpl; [done|]. by destruct (errors_Is _ _).
    + destruct (sql_get _ (d_db d)) as [[r|e] d1]; simpl; [done|]. by destruct (errors_Is _ _).
    + by destruct (sql_select _ _ _ (d_db d)) as [[r|e] d1].
    + destruct (sql_update _ _ (d_db d)) as [[[n|e]|e] d1]; simpl; [|done..].
      by destruct (n =? 0)%Z.
    + destruct (sql_update _ _ (d_db d)) as [[[n|e]|e] d1]; simpl; [|done..].
      by destruct (n =? 0)%Z.
Qed.
End repository_props.
