(* ===== verification/RedisTypes.v ===== *)
(** The types of what the auth use case keeps in Redis: every key belongs to one of the
    eight families of auth.redis_keys.go, and the text under it has the form its family
    is read with. *)

From Stdlib Require Import Ascii String ZArith.
From stdpp Require Import base gmap strings list pretty relations.
From S2P Require Import Prelude GoStrings AppError Records Services World Domain Repository Caches.
From S2P Require Import UsersUsecase Jwt OtpCode AuthUsecase AuthLemmas AuthEffects AuthSystem CodeProps.

Open Scope string_scope.

(** The families that hold counters, and the text of the others. *)
Definition is_counter (k : key) : bool :=
  match k with KOTPAttempts _ | KLoginAttempts _ | KForgotAttempts _ => true | _ => false end.

Definition has_type (k : key) (v : string) : Prop :=
  match k with
  | KOTPAttempts _ | KLoginAttempts _ | KForgotAttempts _ =>
      exists n, v = Itoa n /\ (1 <= n <= int64_max)%Z
  | KRefresh jti => v = json_Marshal jti
  | KUserOTP _ => exists code, v = json_Marshal code /\
      String.length code = 6 /\ string_forall is_digit code = true
  | KPasswordCutoff _ => exists t, v = json_Marshal (Itoa t)
  | KPasswordReset _ | KUserResetIndex _ => exists s, v = json_Marshal s
  end.

(** Every key belongs to a family and holds a text that [ty] allows there. *)
Definition all_typed (ty : key -> string -> Prop) (m : gmap string rentry) : Prop :=
  forall k e, m !! k = Some e -> exists K, k = key_text K /\ ty K (re_val e).

Definition well_typed : gmap string rentry -> Prop := all_typed has_type.

(** ** Programs keep a typing that allows what they write *)
Section typing.
Context `{PlatformLaws} `{!OTPMailer} `{!UsersUsecase} `{!JWTService}.
#[local] Existing Instances pl_text pl_redis pl_sql pl_rist pl_rng.
Variable uc : Auth.usecase.

Section maps.
Variable ty : key -> string -> Prop.

Lemma typed_subset m m' : m' ⊆ m -> all_typed ty m -> all_typed ty m'.
Proof. intros Hs Ht k e He. apply Ht. by eapply lookup_weaken. Qed.

Lemma typed_insert m K e : ty K (re_val e) -> all_typed ty m -> all_typed ty (<[key_text K := e]> m).
Proof.
  intros He Ht k e' Hk. apply lookup_insert_Some in Hk as [[<- <-]|[_ Hk]]; [by exists K|by apply Ht].
Qed.

Lemma typed_alter m K d : all_typed ty m -> all_typed ty (alter (entry_expire d) (key_text K) m).
Proof.
  intros Ht k e Hk. apply lookup_alter_Some in Hk as [(<- & e0 & He0 & ->)|[_ Hk]]; [|by apply Ht].
  by destruct (Ht _ _ He0) as (K' & ? & ?); exists K'.
Qed.

Definition P (w : World) : Prop := all_typed ty (keys w).

Lemma pres_base {A} (m : io Base A) : preserves P (zoom l_wbase m).
Proof. by apply preserves_zoom. Qed.
Lemma pres_users {A} (m : io UState A) : preserves P (zoom l_u m).
Proof. by apply preserves_zoom. Qed.
Lemma pres_mail {A} (m : io mail A) : preserves P (zoom l_mail m).
Proof. by apply preserves_zoom. Qed.

(** A Redis command from its effect on the view. *)
Lemma pres_redis {A} (m : io redis A) :
  (forall r, all_typed ty (redis_view r) -> all_typed ty (redis_view (m r).2)) ->
  preserves P (zoom l_redis m).
Proof.
  intros Hm w Hw. unfold zoom. specialize (Hm (w_redis w) Hw). unfold P, keys in *. cbn in *.
  by destruct (m (w_redis w)).
Qed.

Lemma pres_Set K v : ty K (json_Marshal v) -> preserves P (Auth.cache_Set uc (key_text K) v).
Proof.
  intros Hv. apply pres_redis. intros r Ht. unfold Redis.Set_.
  destruct (redis_set_law (key_text K) (json_Marshal v) (mul64 (Redis.expires (Auth.redisCache uc)) Minute) r)
    as (v0 & Hs & Hr).
  pose proof (typed_subset _ _ Hs Ht) as Ht0.
  assert (forall e, re_val e = json_Marshal v -> all_typed ty (<[key_text K := e]> v0)) as Hins.
  { intros e He. apply typed_insert; [by rewrite He|done]. }
  destruct (redis_set _ _ _ r) as [[[]|e] r']; cbn in *; [|destruct Hr as [Hr|Hr]]; rewrite Hr; [|done|];
    by apply Hins.
Qed.

Lemma pres_Get k : preserves P (Auth.cache_Get k).
Proof.
  apply pres_redis. intros r Ht. destruct (redis_get_law k r) as (v0 & Hs & Hv & _).
  assert (redis_view (Redis.Get k r).2 = redis_view (redis_get k r).2) as ->.
  { unfold Redis.Get, try_catch, bind, ret. destruct (redis_get k r) as [[s|e] r']; [|done].
    by destruct (json_Unmarshal s). }
  rewrite Hv. by eapply typed_subset.
Qed.

Lemma pres_Del k : preserves P (Auth.cache_Del k).
Proof.
  apply pres_redis. intros r Ht. unfold Redis.Del. destruct (redis_del_law k r) as (v0 & Hs & Hr).
  pose proof (typed_subset _ _ Hs Ht) as Ht0. pose proof (typed_subset _ _ (delete_subseteq v0 k) Ht0) as Ht1.
  destruct (redis_del k r) as [[[]|e] r']; cbn in *; [|destruct Hr as [Hr|Hr]]; by rewrite Hr.
Qed.

(** INCR needs the typing to allow counting on. *)
Lemma pres_Incr K :
  (forall m n, all_typed ty m -> incremented (m !! key_text K) n -> ty K (Itoa n)) ->
  preserves P (Auth.cache_Incr (key_text K)).
Proof.
  intros HK. assert (forall m n, all_typed ty m -> incremented (m !! key_text K) n ->
    all_typed ty (<[key_text K := entry_incr (m !! key_text K) n]> m)) as Hincr.
  { intros m n Hm Hn. by apply typed_insert; [eapply HK|]. }
  apply pres_redis. intros r Ht. unfold Redis.Incr.
  destruct (redis_incr_law (key_text K) r) as (v0 & Hs & Hr). pose proof (typed_subset _ _ Hs Ht) as Ht0.
  destruct (redis_incr _ r) as [[n|e] r']; cbn in *.
  - destruct Hr as [Hi ->]. by apply Hincr.
  - destruct Hr as [->|(n & Hi & ->)]; [done|by apply Hincr].
Qed.

Lemma pres_Expire K d : preserves P (Auth.cache_Expire (key_text K) d).
Proof.
  apply pres_redis. intros r Ht. unfold Redis.Expire.
  destruct (redis_expire_law (key_text K) d r) as (v0 & Hs & Hr). pose proof (typed_subset _ _ Hs Ht) as Ht0.
  pose proof (typed_subset _ _ (delete_subseteq v0 (key_text K)) Ht0) as Ht1.
  pose proof (typed_alter v0 K d Ht0) as Ht2.
  destruct (redis_expire _ d r) as [[[]|e] r']; cbn in *;
    [destruct Hr as [Hr|[_ Hr]]|destruct Hr as [Hr|[Hr|[_ Hr]]]]; by rewrite Hr.
Qed.

End maps.
End typing.

(** Takes a program apart; the commands that need a type are left. *)
Ltac pres :=
  cbv beta zeta;
  lazymatch goal with
  | |- forall _, _ => intros ?; pres
  | |- preserves (P _) (bind _ _) => apply preserves_bind; pres
  | |- preserves (P _) (try_catch _ _ _) => apply preserves_try; pres
  | |- preserves (P _) (ret _) => apply preserves_ret
  | |- preserves (P _) (zoom l_wbase _) => apply pres_base
  | |- preserves (P _) (zoom l_u _) => apply pres_users
  | |- preserves (P _) (zoom l_mail _) => apply pres_mail
  | |- preserves (P _) (Auth.cache_Get _) => apply pres_Get
  | |- preserves (P _) (Auth.cache_Del _) => apply pres_Del
  | |- preserves (P _) (if ?b then _ else _) => destruct b; pres
  | |- preserves (P _) (match ?x with _ => _ end) => destruct x; pres
  | |- _ => idtac
  end.

(** ** The types of the service *)
Section typed.
Context `{PlatformLaws} `{!OTPMailer} `{!UsersUsecase} `{!JWTService}.
#[local] Existing Instances pl_text pl_redis pl_sql pl_rist pl_rng.
Variable uc : Auth.usecase.
Notation P := (P has_type).

(** INCR on a counter counts on. *)
Lemma typed_incr m K n : is_counter K = true -> well_typed m -> incremented (m !! key_text K) n ->
  has_type K (Itoa n).
Proof.
  intros HK Ht [Hn Hi].
  assert (1 <= n <= int64_max)%Z as Hr.
  { apply andb_true_iff in Hn as [_ Hn%Z.leb_le]. split; [|done].
    destruct (m !! key_text K) as [e|] eqn:He; [|lia]. destruct Hi as (k & Hk & ->).
    destruct (Ht _ _ He) as (K' & Heq%key_text_injective & Hty). subst K'.
    assert (exists j, re_val e = Itoa j /\ (1 <= j <= int64_max)%Z) as (j & Hj & Hb) by by destruct K.
    rewrite Hj, ParseInt_Itoa in Hk; [injection Hk as <-; lia|].
    unfold in_int64, int64_min, int64_max in *. apply andb_true_iff; split; apply Z.leb_le; lia. }
  destruct K; try done; by exists n.
Qed.

Lemma pres_count K ttl : is_counter K = true -> preserves P (Auth.count_attempt (key_text K) ttl).
Proof. intros HK. unfold Auth.count_attempt. pres; [apply pres_Incr; intros m n; by apply typed_incr|apply pres_Expire]. Qed.

Lemma pres_cutoff id t : preserves P (Auth.recordTokenCutoff uc id t).
Proof.
  unfold Auth.recordTokenCutoff. pres; [apply (pres_Set _ _ (KPasswordCutoff id)); by eexists|].
  apply (pres_Expire _ (KPasswordCutoff id)).
Qed.

Lemma pres_remember p : preserves P (Auth.rememberRefresh uc p).
Proof.
  unfold Auth.rememberRefresh. pres; [by apply (pres_Set _ _ (KRefresh (RefreshJTI p)))|].
  apply (pres_Expire _ (KRefresh (RefreshJTI p))).
Qed.

Lemma pres_forget {A} (m : io World (result error A)) : preserves P m -> preserves P (forget m).
Proof. intros Hm. unfold forget. by apply preserves_bind; [|pres]. Qed.

Lemma pres_Login email pw : preserves P (Auth.Login uc email pw).
Proof.
  unfold Auth.Login, Auth.Login_checked.
  pres; first [by apply pres_remember | by apply (pres_count (KLoginAttempts (NormalizeEmail email)))].
Qed.

Lemma pres_SendOTP fuel email : preserves P (Auth.SendOTP uc fuel email).
Proof.
  unfold Auth.SendOTP. apply preserves_try; [apply pres_users|pres|]. intros user.
  destruct (User.Active user); [pres|].
  assert (forall code, String.length code = 6 -> string_forall is_digit code = true ->
    preserves P (Auth.cache_Set uc (UserOTPKey (NormalizeEmail email)) code)) as Hset.
  { intros code Hl Hd. apply (pres_Set _ _ (KUserOTP (NormalizeEmail email))). by exists code. }
  intros w Hw. unfold bind at 1. pose proof (pres_base _ (GenerateOTPCode fuel 6) w Hw) as Hw1.
  destruct (zoom l_wbase (GenerateOTPCode fuel 6) w) as [[[code|e]|] w1] eqn:Hrun; [|done|done].
  assert (String.length code = 6 /\ string_forall is_digit code = true) as [Hl Hd].
  { revert Hrun. unfold zoom. destruct (GenerateOTPCode fuel 6 (lget l_wbase w)) as [o b] eqn:Hg.
    intros [= -> _]. by eapply (wp_run _ _ _ _ _ (otp_loop_shape fuel 6 "" _ (Nat.le_0_l _) eq_refl) Hg). }
  cbn beta iota. match goal with |- P (?m w1).2 => assert (preserves P m) as Hm end; [|exact (Hm w1 Hw1)].
  pres. by apply Hset.
Qed.

Lemma pres_VerifyOTP email code : preserves P (Auth.VerifyOTP uc email code).
Proof.
  unfold Auth.VerifyOTP. pres. by apply (pres_count (KOTPAttempts (NormalizeEmail email))).
Qed.

Lemma pres_Refresh tok : preserves P (Auth.Refresh uc tok).
Proof. unfold Auth.Refresh. pres. apply pres_remember. Qed.

Lemma pres_Logout tok : preserves P (Auth.Logout tok).
Proof. unfold Auth.Logout. pres. Qed.

Lemma pres_ChangePassword id cur new : preserves P (Auth.ChangePassword uc id cur new).
Proof. unfold Auth.ChangePassword. pres. apply pres_cutoff. Qed.

Lemma pres_ForgotPassword email : preserves P (Auth.ForgotPassword uc email).
Proof.
  unfold Auth.ForgotPassword, Auth.ForgotPassword_limited.
  pres; first
    [ by apply (pres_count (KForgotAttempts (NormalizeEmail email)))
    | match goal with
      | |- preserves P (Auth.cache_Set _ (PasswordResetKey ?t) _) =>
          apply (pres_Set _ _ (KPasswordReset t)); by eexists
      | |- preserves P (Auth.cache_Set _ (UserResetIndexKey ?t) _) =>
          apply (pres_Set _ _ (KUserResetIndex t)); by eexists
      | |- preserves P (Auth.cache_Expire (PasswordResetKey ?t) _) =>
          apply (pres_Expire _ (KPasswordReset t))
      | |- preserves P (Auth.cache_Expire (UserResetIndexKey ?t) _) =>
          apply (pres_Expire _ (KUserResetIndex t))
      end ].
Qed.

Lemma pres_ResetPassword token new : preserves P (Auth.ResetPassword uc token new).
Proof. unfold Auth.ResetPassword. pres; apply pres_cutoff. Qed.

Lemma pres_run c : preserves P (run uc c).
Proof.
  destruct c; cbn [run]; try apply pres_forget;
    auto using pres_Login, pres_SendOTP, pres_VerifyOTP, pres_Refresh, pres_Logout, pres_ChangePassword,
      pres_ForgotPassword, pres_ResetPassword.
  unfold Auth.Register. pres.
Qed.

(** C24. Redis is well typed in every state the service reaches from a well-typed one,
    for example an empty one: only keys of the eight families, counters at least one,
    six digits under an OTP key, under a refresh key its own identifier, and JSON
    strings elsewhere. *)
Theorem redis_well_typed w w' :
  well_typed (keys w) -> rtc (auth_step uc) w w' -> well_typed (keys w').
Proof.
  intros Ht Hs. induction Hs as [w|w1 w2 w3 H12 Hs IH]; [done|]. apply IH.
  destruct H12 as [c w|w b r m Hb Hsub]; [by apply (pres_run c w)|]. by eapply typed_subset.
Qed.
End typed.
