(* ===== verification/Sessions.v ===== *)
(** What the auth use case promises about accounts and sessions, as an abstract machine,
    and the proof that the service refines it.

    The machine knows neither Redis nor SQL nor tokens' texts: accounts, the identifiers
    of sessions that may still be exchanged, the codes and reset tokens that may still be
    used.  A step of it is one call with its answer.  It bounds the service from above:
    what has run out in Redis may still be listed, never the converse. *)

From Stdlib Require Import Ascii String ZArith.
From stdpp Require Import base gmap strings list pretty relations.
From S2P Require Import Prelude GoStrings AppError Records Services World Domain Repository Caches.
From S2P Require Import UsersUsecase Jwt OtpCode AuthUsecase AuthLemmas AuthEffects AuthSystem RedisTypes.

Open Scope string_scope.

(** * The machine *)
Record account := Account {
  ac_email : string; ac_password : string; ac_role : Z;
  ac_active : bool; ac_live : bool; ac_stamp : option Time }.

Record spec := Spec {
  accounts : gmap string account;
  opened : gmap string string;    (** every refresh identifier, and for which email *)
  alive : gset string;            (** those that may be exchanged *)
  codes : gmap string string;     (** the activation code of an email *)
  resets : gmap string string;    (** reset tokens and the account id they are for *)
}.

Definition set_accounts (T : gmap string account) (s : spec) : spec :=
  Spec T (opened s) (alive s) (codes s) (resets s).
Definition open_session (jti em : string) (s : spec) : spec :=
  Spec (accounts s) (<[jti := em]> (opened s)) ({[jti]} ∪ alive s) (codes s) (resets s).
Definition close_session (jti : string) (s : spec) : spec :=
  Spec (accounts s) (opened s) (alive s ∖ {[jti]}) (codes s) (resets s).
Definition set_code (em code : string) (s : spec) : spec :=
  Spec (accounts s) (opened s) (alive s) (<[em := code]> (codes s)) (resets s).
Definition set_reset (token id : string) (s : spec) : spec :=
  Spec (accounts s) (opened s) (alive s) (codes s) (<[token := id]> (resets s)).

Definition activate (a : account) : account :=
  Account (ac_email a) (ac_password a) (ac_role a) true (ac_live a) (ac_stamp a).
Definition set_password (hash : string) (t : Time) (a : account) : account :=
  Account (ac_email a) hash (ac_role a) (ac_active a) (ac_live a) (Some t).

(** The live account of an email. *)
Definition account_at (s : spec) (id em : string) (a : account) : Prop :=
  accounts s !! id = Some a /\ ac_live a = true /\ ac_email a = em.

(** What a call answers. *)
Inductive answer :=
| ASession (r : result error Auth.LoginResponse)
| APlain (r : option (result error unit)).

Inductive event :=
| Called (c : auth_call) (a : answer)
| Elapsed.                                   (** what others do between calls *)

Definition failed (a : answer) : bool :=
  match a with ASession (Err _) | APlain None | APlain (Some (Err _)) => true | _ => false end.

(** A value as it comes back from its JSON text; ASCII comes back unchanged. *)
Definition read_back (v u : string) : Prop := json_Unmarshal (json_Marshal v) = Some u.

Section machine.
Context `{PlatformLaws} `{!JWTService} `{!JWTContract}.
#[local] Existing Instances pl_text pl_redis pl_sql pl_rist pl_rng.

(** The answer to the caller for whom [jti] was minted: when it is a token pair, its
    refresh token is of that identifier and that account. *)
Definition grants (r : result error Auth.LoginResponse) (id em jti : string) : Prop :=
  match r with
  | Ok resp => User.ID (Auth.User resp) = id /\ User.Email (Auth.User resp) = em /\
      (jwt_portable id em -> exists c, token_claims (Auth.RefreshToken resp) = Some c /\
         Claims.ID c = jti /\ Claims.UserID c = id /\ Claims.Email c = em)
  | Err _ => True
  end.

(** A token from before the last password change is stale. *)
Definition not_stale (a : account) (c : Claims.t) : Prop :=
  forall t iat, ac_stamp a = Some t -> t <> zero_time -> Claims.IssuedAt c = Some iat -> (t <= iat)%Z.

Inductive spec_step (s : spec) : event -> spec -> Prop :=
| sp_elapsed : spec_step s Elapsed s
| sp_failed c a : failed a = true -> spec_step s (Called c a) s
| sp_register x r id a :
    accounts s !! id = None -> ac_active a = false -> ac_role a = User.RoleID x ->
    (forall e, r = Err e -> error_type e = Some ErrTypeInternal) ->
    (r = Ok tt -> ac_live a = true /\ ac_email a = NormalizeEmail (User.Email x) /\
       bcrypt_CompareHashAndPassword (ac_password a) (User.Password x) = None) ->
    spec_step s (Called (CRegister x) (APlain (Some r))) (set_accounts (<[id := a]> (accounts s)) s)
| sp_login email pw r id a jti :
    account_at s id (NormalizeEmail email) a -> ac_active a = true ->
    bcrypt_CompareHashAndPassword (ac_password a) pw = None ->
    opened s !! jti = None -> grants r id (ac_email a) jti ->
    spec_step s (Called (CLogin email pw) (ASession r)) (open_session jti (ac_email a) s)
| sp_refresh tok c r id a jti :
    token_claims tok = Some c -> Claims.Kind c = KindRefresh -> Claims.ID c ∈ alive s ->
    account_at s id (NormalizeEmail (Claims.Email c)) a -> ac_active a = true -> not_stale a c ->
    opened s !! jti = None -> grants r id (ac_email a) jti ->
    spec_step s (Called (CRefresh tok) (ASession r)) (open_session jti (ac_email a) s)
| sp_logout tok c :
    token_claims tok = Some c -> Claims.Kind c = KindRefresh ->
    spec_step s (Called (CLogout tok) (APlain (Some (Ok tt)))) (close_session (Claims.ID c) s)
| sp_send fuel email id a code :
    account_at s id (NormalizeEmail email) a ->
    String.length code = 6 -> string_forall is_digit code = true ->
    spec_step s (Called (CSendOTP fuel email) (APlain (Some (Ok tt)))) (set_code (NormalizeEmail email) code s)
| sp_send_lost fuel email id a :
    account_at s id (NormalizeEmail email) a ->
    spec_step s (Called (CSendOTP fuel email) (APlain (Some (Ok tt)))) s
| sp_verify email code id a :
    account_at s id (NormalizeEmail email) a -> codes s !! NormalizeEmail email = Some code ->
    spec_step s (Called (CVerifyOTP email code) (APlain (Some (Ok tt))))
      (set_accounts (<[id := activate a]> (accounts s)) s)
| sp_change userID cur new id a hash t :
    sql_uuid userID = Some id -> accounts s !! id = Some a -> ac_live a = true ->
    bcrypt_CompareHashAndPassword (ac_password a) cur = None ->
    bcrypt_CompareHashAndPassword hash new = None ->
    spec_step s (Called (CChangePassword userID cur new) (APlain (Some (Ok tt))))
      (set_accounts (<[id := set_password hash t a]> (accounts s)) s)
| sp_forgot email r token id a v :
    account_at s id (NormalizeEmail email) a -> read_back id v ->
    spec_step s (Called (CForgotPassword email) (APlain (Some r))) (set_reset token v s)
| sp_forgot_decoy email r token :
    (forall id a, ~ account_at s id (NormalizeEmail email) a) ->
    spec_step s (Called (CForgotPassword email) (APlain (Some r))) (set_reset token "decoy" s)
| sp_forgot_lost email :
    spec_step s (Called (CForgotPassword email) (APlain (Some (Ok tt)))) s
| sp_reset token new userID id a hash t :
    resets s !! token = Some userID -> sql_uuid userID = Some id ->
    accounts s !! id = Some a -> ac_live a = true ->
    bcrypt_CompareHashAndPassword hash new = None ->
    spec_step s (Called (CResetPassword token new) (APlain (Some (Ok tt))))
      (set_accounts (<[id := set_password hash t a]> (accounts s)) s).

Inductive spec_run (s0 : spec) : list event -> spec -> Prop :=
| sr_nil : spec_run s0 [] s0
| sr_snoc l s ev s' : spec_run s0 l s -> spec_step s ev s' -> spec_run s0 (l ++ [ev]) s'.

Definition empty_spec : spec := Spec ∅ ∅ ∅ ∅ ∅.
End machine.
