(* ===== verification/SessionsProps.v ===== *)
(** The auth service refines the machine of Sessions.v; what follows for where sessions
    come from. *)

From Stdlib Require Import Ascii String ZArith.
From stdpp Require Import base gmap strings list pretty relations.
From S2P Require Import Prelude GoStrings AppError Records Services World Domain Repository Caches.
From S2P Require Import UsersUsecase Jwt OtpCode AuthUsecase AuthLemmas AuthEffects AuthSystem AuthProps.
From S2P Require Import RedisTypes Sessions.

Open Scope string_scope.

(** * The abstraction *)
Definition account_of `{SqlSrv} (r : Users.t) : account :=
  Account (Users.Email r) (Users.Password r) (Users.RoleId r) (Users.Active r) (live r)
    (Users.PasswordChangedAt r).

Section refinement.
Context `{PlatformLaws} `{!OTPMailer} `{!UsersUsecase} `{!UsersContract}
  `{!JWTService} `{!JWTContract}.
#[local] Existing Instances pl_text pl_redis pl_sql pl_rist pl_rng.
Variable uc : Auth.usecase.

Record refines (w : World) (s : spec) : Prop := {
  rf_inv : users_inv (w_u w);
  rf_typed : well_typed (keys w);
  rf_accounts : accounts s = account_of <$> rows w;
  rf_opened : forall jti em, opened s !! jti = Some em -> jti ∈ issued w;
  rf_alive : forall jti, is_Some (keys w !! RefreshKey jti) -> jti ∈ alive s;
  rf_codes : forall em e code, keys w !! UserOTPKey em = Some e ->
    json_Unmarshal (re_val e) = Some code -> codes s !! em = Some code;
  rf_resets : forall t u, reset_stored w t u -> resets s !! t = Some u;
}.

(** The calls with the answers of Login and Refresh. *)
Definition answer_of (c : auth_call) : io World answer :=
  match c with
  | CLogin email password => r <- Auth.Login uc email password ;; ret (ASession r)
  | CRefresh tok => r <- Auth.Refresh uc tok ;; ret (ASession r)
  | c => r <- run uc c ;; ret (APlain r)
  end.

Lemma answer_of_state c w : (answer_of c w).2 = (run uc c w).2.
Proof.
  destruct c; cbn [answer_of run]; unfold forget, bind, ret;
    repeat match goal with |- context [match ?m with pair _ _ => _ end] => destruct m end; done.
Qed.

Inductive event_step : World -> event -> World -> Prop :=
| ev_call c w : event_step w (Called c (answer_of c w).1) (answer_of c w).2
| ev_env w b r m :
    used b = issued w -> redis_view r ⊆ keys w ->
    event_step w Elapsed (MkW (MkU b (u_d (w_u w)) (u_cache (w_u w))) r m).

Lemma event_auth_step w ev w' : event_step w ev w' -> auth_step uc w w'.
Proof. destruct 1 as [c w|w b r m Hb Hs]; [rewrite answer_of_state|]; by constructor. Qed.

Inductive events (w0 : World) : list event -> World -> Prop :=
| ev_nil : events w0 [] w0
| ev_snoc l w ev w' : events w0 l w -> event_step w ev w' -> events w0 (l ++ [ev]) w'.

(** ** Accounts *)
Lemma accounts_update id f T r :
  table_ok T -> T !! id = Some r -> live r = true ->
  account_of <$> update_live id f T = <[id := account_of (f r)]> (account_of <$> T).
Proof.
  intros Hok Hr Hl. apply map_eq. intros i. rewrite lookup_fmap.
  destruct (tbl_key _ Hok _ _ Hr) as [Hid Hu]. destruct (T !! i) as [s|] eqn:Hi.
  - rewrite (update_live_lookup _ _ _ _ _ Hi). destruct (decide (i = id)) as [->|Hne].
    + simplify_eq. rewrite (proj2 (eval_live_id (Users.Id r) r)); [|done].
      by rewrite lookup_insert_eq.
    + rewrite lookup_insert_ne, lookup_fmap, Hi by done.
      destruct (eval_where _ s) eqn:E; [|done]. apply eval_live_id in E as [E _].
      rewrite Hu in E. destruct (tbl_key _ Hok _ _ Hi). congruence.
  - unfold update_live. rewrite lookup_fmap, Hi. cbn. rewrite lookup_insert_ne; [by rewrite lookup_fmap, Hi|].
    intros ->. congruence.
Qed.

Lemma account_of_activated now r : account_of (activated now true r) = activate (account_of r).
Proof. by destruct r. Qed.

Lemma account_of_repassworded u h now r :
  account_of (repassworded (with_Password u h now) r) = set_password h (pg_time now) (account_of r).
Proof. by destruct r. Qed.

Lemma known_account w s c : refines w s -> known (rows w) c ->
  exists a, account_at s (User.ID c) (User.Email c) a /\ ac_password a = User.Password c /\
    (User.Active c = true -> ac_active a = true) /\ ac_stamp a = User.PasswordChangedAt c.
Proof.
  intros Hs (r & Hr & Hl & Ha). exists (account_of r). unfold account_at.
  rewrite (rf_accounts _ _ Hs), lookup_fmap, Hr. cbn.
  rewrite (ag_email _ _ Ha), (ag_password _ _ Ha), (ag_changed _ _ Ha).
  split_and!; try done. apply (ag_active _ _ Ha).
Qed.

Lemma account_row w s id em a : refines w s -> account_at s id em a ->
  exists r, rows w !! id = Some r /\ live r = true /\ a = account_of r /\ Users.Email r = em.
Proof.
  intros Hs (Ha & Hl & He). rewrite (rf_accounts _ _ Hs), lookup_fmap in Ha.
  destruct (rows w !! id) as [r|]; [|done]. injection Ha as <-. by exists r.
Qed.

Lemma VerifyPassword_compare c pw :
  VerifyPassword c pw = true -> bcrypt_CompareHashAndPassword (User.Password c) pw = None.
Proof. unfold VerifyPassword. by destruct (bcrypt_CompareHashAndPassword (User.Password c) pw). Qed.

(** ** From the frame of a call to the abstraction *)
Lemma refines_at K w s T' w' s' :
  refines w s -> at_ K w T' w' -> well_typed (keys w') ->
  accounts s' = account_of <$> T' ->
  (forall jti em, opened s' !! jti = Some em -> opened s !! jti = Some em \/ jti ∈ issued w') ->
  (forall j, ~ K (RefreshKey j) /\ (j ∈ alive s -> j ∈ alive s') \/ j ∈ alive s') ->
  (forall em, ~ K (UserOTPKey em) /\ codes s' !! em = codes s !! em \/
     forall e code, keys w' !! UserOTPKey em = Some e -> json_Unmarshal (re_val e) = Some code ->
       codes s' !! em = Some code) ->
  (forall t, ~ K (PasswordResetKey t) /\ resets s' !! t = resets s !! t \/
     forall u, reset_stored w' t u -> resets s' !! t = Some u) ->
  refines w' s'.
Proof.
  intros [Hi Ht Ha Ho Hl Hc Hr] [Hi' HT Hs Hk] Ht' Ha' Ho' Hl' Hc' Hr'.
  split; [done|done|by rewrite HT| | | |].
  - intros jti em Hj. destruct (Ho' _ _ Hj) as [Hj'|]; [|done]. by eapply Hs, Ho.
  - intros j [e He]. destruct (Hl' j) as [[Hn Hj]|]; [|done]. apply Hj, Hl.
    destruct (Hk _ Hn) as [Heq|Heq]; rewrite He in Heq; [by eexists|done].
  - intros em e code He Hcode. destruct (Hc' em) as [[Hn ->]|Hn]; [|by eapply Hn].
    eapply Hc; [|done]. destruct (Hk _ Hn) as [Heq|Heq]; rewrite He in Heq; done.
  - intros t u Hu. destruct (Hr' t) as [[Hn ->]|Hn]; [|by apply Hn]. apply Hr.
    destruct Hu as (e & He & Hj). exists e. split; [|done].
    destruct (Hk _ Hn) as [Heq|Heq]; rewrite He in Heq; done.
Qed.

(** A call that writes none of the three families. *)
Definition outside (K : string -> Prop) : Prop :=
  forall x, ~ K (RefreshKey x) /\ ~ K (UserOTPKey x) /\ ~ K (PasswordResetKey x).

Lemma refines_quiet K w s T' w' s' :
  refines w s -> at_ K w T' w' -> well_typed (keys w') -> outside K ->
  s' = set_accounts (account_of <$> T') s -> refines w' s'.
Proof.
  intros Hs Hat Ht HK ->.
  eapply refines_at; [done|done|done|done|by left| | |]; intros x; left; by destruct (HK x) as (? & ? & ?).
Qed.

Lemma set_accounts_same w s : refines w s -> s = set_accounts (account_of <$> rows w) s.
Proof. intros Hs. rewrite <- (rf_accounts _ _ Hs). by destruct s. Qed.

Lemma refines_close w s jti :
  refines w s -> keys w !! RefreshKey jti = None -> refines w (close_session jti s).
Proof.
  intros [Hi Ht Ha Ho Hl Hc Hr] Hn. split; try done. cbn. intros j Hj.
  apply elem_of_difference. split; [by apply Hl|]. rewrite elem_of_singleton. intros ->.
  rewrite Hn in Hj. by destruct Hj.
Qed.

(** ** Opening a session *)

(** Outside the attempt counter [k0] Redis only lost keys. *)
Definition only (k0 k : string) : Prop := k = k0.
Definition or_session (K : string -> Prop) (jti k : string) : Prop := K k \/ k = RefreshKey jti.

(** The end Login and Refresh have in common. *)
Definition hand_out (user : User.t) (used_up : string) : io World (result error Auth.LoginResponse) :=
  try pair <- zoom l_wbase (jwt_GenerateTokenPair (User.ID user) (IsAdmin user) (User.Email user))
  catch mintErr => ret (Err (InternalCause (EWrapped "generate token" mintErr))) ;;
  try _ok <- Auth.rememberRefresh uc pair
  catch persistErr => ret (Err (InternalCause (EWrapped "persist refresh" persistErr))) ;;
  Auth.cache_Del used_up ;;;
  ret (Ok (Auth.MkLogin user (Jwt.AccessToken pair) (Jwt.RefreshToken pair))).

(** A call that opened a session for [user], whose answer may yet be an error. *)
Record session_opened (K : string -> Prop) (w0 : World) (user : User.t) (jti : string)
    (res : result error Auth.LoginResponse) (w' : World) : Prop := {
  so_fresh : jti ∉ issued w0;
  so_issued : jti ∈ issued w';
  so_at : at_ (or_session K jti) w0 (rows w0) w';
  so_grants : grants res (User.ID user) (User.Email user) jti;
}.

Definition opened_or_failed (K : string -> Prop) (w0 : World) (entitled : User.t -> Prop)
    (res : result error Auth.LoginResponse) (w' : World) : Prop :=
  (exists e, res = Err e) /\ at_ K w0 (rows w0) w' \/
  exists user jti, known (rows w0) user /\ User.Active user = true /\ entitled user /\
    session_opened K w0 user jti res w'.

Lemma wp_hand_out K w0 user k w :
  at_ K w0 (rows w0) w ->
  wp (hand_out user k) (fun res w' => (exists e, res = Err e) /\ at_ K w0 (rows w0) w' \/
    exists jti, session_opened K w0 user jti res w') w.
Proof.
  intros Hat. unfold hand_out. wp_step. eapply wp_at_pair; [done|]. intros res b1 w1 Hat1 Hres.
  destruct res as [p|e]; [|wp_steps; left; split; [by eexists|done]]. destruct Hres as (Hf & Hu & Hc).
  assert (at_ (or_session K (RefreshJTI p)) w0 (rows w0) w1) as Hat1' by (by eapply at_weaken; [|done]; left).
  wp_step. eapply wp_at_remember; [exact Hat1'|by right|]. intros res w2 Hat2 Hs2.
  destruct res as [[]|e]; [|wp_steps; right; exists (RefreshJTI p); split; [done|by apply Hs2|done|done]].
  wp_step. eapply wp_at_Del; [done|]. intros d r3 w3 Hat3 _. wp_steps. right. exists (RefreshJTI p).
  split; [done|by apply Hs2|done|]. split_and!; [done|done|]. intros Hp.
  destruct (Hc Hp) as (c & ? & ? & ? & ?). by exists c.
Qed.

Lemma Login_opens email pw w0 : users_inv (w_u w0) ->
  wp (Auth.Login uc email pw) (opened_or_failed (only (LoginAttemptsKey (NormalizeEmail email))) w0
    (fun u => User.Email u = NormalizeEmail email /\ VerifyPassword u pw = true)) w0.
Proof.
  intros Hi. set (K := only _). pose proof (at_start K w0 Hi) as Hat.
  assert (forall w, at_ K w0 (rows w0) w ->
    wp (Auth.Login_checked uc (NormalizeEmail email) pw (LoginAttemptsKey (NormalizeEmail email)))
      (opened_or_failed K w0
         (fun u => User.Email u = NormalizeEmail email /\ VerifyPassword u pw = true)) w) as Hchk.
  { intros w Hw. unfold Auth.Login_checked. wp_step. eapply wp_at_GetByEmail; [done|].
    intros res u1 w1 Hat1 Hres. rewrite NormalizeEmail_twice in Hres.
    destruct res as [user|e]; [|wp_steps; left; split; [by eexists|done]]. destruct Hres as [Hk He].
    wp_step; [wp_steps; left; split; [by eexists|done]|].
    wp_step; [wp_steps; left; split; [by eexists|done]|].
    apply negb_false_iff in Heqb, Heqb0.
    eapply wp_mono; [apply (wp_hand_out K w0 user _ w1 Hat1)|].
    intros res w' [Hf|(jti & Hso)]; [by left|]. right. by exists user, jti. }
  unfold Auth.Login. cbv zeta. wp_step; [|by apply Hchk]. wp_step. eapply wp_at_count; [done|done|].
  intros n r1 w1 Hat1. wp_step; [|by apply Hchk]. wp_steps. left. split; [by eexists|done].
Qed.

Lemma Refresh_opens tok w0 : users_inv (w_u w0) ->
  wp (Auth.Refresh uc tok) (opened_or_failed no_keys w0 (fun u => exists c,
    token_claims tok = Some c /\ Claims.Kind c = KindRefresh /\
    is_Some (keys w0 !! RefreshKey (Claims.ID c)) /\
    User.Email u = NormalizeEmail (Claims.Email c) /\
    (forall t iat, User.PasswordChangedAt u = Some t -> t <> zero_time ->
       Claims.IssuedAt c = Some iat -> (t <= iat)%Z))) w0.
Proof.
  intros Hi. pose proof (at_start no_keys w0 Hi) as Hat. unfold Auth.Refresh.
  wp_step. eapply wp_at_refresh; [done|]. intros res b1 w1 Hat1 Hc.
  destruct res as [c|e]; [|wp_steps; left; split; [by eexists|done]]. destruct Hc as [Hc Hkind].
  wp_step. eapply wp_at_Get; [done|]. intros res r2 w2 Hat2 Hlive.
  destruct res as [live_|e]; [|wp_steps; left; split; [by eexists|done]].
  destruct Hlive as (x & Hx & _).
  wp_step. eapply wp_at_GetByEmail; [done|]. intros res u3 w3 Hat3 Hres.
  destruct res as [user|e]; [|wp_steps; left; split; [by eexists|done]]. destruct Hres as [Hk He].
  wp_step; [wp_steps; left; split; [by eexists|done]|]. apply negb_false_iff in Heqb.
  wp_step; [wp_steps; left; split; [by eexists|done]|]. rename Heqb0 into Hcut.
  eapply wp_mono; [apply (wp_hand_out no_keys w0 user _ w3 Hat3)|].
  intros res w' [Hf|(jti & Hso)]; [by left|]. right. exists user, jti.
  split_and!; try done. exists c. split_and!; [done|done|by exists x|done|by apply not_cut_off].
Qed.

Lemma digits_ascii s : string_forall is_digit s = true -> isASCII s = true.
Proof.
  apply string_forall_impl. intros a. unfold is_digit, is_ascii_byte. rewrite andb_true_iff, !N.leb_le.
  intros [_ Ha]. apply N.ltb_lt. lia.
Qed.

(** ** Reset tokens *)

(** What may be under a reset token while ForgotPassword writes [v] under [token]. *)
Definition reset_ty (w0 : World) (token v : string) (K : key) (x : string) : Prop :=
  match K with
  | KPasswordReset t => (exists e, keys w0 !! PasswordResetKey t = Some e /\ re_val e = x) \/
      t = token /\ x = json_Marshal v
  | _ => True
  end.

Lemma reset_ty_start w0 em token v T w :
  well_typed (keys w0) -> at_ (only (ForgotAttemptsKey em)) w0 T w -> P (reset_ty w0 token v) w.
Proof.
  intros Ht Hat k e He. destruct (decide (k = ForgotAttemptsKey em)) as [->|Hne].
  { by exists (KForgotAttempts em). }
  destruct (at_keys _ _ _ _ Hat k Hne) as [Heq|Heq]; rewrite He in Heq; [|done].
  destruct (Ht k e (eq_sym Heq)) as (K & -> & _). exists K. split; [done|].
  destruct K; try done. left. by exists e.
Qed.

Lemma reset_ty_end w0 token v w t u :
  P (reset_ty w0 token v) w -> reset_stored w t u -> reset_stored w0 t u \/ t = token /\ read_back v u.
Proof.
  intros HP (e & He & Hu). destruct (HP _ _ He) as (K & Heq & Hty).
  change (key_text (KPasswordReset t) = key_text K) in Heq. apply key_text_injective in Heq as <-.
  destruct Hty as [(e0 & He0 & Heq)|[-> Heq]]; [left|right].
  - exists e0. by rewrite Heq.
  - split; [done|]. unfold read_back. by rewrite <- Heq.
Qed.

(** The entries a call of ForgotPassword leaves: old ones, and at most one new one, for
    the account of the email or a decoy. *)
Definition forgot_writes (em : string) (w0 w' : World) : Prop :=
  (forall t u, reset_stored w' t u -> reset_stored w0 t u) \/
  exists token v,
    (v = "decoy" /\ no_live_email (rows w0) em \/
     exists c, known (rows w0) c /\ User.Email c = em /\ v = User.ID c) /\
    forall t u, reset_stored w' t u -> reset_stored w0 t u \/ t = token /\ read_back v u.

Lemma at_no_reset K w0 T w t u :
  at_ K w0 T w -> ~ K (PasswordResetKey t) -> reset_stored w t u -> reset_stored w0 t u.
Proof.
  intros Hat HK (e & He & Hu). exists e. split; [|done].
  destruct (at_keys _ _ _ _ Hat _ HK) as [Heq|Heq]; rewrite He in Heq; done.
Qed.

Lemma wp_preserves {A} (I : World -> Prop) (m : io World A) (Q : A -> World -> Prop) w :
  preserves I m -> I w -> (forall a w', I w' -> Q a w') -> wp m Q w.
Proof. intros Hm Hw HQ. apply wp_intro. intros a w' Hr. apply HQ. specialize (Hm w Hw). by rewrite Hr in Hm. Qed.

Lemma ForgotPassword_writes email w0 : users_inv (w_u w0) -> well_typed (keys w0) ->
  wp (Auth.ForgotPassword uc email) (fun _ w' => forgot_writes (NormalizeEmail email) w0 w') w0.
Proof.
  intros Hi Ht. set (em := NormalizeEmail email). set (K := only (ForgotAttemptsKey em)).
  pose proof (at_start K w0 Hi) as Hat.
  assert (forall w, at_ K w0 (rows w0) w -> forgot_writes em w0 w) as Hquiet.
  { intros w Hw. left. intros t u. eapply at_no_reset; [exact Hw|]. unfold K, only. key_ne. }
  assert (forall w, at_ K w0 (rows w0) w ->
    wp (Auth.ForgotPassword_limited uc em) (fun _ w' => forgot_writes em w0 w') w) as Hlim.
  { intros w Hw. unfold Auth.ForgotPassword_limited. wp_step.
    eapply wp_at_base; [done|apply grows_reset_token|]. intros res b1 w1 Hat1.
    destruct res as [token|e]; [|wp_steps; by apply Hquiet].
    wp_step. eapply wp_at_GetByEmail; [done|]. intros res u2 w2 Hat2 Hres.
    unfold em in Hres at 1 2. rewrite NormalizeEmail_twice in Hres. fold em in Hres.
    assert (forall v, P (reset_ty w0 token v) w2) as HP by (intros v; by eapply reset_ty_start).
    destruct res as [usr|e].
    - destruct Hres as [Hk He]. eapply (wp_preserves (P (reset_ty w0 token (User.ID usr)))); [|apply HP|].
      + pres; first
          [ apply (pres_Set _ _ (KPasswordReset token)); by right
          | by apply (pres_Set _ _ (KUserResetIndex (User.ID usr)))
          | apply (pres_Expire _ (KPasswordReset token))
          | apply (pres_Expire _ (KUserResetIndex (User.ID usr))) ].
      + intros _ w' HP'. right. exists token, (User.ID usr). split; [right; by exists usr|].
        intros t u. by apply reset_ty_end.
    - destruct Hres as [_ Hno]. case_bool_decide as Hnf; [|wp_steps; by apply Hquiet].
      eapply (wp_preserves (P (reset_ty w0 token "decoy"))); [|apply HP|].
      + pres; first
          [ apply (pres_Set _ _ (KPasswordReset token)); by right
          | apply (pres_Expire _ (KPasswordReset token)) ].
      + intros _ w' HP'. right. exists token, "decoy". split; [left; split; [done|by apply Hno]|].
        intros t u. by apply reset_ty_end. }
  unfold Auth.ForgotPassword. cbv zeta. fold em. wp_step; [|by apply Hlim]. wp_step.
  eapply wp_at_count; [done|done|]. intros n r1 w1 Hat1. wp_step; [wp_steps; by apply Hquiet|by apply Hlim].
Qed.

(** ** Each call is a step of the machine *)
Definition simulated (c : auth_call) (s : spec) (a : answer) (w' : World) : Prop :=
  exists s', spec_step s (Called c a) s' /\ refines w' s'.

Ltac outside_keys := intros ?; split_and!; unfold only, no_keys, login_keys, verify_keys, cutoff_keys, any_cutoff;
  first [by intros [] | key_ne | intros [? H]; revert H; key_ne].

Lemma sim_same K w s c a w' :
  refines w s -> at_ K w (rows w) w' -> well_typed (keys w') -> outside K ->
  spec_step s (Called c a) s -> simulated c s a w'.
Proof.
  intros Hs Hat Ht HK Hst. exists s. split; [done|].
  by eapply refines_quiet; [| | | |apply (set_accounts_same w)].
Qed.

Lemma sim_opened K w s user jti res w' :
  refines w s -> outside K -> well_typed (keys w') -> session_opened K w user jti res w' ->
  opened s !! jti = None /\ refines w' (open_session jti (User.Email user) s).
Proof.
  intros Hs HK Ht [Hf Hu Hat _]. split.
  { apply eq_None_not_Some. intros [em Hem]. by apply Hf, (rf_opened _ _ Hs _ em). }
  eapply refines_at; [done|done|done|apply (rf_accounts _ _ Hs)| | | |]; cbn.
  - intros j em [[<- _]|[_ Hj]]%lookup_insert_Some; [by right|by left].
  - intros j. destruct (decide (j = jti)) as [->|Hne]; [right; set_solver|left]. split; [|set_solver].
    intros [Hk|Hk]; [by destruct (HK j)|]. revert Hk. key_ne.
  - intros em. left. split; [|done]. intros [Hk|Hk]; [by destruct (HK em) as (_ & ? & _)|]. revert Hk. key_ne.
  - intros t. left. split; [|done]. intros [Hk|Hk]; [by destruct (HK t) as (_ & _ & ?)|]. revert Hk. key_ne.
Qed.

Lemma answer_typed c w (R : answer -> World -> Prop) :
  well_typed (keys w) -> wp (answer_of c) (fun a w' => well_typed (keys w') -> R a w') w ->
  wp (answer_of c) R w.
Proof.
  intros Ht Hwp. pose proof (pres_run uc c w Ht) as Ht'. rewrite <- answer_of_state in Ht'.
  apply wp_intro. intros a w' Hr. rewrite Hr in Ht'. by eapply (wp_run _ _ _ _ _ Hwp Hr).
Qed.

Lemma wp_session c m w Q s : refines w s ->
  answer_of c = (r <- m ;; ret (ASession r)) -> wp m Q w ->
  (forall r w', well_typed (keys w') -> Q r w' -> simulated c s (ASession r) w') ->
  wp (answer_of c) (simulated c s) w.
Proof.
  intros Hs Hc Hm HQ. apply answer_typed; [apply Hs|]. rewrite Hc. wp_step.
  eapply wp_mono; [exact Hm|]. intros r w' Hr. apply wp_ret. intros Ht. by apply HQ.
Qed.

Definition plain {A} (r : result error A) : answer :=
  APlain (Some (match r with Ok _ => Ok tt | Err e => Err e end)).

Lemma wp_plain {A} c (m : io World (result error A)) w Q s : refines w s ->
  answer_of c = (r <- forget m ;; ret (APlain r)) -> wp m Q w ->
  (forall r w', well_typed (keys w') -> Q r w' -> simulated c s (plain r) w') ->
  wp (answer_of c) (simulated c s) w.
Proof.
  intros Hs Hc Hm HQ. apply answer_typed; [apply Hs|]. rewrite Hc. wp_step. apply wp_forget.
  eapply wp_mono; [exact Hm|]. intros r w' Hr. apply wp_ret. intros Ht. by apply HQ.
Qed.

Lemma sim_session K c s w entitled res w' :
  refines w s -> outside K -> well_typed (keys w') ->
  opened_or_failed K w entitled res w' ->
  (forall user jti a, known (rows w) user -> account_at s (User.ID user) (User.Email user) a ->
     ac_password a = User.Password user -> ac_active a = true -> ac_stamp a = User.PasswordChangedAt user ->
     entitled user -> opened s !! jti = None -> grants res (User.ID user) (User.Email user) jti ->
     spec_step s (Called c (ASession res)) (open_session jti (User.Email user) s)) ->
  simulated c s (ASession res) w'.
Proof.
  intros Hs HK Ht [[[e ->] Hat]|(user & jti & Hk & Ha & He & Hso)] Hstep.
  { eapply sim_same; [done|done|done|done|by apply sp_failed]. }
  destruct (sim_opened _ _ _ _ _ _ _ Hs HK Ht Hso) as [Hf Hr].
  destruct (known_account _ _ _ Hs Hk) as (a & Hat & Hp & Hac & Hst).
  eexists. split; [|exact Hr]. eapply Hstep; try done; [by apply Hac|apply Hso].
Qed.

Lemma sim_Login email pw w s : refines w s ->
  wp (answer_of (CLogin email pw)) (simulated (CLogin email pw) s) w.
Proof.
  intros Hs. eapply wp_session; [done|done|apply Login_opens, Hs|]. intros res w' Ht HQ. eapply sim_session; [done| |done|exact HQ|]; [outside_keys|].
  intros user jti a Hk Hat Hp Hac _ [He Hv] Hf Hg. rewrite He in *.
  pose proof Hat as (_ & _ & Hem). rewrite <- Hem.
  eapply sp_login; [done|done| |done|by rewrite Hem]. rewrite Hp. by apply VerifyPassword_compare.
Qed.

Lemma sim_Refresh tok w s : refines w s ->
  wp (answer_of (CRefresh tok)) (simulated (CRefresh tok) s) w.
Proof.
  intros Hs. eapply wp_session; [done|done|apply Refresh_opens, Hs|]. intros res w' Ht HQ. eapply sim_session; [done| |done|exact HQ|]; [outside_keys|].
  intros user jti a Hk Hat Hp Hac Hst (c & Hc & Hkind & Hlive & He & Hcut) Hf Hg. rewrite He in *.
  pose proof Hat as (_ & _ & Hem). rewrite <- Hem.
  eapply sp_refresh; [done|done|by apply (rf_alive _ _ Hs)|done|done| |done|by rewrite Hem].
  intros t iat. rewrite Hst. apply Hcut.
Qed.

Lemma sim_failed K w s c e w' :
  refines w s -> at_ K w (rows w) w' -> well_typed (keys w') -> outside K ->
  simulated c s (plain (Err (A := unit) e)) w'.
Proof. intros Hs Hat Ht HK. eapply sim_same; [done|done|done|done|by apply sp_failed]. Qed.

Lemma sim_Register x w s : refines w s ->
  wp (answer_of (CRegister x)) (simulated (CRegister x) s) w.
Proof.
  intros Hs. eapply wp_plain; [done|done|apply Register_effect, Hs|].
  intros r w' Ht (T' & Hat & Hr). assert (outside no_keys) as HK by outside_keys.
  assert (forall id row, rows w !! id = None -> T' = <[id := row]> (rows w) ->
    accounts s !! id = None /\
    refines w' (set_accounts (<[id := account_of row]> (accounts s)) s)) as Hins.
  { intros id row Hn ->. rewrite (rf_accounts _ _ Hs), lookup_fmap, Hn. split; [done|].
    eapply refines_quiet; [done|done|done|done|]. by rewrite fmap_insert. }
  destruct r as [u|e].
  - destruct Hr as (id & row & Hn & HT & Hu & Hl & Ha & He & _ & Hro & _ & Hv).
    destruct (Hins id row Hn HT) as [Hna Href]. eexists. split; [|exact Href].
    apply sp_register; try done. intros _. split_and!; [done|done|]. subst u.
    by apply VerifyPassword_compare in Hv.
  - destruct Hr as [_ [->|(Hty & id & row & Hn & HT & Ha & Hro)]]; [by eapply sim_failed|].
    destruct (Hins id row Hn HT) as [Hna Href]. eexists. split; [|exact Href].
    apply sp_register; try done. by intros ? [= ->].
Qed.

(** The code SendOTP left, if Redis still has it, is six digits. *)
Lemma sim_SendOTP fuel email w s : refines w s ->
  wp (answer_of (CSendOTP fuel email)) (simulated (CSendOTP fuel email) s) w.
Proof.
  intros Hs. apply answer_typed; [apply Hs|]. cbn [answer_of run]. wp_step.
  eapply wp_mono; [apply SendOTP_effect, Hs|]. intros r w' Hr. apply wp_ret. intros Ht.
  assert (outside no_keys) as HK by outside_keys.
  destruct r as [[[]|e]|]; [|destruct Hr as [Hat _]; by eapply sim_failed|by eapply sim_same, sp_failed].
  destruct Hr as [Hat (c & Hk & Hem & _)]. destruct (known_account _ _ _ Hs Hk) as (a & Ha & _).
  rewrite Hem in Ha. set (em := NormalizeEmail email) in *.
  assert (forall s', accounts s' = accounts s -> opened s' = opened s -> alive s' = alive s -> resets s' = resets s ->
    (forall em', em' <> em -> codes s' !! em' = codes s !! em') ->
    (forall e code, keys w' !! UserOTPKey em = Some e -> json_Unmarshal (re_val e) = Some code ->
       codes s' !! em = Some code) -> refines w' s') as Href.
  { intros s' Hac Ho Hl Hre Hc He. eapply refines_at; [done|exact Hat|done|by rewrite Hac; apply Hs| | | |].
    - rewrite Ho. by left.
    - intros j. left. split; [unfold send_keys; key_ne|by rewrite Hl].
    - intros em'. destruct (decide (em' = em)) as [->|Hne]; [by right|left].
      split; [unfold send_keys; fold em; key_ne|by apply Hc].
    - intros t. left. split; [unfold send_keys; key_ne|by rewrite Hre]. }
  destruct (keys w' !! UserOTPKey em) as [e|] eqn:He.
  2:{ exists s. split; [by eapply sp_send_lost|by apply Href]. }
  destruct (Ht _ _ He) as (K & Heq & Hty). change (key_text (KUserOTP em) = key_text K) in Heq.
  apply key_text_injective in Heq as <-. destruct Hty as (code & Hj & Hlen & Hdig).
  exists (set_code em code s). split; [by eapply sp_send|]. apply Href; try done; cbn.
  - intros em' Hne. by rewrite lookup_insert_ne.
  - intros e' code' [= <-]. rewrite Hj, json_roundtrip; [|by apply digits_ascii].
    intros [= <-]. by rewrite lookup_insert_eq.
Qed.

Lemma sim_VerifyOTP email code w s : refines w s ->
  wp (answer_of (CVerifyOTP email code)) (simulated (CVerifyOTP email code) s) w.
Proof.
  intros Hs. eapply wp_plain; [done|done|apply VerifyOTP_effect, Hs|].
  intros r w' Ht (T' & Hat & Hr). assert (outside (verify_keys email)) as HK by outside_keys.
  destruct r as [[]|e]; [|destruct Hr as [_ ->]; by eapply sim_failed].
  destruct Hr as ((e & He & Hcode) & c & now & Hk & Hem & _ & ->).
  destruct (known_account _ _ _ Hs Hk) as (a & Ha & _). rewrite Hem in Ha.
  destruct (account_row _ _ _ _ _ Hs Ha) as (row & Hrow & Hl & -> & _).
  destruct (users_inv_table _ (rf_inv _ _ Hs)) as [Hok _].
  eexists. split; [eapply sp_verify; [exact Ha|by eapply (rf_codes _ _ Hs)]|].
  eapply refines_quiet; [done|done|done|done|].
  by rewrite (accounts_update _ _ _ _ Hok Hrow Hl), account_of_activated, (rf_accounts _ _ Hs).
Qed.

Lemma sim_Logout tok w s : refines w s ->
  wp (answer_of (CLogout tok)) (simulated (CLogout tok) s) w.
Proof.
  intros Hs. eapply wp_plain; [done|done|apply Logout_effect, Hs|].
  intros r w' Ht [Hat Hr]. assert (outside no_keys) as HK by outside_keys.
  destruct r as [[]|e]; [|by eapply sim_failed]. destruct Hr as (c & Hc & Hkind & Hn).
  exists (close_session (Claims.ID c) s). split; [by apply sp_logout|]. apply refines_close; [|done].
  eapply refines_quiet; [done|done|done|done|by apply (set_accounts_same w)].
Qed.

(** A stored user with a password that was replaced. *)
Lemma password_replaced_account w s T' usr pw :
  refines w s -> stored_live (rows w) usr -> password_replaced (rows w) T' usr pw ->
  exists a hash t, accounts s !! User.ID usr = Some a /\ ac_live a = true /\
    ac_password a = User.Password usr /\ bcrypt_CompareHashAndPassword hash pw = None /\
    account_of <$> T' = <[User.ID usr := set_password hash t a]> (accounts s).
Proof.
  intros Hs [Hst Hd] (hash & now & -> & Hcmp). destruct (users_inv_table _ (rf_inv _ _ Hs)) as [Hok _].
  assert (live (FromUsersV1Domain usr) = true) as Hl by by apply live_None.
  exists (account_of (FromUsersV1Domain usr)), hash, (pg_time now).
  rewrite (accounts_update _ _ _ _ Hok Hst Hl), account_of_repassworded, (rf_accounts _ _ Hs), lookup_fmap, Hst.
  by split_and!.
Qed.

Lemma sim_ChangePassword id cur new w s : refines w s ->
  wp (answer_of (CChangePassword id cur new)) (simulated (CChangePassword id cur new) s) w.
Proof.
  intros Hs. eapply wp_plain; [done|done|apply ChangePassword_effect, Hs|].
  intros r w' Ht (T' & Hat & Hr). assert (outside (cutoff_keys id)) as HK by outside_keys.
  destruct r as [[]|e]; [|destruct Hr as [_ ->]; by eapply sim_failed].
  destruct Hr as (usr & Hst & Hid & Hv & Hrep).
  destruct (password_replaced_account _ _ _ _ _ Hs Hst Hrep) as (a & hash & t & Ha & Hl & Hp & Hh & HT).
  eexists. split; [eapply (sp_change _ id cur new _ a hash t); [done|done|done| |done]|].
  - rewrite Hp. by apply VerifyPassword_compare.
  - eapply refines_quiet; [done|done|done|done|]. by rewrite HT.
Qed.

Lemma sim_ResetPassword token new w s : refines w s ->
  wp (answer_of (CResetPassword token new)) (simulated (CResetPassword token new) s) w.
Proof.
  intros Hs. eapply wp_plain; [done|done|apply ResetPassword_effect, Hs|].
  intros r w' Ht (T' & Hat & Hr). assert (outside any_cutoff) as HK by outside_keys.
  destruct r as [[]|e]; [|destruct Hr as [_ ->]; by eapply sim_failed].
  destruct Hr as (userID & usr & Hres & _ & _ & Hst & Hid & Hrep).
  destruct (password_replaced_account _ _ _ _ _ Hs Hst Hrep) as (a & hash & t & Ha & Hl & Hp & Hh & HT).
  eexists. split; [eapply (sp_reset _ token new userID _ a hash t); try done; by apply (rf_resets _ _ Hs)|].
  eapply refines_quiet; [done|done|done|done|]. by rewrite HT.
Qed.

Lemma sim_ForgotPassword email w s : refines w s ->
  wp (answer_of (CForgotPassword email)) (simulated (CForgotPassword email) s) w.
Proof.
  intros Hs. eapply wp_plain; [done|done|apply wp_conj;
    [apply ForgotPassword_effect, Hs|apply ForgotPassword_writes; apply Hs]|].
  intros r w' Ht [[Hat _] Hw]. cbn beta in *. set (em := NormalizeEmail email) in *.
  assert (forall s', accounts s' = accounts s -> opened s' = opened s -> alive s' = alive s -> codes s' = codes s ->
    (forall t u, reset_stored w' t u -> resets s' !! t = Some u) -> refines w' s') as Href.
  { intros s' Ha Ho Hl Hc Hr. eapply refines_at; [done|exact Hat|done|by rewrite Ha; apply Hs| | | |].
    - rewrite Ho. by left.
    - intros j. left. split; [intros [H9|[[t H9]|[t H9]]]; revert H9; key_ne|by rewrite Hl].
    - intros em'. left. split; [intros [H9|[[t H9]|[t H9]]]; revert H9; key_ne|by rewrite Hc].
    - intros t. right. auto. }
  assert (refines w' s -> simulated (CForgotPassword email) s (plain r) w') as Hlost.
  { intros Hs'. exists s. split; [|done]. destruct r as [[]|e]; [apply sp_forgot_lost|by apply sp_failed]. }
  destruct Hw as [Hold|(token & v & Hv & Hnew)].
  { apply Hlost, Href; try done. intros t u Hu. by apply (rf_resets _ _ Hs), Hold. }
  destruct (keys w' !! PasswordResetKey token ≫= fun e => json_Unmarshal (re_val e)) as [u|] eqn:Hu.
  2:{ apply Hlost, Href; try done. intros t u Hst. destruct (Hnew _ _ Hst) as [Ho|[-> _]]; [by apply Hs|].
      destruct Hst as (e & He & Hj). rewrite He in Hu. cbn in Hu. congruence. }
  assert (reset_stored w' token u) as Hst by (apply bind_Some in Hu as (e & He & Hj); by exists e).
  assert (forall u', reset_stored w' token u' -> u' = u) as Huniq.
  { intros u' (e' & He' & Hj'). destruct Hst as (e & He & Hj). congruence. }
  destruct (Hnew _ _ Hst) as [Ho|[_ Hback]].
  { apply Hlost, Href; try done. intros t u' Hst'. destruct (Hnew _ _ Hst') as [?|[-> _]]; [by apply Hs|].
    rewrite (Huniq _ Hst'). by apply Hs. }
  exists (set_reset token u s). split.
  - unfold plain. destruct Hv as [[-> Hno]|(c & Hk & He & ->)].
    + assert (u = "decoy") as -> by (revert Hback; unfold read_back; rewrite json_roundtrip by done; congruence).
      apply sp_forgot_decoy. intros id a Ha. destruct (account_row _ _ _ _ _ Hs Ha) as (row & Hrow & Hl & _ & Hem).
      by eapply Hno.
    + destruct (known_account _ _ _ Hs Hk) as (a & Ha & _). rewrite He in Ha. by eapply sp_forgot.
  - apply Href; try done. cbn. intros t u' Hst'. destruct (decide (t = token)) as [->|Hne].
    + rewrite (Huniq _ Hst'). by rewrite lookup_insert_eq.
    + rewrite lookup_insert_ne by done. destruct (Hnew _ _ Hst') as [?|[-> _]]; [by apply Hs|done].
Qed.

Lemma sim_call c w s : refines w s -> wp (answer_of c) (simulated c s) w.
Proof.
  intros Hs. destruct c; auto using sim_Register, sim_Login, sim_SendOTP, sim_VerifyOTP, sim_Refresh, sim_Logout,
    sim_ChangePassword, sim_ForgotPassword, sim_ResetPassword.
Qed.

Lemma sim_step w ev w' s : refines w s -> event_step w ev w' -> exists s', spec_step s ev s' /\ refines w' s'.
Proof.
  intros Hs Hev. destruct Hev as [c w|w b r m Hb Hsub].
  - exact (wp_run _ _ _ _ _ (sim_call c w s Hs) (surjective_pairing _)).
  - exists s. split; [apply sp_elapsed|]. destruct Hs as [Hi Ht Ha Ho Hl Hc Hr]. split.
    + by apply users_inv_base.
    + by eapply typed_subset.
    + done.
    + intros jti em Hj. unfold issued in *. cbn. rewrite Hb. by eapply Ho.
    + intros j [e He]. apply Hl. exists e. by eapply lookup_weaken.
    + intros em e code He. eapply Hc. by eapply lookup_weaken.
    + intros t u (e & He & Hj). apply Hr. exists e. split; [|done]. by eapply lookup_weaken.
Qed.

Lemma refines_empty w : users_inv (w_u w) -> rows w = ∅ -> keys w = ∅ -> refines w empty_spec.
Proof.
  intros Hi Hr Hk. split; [done|by rewrite Hk|by rewrite Hr, fmap_empty|done| | |].
  - rewrite Hk. by intros jti [].
  - by rewrite Hk.
  - intros t u (e & He & _). by rewrite Hk in He.
Qed.

(** C2. The auth service refines the machine of Sessions.v: from a world without accounts
    and with an empty Redis, any calls of the nine operations with any answers they got,
    whatever Redis, the database, the clock and the mailer did, are a run of the machine
    from its empty state; afterwards its accounts are the rows of the table, and what
    Redis holds of sessions, codes and reset tokens the machine allows. *)
Theorem auth_refines_sessions w0 l w :
  users_inv (w_u w0) -> rows w0 = ∅ -> keys w0 = ∅ -> events w0 l w ->
  exists s, spec_run empty_spec l s /\ refines w s.
Proof.
  intros Hi Hr Hk Hl. induction Hl as [|l w ev w' Hl (s & Hrun & Hs) Hev].
  - exists empty_spec. split; [constructor|by apply refines_empty].
  - destruct (sim_step _ _ _ _ Hs Hev) as (s' & Hst & Hs'). exists s'. split; [by eapply sr_snoc|done].
Qed.

(** ** Where sessions come from *)

(** The token was an answer to an earlier call. *)
Definition handed_out (l : list event) (tok : string) : Prop :=
  exists c resp, Called c (ASession (Ok resp)) ∈ l /\ Auth.RefreshToken resp = tok /\
    jwt_portable (User.ID (Auth.User resp)) (User.Email (Auth.User resp)).

(** Nobody forges tokens: one that Refresh is given and that has claims was handed out
    before. *)
Definition unforged (l : list event) : Prop :=
  forall l1 tok a l2, l = (l1 ++ Called (CRefresh tok) a :: l2)%list ->
    token_claims tok = None \/ handed_out l1 tok.

(** Somebody has logged in with the password the account had then. *)
Definition logged_in (w0 : World) (l : list event) (em : string) : Prop :=
  exists l1 email pw a l2 w1 id row,
    l = (l1 ++ Called (CLogin email pw) a :: l2)%list /\ events w0 l1 w1 /\
    NormalizeEmail email = em /\ rows w1 !! id = Some row /\ live row = true /\
    Users.Active row = true /\ Users.Email row = em /\
    bcrypt_CompareHashAndPassword (Users.Password row) pw = None.

Lemma logged_in_snoc w0 l ev em : logged_in w0 l em -> logged_in w0 (l ++ [ev]) em.
Proof.
  intros (l1 & email & pw & a & l2 & w1 & id & row & -> & Hrest).
  exists l1, email, pw, a, (l2 ++ [ev])%list, w1, id, row. by rewrite <- app_assoc.
Qed.

(** A step of the machine opens no session, or one for a password or a live identifier. *)
Inductive opening (s : spec) : event -> spec -> Prop :=
| op_none ev s' : opened s' = opened s -> alive s' ⊆ alive s ->
    (forall c resp, ev <> Called c (ASession (Ok resp))) -> opening s ev s'
| op_login email pw r id a jti :
    account_at s id (NormalizeEmail email) a -> ac_active a = true ->
    bcrypt_CompareHashAndPassword (ac_password a) pw = None -> grants r id (ac_email a) jti ->
    opened s !! jti = None ->
    opening s (Called (CLogin email pw) (ASession r)) (open_session jti (ac_email a) s)
| op_refresh tok c r id a jti :
    token_claims tok = Some c -> Claims.ID c ∈ alive s ->
    ac_email a = NormalizeEmail (Claims.Email c) -> grants r id (ac_email a) jti ->
    opened s !! jti = None ->
    opening s (Called (CRefresh tok) (ASession r)) (open_session jti (ac_email a) s).

Lemma spec_opening s ev s' : spec_step s ev s' -> opening s ev s'.
Proof.
  destruct 1; try (by apply op_none).
  - apply op_none; [done|done|]. by intros c0 resp [= -> ->].
  - by eapply op_login.
  - eapply op_refresh; try done. match goal with Ha : account_at _ _ _ _ |- _ => by destruct Ha as (_ & _ & ?) end.
  - apply op_none; [done|cbn; set_solver|done].
Qed.

Record tracked (w0 : World) (l : list event) (s : spec) : Prop := {
  tr_alive : forall jti, jti ∈ alive s -> is_Some (opened s !! jti);
  tr_opened : forall jti em, opened s !! jti = Some em -> NormalizeEmail em = em /\ logged_in w0 l em;
  tr_tokens : forall tok c, handed_out l tok -> token_claims tok = Some c ->
    opened s !! Claims.ID c = Some (Claims.Email c);
  tr_answers : forall c resp, Called c (ASession (Ok resp)) ∈ l ->
    exists jti, opened s !! jti = Some (User.Email (Auth.User resp));
}.

Lemma handed_out_snoc l ev tok : handed_out (l ++ [ev]) tok ->
  handed_out l tok \/ exists c resp, ev = Called c (ASession (Ok resp)) /\ Auth.RefreshToken resp = tok /\
    jwt_portable (User.ID (Auth.User resp)) (User.Email (Auth.User resp)).
Proof.
  intros (c & resp & [Hin|Hin%list_elem_of_singleton]%elem_of_app & Ht); [left|right]; by exists c, resp.
Qed.

Lemma tracked_none w0 l ev s s' :
  tracked w0 l s -> opened s' = opened s -> alive s' ⊆ alive s ->
  (forall c resp, ev <> Called c (ASession (Ok resp))) -> tracked w0 (l ++ [ev]) s'.
Proof.
  intros [Ha Ho Ht Hw] Heq Hsub Hne. split; rewrite Heq.
  - intros jti Hj. by apply Ha, Hsub.
  - intros jti em Hj. destruct (Ho _ _ Hj). by split; [|apply logged_in_snoc].
  - intros tok c [Hh|(c0 & resp & -> & _)]%handed_out_snoc Hc; [by eapply Ht|by destruct (Hne c0 resp)].
  - intros c resp [Hin|Hin%list_elem_of_singleton]%elem_of_app; [by eapply Hw|by destruct (Hne c resp)].
Qed.

Lemma tracked_open w0 l c r id em jti s :
  tracked w0 l s -> opened s !! jti = None -> grants r id em jti ->
  NormalizeEmail em = em -> logged_in w0 (l ++ [Called c (ASession r)]) em ->
  tracked w0 (l ++ [Called c (ASession r)]) (open_session jti em s).
Proof.
  intros [Ha Ho Ht Hw] Hf Hg Hn Hl. split; cbn.
  - intros j Hj. destruct (decide (j = jti)) as [->|Hne]; [by rewrite lookup_insert_eq|].
    rewrite lookup_insert_ne by done. apply Ha. set_solver.
  - intros j em' [[<- <-]|[_ Hj]]%lookup_insert_Some; [done|]. destruct (Ho _ _ Hj).
    by split; [|apply logged_in_snoc].
  - intros tok cl [Hh|(c0 & resp & [= <- ->] & <- & Hp)]%handed_out_snoc Hc.
    + specialize (Ht _ _ Hh Hc). rewrite lookup_insert_ne; [done|]. intros ->. congruence.
    + destruct Hg as (<- & <- & Hg). destruct (Hg Hp) as (cl' & Hc' & <- & _ & <-).
      simplify_eq. by rewrite lookup_insert_eq.
  - intros c0 resp [Hin|Hin%list_elem_of_singleton]%elem_of_app.
    + destruct (Hw _ _ Hin) as [j Hj]. exists j. rewrite lookup_insert_ne; [done|]. intros ->. congruence.
    + injection Hin as <- <-. destruct Hg as (_ & -> & _). exists jti. by rewrite lookup_insert_eq.
Qed.

Lemma tracked_step w0 l w ev w' s s' :
  events w0 l w -> refines w s -> tracked w0 l s -> unforged (l ++ [ev]) ->
  event_step w ev w' -> spec_step s ev s' -> tracked w0 (l ++ [ev]) s'.
Proof.
  intros Hl Hs Htr Hu Hev Hst.
  destruct (spec_opening _ _ _ Hst) as [ev s' Ho Ha Hne|email pw r id a jti Hat Hac Hpw Hg Hf
    |tok c r id a jti Hc Hal Hem Hg Hf].
  - by eapply tracked_none.
  - pose proof Hat as (_ & _ & Hem). eapply tracked_open; [done|done|done|by rewrite Hem, NormalizeEmail_twice|].
    destruct (account_row _ _ _ _ _ Hs Hat) as (row & Hrow & Hlv & -> & _). cbn in *.
    by exists l, email, pw, (ASession r), [], w, id, row.
  - destruct (Hu l tok (ASession r) [] eq_refl) as [Hn|Hh]; [congruence|].
    pose proof (tr_tokens _ _ _ Htr _ _ Hh Hc) as Hop. destruct (tr_opened _ _ _ Htr _ _ Hop) as [Hn Hlog].
    rewrite Hn in Hem. eapply tracked_open; [done|done|done|by rewrite Hem|]. rewrite Hem. by apply logged_in_snoc.
Qed.

Lemma unforged_prefix l ev : unforged (l ++ [ev]) -> unforged l.
Proof. intros Hu l1 tok a l2 ->. apply (Hu l1 tok a (l2 ++ [ev])%list). by rewrite <- app_assoc. Qed.

(** C3. Every session goes back to a password. Along any run of the service from an empty
    state in which nobody forges tokens, whenever Login or Refresh has handed out a
    session for an email, somebody had called Login with an email of that normal form and
    the password which the live, activated account had at that moment: no chain of
    refreshes leads anywhere else. *)
Theorem session_provenance w0 l w c resp :
  users_inv (w_u w0) -> rows w0 = ∅ -> keys w0 = ∅ -> events w0 l w -> unforged l ->
  Called c (ASession (Ok resp)) ∈ l -> logged_in w0 l (User.Email (Auth.User resp)).
Proof.
  intros Hi Hr Hk Hl Hu. assert (exists s, refines w s /\ tracked w0 l s) as (s & _ & Htr).
  { clear c resp. induction Hl as [|l w ev w' Hl IH Hev].
    - exists empty_spec. split; [by apply refines_empty|]. split; [done|done| |]; [intros tok c (? & ? & Hin & _)|intros c resp Hin]; by apply not_elem_of_nil in Hin.
    - destruct (IH (unforged_prefix _ _ Hu)) as (s & Hs & Htr). destruct (sim_step _ _ _ _ Hs Hev) as (s' & Hst & Hs').
      exists s'. split; [done|]. by eapply tracked_step. }
  intros Hin. destruct (tr_answers _ _ _ Htr _ _ Hin) as [jti Hj]. by apply (tr_opened _ _ _ Htr _ _ Hj).
Qed.

(** ** Running a list of calls *)
Definition perform (lw : list event * World) (c : auth_call) : list event * World :=
  let '(a, w') := answer_of c lw.2 in ((lw.1 ++ [Called c a])%list, w').
Definition play (cs : list auth_call) (w : World) : list event * World := fold_left perform cs ([], w).

Lemma events_perform w0 lw c : events w0 lw.1 lw.2 -> events w0 (perform lw c).1 (perform lw c).2.
Proof.
  intros Hst. unfold perform. pose proof (ev_call c lw.2) as Hc. destruct (answer_of c lw.2). by eapply ev_snoc.
Qed.

Lemma events_play cs w : events w (play cs w).1 (play cs w).2.
Proof.
  assert (forall lw, events w lw.1 lw.2 ->
    events w (fold_left perform cs lw).1 (fold_left perform cs lw).2) as Hgen; [|apply (Hgen ([], w)); constructor].
  induction cs as [|c cs IH]; intros lw Hst; [done|]. by apply IH, events_perform.
Qed.

Lemma unforged_perform lw c :
  unforged lw.1 -> (forall tok, c = CRefresh tok -> token_claims tok = None \/ handed_out lw.1 tok) ->
  unforged (perform lw c).1.
Proof.
  intros Hl Hc l1 tok a l2. destruct lw as [l w]. unfold perform. cbn [fst snd] in *.
  destruct (answer_of c w) as [a0 w']. cbn. intros Heq.
  destruct l2 as [|x l2' _] using rev_ind.
  - apply app_inj_tail in Heq as [<- [= -> _]]. by apply Hc.
  - rewrite app_comm_cons, app_assoc in Heq. apply app_inj_tail in Heq as [-> _]. by eapply Hl.
Qed.

Lemma unforged_play cs w : Forall (fun c => forall tok, c <> CRefresh tok) cs -> unforged (play cs w).1.
Proof.
  intros Hcs. assert (forall lw, unforged lw.1 -> unforged (fold_left perform cs lw).1) as Hgen.
  { induction Hcs as [|c cs Hc _ IH]; intros lw Hl; [done|]. apply IH, unforged_perform; [done|].
    intros tok ->. by destruct (Hc tok). }
  apply Hgen. by intros [] ? ? ?.
Qed.
End refinement.
