(* ===== verification/Concurrent.v ===== *)
(** Programs that run at the same time on one state: trees of atomic commands, their
    interleavings, and the rule that composes them in parallel.

    A program is reasoned about on its own ([rg]): between two of its commands the state
    may move by any amount of interference, and each command is answerable for what it
    does to the others.  [pool_step] is the parallel composition: what each program
    guarantees on its own, all of them keep together, along every interleaving. *)

From stdpp Require Import base list relations.
From S2P Require Import Prelude.

(** * Programs *)
Inductive prog (W A : Type) : Type :=
| Ret (a : A)
| Atom (X : Type) (m : io W X) (k : X -> prog W A).
Arguments Ret {W A} a.
Arguments Atom {W A X} m k.

Fixpoint pbind {W A B} (p : prog W A) (f : A -> prog W B) : prog W B :=
  match p with
  | Ret a => f a
  | Atom m k => Atom m (fun x => pbind (k x) f)
  end.

Definition ptry {W E A B} (p : prog W (result E A)) (h : E -> prog W B) (f : A -> prog W B) : prog W B :=
  pbind p (fun r => match r with Ok a => f a | Err e => h e end).

(** One command. *)
Definition call {W X} (m : io W X) : prog W X := Atom m Ret.

(** A program that nobody interrupts. *)
Fixpoint alone {W A} (p : prog W A) : io W A :=
  match p with
  | Ret a => ret a
  | Atom m k => bind m (fun x => alone (k x))
  end.

Declare Scope prog_scope.
Delimit Scope prog_scope with prog.
Notation "x <- m ;; k" := (pbind m (fun x => k))
  (at level 20, m at level 99, k at level 200, only parsing) : prog_scope.
Notation "m ;;; k" := (pbind m (fun _ => k))
  (at level 100, k at level 200, right associativity, only parsing) : prog_scope.
Notation "'try' x <- m 'catch' e => h ;; k" := (ptry m (fun e => h) (fun x => k))
  (at level 20, x name, m at level 99, e name, h at level 99,
   k at level 200, only parsing) : prog_scope.

Lemma alone_bind {W A B} (p : prog W A) (f : A -> prog W B) w :
  alone (pbind p f) w = bind (alone p) (fun a => alone (f a)) w.
Proof.
  revert w. induction p as [a|X m k IH]; intros w; [done|]. cbn. unfold bind. destruct (m w). apply IH.
Qed.

Lemma alone_call {W X} (m : io W X) w : alone (call m) w = m w.
Proof. cbn. unfold bind, ret. by destruct (m w). Qed.

(** A program alone is the operation [m]. *)
Definition is_op {W A} (p : prog W A) (m : io W A) : Prop := forall w, alone p w = m w.

Lemma is_op_ret {W A} (a : A) : is_op (W := W) (Ret a) (ret a).
Proof. done. Qed.
Lemma is_op_call {W A} (m : io W A) : is_op (call m) m.
Proof. intros w. apply alone_call. Qed.
Lemma is_op_bind {W A B} (p : prog W A) m (f : A -> prog W B) g :
  is_op p m -> (forall a, is_op (f a) (g a)) -> is_op (pbind p f) (bind m g).
Proof. intros Hp Hf w. rewrite alone_bind. unfold bind. rewrite Hp. destruct (m w). apply Hf. Qed.
Lemma is_op_try {W E A B} (p : prog W (result E A)) m (h : E -> prog W B) h' (f : A -> prog W B) g :
  is_op p m -> (forall e, is_op (h e) (h' e)) -> (forall a, is_op (f a) (g a)) ->
  is_op (ptry p h f) (try_catch m h' g).
Proof. intros Hp Hh Hf. apply is_op_bind; [done|]. intros []; auto. Qed.

Ltac is_op :=
  cbv beta zeta;
  lazymatch goal with
  | |- forall _, _ => intros ?; is_op
  | |- is_op (Ret _) _ => apply is_op_ret
  | |- is_op (call _) _ => apply is_op_call
  | |- is_op (ptry _ _ _) (try_catch _ _ _) => apply is_op_try; is_op
  | |- is_op (pbind _ _) (bind _ _) => apply is_op_bind; is_op
  | |- is_op (if ?b then _ else _) _ => destruct b; is_op
  | |- is_op (match ?x with _ => _ end) _ => destruct x; is_op
  | |- is_op _ _ => try apply is_op_call
  | |- _ => idtac
  end.

(** * Interleavings *)
Section pool.
Context {W C A : Type} (code : C -> prog W A) (env : W -> W -> Prop) (may : W -> W -> Prop).

(** The shared state, and every call that was made with what is left of it. *)
Record pool := Pool { shared : W; calls : list (C * prog W A) }.

(** Calls start and make their commands in any order, meanwhile the environment moves; [may]
    says which changes of the state a run is about. *)
Inductive pstep (s : pool) : pool -> Prop :=
| p_start c : pstep s (Pool (shared s) (calls s ++ [(c, code c)]))
| p_move i c X (m : io W X) k :
    calls s !! i = Some (c, Atom m k) -> may (shared s) (m (shared s)).2 ->
    pstep s (Pool (m (shared s)).2 (<[i := (c, k (m (shared s)).1)]> (calls s)))
| p_env w : env (shared s) w -> may (shared s) w -> pstep s (Pool w (calls s)).

Definition answered (s : pool) (i : nat) (c : C) (a : A) : Prop := calls s !! i = Some (c, Ret a).

(** ** Schedules: a call starts, or makes its next [n] commands, as far as it has them *)
Inductive turn := Start (c : C) | Go (i n : nat).

Definition move (i : nat) (s : pool) : option pool :=
  '(c, p) ← calls s !! i;
  match p with
  | Ret _ => None
  | Atom m k => let '(x, w) := m (shared s) in Some (Pool w (<[i := (c, k x)]> (calls s)))
  end.

Fixpoint moves (n i : nat) (s : pool) : pool :=
  match n with
  | O => s
  | S n => match move i s with Some s' => moves n i s' | None => s end
  end.

Definition take_turn (s : pool) (t : turn) : pool :=
  match t with
  | Start c => Pool (shared s) (calls s ++ [(c, code c)])
  | Go i n => moves n i s
  end.

Definition schedule (l : list turn) (s : pool) : pool := fold_left take_turn l s.

Lemma move_step i s s' : move i s = Some s' -> may (shared s) (shared s') -> pstep s s'.
Proof.
  unfold move. destruct (calls s !! i) as [[c [a|X m k]]|] eqn:Hi; [done| |done]. cbn.
  pose proof (p_move s i c X m k Hi) as Hst. destruct (m (shared s)) as [x w] eqn:Hm. intros [= <-]. exact Hst.
Qed.

(** Every command of a schedule passes a test. *)
Section tested.
Context (ok : W -> W -> bool).

Fixpoint moves_pass (n i : nat) (s : pool) : bool :=
  match n with
  | O => true
  | S n => match move i s with Some s' => ok (shared s) (shared s') && moves_pass n i s' | None => true end
  end.

Fixpoint schedule_passes (l : list turn) (s : pool) : bool :=
  match l with
  | [] => true
  | t :: l => (match t with Start _ => true | Go i n => moves_pass n i s end) && schedule_passes l (take_turn s t)
  end.

Context (ok_may : forall w w', ok w w' = true -> may w w').

Lemma moves_steps n i s : moves_pass n i s = true -> rtc pstep s (moves n i s).
Proof.
  revert s. induction n as [|n IH]; intros s; [intros _; apply rtc_refl|]. cbn.
  destruct (move i s) as [s1|] eqn:Hm; [|intros _; apply rtc_refl]. intros [Hok Hp]%andb_true_iff.
  eapply rtc_l; [eapply move_step; [done|by apply ok_may]|by apply IH].
Qed.

Lemma turns_reach l s : schedule_passes l s = true -> rtc pstep s (schedule l s).
Proof.
  revert s. induction l as [|t l IH]; intros s; [intros _; apply rtc_refl|]. cbn. intros [Ht Hl]%andb_true_iff.
  etransitivity; [|by apply IH]. destruct t as [c|i n]; [apply rtc_once; constructor|by apply moves_steps].
Qed.
End tested.

Definition untested (w w' : W) : bool := true.

Lemma turns_untested l s : schedule_passes untested l s = true.
Proof.
  assert (forall n i s, moves_pass untested n i s = true) as Hm.
  { intros n i. induction n as [|n IH]; intros s1; [done|]. cbn. destruct (move i s1); [apply IH|done]. }
  revert s. induction l as [|[c|i n] l IH]; intros s; cbn; [done|apply IH|]. by rewrite Hm, IH.
Qed.

(** Calls stay in the list, under their number. *)
Lemma calls_step s s' i c p : pstep s s' -> calls s !! i = Some (c, p) -> exists p', calls s' !! i = Some (c, p').
Proof.
  intros Hst Hi. destruct Hst as [c'|j c' X m k Hj _|w]; cbn.
  - exists p. by apply lookup_app_l_Some.
  - destruct (decide (j = i)) as [->|Hne]; [|exists p; by rewrite list_lookup_insert_ne].
    rewrite Hi in Hj. injection Hj as -> ->. eexists. apply list_lookup_insert_eq. by eapply lookup_lt_Some.
  - by exists p.
Qed.

Lemma length_step s s' : pstep s s' -> length (calls s) <= length (calls s').
Proof. destruct 1; cbn; rewrite ?length_app, ?length_insert; lia. Qed.
End pool.
Arguments pool : clear implicits.
Arguments Pool {W C A} shared calls.
Arguments shared {W C A} p.
Arguments calls {W C A} p.

(** * Reasoning about one program among others *)
Section rg.
Context {W A T : Type}.
Context (inv : W -> Prop).            (** what every program keeps *)
Context (R : W -> W -> Prop).         (** how the state moves, whoever moves it *)
Context (G : T -> (W -> Prop) -> W -> W -> T -> Prop).
Context (Q : T -> (W -> Prop) -> A -> Prop).

Definition seen_at (H : W -> Prop) (w : W) : W -> Prop := fun v => H v \/ v = w.

(** Between two commands the state may become anything later than all the states [H] the
    program has seen.  [t] is what the program owns; [G t H w w' t'] is what its command
    owes the others; the answer meets [Q], which may speak of the states seen. *)
Fixpoint rg (t : T) (H : W -> Prop) (p : prog W A) : Prop :=
  match p with
  | Ret a => Q t H a
  | Atom m k => forall w, inv w -> (forall v, H v -> R v w) ->
      wp m (fun x w' => inv w' /\ R w w' /\ exists t', G t (seen_at H w) w w' t' /\
        rg t' (seen_at (seen_at H w) w') (k x)) w
  end.

Lemma rg_assoc {B D} (p : prog W B) (g : B -> prog W D) (f : D -> prog W A) t H :
  rg t H (pbind p (fun b => pbind (g b) f)) -> rg t H (pbind (pbind p g) f).
Proof.
  revert t H. induction p as [b|X m k IH]; intros t H; [done|]. cbn. intros Hp w Hi Hb.
  eapply wp_mono; [by apply Hp|]. intros x w' (Hi' & HR & t' & HG & Hk). split_and!; [done|done|].
  exists t'. split; [done|by apply IH].
Qed.
End rg.

(** * Parallel composition *)
Section compose.
Context {W C A T : Type} (code : C -> prog W A) (env : W -> W -> Prop) (may : W -> W -> Prop).
Context (inv : W -> Prop) (R : W -> W -> Prop) `{!PreOrder R}.
Context (G : C -> T -> (W -> Prop) -> W -> W -> T -> Prop) (Q : C -> T -> (W -> Prop) -> A -> Prop) (t0 : T).

#[local] Notation step := (pstep code env may).
Implicit Types (s : pool W C A) (ok : W -> list T -> Prop) (c : C).

(** What the programs own together fits, and goes on fitting. *)
Record consistent ok : Prop := {
  ok_start : forall w ts, ok w ts -> ok w (ts ++ [t0]);
  ok_env : forall w w' ts, inv w -> ok w ts -> env w w' -> may w w' -> ok w' ts;
  ok_move : forall w w' ts i c t H t', inv w -> ok w ts -> R w w' -> may w w' -> ts !! i = Some t -> G c t H w w' t' ->
    ok w' (<[i := t']> ts);
}.

(** One more fact that keeps beside [ok]. *)
Lemma consistent_and ok (P : W -> list T -> Prop) :
  consistent ok ->
  (forall w ts, P w ts -> P w (ts ++ [t0])) ->
  (forall w w' ts, inv w -> P w ts -> env w w' -> may w w' -> P w' ts) ->
  (forall w w' ts i c t H t', P w ts -> R w w' -> may w w' -> ts !! i = Some t -> G c t H w w' t' -> P w' (<[i := t']> ts)) ->
  consistent (fun w ts => ok w ts /\ P w ts).
Proof.
  intros [Hs He Hm] Ps Pe Pm. split.
  - intros w ts [? ?]. auto.
  - intros w w' ts Hi [? ?] Hw Hm'. split; [by eapply He|by eapply Pe].
  - intros w w' ts i c t V t' Hi [? ?] HR Hm' Ht HG. split; [by eapply Hm|by eapply Pm].
Qed.

(** Some of many facts, of those that hold for good. *)
Lemma consistent_some {I} (ok : I -> W -> list T -> Prop) (P : I -> Prop) :
  (forall i, consistent (ok i)) -> consistent (fun w ts => exists i, ok i w ts /\ P i).
Proof.
  intros Hok. split.
  - intros w ts (i & Hi & HP). exists i. split; [by apply (ok_start _ (Hok i))|done].
  - intros w w' ts Hinv (i & Hi & HP) He Hm. exists i. split; [by eapply (ok_env _ (Hok i))|done].
  - intros w w' ts j c t H t' Hinv (i & Hi & HP) HR Hm Ht HG. exists i. split; [by eapply (ok_move _ (Hok i))|done].
Qed.

(** [v] was the state at a moment after call [i] began, and after [s0] if [i] began then. *)
Definition occurred s0 (i : nat) s (v : W) : Prop :=
  exists s1, shared s1 = v /\ i < length (calls s1) /\ rtc step s1 s /\
    (length (calls s0) <= i -> rtc step s0 s1).

Record call_ok s0 s (i : nat) c (p : prog W A) (t : T) (H : W -> Prop) : Prop := {
  co_before : forall v, H v -> R v (shared s);
  co_seen : forall v, H v -> occurred s0 i s v;
  co_rg : rg inv R (G c) (Q c) t H p;
}.

Record pool_ok ok s0 s : Prop := {
  po_reach : rtc step s0 s;
  po_inv : inv (shared s);
  po_calls : exists ts, ok (shared s) ts /\ length ts = length (calls s) /\
    forall i c p t, calls s !! i = Some (c, p) -> ts !! i = Some t -> exists H, call_ok s0 s i c p t H;
}.

Context (code_ok : forall c, rg inv R (G c) (Q c) t0 (fun _ => False) (code c)).
Context (env_ok : forall w w', inv w -> env w w' -> inv w' /\ R w w').

Lemma pool_ok_start ok s : inv (shared s) -> calls s = [] -> ok (shared s) [] -> pool_ok ok s s.
Proof. intros Hi Hc Ho. split; [done|done|]. exists []. by rewrite Hc. Qed.

Lemma pool_ok_rebase ok s0 s : pool_ok ok s0 s -> pool_ok ok s s.
Proof.
  intros [Hr Hi (ts & Ho & Hl & Hc)]. split; [done|done|]. exists ts. split_and!; [done|done|].
  intros i c p t Hp Ht. destruct (Hc i c p t Hp Ht) as (H & [Hb Hs Hg]). exists H. split; [done| |done].
  intros v (s1 & ? & ? & ? & _)%Hs. exists s1. split_and!; [done..|].
  apply lookup_lt_Some in Hp. lia.
Qed.

Lemma pool_ok_change ok ok' s0 s :
  pool_ok ok s0 s -> (forall ts, ok (shared s) ts -> ok' (shared s) ts) -> pool_ok ok' s0 s.
Proof. intros [Hr Hi (ts & Ho & Hrest)] Hw. split; [done|done|]. exists ts. by split; [apply Hw|]. Qed.

Lemma occurred_step s0 i s s' v : step s s' -> occurred s0 i s v -> occurred s0 i s' v.
Proof. intros Hst (s1 & ? & ? & ? & ?). exists s1. split_and!; [done|done|by eapply rtc_r|done]. Qed.

Lemma occurred_now s0 i s c p : rtc step s0 s -> calls s !! i = Some (c, p) -> occurred s0 i s (shared s).
Proof. intros Hr Hi. exists s. split_and!; [done|by eapply lookup_lt_Some|done|done]. Qed.

Lemma call_ok_step s0 s s' i c p t H :
  step s s' -> R (shared s) (shared s') -> call_ok s0 s i c p t H -> call_ok s0 s' i c p t H.
Proof.
  intros Hst HR [Hb Hs Hg]. split; [|by intros v Hv; eapply occurred_step, Hs|done].
  intros v Hv. etransitivity; [by apply Hb|done].
Qed.

(** The command of a call, with what it guarantees. *)
Lemma move_ok s0 s i c X (m : io W X) k t H :
  inv (shared s) -> call_ok s0 s i c (Atom m k) t H ->
  let w' := (m (shared s)).2 in
  inv w' /\ R (shared s) w' /\ exists t', G c t (seen_at H (shared s)) (shared s) w' t' /\
    rg inv R (G c) (Q c) t' (seen_at (seen_at H (shared s)) w') (k (m (shared s)).1).
Proof. intros Hi [Hb _ Hg]. exact (Hg (shared s) Hi Hb). Qed.

(** The command of a call, with what is known of the owners after it. *)
Lemma pool_move_to ok ok' s0 s i c X (m : io W X) k :
  pool_ok ok s0 s -> calls s !! i = Some (c, Atom m k) -> may (shared s) (m (shared s)).2 ->
  (forall ts t H t', ok (shared s) ts -> ts !! i = Some t -> (forall v, H v -> occurred s0 i s v) ->
     R (shared s) (m (shared s)).2 -> G c t H (shared s) (m (shared s)).2 t' -> ok' (m (shared s)).2 (<[i := t']> ts)) ->
  pool_ok ok' s0 (Pool (m (shared s)).2 (<[i := (c, k (m (shared s)).1)]> (calls s))).
Proof.
  intros [Hr Hi (ts & Ho & Hl & Hc)] Hp Hmay Hok'. pose proof (p_move code env may s i c X m k Hp Hmay) as Hst.
  destruct (lookup_lt_is_Some_2 ts i) as [t Ht]; [rewrite Hl; by eapply lookup_lt_Some|].
  destruct (Hc i c _ t Hp Ht) as (H & Hcall).
  destruct (move_ok _ _ _ _ _ _ _ _ _ Hi Hcall) as (Hi' & HR & t' & HG & Hg).
  split; [by eapply rtc_r|done|]. exists (<[i := t']> ts). split_and!; cbn.
  - eapply Hok'; [done|done| |done|exact HG].
    intros v [Hv| ->]; [by apply (co_seen _ _ _ _ _ _ _ Hcall)|by eapply occurred_now].
  - by rewrite !length_insert.
  - intros j d q u Hq Hu. destruct (decide (i = j)) as [<-|Hne].
    + rewrite list_lookup_insert_eq in Hq by by eapply lookup_lt_Some.
      rewrite list_lookup_insert_eq in Hu by by eapply lookup_lt_Some.
      injection Hq as <- <-. injection Hu as <-. eexists. split; [| |exact Hg]; cbn.
      * intros v [[Hv| ->]| ->]; [|done|done]. etransitivity; [by apply (co_before _ _ _ _ _ _ _ Hcall)|done].
      * intros v [[Hv| ->]| ->].
        -- eapply occurred_step; [exact Hst|]. by apply (co_seen _ _ _ _ _ _ _ Hcall).
        -- eapply occurred_step; [exact Hst|]. by eapply occurred_now.
        -- eapply (occurred_now _ _ (Pool _ _)); [by eapply rtc_r|]. cbn. apply list_lookup_insert_eq. by eapply lookup_lt_Some.
    + rewrite list_lookup_insert_ne in Hq by done. rewrite list_lookup_insert_ne in Hu by done.
      destruct (Hc j d q u Hq Hu) as (H' & Hcall'). exists H'. by eapply call_ok_step.
Qed.

Lemma pool_move_ok ok s0 s i c X (m : io W X) k :
  consistent ok -> pool_ok ok s0 s -> calls s !! i = Some (c, Atom m k) -> may (shared s) (m (shared s)).2 ->
  pool_ok ok s0 (Pool (m (shared s)).2 (<[i := (c, k (m (shared s)).1)]> (calls s))).
Proof.
  intros Hco Hok Hp Hmay. eapply pool_move_to; [done..|]. intros ts t H t' Ho Ht _ HR HG.
  by eapply (ok_move _ Hco); [apply (po_inv _ _ _ Hok)|..|exact HG].
Qed.

Lemma pool_ok_step ok s0 s s' : consistent ok -> pool_ok ok s0 s -> step s s' -> pool_ok ok s0 s'.
Proof.
  intros Hco Hok Hst. destruct (Hok) as [Hr Hi (ts & Ho & Hl & Hc)].
  assert (rtc step s0 s') as Hr' by by eapply rtc_r.
  destruct Hst as [c|i c X m k Hp Hmay|w Hw Hmay]; [|by apply pool_move_ok|].
  - split; [done|done|]. exists (ts ++ [t0]). split_and!; [by apply (ok_start _ Hco)|cbn; rewrite !length_app; cbn; lia|].
    intros i d p t Hp Ht. cbn in Hp. apply lookup_app_Some in Hp as [Hp|[Hge Hp]].
    + destruct (lookup_lt_is_Some_2 ts i) as [u Hu]; [rewrite Hl; by eapply lookup_lt_Some|].
      rewrite (lookup_app_l_Some _ _ _ _ Hu) in Ht. injection Ht as ->.
      destruct (Hc i d p t Hp Hu) as (H & Hcall). exists H. by eapply (call_ok_step _ _ _ _ _ _ _ _ (p_start code env may s c)).
    + rewrite lookup_app_r in Ht by lia. rewrite Hl in Ht.
      apply list_elem_of_lookup_2, list_elem_of_singleton in Hp. injection Hp as -> ->.
      apply list_elem_of_lookup_2, list_elem_of_singleton in Ht. subst t.
      exists (fun _ => False). by split.
  - destruct (env_ok _ _ Hi Hw) as [Hi' HR]. split; [done|done|]. exists ts. split_and!; [exact (ok_env _ Hco _ _ _ Hi Ho Hw Hmay)|done|].
    intros i c p t Hp Ht. destruct (Hc i c p t Hp Ht) as (H & Hcall). exists H.
    by eapply (call_ok_step _ _ _ _ _ _ _ _ (p_env code env may s w Hw Hmay)).
Qed.

Lemma pool_ok_steps ok s0 s s' : consistent ok -> pool_ok ok s0 s -> rtc step s s' -> pool_ok ok s0 s'.
Proof. intros Hco Hok Hst. revert Hok. induction Hst as [s|s s1 s' H1 _ IH]; [done|]. intros Hok. by eapply IH, pool_ok_step. Qed.

(** What moved the state in a step: the environment, or a command with its guarantee. *)
Lemma pool_step ok s0 s s' : pool_ok ok s0 s -> step s s' ->
  shared s' = shared s \/ env (shared s) (shared s') \/
  exists i c p t t' H, calls s !! i = Some (c, p) /\ (forall v, H v -> occurred s0 i s v) /\
    R (shared s) (shared s') /\ G c t H (shared s) (shared s') t'.
Proof.
  intros [Hr Hi (ts & _ & Hl & Hc)] Hst. destruct Hst as [c|i c X m k Hp _|w Hw _]; [by left| |by right; left].
  right. right. destruct (lookup_lt_is_Some_2 ts i) as [t Ht]; [rewrite Hl; by eapply lookup_lt_Some|].
  destruct (Hc i c _ t Hp Ht) as (H & Hcall).
  destruct (move_ok _ _ _ _ _ _ _ _ _ Hi Hcall) as (Hi' & HR & t' & HG & _).
  exists i, c, (Atom m k), t, t', (seen_at H (shared s)). split_and!; [done| |done|done].
  intros v [Hv| ->]; [by apply (co_seen _ _ _ _ _ _ _ Hcall)|by eapply occurred_now].
Qed.

Lemma pool_moves ok s0 s s' : pool_ok ok s0 s -> step s s' -> R (shared s) (shared s').
Proof.
  intros Hok Hst. destruct (pool_step _ _ _ _ Hok Hst) as [->|[He|(i & c & p & t & t' & H & _ & _ & HR & _)]]; [done| |done].
  by apply (env_ok _ _ (po_inv _ _ _ Hok)).
Qed.

Lemma pool_moves_rtc ok s0 s s' : consistent ok -> pool_ok ok s0 s -> rtc step s s' -> R (shared s) (shared s').
Proof.
  intros Hco Hok Hst. revert Hok. induction Hst as [s|s s1 s' H1 _ IH]; [done|]. intros Hok.
  etransitivity; [by eapply pool_moves|by eapply IH, pool_ok_step].
Qed.

Lemma pool_answer ok s0 s i c a : pool_ok ok s0 s -> answered s i c a ->
  exists H ts t, (forall v, H v -> occurred s0 i s v) /\ ok (shared s) ts /\ ts !! i = Some t /\ Q c t H a.
Proof.
  intros [Hr Hi (ts & Ho & Hl & Hc)] Ha. destruct (lookup_lt_is_Some_2 ts i) as [t Ht]; [rewrite Hl; by eapply lookup_lt_Some|].
  destruct (Hc i c _ t Ha Ht) as (H & [_ Hs Hq]). by exists H, ts, t.
Qed.
End compose.
