(* ===== verification/AuthConcurrent.v ===== *)
(** The auth use case as programs whose commands interleave
    (src/internal/business/usecases/auth): the operations of AuthUsecase.v once more, cut
    at every Redis command, every call of the users use case, the token service and the
    mailer, where another request may come in between.  AuthAlone.v shows that
    uninterrupted they are the operations of AuthUsecase.v. *)

From Stdlib Require Import Ascii String ZArith.
From stdpp Require Import base gmap strings list pretty relations.
From S2P Require Import Prelude GoStrings AppError Records Services World Domain Caches.
From S2P Require Import UsersUsecase Jwt OtpCode AuthUsecase AuthLemmas AuthSystem Sessions SessionsProps Concurrent.

Open Scope string_scope.

Module AuthProg.
Section auth.
Context `{Platform} `{!OTPMailer} `{!UsersUsecase} `{!JWTService}.
Variable uc : Auth.usecase.
Open Scope prog_scope.

(** One command each. *)
Definition users {A} (m : io UState A) : prog World A := call (zoom l_u m).
Definition shared_base {A} (m : io Base A) : prog World A := call (zoom l_wbase m).
Definition mail_out {A} (m : io mail A) : prog World A := call (zoom l_mail m).
Definition cache_Set (k v : string) : prog World (result error unit) := call (Auth.cache_Set uc k v).
Definition cache_Get (k : string) : prog World (result error string) := call (Auth.cache_Get k).
Definition cache_Del (k : string) : prog World (result error unit) := call (Auth.cache_Del k).
Definition cache_Incr (k : string) : prog World (result error Z) := call (Auth.cache_Incr k).
Definition cache_Expire (k : string) (d : Duration) : prog World (result error unit) :=
  call (Auth.cache_Expire k d).

(** ** auth.impl.go *)
Definition recordTokenCutoff (userID : string) (when : Time) : prog World unit :=
  let key := TokenCutoffKey userID in
  try _ok <- cache_Set key (Itoa (time_Unix when)) catch _err => Ret tt ;;
  cache_Expire key Auth.tokenCutoffTTL ;;; Ret tt.

Definition rememberRefresh (pair : TokenPair) : prog World (result error unit) :=
  now <- shared_base Now ;;
  let ttl := time_Sub (RefreshExpiresAt pair) now in
  if (ttl <=? 0)%Z then Ret (Err (EText "refresh token already expired")) else
  try _ok <- cache_Set (RefreshKey (RefreshJTI pair)) (RefreshJTI pair)
  catch err => Ret (Err err) ;;
  cache_Expire (RefreshKey (RefreshJTI pair)) ttl.

(** The attempt counter of Login, VerifyOTP and ForgotPassword: the number of
    attempts, 0 when Redis fails; the first attempt starts the window. *)
Definition count_attempt (key : string) (ttl : Duration) : prog World Z :=
  try attempts <- cache_Incr key catch _err => Ret 0%Z ;;
  (if (attempts =? 1)%Z then cache_Expire key ttl ;;; Ret tt else Ret tt) ;;;
  Ret attempts.

(** ** auth.register.go *)
Definition Register (in_ : User.t) : prog World (result error User.t) :=
  try stored <- users (users_Store in_) catch err => Ret (Err err) ;;
  Ret (Ok stored).

(** ** auth.login.go *)

(** From the lookup on: what follows the brute-force guard. *)
Definition Login_checked (email password attemptsKey : string)
    : prog World (result error Auth.LoginResponse) :=
  try user <- users (users_GetByEmail email)
  catch _err =>
    (let _ := ValidateHash password Auth.dummyBcryptHash in
     Ret (Err (Unauthorized "invalid email or password"))) ;;
  if negb (User.Active user) then Ret (Err (Forbidden "account is not activated")) else
  if negb (VerifyPassword user password)
  then Ret (Err (Unauthorized "invalid email or password")) else
  try pair <- shared_base (jwt_GenerateTokenPair (User.ID user) (IsAdmin user) (User.Email user))
  catch mintErr => Ret (Err (InternalCause (EWrapped "generate token" mintErr))) ;;
  try _ok <- rememberRefresh pair
  catch persistErr => Ret (Err (InternalCause (EWrapped "persist refresh" persistErr))) ;;
  cache_Del attemptsKey ;;;
  Ret (Ok (Auth.MkLogin user (Jwt.AccessToken pair) (Jwt.RefreshToken pair))).

Definition Login (email password : string) : prog World (result error Auth.LoginResponse) :=
  let email := NormalizeEmail email in
  let attemptsKey := LoginAttemptsKey email in
  if (0 <? Auth.LoginMaxAttempts (Auth.cfg uc))%Z then
    attempts <- count_attempt attemptsKey (Auth.LoginLockoutTTL (Auth.cfg uc)) ;;
    if (Auth.LoginMaxAttempts (Auth.cfg uc) <? attempts)%Z
    then Ret (Err (Forbidden "too many failed login attempts, please try again later"))
    else Login_checked email password attemptsKey
  else Login_checked email password attemptsKey.

(** ** auth.send_otp.go; [fuel] bounds the rounds of the code generator *)
Definition SendOTP (fuel : nat) (email : string) : prog World (option (result error unit)) :=
  let email := NormalizeEmail email in
  try user <- users (users_GetByEmail email)
  catch _err => Ret (Some (Err (NotFound "email not found"))) ;;
  if User.Active user then Ret (Some (Err (BadRequest "account already activated"))) else
  generated <- shared_base (GenerateOTPCode fuel 6) ;;
  match generated with
  | None => Ret None
  | Some (Err otpErr) => Ret (Some (Err (InternalCause (EWrapped "generate otp" otpErr))))
  | Some (Ok code) =>
      try _ok <- mail_out (mailer_SendOTP code email)
      catch mailErr =>
        (shared_base (ObserveMailerOp "queue_full") ;;;
         Ret (Some (Err (InternalCause (EWrapped "send otp" mailErr))))) ;;
      let otpKey := UserOTPKey email in
      stored <- cache_Set otpKey code ;;
      shared_base (ObserveCacheOp "redis" "set" (if is_Ok stored then "ok" else "error")) ;;;
      cache_Del (OTPAttemptsKey email) ;;;
      Ret (Some (Ok tt))
  end.

(** ** auth.verify_otp.go *)
Definition VerifyOTP (email otpCode : string) : prog World (result error unit) :=
  let email := NormalizeEmail email in
  try user <- users (users_GetByEmail email)
  catch _err => Ret (Err (NotFound "email not found")) ;;
  if User.Active user then Ret (Err (BadRequest "account already activated")) else
  let attemptsKey := OTPAttemptsKey email in
  attempts <- count_attempt attemptsKey (Auth.OTPTTL (Auth.cfg uc)) ;;
  if (Auth.OTPMaxAttempts (Auth.cfg uc) <? attempts)%Z
  then Ret (Err (Forbidden "too many invalid otp attempts, please request a new code")) else
  let otpKey := UserOTPKey email in
  try otpRedis <- cache_Get otpKey
  catch _err =>
    (shared_base (ObserveCacheOp "redis" "get" "miss") ;;;
     Ret (Err (BadRequest "otp code expired or not found"))) ;;
  shared_base (ObserveCacheOp "redis" "get" "hit") ;;;
  (* subtle.ConstantTimeCompare: equal lengths and equal bytes *)
  if negb (otpRedis =? otpCode)%string then Ret (Err (BadRequest "invalid otp code")) else
  try _ok <- users (users_Activate (User.ID user)) catch err => Ret (Err err) ;;
  cache_Del otpKey ;;;
  cache_Del attemptsKey ;;;
  Ret (Ok tt).

(** ** auth.refresh.go *)
Definition Refresh (refreshToken : string) : prog World (result error Auth.LoginResponse) :=
  try claims <- shared_base (jwt_ParseRefreshToken refreshToken)
  catch _err => Ret (Err (Unauthorized "invalid refresh token")) ;;
  try _live <- cache_Get (RefreshKey (Claims.ID claims))
  catch _err => Ret (Err (Unauthorized "refresh token has been revoked")) ;;
  try user <- users (users_GetByEmail (Claims.Email claims))
  catch _err => Ret (Err (Unauthorized "user no longer exists")) ;;
  if negb (User.Active user) then Ret (Err (Forbidden "account is not activated")) else
  let cutoff := TokensRevokedBefore user in
  if negb (time_IsZero cutoff)
     && match Claims.IssuedAt claims with Some iat => time_Before iat cutoff | None => false end
  then Ret (Err (Unauthorized "refresh token has been revoked")) else
  try pair <- shared_base (jwt_GenerateTokenPair (User.ID user) (IsAdmin user) (User.Email user))
  catch mintErr => Ret (Err (InternalCause (EWrapped "generate token" mintErr))) ;;
  try _ok <- rememberRefresh pair
  catch persistErr => Ret (Err (InternalCause (EWrapped "persist refresh" persistErr))) ;;
  cache_Del (RefreshKey (Claims.ID claims)) ;;;
  Ret (Ok (Auth.MkLogin user (Jwt.AccessToken pair) (Jwt.RefreshToken pair))).

(** ** auth.logout.go *)
Definition Logout (refreshToken : string) : prog World (result error unit) :=
  try claims <- shared_base (jwt_ParseRefreshToken refreshToken)
  catch _err => Ret (Err (Unauthorized "invalid refresh token")) ;;
  try _ok <- cache_Del (RefreshKey (Claims.ID claims))
  catch delErr => Ret (Err (InternalCause (EWrapped "revoke refresh" delErr))) ;;
  Ret (Ok tt).

(** ** auth.change_password.go *)
Definition ChangePassword (userID currentPassword newPassword : string)
    : prog World (result error unit) :=
  if (newPassword =? "")%string then Ret (Err (BadRequest "new password is required")) else
  try user <- users (users_GetByID userID) catch err => Ret (Err err) ;;
  if negb (VerifyPassword user currentPassword)
  then Ret (Err (Unauthorized "current password is incorrect")) else
  try user <- shared_base (Domain.ChangePassword user newPassword (Auth.BcryptCost (Auth.cfg uc)))
  catch hashErr =>
    (if errors_Is hashErr ErrEmptyPassword then Ret (Err (BadRequest (Error hashErr)))
     else Ret (Err (InternalCause (EWrapped "hash new password" hashErr)))) ;;
  try _ok <- users (users_UpdatePassword (Some user)) catch err => Ret (Err err) ;;
  match User.PasswordChangedAt user with
  | Some when => recordTokenCutoff userID when ;;; Ret (Ok tt)
  | None => Ret (Ok tt)
  end.

(** ** auth.forgot_password.go *)
Definition ForgotPassword_limited (email : string) : prog World (result error unit) :=
  try token <- shared_base generateResetToken
  catch tokenErr => Ret (Err (InternalCause (EWrapped "generate reset token" tokenErr))) ;;
  try user <- users (users_GetByEmail email)
  catch lookupErr =>
    (if bool_decide (error_type lookupErr = Some ErrTypeNotFound) then
       (let decoyKey := PasswordResetKey token in
        cache_Set decoyKey "decoy" ;;;
        cache_Expire decoyKey (Auth.PasswordResetTTL (Auth.cfg uc)) ;;;
        cache_Del decoyKey ;;;
        Ret (Ok tt))
     else Ret (Err lookupErr)) ;;
  prior <- cache_Get (UserResetIndexKey (User.ID user)) ;;
  match prior with
  | Ok prior => if negb (prior =? "")%string
                then cache_Del (PasswordResetKey prior) ;;; Ret tt else Ret tt
  | Err _ => Ret tt
  end ;;;
  try _ok <- cache_Set (PasswordResetKey token) (User.ID user)
  catch setErr => Ret (Err (InternalCause (EWrapped "persist reset token" setErr))) ;;
  cache_Expire (PasswordResetKey token) (Auth.PasswordResetTTL (Auth.cfg uc)) ;;;
  idx <- cache_Set (UserResetIndexKey (User.ID user)) token ;;
  match idx with
  | Err _ => Ret tt
  | Ok _ => cache_Expire (UserResetIndexKey (User.ID user)) (Auth.PasswordResetTTL (Auth.cfg uc)) ;;; Ret tt
  end ;;;
  try _ok <- mail_out (mailer_SendPasswordReset token email)
  catch mailErr => Ret (Err (InternalCause (EWrapped "send reset email" mailErr))) ;;
  Ret (Ok tt).

Definition ForgotPassword (email : string) : prog World (result error unit) :=
  let email := NormalizeEmail email in
  if (0 <? Auth.ForgotMaxAttempts (Auth.cfg uc))%Z then
    attempts <- count_attempt (ForgotAttemptsKey email) (Auth.ForgotLockoutTTL (Auth.cfg uc)) ;;
    if (Auth.ForgotMaxAttempts (Auth.cfg uc) <? attempts)%Z
    then Ret (Err (Forbidden "too many password reset requests, please try again later"))
    else ForgotPassword_limited email
  else ForgotPassword_limited email.

(** ** auth.reset_password.go *)
Definition ResetPassword (token newPassword : string) : prog World (result error unit) :=
  if (newPassword =? "")%string then Ret (Err (BadRequest "new password is required")) else
  if (token =? "")%string then Ret (Err (BadRequest "reset token is required")) else
  try userID <- cache_Get (PasswordResetKey token)
  catch _err => Ret (Err (Unauthorized "reset token is invalid or expired")) ;;
  if (userID =? "")%string then Ret (Err (Unauthorized "reset token is invalid or expired")) else
  try user <- users (users_GetByID userID) catch err => Ret (Err err) ;;
  try user <- shared_base (Domain.ChangePassword user newPassword (Auth.BcryptCost (Auth.cfg uc)))
  catch hashErr =>
    (if errors_Is hashErr ErrEmptyPassword then Ret (Err (BadRequest (Error hashErr)))
     else Ret (Err (InternalCause (EWrapped "hash reset password" hashErr)))) ;;
  try _ok <- users (users_UpdatePassword (Some user)) catch err => Ret (Err err) ;;
  cache_Del (PasswordResetKey token) ;;;
  cache_Del (UserResetIndexKey userID) ;;;
  match User.PasswordChangedAt user with
  | Some when => recordTokenCutoff userID when ;;; Ret (Ok tt)
  | None => Ret (Ok tt)
  end.

(** The call of [auth_call] with its answer. *)
Definition plain {A} (p : prog World (result error A)) : prog World answer :=
  r <- p ;; Ret (APlain (Some (match r with Ok _ => Ok tt | Err e => Err e end))).

Definition code (c : auth_call) : prog World answer :=
  match c with
  | CRegister user => plain (Register user)
  | CLogin email password => r <- Login email password ;; Ret (ASession r)
  | CSendOTP fuel email => r <- SendOTP fuel email ;; Ret (APlain r)
  | CVerifyOTP email otpCode => plain (VerifyOTP email otpCode)
  | CRefresh tok => r <- Refresh tok ;; Ret (ASession r)
  | CLogout tok => plain (Logout tok)
  | CChangePassword id cur new => plain (ChangePassword id cur new)
  | CForgotPassword email => plain (ForgotPassword email)
  | CResetPassword token new => plain (ResetPassword token new)
  end.
End auth.
End AuthProg.

(** The family of a key, and a program whose next command is at the head. *)
Ltac key_of k :=
  lazymatch k with
  | RefreshKey ?s => constr:(KRefresh s)
  | UserOTPKey ?s => constr:(KUserOTP s)
  | OTPAttemptsKey ?s => constr:(KOTPAttempts s)
  | LoginAttemptsKey ?s => constr:(KLoginAttempts s)
  | ForgotAttemptsKey ?s => constr:(KForgotAttempts s)
  | PasswordResetKey ?s => constr:(KPasswordReset s)
  | UserResetIndexKey ?s => constr:(KUserResetIndex s)
  | TokenCutoffKey ?s => constr:(KPasswordCutoff s)
  end.

Ltac tidy :=
  unfold AuthProg.users, AuthProg.shared_base, AuthProg.mail_out, AuthProg.cache_Set, AuthProg.cache_Get,
    AuthProg.cache_Del, AuthProg.cache_Incr, AuthProg.cache_Expire, AuthProg.plain, ptry,
    ObserveCacheOp, ObserveMailerOp;
  cbn [pbind call]; cbv beta zeta.
