(* ===== verification/AuthConcurrentProps.v ===== *)
(** Concurrent requests to the auth service: what holds however their Redis commands and
    their calls of the users use case, the token service and the mailer interleave. *)

From Stdlib Require Import Ascii String ZArith.
From stdpp Require Import base gmap strings list pretty relations.
From S2P Require Import Prelude GoStrings AppError Records Services World Domain Repository Caches.
From S2P Require Import UsersUsecase Jwt OtpCode AuthUsecase AuthLemmas AuthEffects AuthSystem CodeProps.
From S2P Require Import RedisTypes Sessions SessionsProps Concurrent AuthConcurrent.

Open Scope string_scope.

Section props.
Context `{PlatformLaws} `{!OTPMailer} `{!UsersUsecase} `{!UsersContract}
  `{!JWTService} `{!JWTContract}.
#[local] Existing Instances pl_text pl_redis pl_sql pl_rist pl_rng.
Variable uc : Auth.usecase.

(** * What each request may rely on and what it owes the others *)

(** A refresh identifier Redis would accept. *)
Definition live_id (w : World) (jti : string) : Prop := is_Some (keys w !! RefreshKey jti).

Record sound_state (w : World) : Prop := {
  so_users : users_inv (w_u w);
  so_typed : well_typed (keys w);
}.

(** How the state moves, whoever moves it. *)
Record later (w w' : World) : Prop := {
  la_rows : evolves (rows w) (rows w');
  la_issued : issued w ⊆ issued w';
}.

#[export] Instance later_preorder : PreOrder later.
Proof.
  split; [by intros w; split|]. intros w1 w2 w3 [] []. split; by etransitivity.
Qed.

Definition seen (P : World -> Prop) (V : World -> Prop) : Prop := exists v, V v /\ P v.

(** A change of the accounts and what entitled the call to it at a moment it has seen: the
    code or reset token Redis held, the row whose password it verified. *)
Inductive authorised (w : World) (V : World -> Prop) : auth_call -> gmap string Users.t -> Prop :=
| au_none c : authorised w V c (rows w)
| au_register x id r :
    rows w !! id = None -> Users.Active r = false -> Users.RoleId r = User.RoleID x ->
    authorised w V (CRegister x) (<[id := r]> (rows w))
| au_activate email otpCode c now :
    seen (fun v => otp_stored v email otpCode) V ->
    seen (fun v => known (rows v) c) V -> User.Email c = NormalizeEmail email -> User.Active c = false ->
    authorised w V (CVerifyOTP email otpCode) (update_live (User.ID c) (activated now true) (rows w))
| au_change id cur new usr T' :
    seen (fun v => stored_live (rows v) usr) V -> sql_uuid id = Some (User.ID usr) ->
    VerifyPassword usr cur = true -> password_replaced (rows w) T' usr new ->
    authorised w V (CChangePassword id cur new) T'
| au_reset token new userID usr T' :
    seen (fun v => reset_stored v token userID) V ->
    seen (fun v => stored_live (rows v) usr) V -> sql_uuid userID = Some (User.ID usr) ->
    password_replaced (rows w) T' usr new ->
    authorised w V (CResetPassword token new) T'.

(** A call owns the refresh identifiers it has minted and not stored: nobody else stores
    one, and none comes to life in another way. *)
Definition opens (own own' : gset string) (m m' : gmap string rentry) : Prop :=
  forall j, is_Some (m' !! RefreshKey j) -> is_Some (m !! RefreshKey j) \/ j ∈ own /\ j ∉ own'.

Record guarantees (c : auth_call) (own : gset string) (V : World -> Prop) (w w' : World) (own' : gset string)
    : Prop := {
  gu_table : authorised w V c (rows w');
  gu_own : own' ⊆ own ∪ (issued w' ∖ issued w);
  gu_opens : opens own own' (keys w) (keys w');
}.

(** What an answer says of the moments between call and answer. *)
Definition logged_in_at (email password : string) (u : User.t) (v : World) : Prop :=
  known (rows v) u /\ User.Active u = true /\ User.Email u = NormalizeEmail email /\
  VerifyPassword u password = true.
Definition refreshable_at (cl : Claims.t) (u : User.t) (v : World) : Prop :=
  known (rows v) u /\ User.Active u = true /\ User.Email u = NormalizeEmail (Claims.Email cl) /\
  (forall t iat, User.PasswordChangedAt u = Some t -> t <> zero_time ->
     Claims.IssuedAt cl = Some iat -> (t <= iat)%Z).

(** The new refresh token is of an identifier nobody had been given. *)
Definition minted_for (u : User.t) (tok : string) (v : World) : Prop :=
  exists jti, jti ∉ issued v /\
    (jwt_portable (User.ID u) (User.Email u) -> exists cl, token_claims tok = Some cl /\ Claims.ID cl = jti /\
       Claims.UserID cl = User.ID u /\ Claims.Email cl = User.Email u).

Definition entitled (c : auth_call) (V : World -> Prop) (a : answer) : Prop :=
  match c, a with
  | CLogin email password, ASession (Ok resp) =>
      seen (logged_in_at email password (Auth.User resp)) V /\
      seen (minted_for (Auth.User resp) (Auth.RefreshToken resp)) V
  | CRefresh tok, ASession (Ok resp) => exists cl, token_claims tok = Some cl /\ Claims.Kind cl = KindRefresh /\
      seen (fun v => live_id v (Claims.ID cl)) V /\ seen (refreshable_at cl (Auth.User resp)) V /\
      seen (minted_for (Auth.User resp) (Auth.RefreshToken resp)) V
  | CLogout tok, APlain (Some (Ok _)) => exists cl, token_claims tok = Some cl /\ Claims.Kind cl = KindRefresh /\
      seen (fun v => ~ live_id v (Claims.ID cl)) V
  | CVerifyOTP email otpCode, APlain (Some (Ok _)) => seen (fun v => otp_stored v email otpCode) V
  | CChangePassword id cur new, APlain (Some (Ok _)) => exists usr, sql_uuid id = Some (User.ID usr) /\
      VerifyPassword usr cur = true /\ seen (fun v => stored_live (rows v) usr) V
  | CResetPassword token new, APlain (Some (Ok _)) => exists userID, seen (fun v => reset_stored v token userID) V
  | _, _ => True
  end.

Section programs.
Variable c : auth_call.

Definition sound : gset string -> (World -> Prop) -> prog World answer -> Prop :=
  rg sound_state later (guarantees c) (fun _ => entitled c).

(** [V'] has seen what [V] has. *)
Definition more (V V' : World -> Prop) : Prop := forall v, V v -> V' v.

Lemma more_refl V : more V V.
Proof. by intros v. Qed.
Lemma more_trans V1 V2 V3 : more V1 V2 -> more V2 V3 -> more V1 V3.
Proof. intros H12 H23 v Hv. auto. Qed.
Lemma seen_more P V V' : more V V' -> seen P V -> seen P V'.
Proof. intros Hm (v & Hv & HP). exists v. auto. Qed.

Lemma opens_refl own own' m : opens own own' m m.
Proof. intros j. by left. Qed.
Lemma opens_only own k m m' : (forall j, k <> RefreshKey j) -> only_key k m m' -> opens own own m m'.
Proof. intros Hk Ho j [e He]. left. destruct (Ho (RefreshKey j) (not_eq_sym (Hk j))) as [Heq|Heq]; rewrite Heq in He; [by eexists|done]. Qed.
Lemma opens_subset own m m' : m' ⊆ m -> opens own own m m'.
Proof. intros Hs j [e He]. left. exists e. by eapply lookup_weaken. Qed.

Lemma au_same w w' V : rows w' = rows w -> authorised w V c (rows w').
Proof. intros ->. constructor. Qed.

(** A command that leaves accounts and Redis alone. *)
Lemma sound_quiet {X} (m : io World X) k own V (P : X -> World -> World -> Prop) :
  (forall w, sound_state w -> (forall v, V v -> later v w) ->
     wp m (fun x w' => users_inv (w_u w') /\ rows w' = rows w /\ keys w' = keys w /\
       issued w ⊆ issued w' /\ P x w w') w) ->
  (forall x V' w w', more V V' -> V' w -> V' w' -> P x w w' -> sound own V' (k x)) ->
  sound own V (Atom m k).
Proof.
  intros Hm Hk w Hs Hb. eapply wp_mono; [by apply Hm|]. intros x w' (Hi & Hr & Hkeys & Hu & HP).
  split_and!; [split; [done|by rewrite Hkeys; apply Hs]|split; [by rewrite Hr|done]|]. exists own. split.
  - split; [by apply au_same|set_solver|rewrite Hkeys; apply opens_refl].
  - apply (Hk x _ w w'); [|by left; right|by right|done]. intros v Hv. by left; left.
Qed.

(** A Redis command. *)
Lemma sound_redis {X} (m : io redis X) k own own' V (P : X -> gmap string rentry -> gmap string rentry -> Prop) :
  preserves (RedisTypes.P has_type) (zoom l_redis m) -> own' ⊆ own ->
  (forall r, wp m (fun x r' => opens own own' (redis_view r) (redis_view r') /\ P x (redis_view r) (redis_view r')) r) ->
  (forall x V' w w', more V V' -> V' w -> V' w' -> P x (keys w) (keys w') -> sound own' V' (k x)) ->
  sound own V (Atom (zoom l_redis m) k).
Proof.
  intros Hty Hown Hm Hk w Hs _. apply wp_intro. intros x w' Hrun. pose proof (Hty w (so_typed _ Hs)) as Ht.
  rewrite Hrun in Ht. unfold zoom in Hrun. destruct (m (lget l_redis w)) as [y r'] eqn:Hr. injection Hrun as <- <-.
  destruct (wp_run _ _ _ _ _ (Hm _) Hr) as [Ho HP]. cbn in *.
  split_and!; [split; [apply Hs|exact Ht]|by split|]. exists own'. split.
  - split; [by apply au_same|set_solver|exact Ho].
  - eapply Hk; [|by left; right|by right|exact HP]. intros v Hv. by left; left.
Qed.

(** ** One rule per command *)
Lemma sound_base {X} (m : io Base X) k own V (P : X -> Prop) :
  grows m -> (forall b, wp m (fun x _ => P x) b) ->
  (forall x V', more V V' -> P x -> sound own V' (k x)) -> sound own V (Atom (zoom l_wbase m) k).
Proof.
  intros Hg Hp Hk. eapply (sound_quiet _ _ _ _ (fun x _ _ => P x)); [|by intros; apply Hk].
  intros w Hs _. wp_step. apply wp_intro. intros x b Hrun.
  split_and!; [by apply users_inv_base, Hs|done|done| |by eapply (wp_run _ _ _ _ _ (Hp _) Hrun)].
  exact (wp_run _ _ _ _ _ (Hg _) Hrun).
Qed.

Lemma sound_mail {X} (m : io mail X) k own V :
  (forall x V', more V V' -> sound own V' (k x)) -> sound own V (Atom (zoom l_mail m) k).
Proof.
  intros Hk. eapply (sound_quiet _ _ _ _ (fun _ _ _ => True)); [|by intros; apply Hk].
  intros w Hs _. wp_step. apply wp_intro. intros x m' _. split_and!; [apply Hs|done..].
Qed.

Lemma sound_Set K v k own V :
  (forall j, K <> KRefresh j) -> has_type K (json_Marshal v) ->
  (forall x V', more V V' -> sound own V' (k x)) -> sound own V (Atom (Auth.cache_Set uc (key_text K) v) k).
Proof.
  intros HK Hty Hk. eapply (sound_redis _ _ _ _ _ (fun _ _ _ => True)); [by apply pres_Set|done| |by intros; apply Hk].
  intros r. apply wp_Set. intros res r' Ho e _. split; [|done].
  apply (opens_only _ (key_text K)); [|done]. intros j Heq. by apply (HK j), key_text_injective.
Qed.

(** Storing a refresh identifier: who owns it may, and gives it away. *)
Lemma sound_Set_refresh j k own V :
  j ∈ own -> (forall x V', more V V' -> sound (own ∖ {[j]}) V' (k x)) ->
  sound own V (Atom (Auth.cache_Set uc (RefreshKey j) j) k).
Proof.
  intros Hj Hk. eapply (sound_redis _ _ _ (own ∖ {[j]}) _ (fun _ _ _ => True));
    [by apply (pres_Set uc _ (KRefresh j))|set_solver| |by intros; apply Hk].
  intros r. apply wp_Set. intros res r' Ho e _. split; [|done]. intros i [x Hx].
  destruct (decide (i = j)) as [->|Hne]; [right; set_solver|left].
  destruct (Ho (RefreshKey i)) as [Heq|Heq]; [|rewrite Heq in Hx; by eexists|by rewrite Heq in Hx].
  change (key_text (KRefresh i) <> key_text (KRefresh j)). intros Heq%key_text_injective. by simplify_eq.
Qed.

Lemma sound_Get q k own V :
  (forall x V', more V V' ->
     match x with
     | Ok s => seen (fun v => exists e, keys v !! q = Some e /\ json_Unmarshal (re_val e) = Some s) V'
     | Err _ => True
     end -> sound own V' (k x)) ->
  sound own V (Atom (Auth.cache_Get q) k).
Proof.
  intros Hk. eapply (sound_redis _ _ _ own _ (fun x m _ => match x with
    | Ok s => exists e, m !! q = Some e /\ json_Unmarshal (re_val e) = Some s | Err _ => True end));
    [apply pres_Get|done| |].
  - intros r. apply wp_Get. intros res r' Hs Hres. split; [by apply opens_subset|]. destruct res; [|done].
    destruct Hres as (e & He & Hj). exists e. split; [by eapply lookup_weaken|done].
  - intros x V' w w' Hm Hw _ HP. apply Hk; [done|]. destruct x; [by exists w|done].
Qed.

Lemma sound_Del q k own V :
  (forall x V', more V V' -> (x = Ok tt -> seen (fun v => keys v !! q = None) V') -> sound own V' (k x)) ->
  sound own V (Atom (Auth.cache_Del q) k).
Proof.
  intros Hk. eapply (sound_redis _ _ _ own _ (fun x _ m' => x = Ok tt -> m' !! q = None)); [apply pres_Del|done| |].
  - intros r. apply wp_Del. intros res r' _ Hs Hres. split; [by apply opens_subset|]. intros ->. by destruct Hres.
  - intros x V' w w' Hm _ Hw HP. apply Hk; [done|]. intros Hx. exists w'. auto.
Qed.

Lemma sound_Expire K d k own V :
  (forall x V', more V V' -> sound own V' (k x)) -> sound own V (Atom (Auth.cache_Expire (key_text K) d) k).
Proof.
  intros Hk. eapply (sound_redis _ _ _ own _ (fun _ _ _ => True)); [apply pres_Expire|done| |by intros; apply Hk].
  intros r. apply wp_Expire. intros res r' _ Hv. split; [|done]. intros j [e He]. left.
  destruct (Hv _ _ He) as (e0 & He0 & _). by eexists.
Qed.

Lemma sound_Incr K k own V :
  is_counter K = true ->
  (forall x V', more V V' -> sound own V' (k x)) -> sound own V (Atom (Auth.cache_Incr (key_text K)) k).
Proof.
  intros HK Hk. eapply (sound_redis _ _ _ own _ (fun _ _ _ => True)); [|done| |by intros; apply Hk].
  - apply pres_Incr. intros m n. by apply typed_incr.
  - intros r. apply wp_Incr. intros res r' Ho. split; [|done]. apply (opens_only _ (key_text K)); [|done].
    intros j Heq. change (RefreshKey j) with (key_text (KRefresh j)) in Heq. apply key_text_injective in Heq. by subst K.
Qed.

(** Minting a pair: the caller owns the new identifier. *)
Lemma sound_pair id adm em k own V :
  (forall e V', more V V' -> sound own V' (k (Err e))) ->
  (forall p V' own', more V V' -> RefreshJTI p ∈ own' -> seen (fun v => RefreshJTI p ∉ issued v /\
       (jwt_portable id em -> exists cl, token_claims (RefreshToken p) = Some cl /\ Claims.ID cl = RefreshJTI p /\
          Claims.UserID cl = id /\ Claims.Email cl = em)) V' -> sound own' V' (k (Ok p))) ->
  sound own V (Atom (zoom l_wbase (jwt_GenerateTokenPair id adm em)) k).
Proof.
  intros Herr Hok w Hs _. wp_step. eapply wp_mono; [apply jwt_pair_spec|]. intros res b' [Hu Hres].
  split_and!; [split; [by apply users_inv_base, Hs|apply Hs]|by split|]. destruct res as [p|e].
  - destruct Hres as (Hf & Hin & _ & _ & Hc). exists ({[RefreshJTI p]} ∪ own). split.
    + split; [by apply au_same| |apply opens_refl]. intros j [->%elem_of_singleton|Hj]%elem_of_union; [|set_solver].
      apply elem_of_union_r, elem_of_difference. by split.
    + apply Hok; [by intros v Hv; left; left|set_solver|]. exists w. split; [by left; right|]. split; [done|].
      intros Hp. destruct (Hc Hp) as [(cl & ? & ? & ? & ? & _) _]. by exists cl.
  - exists own. split; [split; [by apply au_same|set_solver|apply opens_refl]|]. apply Herr. by intros v Hv; left; left.
Qed.

Lemma sound_ParseRefresh tok k own V :
  (forall x V', more V V' ->
     match x with Ok cl => token_claims tok = Some cl /\ Claims.Kind cl = KindRefresh | Err _ => True end ->
     sound own V' (k x)) ->
  sound own V (Atom (zoom l_wbase (jwt_ParseRefreshToken tok)) k).
Proof.
  apply sound_base; intros b; (eapply wp_mono; [apply jwt_refresh_spec|]); [by intros res b' [-> _]|by intros res b' [_ Hres]].
Qed.

(** ** The users use case *)
Lemma sound_users {X} (m : io UState X) k own V (P : X -> World -> Prop) :
  (forall w, sound_state w -> (forall v, V v -> later v w) ->
     wp m (fun x u' => users_inv u' /\ used (u_base u') = issued w /\
       (table u' = rows w \/ evolves (rows w) (table u') /\ authorised w (seen_at V w) c (table u')) /\ P x w) (w_u w)) ->
  (forall x V' w, more V V' -> V' w -> P x w -> sound own V' (k x)) ->
  sound own V (Atom (zoom l_u m) k).
Proof.
  intros Hm Hk w Hs Hb. wp_step. eapply wp_mono; [by apply Hm|]. intros x u' (Hi & Hu & Ht & HP).
  split_and!; [split; [done|apply Hs]| |].
  - split; [destruct Ht as [Ht|[? _]]; [|done]; unfold rows at 2; cbn; by rewrite Ht|]. unfold issued at 2. cbn. by rewrite Hu.
  - exists own. split; [split; [destruct Ht as [Ht|[_ ?]]; [by apply au_same|done]|set_solver|apply opens_refl]|].
    apply (Hk x _ w); [by intros v Hv; left; left|by left; right|done].
Qed.

Lemma sound_GetByEmail em k own V :
  (forall x V', more V V' ->
     match x with
     | Ok u => seen (fun v => known (rows v) u) V' /\ User.Email u = NormalizeEmail em
     | Err _ => True
     end -> sound own V' (k x)) ->
  sound own V (Atom (zoom l_u (users_GetByEmail em)) k).
Proof.
  intros Hk. eapply (sound_users _ _ _ _ (fun x w => match x with
    | Ok u => known (rows w) u /\ User.Email u = NormalizeEmail em | Err _ => True end)).
  - intros w Hs _. eapply wp_mono; [apply users_GetByEmail_spec, Hs|]. intros x u' (Hi & Ht & Hu & Hx).
    split_and!; [done|done|by left|by destruct x].
  - intros x V' w Hm Hw HP. apply Hk; [done|]. destruct x; [|done]. split; [exists w|]; by destruct HP.
Qed.

Lemma sound_GetByID id k own V :
  (forall x V', more V V' ->
     match x with
     | Ok u => seen (fun v => stored_live (rows v) u /\ table_ok (rows v) /\ emails_ok (rows v)) V' /\
         sql_uuid id = Some (User.ID u)
     | Err _ => True
     end -> sound own V' (k x)) ->
  sound own V (Atom (zoom l_u (users_GetByID id)) k).
Proof.
  intros Hk. eapply (sound_users _ _ _ _ (fun x w => match x with
    | Ok u => (stored_live (rows w) u /\ table_ok (rows w) /\ emails_ok (rows w)) /\ sql_uuid id = Some (User.ID u)
    | Err _ => True end)).
  - intros w Hs _. eapply wp_mono; [apply users_GetByID_spec, Hs|]. intros x u' (Hi & Ht & Hu & Hx).
    destruct (users_inv_table _ (so_users _ Hs)).
    split_and!; [done|done|by left|]. destruct x; [|done]. by destruct Hx.
  - intros x V' w Hm Hw HP. apply Hk; [done|]. destruct x; [|done]. destruct HP. by split; [exists w|].
Qed.

Lemma sound_Store x k own V :
  c = CRegister x -> (forall r V', more V V' -> sound own V' (k r)) ->
  sound own V (Atom (zoom l_u (users_Store x)) k).
Proof.
  intros Hcall Hk. eapply (sound_users _ _ _ _ (fun _ _ => True)); [|by intros; apply Hk].
  intros w Hs _. eapply wp_mono; [apply users_Store_spec, Hs|]. intros res u' (Hi & Hu & Hres).
  split_and!; [done|done| |done].
  assert (table u' = rows w \/ exists id r, rows w !! id = None /\ table u' = <[id := r]> (rows w) /\
    Users.Active r = false /\ Users.RoleId r = User.RoleID x) as [Ht|(id & r & Hid & Ht & Ha & Hr)].
  { destruct res; [right; destruct Hres as (id & r & ?); exists id, r; naive_solver|].
    destruct Hres as [_ [?|(_ & id & r & ?)]]; [by left|right; by exists id, r]. }
  { by left. }
  right. rewrite Ht. split; [|by rewrite Hcall; constructor]. intros i s Hs'. exists s. split; [|done]. rewrite lookup_insert_ne; [done|]. intros ->. congruence.
Qed.

Lemma sound_Activate id k own V :
  (forall w V' now, more V V' -> authorised w V' c (update_live id (activated now true) (rows w))) ->
  (forall x V', more V V' -> sound own V' (k x)) ->
  sound own V (Atom (zoom l_u (users_Activate id)) k).
Proof.
  intros Hau Hk. eapply (sound_users _ _ _ _ (fun _ _ => True)); [|by intros; apply Hk].
  intros w Hs _. eapply wp_mono; [apply users_Activate_spec, Hs|]. intros x u' (Hi & Hu & Hx).
  split_and!; [done|done| |done]. destruct x as [[]|e]; [right|left; by destruct Hx].
  destruct Hx as [now ->]. split; [|apply Hau; by left].
  apply evolves_update_live. intros []. by split.
Qed.

(** The account that was read is still there, with its id and its email. *)
Lemma still_knows_email v w usr h now :
  evolves (rows v) (rows w) -> stored_live (rows v) usr -> table_ok (rows v) -> emails_ok (rows v) ->
  knows_email (rows w) (with_Password usr h now).
Proof.
  intros He Hst Hok Hem. destruct (stored_knows_email _ _ h now Hok Hem Hst) as [Hne Hk]. split; [done|].
  intros i r Hi Hr. destruct Hst as [Hst _]. destruct (He _ _ Hst) as (r' & Hr' & Hev).
  assert (i = User.ID usr) as ->.
  { cbn in Hi. rewrite (proj2 (tbl_key _ Hok _ _ Hst)) in Hi. by injection Hi. }
  cbn in *. rewrite Hr in Hr'. injection Hr' as <-. rewrite (re_email _ _ Hev). eapply Hk; [|exact Hst].
  apply (tbl_key _ Hok _ _ Hst).
Qed.

Lemma sound_UpdatePassword usr h now k own V :
  seen (fun v => stored_live (rows v) usr /\ table_ok (rows v) /\ emails_ok (rows v)) V ->
  (forall w V', more V V' -> authorised w V' c (update_live (User.ID usr) (repassworded (with_Password usr h now)) (rows w))) ->
  (forall x V', more V V' -> sound own V' (k x)) ->
  sound own V (Atom (zoom l_u (users_UpdatePassword (Some (with_Password usr h now)))) k).
Proof.
  intros (v & Hv & Hst & Hok & Hem) Hau Hk. eapply (sound_users _ _ _ _ (fun _ _ => True)); [|by intros; apply Hk].
  intros w Hs Hb. eapply wp_mono; [apply users_UpdatePassword_spec; [apply Hs|]|].
  { intros x [= <-]. eapply still_knows_email; [apply (Hb v Hv)|done..]. }
  intros x u' (Hi & Hu & Hx). split_and!; [done|done| |done]. destruct x as [[]|e]; [right|left; by destruct Hx].
  destruct Hx as (y & [= <-] & -> & _). split; [|apply Hau; by left].
  apply evolves_update_live. intros []. by split.
Qed.

End programs.

(** ** Through a program, command by command *)
(** What was seen before the command is seen after it. *)
Ltac lift Hm :=
  repeat match type of Hm with
  | more ?V _ => match goal with
      | X : seen _ V |- _ => apply (seen_more _ _ _ Hm) in X
      | X : more _ V |- _ =>
          let Y := fresh in pose proof (more_trans _ _ _ X Hm) as Y; clear X; rename Y into X
      end
  end; clear Hm.

(** The next command, with its answer taken apart; what only some calls may do is left. *)
Ltac cmd :=
  tidy;
  let Hm := fresh in
  lazymatch goal with
  | |- sound _ _ _ (Atom (Auth.cache_Get _) _) => apply sound_Get; intros [?|?] ? Hm ?; lift Hm
  | |- sound _ _ _ (Atom (Auth.cache_Del _) _) => apply sound_Del; intros [?|?] ? Hm ?; lift Hm
  | |- sound _ _ _ (Atom (Auth.cache_Expire ?k _) _) =>
      let K := key_of k in apply (sound_Expire _ K); intros [?|?] ? Hm; lift Hm
  | |- sound _ _ _ (Atom (Auth.cache_Incr ?k) _) =>
      let K := key_of k in apply (sound_Incr _ K); [done|]; intros [?|?] ? Hm; lift Hm
  | |- sound _ _ _ (Atom (Auth.cache_Set _ ?k _) _) =>
      let K := key_of k in apply (sound_Set _ K); [done| |intros [?|?] ? Hm; lift Hm]
  | |- sound _ _ _ (Atom (zoom l_u (users_GetByEmail _)) _) => apply sound_GetByEmail; intros [?|?] ? Hm ?; lift Hm
  | |- sound _ _ _ (Atom (zoom l_u (users_GetByID _)) _) => apply sound_GetByID; intros [?|?] ? Hm ?; lift Hm
  | |- sound _ _ _ (Atom (zoom l_mail _) _) => apply sound_mail; intros [?|?] ? Hm; lift Hm
  | |- sound _ _ _ (Atom (zoom l_wbase (observe _)) _) =>
      apply (sound_base _ _ _ _ _ (fun _ => True)); [apply grows_observe|done|]; intros ? ? Hm ?; lift Hm
  | |- sound _ _ _ (Atom (zoom l_wbase (jwt_GenerateTokenPair _ _ _)) _) =>
      apply sound_pair; [intros ? ? Hm|intros ? ? ? Hm ? ?]; lift Hm
  | |- sound _ _ _ (Atom (zoom l_wbase (jwt_ParseRefreshToken _)) _) =>
      apply sound_ParseRefresh; intros [?|?] ? Hm ?; lift Hm
  | |- sound _ _ _ (if ?b then _ else _) => destruct b eqn:?
  | |- sound _ _ _ (pbind (if ?b then _ else _) _) => destruct b eqn:?
  | |- sound _ _ _ (pbind (pbind (if ?b then _ else _) _) _) => destruct b eqn:?
  end; destruct_and?; tidy.

(** ** The helpers of auth.impl.go, before whatever follows them *)
Section helpers.
Variable c : auth_call.

Lemma sound_assoc {B D} (p : prog World B) (g : B -> prog World D) f own V :
  sound c own V (pbind p (fun b => pbind (g b) f)) -> sound c own V (pbind (pbind p g) f).
Proof. apply rg_assoc. Qed.

Lemma sound_remember p f own V :
  RefreshJTI p ∈ own -> (forall r own' V', more V V' -> sound c own' V' (f r)) ->
  sound c own V (pbind (AuthProg.rememberRefresh uc p) f).
Proof.
  intros Hp Hf. unfold AuthProg.rememberRefresh. tidy.
  apply (sound_base _ _ _ _ _ (fun _ => True)); [apply grows_Now|done|]. intros now V1 Hm1 _.
  destruct (_ <=? 0)%Z; [by apply Hf|]. tidy. apply sound_Set_refresh; [done|]. intros [[]|e] V2 Hm2.
  - pose proof (more_trans _ _ _ Hm1 Hm2). cmd; by apply Hf.
  - apply Hf. by eapply more_trans.
Qed.

Lemma sound_count K d f own V :
  is_counter K = true -> (forall n V', more V V' -> sound c own V' (f n)) ->
  sound c own V (pbind (AuthProg.count_attempt (key_text K) d) f).
Proof.
  intros HK Hf. unfold AuthProg.count_attempt. tidy. apply sound_Incr; [done|]. intros [n|e] V1 Hm1; [|by apply Hf].
  tidy. destruct (n =? 1)%Z; [|by apply Hf]. tidy. apply (sound_Expire _ K). intros r V2 Hm2. apply Hf. by eapply more_trans.
Qed.

Lemma sound_cutoff id t f own V :
  (forall V', more V V' -> sound c own V' (f tt)) -> sound c own V (pbind (AuthProg.recordTokenCutoff uc id t) f).
Proof.
  intros Hf. unfold AuthProg.recordTokenCutoff. pose proof (more_refl V). cmd; [by eexists| |by apply Hf].
  cmd; by apply Hf.
Qed.

Lemma sound_domain_change u pw cost k own V :
  (forall e V', more V V' -> sound c own V' (k (Err e))) ->
  (forall h now V', more V V' -> VerifyPassword (with_Password u h now) pw = true -> sound c own V' (k (Ok (with_Password u h now)))) ->
  sound c own V (Atom (zoom l_wbase (Domain.ChangePassword u pw cost)) k).
Proof.
  intros He Hk. eapply (sound_base _ _ _ _ _ (fun x => match x with
    | Ok u' => exists h now, u' = with_Password u h now /\ VerifyPassword u' pw = true | Err _ => True end)).
  - intros b. apply wp_ChangePassword. intros res b' -> _ _. done.
  - intros b. apply wp_ChangePassword. intros [u'|e] b' _ _ Hres; [|done]. destruct Hres as (h & now & -> & _ & Hv). by exists h, now.
  - intros [u'|e] V' Hm Hx; [|by apply He]. destruct Hx as (h & now & -> & Hv). by apply Hk.
Qed.
End helpers.


(** The helpers; and parentheses to the right. *)
Ltac sub :=
  let Hm := fresh in
  lazymatch goal with
  | |- sound _ _ _ (pbind (pbind _ _) _) => apply sound_assoc
  | |- sound _ _ _ (pbind (AuthProg.rememberRefresh _ _) _) =>
      apply sound_remember; [done|]; intros [?|?] ? ? Hm; lift Hm
  | |- sound _ _ _ (pbind (AuthProg.recordTokenCutoff _ _ _) _) => apply sound_cutoff; intros ? Hm; lift Hm
  | |- sound _ _ _ (pbind (AuthProg.count_attempt ?k _) _) =>
      let K := key_of k in apply (sound_count _ K); [done|]; intros ? ? Hm; lift Hm
  end; tidy.

(** A program that only works Redis and whose answer claims nothing. *)
Ltac walk :=
  lazymatch goal with
  | |- sound _ _ _ (Ret _) => exact I
  | |- sound _ _ _ _ => first [sub|cmd]; walk
  | |- has_type _ _ => by eexists
  end.

(** A login or a refresh has done its part. *)
Lemma minted_seen u p V :
  seen (fun v => RefreshJTI p ∉ issued v /\
    (jwt_portable (User.ID u) (User.Email u) -> exists cl, token_claims (RefreshToken p) = Some cl /\
       Claims.ID cl = RefreshJTI p /\ Claims.UserID cl = User.ID u /\ Claims.Email cl = User.Email u)) V ->
  seen (minted_for u (RefreshToken p)) V.
Proof. intros (v & Hv & Hf & Hc). exists v. split; [done|]. by exists (RefreshJTI p). Qed.

Lemma seen_mono (P P' : World -> Prop) V : (forall v, P v -> P' v) -> seen P V -> seen P' V.
Proof. intros HP (v & Hv & Hp). exists v. auto. Qed.

Lemma logged_in_seen email pw u V :
  seen (fun v => known (rows v) u) V -> User.Email u = NormalizeEmail email ->
  negb (User.Active u) = false -> negb (VerifyPassword u pw) = false -> seen (logged_in_at email pw u) V.
Proof. intros Hs He Ha%negb_false_iff Hv%negb_false_iff. eapply seen_mono; [|exact Hs]. by intros v Hk. Qed.

Lemma refreshable_seen cl u V :
  seen (fun v => known (rows v) u) V -> User.Email u = NormalizeEmail (Claims.Email cl) ->
  negb (User.Active u) = false ->
  negb (time_IsZero (TokensRevokedBefore u))
    && match Claims.IssuedAt cl with Some iat => time_Before iat (TokensRevokedBefore u) | None => false end = false ->
  seen (refreshable_at cl u) V.
Proof.
  intros Hs He Ha%negb_false_iff Hc. eapply seen_mono; [|exact Hs]. intros v Hk. split_and!; [done..|by apply not_cut_off].
Qed.

Lemma live_seen j s V :
  seen (fun v => exists e, keys v !! RefreshKey j = Some e /\ json_Unmarshal (re_val e) = Some s) V ->
  seen (fun v => live_id v j) V.
Proof. apply seen_mono. intros v (e & He & _). by exists e. Qed.

Lemma dead_seen j V : seen (fun v => keys v !! RefreshKey j = None) V -> seen (fun v => ~ live_id v j) V.
Proof. apply seen_mono. intros v Hn. unfold live_id. rewrite Hn. by intros []. Qed.

Lemma stored_seen u V :
  seen (fun v => stored_live (rows v) u /\ table_ok (rows v) /\ emails_ok (rows v)) V -> seen (fun v => stored_live (rows v) u) V.
Proof. apply seen_mono. by intros v [? _]. Qed.

(** ** The operations *)
Lemma sound_Login_checked email pw em ak own V :
  NormalizeEmail em = em -> em = NormalizeEmail email ->
  sound (CLogin email pw) own V (pbind (AuthProg.Login_checked uc em pw ak) (fun r => Ret (ASession r))).
Proof.
  intros Hn He. unfold AuthProg.Login_checked. cmd; [|done]. cmd; [done|]. cmd; [done|]. cmd; [done|].
  do 2 sub; [|done]. cmd; (split; [apply logged_in_seen; cbn [Auth.User]; first [assumption|congruence]|by apply minted_seen]).
Qed.

Lemma sound_Login email pw : sound (CLogin email pw) ∅ (fun _ => False) (AuthProg.code uc (CLogin email pw)).
Proof.
  cbn [AuthProg.code]. unfold AuthProg.Login. tidy.
  assert (forall own V, sound (CLogin email pw) own V (pbind (AuthProg.Login_checked uc (NormalizeEmail email) pw
    (LoginAttemptsKey (NormalizeEmail email))) (fun r => Ret (ASession r)))) as Hchk.
  { intros own V. apply sound_Login_checked; [apply NormalizeEmail_twice|done]. }
  cmd; [|apply Hchk]. sub. sub. cmd; [done|apply Hchk].
Qed.

Lemma sound_Register x : sound (CRegister x) ∅ (fun _ => False) (AuthProg.code uc (CRegister x)).
Proof. cbn [AuthProg.code]. unfold AuthProg.Register. tidy. apply sound_Store; [done|]. intros [] V' _; by tidy. Qed.

Lemma sound_SendOTP fuel email : sound (CSendOTP fuel email) ∅ (fun _ => False) (AuthProg.code uc (CSendOTP fuel email)).
Proof.
  cbn [AuthProg.code]. unfold AuthProg.SendOTP. cmd; [|done]. cmd; [done|].
  apply (sound_base _ _ _ _ _ (fun x => match x with
    | Some (Ok code) => String.length code = 6 /\ string_forall is_digit code = true | _ => True end)).
  { apply grows_otp. }
  { intros b. eapply wp_mono; [apply (otp_loop_shape fuel 6 "" b (Nat.le_0_l _) eq_refl)|]. intros [[|]|] b' Hc; [by apply Hc|done..]. }
  intros [[code|e]|] V2 Hm Hc; [|done|done]. tidy. cmd; [|by cmd].
  cmd; [by exists code| |]; cmd; by cmd.
Qed.

Lemma sound_VerifyOTP email code : sound (CVerifyOTP email code) ∅ (fun _ => False) (AuthProg.code uc (CVerifyOTP email code)).
Proof.
  cbn [AuthProg.code]. unfold AuthProg.VerifyOTP. cmd; [|done]. cmd; [done|]. do 2 sub. cmd; [done|].
  cmd; [|by cmd]. cmd. cmd; [done|].
  match goal with X : negb (?a =? code)%string = false |- _ => apply negb_false_iff, String.eqb_eq in X; subst a end.
  match goal with X : User.Email _ = _ |- _ => rewrite NormalizeEmail_twice in X end.
  apply sound_Activate.
  - intros w V2 now Hm. lift Hm. by apply au_activate.
  - intros [[]|e] V2 Hm; lift Hm; [|done]. tidy. cmd; by cmd.
Qed.

Lemma sound_Refresh tok : sound (CRefresh tok) ∅ (fun _ => False) (AuthProg.code uc (CRefresh tok)).
Proof.
  cbn [AuthProg.code]. unfold AuthProg.Refresh. cmd; [|done]. cmd; [|done]. cmd; [|done]. cmd; [done|].
  cmd; [done|]. cmd; [done|]. do 2 sub; [|done].
  cmd; (eexists; split_and!; [done|done|by eapply live_seen|by apply refreshable_seen|by apply minted_seen]).
Qed.

Lemma sound_Logout tok : sound (CLogout tok) ∅ (fun _ => False) (AuthProg.code uc (CLogout tok)).
Proof.
  cbn [AuthProg.code]. unfold AuthProg.Logout. cmd; [|done]. cmd; [|done].
  eexists. split_and!; [done|done|]. match goal with Y : unit |- _ => destruct Y end. by apply dead_seen; auto.
Qed.

Lemma sound_ChangePassword id cur new :
  sound (CChangePassword id cur new) ∅ (fun _ => False) (AuthProg.code uc (CChangePassword id cur new)).
Proof.
  cbn [AuthProg.code]. unfold AuthProg.ChangePassword. cmd; [done|]. cmd; [|done]. cmd; [done|].
  apply sound_domain_change; [intros e V2 Hm; by destruct (errors_Is _ _)|]. intros h now V2 Hm Hv. lift Hm. tidy.
  apply sound_UpdatePassword; [done| |].
  - intros w V3 Hm. lift Hm. eapply au_change; [|done|by destruct (VerifyPassword _ cur)|by eapply password_replaced_intro].
    by apply stored_seen.
  - intros [[]|e] V3 Hm; lift Hm; [|done]. cbn [with_Password User.PasswordChangedAt]. tidy. do 2 sub. eexists. split_and!; [done|by destruct (VerifyPassword _ cur)|by apply stored_seen].
Qed.

Lemma sound_ForgotPassword_limited em email own V :
  sound (CForgotPassword email) own V (pbind (AuthProg.ForgotPassword_limited uc em)
    (fun r => Ret (APlain (Some (match r with Ok _ => Ok tt | Err e => Err e end))))).
Proof.
  unfold AuthProg.ForgotPassword_limited. tidy.
  apply (sound_base _ _ _ _ _ (fun _ => True)); [apply grows_reset_token|done|]. intros [token|e] V1 _ _; [|done].
  tidy. cmd; [|destruct (bool_decide _); tidy]; walk.
Qed.

Lemma sound_ForgotPassword email : sound (CForgotPassword email) ∅ (fun _ => False) (AuthProg.code uc (CForgotPassword email)).
Proof.
  cbn [AuthProg.code]. unfold AuthProg.ForgotPassword. tidy. cmd; [|apply sound_ForgotPassword_limited].
  sub. sub. cmd; [done|apply sound_ForgotPassword_limited].
Qed.

Lemma sound_ResetPassword token new :
  sound (CResetPassword token new) ∅ (fun _ => False) (AuthProg.code uc (CResetPassword token new)).
Proof.
  cbn [AuthProg.code]. unfold AuthProg.ResetPassword. cmd; [done|]. cmd; [done|]. cmd; [|done]. cmd; [done|]. cmd; [|done].
  apply sound_domain_change; [intros e V2 Hm; by destruct (errors_Is _ _)|]. intros h now V2 Hm Hv. lift Hm. tidy.
  apply sound_UpdatePassword; [done| |].
  - intros w V3 Hm. lift Hm. by eapply au_reset; [|apply stored_seen| |eapply password_replaced_intro].
  - intros [[]|e] V3 Hm; lift Hm; [|done]. tidy.
    do 2 cmd; (cbn [with_Password User.PasswordChangedAt]; tidy; do 2 sub; by eexists).
Qed.

Lemma sound_code c : sound c ∅ (fun _ => False) (AuthProg.code uc c).
Proof.
  destruct c; auto using sound_Register, sound_Login, sound_SendOTP, sound_VerifyOTP, sound_Refresh, sound_Logout,
    sound_ChangePassword, sound_ForgotPassword, sound_ResetPassword.
Qed.

(** * Together *)

(** Between commands time passes, keys run out and the mailer works. *)
Inductive env : World -> World -> Prop :=
| env_moves w b r m :
    used b = issued w -> redis_view r ⊆ keys w ->
    env w (MkW (MkU b (u_d (w_u w)) (u_cache (w_u w))) r m).

Definition system := pool World auth_call answer.
Implicit Types s : system.

(** Of every run. *)
Definition anything (w w' : World) : Prop := True.

(** Requests arrive, their commands run, in any order. *)
Definition cstep : system -> system -> Prop := pstep (AuthProg.code uc) env anything.

Lemma env_sound w w' : sound_state w -> env w w' -> sound_state w' /\ later w w'.
Proof.
  intros [Hi Ht] He. destruct He as [w b r m Hb Hs]. split; [split|split].
  - by apply users_inv_base.
  - by eapply typed_subset.
  - done.
  - unfold issued in *. cbn. by rewrite Hb.
Qed.

(** Nobody owns what another owns, and what is live in Redis nobody owns any more. *)
Record owned (w : World) (ts : list (gset string)) : Prop := {
  ow_issued : forall i t, ts !! i = Some t -> t ⊆ issued w;
  ow_once : forall i i' t t' j, ts !! i = Some t -> ts !! i' = Some t' -> j ∈ t -> j ∈ t' -> i = i';
  ow_live : forall j, live_id w j -> j ∈ issued w /\ forall i t, ts !! i = Some t -> j ∉ t;
}.

(** [j] was handed out and stored: nobody will store it again. *)
Definition stored_once (j : string) (w : World) (ts : list (gset string)) : Prop :=
  j ∈ issued w /\ forall i t, ts !! i = Some t -> j ∉ t.

#[local] Notation consistent := (consistent env anything sound_state later guarantees ∅).

Lemma lookup_start (ts : list (gset string)) i t :
  (ts ++ [∅])%list !! i = Some t -> ts !! i = Some t \/ t = ∅.
Proof.
  intros [Hi|[_ Hi]]%lookup_app_Some; [by left|right].
  by apply list_elem_of_lookup_2, list_elem_of_singleton in Hi.
Qed.

Lemma lookup_moved (ts : list (gset string)) i t' k u :
  <[i := t']> ts !! k = Some u -> (k = i /\ u = t') \/ (k <> i /\ ts !! k = Some u).
Proof. intros [(-> & -> & _)|[Hne Hk]]%list_lookup_insert_Some; [by left|right]. by split. Qed.

Lemma consistent_owned : consistent owned.
Proof.
  split.
  - intros w ts [Hi Ho Hl]. split.
    + intros i t [Ht| ->]%lookup_start; [by eapply Hi|set_solver].
    + intros i i' t t' j [Ht| ->]%lookup_start [Ht'| ->]%lookup_start; [by apply Ho|set_solver..].
    + intros j Hj. destruct (Hl j Hj) as [? Hno]. split; [done|].
      intros i t [Ht| ->]%lookup_start; [by eapply Hno|set_solver].
  - intros w w' ts Hs [Hi Ho Hl] He _. destruct (env_sound _ _ Hs He) as [_ [_ Hu]]. split.
    + intros i t Ht. etransitivity; [by eapply Hi|done].
    + done.
    + intros j [e Hj]. destruct He as [w b r m Hb Hsub]. destruct (Hl j) as [? ?]; [exists e; by eapply lookup_weaken|].
      split; [by apply Hu|done].
  - intros w w' ts i c t V t' Hs [Hi Ho Hl] [_ Hu] _ Ht [_ Hown Hop].
    assert (forall j, j ∈ t' -> j ∈ t \/ j ∈ issued w' /\ j ∉ issued w) as Hnew.
    { intros j Hj. apply Hown in Hj. set_solver. }
    assert (forall k u j, k <> i -> ts !! k = Some u -> j ∈ u -> j ∈ t' -> False) as Hclash.
    { intros k u j Hk Hku Hju [Hj|[_ Hj]]%Hnew; [by apply Hk, (Ho k i u t j)|by apply Hj, (Hi k u Hku)]. }
    split.
    + intros k u [[-> ->]|[_ Hk]]%lookup_moved; [|etransitivity; [by eapply Hi|done]].
      intros j [Hj|[? _]]%Hnew; [|done]. by apply Hu, (Hi i t).
    + intros k k' u u' j [[-> ->]|[Hk Hku]]%lookup_moved [[-> ->]|[Hk' Hku']]%lookup_moved Hju Hju'; [done| | |by eapply Ho].
      * by destruct (Hclash k' u' j).
      * by destruct (Hclash k u j).
    + intros j Hj. destruct (Hop j Hj) as [[Hin Hno]%Hl|[Hjt Hjt']].
      * split; [by apply Hu|]. intros k u [[-> ->]|[_ Hk]]%lookup_moved; [|by eapply Hno].
        intros [Hjt|[_ ?]]%Hnew; [by eapply Hno|done].
      * split; [by apply Hu, (Hi i t)|]. intros k u [[-> ->]|[Hki Hk]]%lookup_moved; [done|].
        intros Hju. by apply Hki, (Ho k i u t j).
Qed.

Definition once (j : string) (w : World) (ts : list (gset string)) : Prop := owned w ts /\ stored_once j w ts.
Definition dead (j : string) (w : World) (ts : list (gset string)) : Prop :=
  once j w ts /\ (stored_once j w ts /\ ~ live_id w j).

Lemma consistent_once j : consistent (once j).
Proof.
  apply consistent_and; [apply consistent_owned|..].
  - intros w ts [Hi Hno]. split; [done|]. intros i t [Ht| ->]%lookup_start; [by eapply Hno|set_solver].
  - intros w w' ts Hs [Hi Hno] He _. split; [|done]. by apply (la_issued _ _ (proj2 (env_sound _ _ Hs He))).
  - intros w w' ts i c t V t' [Hi Hno] [_ Hu] _ Ht [_ Hown _]. split; [by apply Hu|].
    intros k u [[-> ->]|[_ Hk]]%lookup_moved; [|by eapply Hno]. intros Hj%Hown. pose proof (Hno i t Ht). set_solver.
Qed.

Lemma consistent_dead j : consistent (dead j).
Proof.
  destruct (consistent_once j) as [Hst Hen Hmv]. split.
  - intros w ts [Ho [Hn Hd]]. pose proof (Hst _ _ Ho) as Ho'. split; [done|split; [apply Ho'|done]].
  - intros w w' ts Hs [Ho [Hn Hd]] He Hm. pose proof (Hen _ _ _ Hs Ho He Hm) as Ho'. split; [done|split; [apply Ho'|]].
    destruct He as [w b r m Hb Hsub]. intros [e Hj]. apply Hd. exists e. by eapply lookup_weaken.
  - intros w w' ts i c t V t' Hs [Ho [Hn Hd]] HR Hm Ht HG. pose proof (Hmv _ _ _ _ _ _ _ _ Hs Ho HR Hm Ht HG) as Ho'.
    split; [done|split; [apply Ho'|]]. intros [?|[Hj _]]%(gu_opens _ _ _ _ _ _ HG); [done|]. by apply (proj2 Hn i t).
Qed.

(** Nobody is calling; what Redis would accept was handed out. *)
Record at_rest s : Prop := {
  ar_calls : calls s = [];
  ar_sound : sound_state (shared s);
  ar_live : forall j, live_id (shared s) j -> j ∈ issued (shared s);
}.

#[local] Notation ok_since ok := (pool_ok (AuthProg.code uc) env anything sound_state later guarantees (fun c _ => entitled c) ok).

Lemma running s0 s : at_rest s0 -> rtc cstep s0 s -> ok_since owned s0 s.
Proof.
  intros [Hc Hs Hl] Hst. eapply (pool_ok_steps _ _ _ _ _ _ _ ∅); [apply sound_code|apply env_sound|apply consistent_owned| |exact Hst].
  apply pool_ok_start; [done|done|]. split; [done|done|]. intros j Hj. split; [by apply Hl|done].
Qed.

(** The moments of a call: from its start, if that was after [s1], until [s2]. *)
Definition moment s1 (i : nat) s2 (v : World) : Prop :=
  exists s, shared s = v /\ i < length (calls s) /\ rtc cstep s1 s /\ rtc cstep s s2.

(** However requests interleave, the invariants of the sequential service hold at
    every moment: the table and the cache of the users use case, the types of what Redis
    holds; and from any moment to any later one no account disappears, becomes inactive
    or changes its id, name, email or role. *)
Theorem interleaving_safe s0 s1 s2 :
  at_rest s0 -> rtc cstep s0 s1 -> rtc cstep s1 s2 ->
  users_inv (w_u (shared s2)) /\ table_ok (rows (shared s2)) /\ emails_ok (rows (shared s2)) /\
  well_typed (keys (shared s2)) /\ evolves (rows (shared s1)) (rows (shared s2)).
Proof.
  intros Hr H1' H2'. pose proof (running _ _ Hr H1') as Hok1.
  assert (ok_since owned s0 s2) as Hok2 by (apply running; [done|by etransitivity]).
  destruct (po_inv _ _ _ _ _ _ _ _ _ _ Hok2) as [Hu Ht]. destruct (users_inv_table _ Hu) as [? ?].
  split_and!; [done..|].
  apply (pool_moves_rtc _ _ _ _ _ _ _ _ sound_code env_sound _ _ _ _ consistent_owned Hok1 H2').
Qed.

Lemma entitled_more c V V' a : more V V' -> entitled c V a -> entitled c V' a.
Proof.
  intros Hm. destruct c, a as [[resp|e]|[[[]|e]|]]; cbn; try done; naive_solver eauto using seen_more.
Qed.

Lemma authorised_more w V V' c T' : more V V' -> authorised w V c T' -> authorised w V' c T'.
Proof. intros Hm. destruct 1; econstructor; by eauto using seen_more. Qed.

Lemma occurred_moment s1 i s2 v :
  occurred (AuthProg.code uc) env anything s1 i s2 v -> length (calls s1) <= i -> moment s1 i s2 v.
Proof. intros (s & Hv & Hi & H2' & H1') Hle. exists s. auto. Qed.

Lemma answer_entitled s1 i s2 c a :
  ok_since owned s1 s1 -> rtc cstep s1 s2 -> length (calls s1) <= i -> answered s2 i c a ->
  entitled c (moment s1 i s2) a.
Proof.
  intros Hok Hst Hle Ha.
  assert (ok_since owned s1 s2) as Hok2.
  { eapply (pool_ok_steps _ _ _ _ _ _ _ ∅); [apply sound_code|apply env_sound|apply consistent_owned|exact Hok|exact Hst]. }
  destruct (pool_answer _ _ _ _ _ _ _ _ _ _ _ _ _ Hok2 Ha) as (V & ts & t & HV & _ & _ & He).
  eapply entitled_more; [|exact He]. intros v Hv. apply occurred_moment; [by apply HV|done].
Qed.

(** Live once, dead now: dead for ever. *)
Lemma dead_for_ever s0 s1 s2 s3 j :
  at_rest s0 -> rtc cstep s0 s1 -> rtc cstep s1 s2 -> rtc cstep s2 s3 ->
  live_id (shared s1) j -> ~ live_id (shared s2) j -> ~ live_id (shared s3) j.
Proof.
  intros Hr H01 H12 H23 Hl Hd. pose proof (running _ _ Hr H01) as Hok1.
  assert (ok_since (once j) s0 s1) as Honce.
  { eapply pool_ok_change; [exact Hok1|]. intros ts Ho. split; [done|]. by apply (ow_live _ _ Ho). }
  eapply (pool_ok_steps _ _ _ _ _ _ _ ∅) in Honce; [|apply sound_code|apply env_sound|apply consistent_once|exact H12].
  assert (ok_since (dead j) s0 s2) as Hdead.
  { eapply pool_ok_change; [exact Honce|]. intros ts [Ho Hn]. by split_and!. }
  eapply (pool_ok_steps _ _ _ _ _ _ _ ∅) in Hdead; [|apply sound_code|apply env_sound|apply consistent_dead|exact H23].
  by destruct (po_calls _ _ _ _ _ _ _ _ _ _ Hdead) as (ts & [_ [_ ?]] & _).
Qed.

(** [j] is gone between [s1] and [s2]: it is not live, or a Logout of its token that
    started after [s1] has been answered. *)
Definition gone s1 s2 (j : string) : Prop :=
  ~ live_id (shared s2) j \/
  exists i tok cl, length (calls s1) <= i /\ answered s2 i (CLogout tok) (APlain (Some (Ok tt))) /\
    token_claims tok = Some cl /\ Claims.ID cl = j.

(** C6. Spent sessions stay spent under every interleaving: a refresh identifier that was
    live in Redis and then exchanged, logged out or expired is never live again, although
    other requests may be in the middle of storing theirs, and no Refresh that starts
    afterwards is answered with tokens for it. *)
Theorem spent_tokens_concurrent s0 s1 s2 s3 j :
  at_rest s0 -> rtc cstep s0 s1 -> rtc cstep s1 s2 -> rtc cstep s2 s3 ->
  live_id (shared s1) j -> gone s1 s2 j ->
  ~ live_id (shared s3) j /\
  forall i tok cl resp, length (calls s2) <= i -> token_claims tok = Some cl -> Claims.ID cl = j ->
    ~ answered s3 i (CRefresh tok) (ASession (Ok resp)).
Proof.
  intros Hr H01 H12 H23 Hl Hgone.
  assert (rtc cstep s0 s2) as H02 by by etransitivity.
  assert (~ live_id (shared s2) j) as Hd.
  { destruct Hgone as [?|(i & tok & cl & Hle & Ha & Hc & Hid)]; [done|].
    destruct (answer_entitled _ _ _ _ _ (pool_ok_rebase _ _ _ _ _ _ _ _ _ _ (running _ _ Hr H01)) H12 Hle Ha)
      as (cl' & Hc' & _ & v & (s & <- & _ & H1s & Hs2) & Hv).
    rewrite Hc in Hc'. injection Hc' as <-. rewrite Hid in Hv. by apply (dead_for_ever s0 s1 s s2). }
  split; [by apply (dead_for_ever s0 s1 s2 s3)|]. intros i tok cl resp Hle Hc Hid Ha.
  destruct (answer_entitled _ _ _ _ _ (pool_ok_rebase _ _ _ _ _ _ _ _ _ _ (running _ _ Hr H02)) H23 Hle Ha)
    as (cl' & Hc' & _ & (v & (s & <- & _ & H2s & _) & Hv) & _).
  rewrite Hc in Hc'. injection Hc' as <-. rewrite Hid in Hv. by apply (dead_for_ever s0 s1 s2 s) in Hv.
Qed.

(** Answers are earned, whatever else happens at the same time.  At some moment
    between the start of the call and its answer: for Login, the account was live, active
    and had the password; for Refresh, the identifier was live in Redis, and the account
    live, active and its password no younger than the token; for Logout, the identifier
    was dead; for VerifyOTP, Redis held the code; for ChangePassword, the row had the
    current password; for ResetPassword, Redis held the token.  A new session has an
    identifier nobody had been given. *)
Theorem answers_earned s0 s1 s2 i c a :
  at_rest s0 -> rtc cstep s0 s1 -> rtc cstep s1 s2 -> length (calls s1) <= i -> answered s2 i c a ->
  entitled c (moment s1 i s2) a.
Proof. intros Hr H01 H12. eapply answer_entitled; [|done]. eapply pool_ok_rebase, running; done. Qed.

(** Accounts change only by right: whenever a step of an interleaving changes the
    table, some call was running that is entitled to the change by what it has seen since
    it started: a registration adds an inactive account, VerifyOTP activates the account
    whose code Redis held, ChangePassword and ResetPassword replace the password of the
    account whose current password was verified or for which Redis held the token. *)
Theorem changes_authorised s0 s1 s2 :
  at_rest s0 -> rtc cstep s0 s1 -> cstep s1 s2 -> rows (shared s2) <> rows (shared s1) ->
  exists i c p, calls s1 !! i = Some (c, p) /\
    authorised (shared s1) (moment s0 i s1) c (rows (shared s2)).
Proof.
  intros Hr H01 H12 Hne.
  destruct (pool_step _ _ _ _ _ _ _ _ _ _ _ (running _ _ Hr H01) H12)
    as [Heq|[He|(i & c & p & t & t' & V & Hi & HV & _ & HG)]]; [by rewrite Heq in Hne| |].
  - exfalso. apply Hne. by destruct He.
  - exists i, c, p. split; [done|]. eapply authorised_more; [|apply (gu_table _ _ _ _ _ _ HG)].
    intros v Hv. apply occurred_moment; [by apply HV|]. rewrite (ar_calls _ Hr). cbn. lia.
Qed.
End props.
