(* ===== verification/Attempts.v ===== *)
(** Brute force under concurrency: however Logins, verifications and reset requests
    interleave, while Redis answers and the counter of an email is not reset, no more of
    them than the configured number get past the guard. *)

From Stdlib Require Import Ascii String ZArith.
From stdpp Require Import base gmap strings list pretty relations.
From S2P Require Import Prelude GoStrings AppError Records Services World Domain Repository Caches.
From S2P Require Import UsersUsecase Jwt OtpCode AuthUsecase AuthLemmas AuthEffects AuthSystem AuthHealthy.
From S2P Require Import RedisTypes Sessions Concurrent AuthConcurrent AuthConcurrentProps.

Open Scope string_scope.

Section attempts.
Context `{PlatformLaws} `{!RedisHealthy} `{!OTPMailer} `{!UsersUsecase} `{!JWTService}.
#[local] Existing Instances pl_text pl_redis pl_sql pl_rist pl_rng.
Variable uc : Auth.usecase.
Variable K0 : key.    (** the counter *)

(** The counter a call goes by, and how many attempts it allows. *)
Definition guard_of (c : auth_call) : option key :=
  match c with
  | CLogin email _ => Some (KLoginAttempts (NormalizeEmail email))
  | CVerifyOTP email _ => Some (KOTPAttempts (NormalizeEmail email))
  | CForgotPassword email => Some (KForgotAttempts (NormalizeEmail email))
  | _ => None
  end.

Definition limit : Z :=
  match K0 with
  | KLoginAttempts _ => Auth.LoginMaxAttempts (Auth.cfg uc)
  | KOTPAttempts _ => Auth.OTPMaxAttempts (Auth.cfg uc)
  | KForgotAttempts _ => Auth.ForgotMaxAttempts (Auth.cfg uc)
  | _ => 0
  end.

(** An answer that means the guard let the call through: any answer of Login or
    ForgotPassword but the lockout; of VerifyOTP, that the code was compared. *)
Definition let_through (c : auth_call) (a : answer) : Prop :=
  match c, a with
  | CLogin _ _, ASession r => r <> Err (Forbidden "too many failed login attempts, please try again later")
  | CVerifyOTP _ _, APlain (Some r) => r = Ok tt \/ r = Err (BadRequest "invalid otp code")
  | CForgotPassword _, APlain (Some r) =>
      r <> Err (Forbidden "too many password reset requests, please try again later")
  | _, _ => False
  end.

(** ** What each call does to the counter *)

#[local] Abbreviation at_count w := (counter (keys w) (key_text K0)).

(** [t] is the number INCR answered to the call: either the command leaves the counter, or
    drops it, or it is the INCR, which takes the next number. *)
Definition counts (t : option Z) (w w' : World) (t' : option Z) : Prop :=
  (t' = t /\ forall n, at_count w n -> at_count w' n \/ at_count w' 0%Z) \/
  (t = None /\ is_Some t' /\ forall n, at_count w n -> (n < int64_max)%Z -> at_count w' (n + 1)%Z /\ t' = Some (n + 1)%Z).

Section programs.
Variable c : auth_call.

(** Getting through costs a number within the limit. *)
Definition paid (t : option Z) (V : World -> Prop) (a : answer) : Prop :=
  guard_of c = Some K0 -> let_through c a -> exists n, t = Some n /\ (n <= limit)%Z.

Definition tick : option Z -> (World -> Prop) -> prog World answer -> Prop :=
  rg good (fun _ _ => True) (fun t _ => counts t) paid.

Lemma counts_same t w w' : keys w' = keys w -> counts t w w' t.
Proof. intros Hk. left. split; [done|]. rewrite Hk. by left. Qed.

Lemma tick_quiet {X} (m : io World X) k t V :
  (forall w, w_redis (m w).2 = w_redis w) -> (forall x V', tick t V' (k x)) -> tick t V (Atom m k).
Proof.
  intros Hm Hk w Hg _. specialize (Hm w). unfold wp. destruct (m w) as [x w']. cbn in *.
  split_and!; [by unfold good; rewrite Hm|done|]. exists t. split; [|apply Hk].
  apply counts_same. unfold keys. by rewrite Hm.
Qed.

Lemma tick_users {X} (m : io UState X) k t V : (forall x V', tick t V' (k x)) -> tick t V (Atom (zoom l_u m) k).
Proof. apply tick_quiet. intros w. unfold zoom. by destruct (m _). Qed.
Lemma tick_base {X} (m : io Base X) k t V : (forall x V', tick t V' (k x)) -> tick t V (Atom (zoom l_wbase m) k).
Proof. apply tick_quiet. intros w. unfold zoom. by destruct (m _). Qed.
Lemma tick_mail {X} (m : io mail X) k t V : (forall x V', tick t V' (k x)) -> tick t V (Atom (zoom l_mail m) k).
Proof. apply tick_quiet. intros w. unfold zoom. by destruct (m _). Qed.

(** A Redis command other than the INCR of this counter. *)
Lemma tick_redis {X} (m : io World X) k t V :
  (forall w, good w -> wp m (fun _ w' => good w' /\
     forall n, at_count w n -> at_count w' n \/ at_count w' 0%Z) w) ->
  (forall x V', tick t V' (k x)) -> tick t V (Atom m k).
Proof.
  intros Hm Hk w Hg _. eapply wp_mono; [by apply Hm|]. intros x w' [Hg' Hc]. split_and!; [done|done|].
  exists t. split; [by left|apply Hk].
Qed.

Lemma holds_now w : good w -> holds (keys w) w.
Proof. by split. Qed.

Lemma tick_Set K v k t V : is_counter K0 = true -> is_counter K = false ->
  (forall x V', tick t V' (k x)) -> tick t V (Atom (Auth.cache_Set uc (key_text K) v) k).
Proof.
  intros HK0 HK. apply tick_redis. intros w Hg. eapply wp_h_Set; [by apply holds_now|]. intros r' w' [Hg' Hk].
  split; [done|]. intros n Hn. left. eapply counter_same; [|exact Hn]. rewrite Hk, lookup_insert_ne; [done|].
  intros Heq%key_text_injective. congruence.
Qed.

Lemma tick_Get q k t V : (forall x V', tick t V' (k x)) -> tick t V (Atom (Auth.cache_Get q) k).
Proof.
  apply tick_redis. intros w Hg. eapply wp_h_Get; [by apply holds_now|]. intros res r' w' [Hg' Hk] _.
  split; [done|]. rewrite Hk. by left.
Qed.

Lemma tick_Del q k t V : (forall x V', tick t V' (k x)) -> tick t V (Atom (Auth.cache_Del q) k).
Proof.
  apply tick_redis. intros w Hg. eapply wp_h_Del; [by apply holds_now|]. intros r' w' [Hg' Hk].
  split; [done|]. intros n Hn. rewrite Hk. destruct (decide (q = key_text K0)) as [->|Hne].
  - right. left. by rewrite lookup_delete_eq.
  - left. eapply counter_same; [|exact Hn]. by rewrite lookup_delete_ne.
Qed.

Lemma tick_Expire q d k t V :
  (0 < d)%Z -> (forall x V', tick t V' (k x)) -> tick t V (Atom (Auth.cache_Expire q d) k).
Proof.
  intros Hd. apply tick_redis. intros w Hg. eapply wp_h_Expire; [by apply holds_now|done|]. intros r' w' [Hg' Hk].
  split; [done|]. intros n Hn. left. rewrite Hk. destruct (decide (q = key_text K0)) as [->|Hne].
  - destruct Hn as [[-> Hn]|(Hp & e & He & Hv)]; [left|right].
    + by rewrite lookup_alter_eq, Hn.
    + split; [done|]. exists (entry_expire d e). by rewrite lookup_alter_eq, He.
  - eapply counter_same; [|exact Hn]. by rewrite lookup_alter_ne.
Qed.

Lemma tick_Incr_other q k t V :
  q <> key_text K0 -> (forall x V', tick t V' (k x)) -> tick t V (Atom (Auth.cache_Incr q) k).
Proof.
  intros Hq. apply tick_redis. intros w Hg. unfold Auth.cache_Incr. wp_step.
  pose proof (proj1 (healthy_incr q (w_redis w) Hg)) as Hg'. apply wp_intro. intros res r' Hr.
  assert (wp (Redis.Incr q) (fun _ r' => only_key q (keys w) (redis_view r')) (w_redis w)) as Ho by by apply wp_Incr.
  pose proof (wp_run _ _ _ _ _ Ho Hr) as Hk. unfold Redis.Incr in Hr. cbn in Hr. rewrite Hr in Hg'. split; [done|].
  intros n Hn. destruct (Hk (key_text K0)) as [Heq|Heq]; [done|left; by eapply counter_same|right; by left].
Qed.

(** The INCR: the call has its number, the one it will compare with the limit. *)
Definition number (res : result error Z) : Z := match res with Ok n => n | Err _ => 0%Z end.

Lemma tick_Incr k V :
  (forall x V', tick (Some (number x)) V' (k x)) -> tick None V (Atom (Auth.cache_Incr (key_text K0)) k).
Proof.
  intros Hk w Hg _. unfold Auth.cache_Incr. wp_step. apply wp_intro. intros res r' Hr.
  unfold Redis.Incr in Hr. cbn in Hr. destruct (healthy_incr (key_text K0) (w_redis w) Hg) as [Hg' Hv].
  rewrite Hr in Hg', Hv. cbn in Hg', Hv. split_and!; [done|done|]. exists (Some (number res)).
  split; [right|apply Hk]. split_and!; [done|by eexists|]. intros n [[-> Hn]|(Hp & e & He & Hval)] Hlt; unfold keys in *.
  - rewrite Hn in Hv. destruct Hv as [-> Hv]. split; [|done]. right. cbn. rewrite Hv, lookup_insert_eq. split; [lia|by eexists].
  - rewrite He in Hv. specialize (Hv n Hval (in_int64_mid n (conj (Z.lt_le_incl _ _ Hp) Hlt))).
    rewrite in_int64_small in Hv by lia. destruct Hv as [-> Hv]. split; [|done].
    right. cbn. rewrite Hv, lookup_insert_eq. split; [lia|by eexists].
Qed.

(** ** Through the programs *)
Definition within (t : option Z) : Prop := guard_of c = Some K0 -> exists n, t = Some n /\ (n <= limit)%Z.

Lemma tick_assoc {B D} (p : prog World B) (g : B -> prog World D) f t V :
  tick t V (pbind p (fun b => pbind (g b) f)) -> tick t V (pbind (pbind p g) f).
Proof. apply rg_assoc. Qed.

Lemma tick_count K d f V :
  (0 < d)%Z -> (forall n t V', (K = K0 -> t = Some n) -> tick t V' (f n)) ->
  tick None V (pbind (AuthProg.count_attempt (key_text K) d) f).
Proof.
  intros Hd Hf. unfold AuthProg.count_attempt. tidy.
  destruct (decide (K = K0)) as [->|Hne].
  - apply tick_Incr. intros [n|e] V1; tidy; [|by apply Hf]. destruct (n =? 1)%Z; tidy; [|by apply Hf].
    apply tick_Expire; [done|]. intros x V2. by apply Hf.
  - apply tick_Incr_other; [by intros Heq%key_text_injective|]. intros [n|e] V1; tidy; [|by apply Hf].
    destruct (n =? 1)%Z; tidy; [|by apply Hf]. apply tick_Expire; [done|]. intros x V2. by apply Hf.
Qed.
End programs.

(** The next command. *)
Ltac hop :=
  tidy;
  lazymatch goal with
  | |- tick _ _ _ (pbind (pbind _ _) _) => apply tick_assoc
  | |- tick _ _ _ (Atom (Auth.cache_Get _) _) => apply tick_Get; intros [?|?] ?
  | |- tick _ _ _ (Atom (Auth.cache_Del _) _) => apply tick_Del; intros [?|?] ?
  | |- tick _ _ _ (Atom (Auth.cache_Expire _ _) _) => apply tick_Expire; [assumption || lia || done|intros [?|?] ?]
  | |- tick _ _ _ (Atom (Auth.cache_Set _ ?k _) _) =>
      let K := key_of k in apply (tick_Set _ K); [done|done|intros [?|?] ?]
  | |- tick _ _ _ (Atom (zoom l_u _) _) => apply tick_users; intros [?|?] ?
  | |- tick _ _ _ (Atom (zoom l_wbase _) _) => apply tick_base; first [intros [[?|?]|] ?|intros [?|?] ?|intros ? ?]
  | |- tick _ _ _ (Atom (zoom l_mail _) _) => apply tick_mail; intros [?|?] ?
  | |- tick _ _ _ (if ?b then _ else _) => destruct b eqn:?
  | |- tick _ _ _ (pbind (if ?b then _ else _) _) => destruct b eqn:?
  | |- tick _ _ _ (pbind (pbind (if ?b then _ else _) _) _) => destruct b eqn:?
  | |- tick _ _ _ (match ?x with _ => _ end) => destruct x
  | |- tick _ _ _ (pbind (match ?x with _ => _ end) _) => destruct x
  end; tidy.

(** To the end, where the answer has been paid for. *)
Ltac hops :=
  lazymatch goal with
  | |- tick _ _ _ (Ret _) => intros ? ?; first [done | by auto]
  | |- tick _ _ _ _ => hop; hops
  | |- _ => idtac
  end.

Context (HK0 : is_counter K0 = true).
Context (Hlogin : (0 < Auth.LoginLockoutTTL (Auth.cfg uc))%Z) (Hotp : (0 < Auth.OTPTTL (Auth.cfg uc))%Z)
  (Hforgot : (0 < Auth.ForgotLockoutTTL (Auth.cfg uc))%Z) (Hreset : (0 < Auth.PasswordResetTTL (Auth.cfg uc))%Z).

Lemma tick_Register x : tick (CRegister x) None (fun _ => False) (AuthProg.code uc (CRegister x)).
Proof. cbn [AuthProg.code]. unfold AuthProg.Register. tidy. hops. Qed.
Lemma tick_Logout x : tick (CLogout x) None (fun _ => False) (AuthProg.code uc (CLogout x)).
Proof. cbn [AuthProg.code]. unfold AuthProg.Logout. tidy. hops. Qed.
Lemma tick_SendOTP n x : tick (CSendOTP n x) None (fun _ => False) (AuthProg.code uc (CSendOTP n x)).
Proof. cbn [AuthProg.code]. unfold AuthProg.SendOTP. tidy. hops. Qed.
Lemma tick_ChangePassword id cur new :
  tick (CChangePassword id cur new) None (fun _ => False) (AuthProg.code uc (CChangePassword id cur new)).
Proof. cbn [AuthProg.code]. unfold AuthProg.ChangePassword, AuthProg.recordTokenCutoff. tidy. hops. Qed.
Lemma tick_ResetPassword x y :
  tick (CResetPassword x y) None (fun _ => False) (AuthProg.code uc (CResetPassword x y)).
Proof. cbn [AuthProg.code]. unfold AuthProg.ResetPassword, AuthProg.recordTokenCutoff. tidy. hops. Qed.
Lemma tick_Refresh x : tick (CRefresh x) None (fun _ => False) (AuthProg.code uc (CRefresh x)).
Proof. cbn [AuthProg.code]. unfold AuthProg.Refresh, AuthProg.rememberRefresh. tidy. hops. Qed.

Lemma tick_Login_checked email pw em ak t V :
  within (CLogin email pw) t ->
  tick (CLogin email pw) t V (pbind (AuthProg.Login_checked uc em pw ak) (fun r => Ret (ASession r))).
Proof. intros Hw. unfold AuthProg.Login_checked, AuthProg.rememberRefresh. tidy. hops. Qed.

Lemma tick_Login email pw : (0 < limit)%Z -> tick (CLogin email pw) None (fun _ => False) (AuthProg.code uc (CLogin email pw)).
Proof.
  intros Hlim. cbn [AuthProg.code]. unfold AuthProg.Login. hop.
  - hop. apply (tick_count _ (KLoginAttempts (NormalizeEmail email))); [done|]. intros n t V1 Ht. hop; [hops|].
    apply tick_Login_checked. intros [= HK]. exists n. split; [auto|]. unfold limit. rewrite <- HK. lia.
  - apply tick_Login_checked. intros [= HK]. exfalso. revert Hlim. unfold limit. rewrite <- HK. lia.
Qed.

Lemma tick_ForgotPassword_limited email em t V :
  within (CForgotPassword email) t ->
  tick (CForgotPassword email) t V (pbind (AuthProg.ForgotPassword_limited uc em)
    (fun r => Ret (APlain (Some (match r with Ok _ => Ok tt | Err e => Err e end))))).
Proof. intros Hw. unfold AuthProg.ForgotPassword_limited. tidy. hops. Qed.

Lemma tick_ForgotPassword email :
  (0 < limit)%Z -> tick (CForgotPassword email) None (fun _ => False) (AuthProg.code uc (CForgotPassword email)).
Proof.
  intros Hlim. cbn [AuthProg.code]. unfold AuthProg.ForgotPassword. hop.
  - hop. apply (tick_count _ (KForgotAttempts (NormalizeEmail email))); [done|]. intros n t V1 Ht. hop; [hops|].
    apply tick_ForgotPassword_limited. intros [= HK]. exists n. split; [auto|]. unfold limit. rewrite <- HK. lia.
  - apply tick_ForgotPassword_limited. intros [= HK]. exfalso. revert Hlim. unfold limit. rewrite <- HK. lia.
Qed.

Lemma tick_VerifyOTP email code :
  tick (CVerifyOTP email code) None (fun _ => False) (AuthProg.code uc (CVerifyOTP email code)).
Proof.
  cbn [AuthProg.code]. unfold AuthProg.VerifyOTP. hop; [|by intros _ [Hx|Hx]]. hop; [by intros _ [Hx|Hx]|].
  do 2 (tidy; apply tick_assoc). tidy.
  apply (tick_count _ (KOTPAttempts (NormalizeEmail email))); [done|]. intros n t V1 Ht.
  hop; [by intros _ [Hx|Hx]|]. assert (within (CVerifyOTP email code) t) as Hw; [|hops].
  intros [= HK]. exists n. split; [auto|]. unfold limit. rewrite <- HK. lia.
Qed.

Lemma tick_code c : (0 < limit)%Z -> tick c None (fun _ => False) (AuthProg.code uc c).
Proof.
  intros Hlim. destruct c; auto using tick_Register, tick_Login, tick_SendOTP, tick_VerifyOTP, tick_Refresh,
    tick_Logout, tick_ChangePassword, tick_ForgotPassword, tick_ResetPassword.
Qed.

(** * Together *)
Context (Hlim : (0 < limit)%Z).

(** Redis answers, also after time has passed. *)
Definition env_up (w w' : World) : Prop := env w w' /\ good w'.

(** The counter is not reset: no attempt succeeded, it has not run out. *)
Definition kept (w w' : World) : Prop := forall n, at_count w n -> exists n', at_count w' n' /\ (n <= n')%Z.

Definition gstep : system -> system -> Prop := pstep (AuthProg.code uc) env_up kept.

Lemma counter_functional m k n n' : counter m k n -> counter m k n' -> n = n'.
Proof.
  intros [[-> Hn]|(Hp & e & He & Hv)] [[-> Hn']|(Hp' & e' & He' & Hv')]; try congruence.
  rewrite He in He'. injection He' as <-. rewrite Hv in Hv'. by apply (inj Itoa) in Hv'.
Qed.

Lemma kept_counter w w' n :
  kept w w' -> at_count w n -> at_count w' n \/ at_count w' 0%Z -> at_count w' n.
Proof.
  intros Hk Hn [?|H0']; [done|]. destruct (Hk n Hn) as (n' & Hn' & Hle).
  rewrite (counter_functional _ _ _ _ Hn' H0') in Hle.
  assert (n = 0%Z) as -> by (destruct Hn as [[-> _]|[? _]]; lia). done.
Qed.

(** How many calls have a number. *)
Definition numbered (ts : list (option Z)) : nat := length (omap (fun t => t) ts).

Lemma numbered_le ts : (numbered ts <= length ts)%nat.
Proof. unfold numbered. induction ts as [|[z|] ts IH]; cbn; lia. Qed.

Lemma numbered_app ts : numbered (ts ++ [None]) = numbered ts.
Proof. unfold numbered. rewrite omap_app. cbn. by rewrite app_nil_r. Qed.

Lemma numbered_insert ts i z : ts !! i = Some None -> numbered (<[i := Some z]> ts) = S (numbered ts).
Proof.
  unfold numbered. revert i. induction ts as [|[y|] ts IH]; intros [|i] Hi; cbn in *; try done; by rewrite IH.
Qed.

(** While the numbers fit int64, the counter stands at their number, and they are distinct. *)
Record tally (w : World) (ts : list (option Z)) (n : Z) : Prop := {
  ta_at : at_count w n;
  ta_number : n = Z.of_nat (numbered ts);
  ta_range : forall i z, ts !! i = Some (Some z) -> (1 <= z <= n)%Z;
  ta_once : forall i j z, ts !! i = Some (Some z) -> ts !! j = Some (Some z) -> i = j;
}.
Definition tallied (w : World) (ts : list (option Z)) : Prop :=
  (Z.of_nat (length ts) < int64_max)%Z -> exists n, tally w ts n.

Lemma tallied_kept w w' ts :
  kept w w' -> (forall n, at_count w n -> at_count w' n \/ at_count w' 0%Z) -> tallied w ts -> tallied w' ts.
Proof.
  intros Hk Hc Ht Hl. destruct (Ht Hl) as [n [Ha Hn Hr Ho]]. exists n. split; [|done..].
  eapply kept_counter; [done|done|by apply Hc].
Qed.

Lemma consistent_tallied :
  consistent env_up kept good (fun _ _ => True) (fun (_ : auth_call) t _ => counts t) None tallied.
Proof.
  split.
  - intros w ts Ht. unfold tallied. rewrite length_app. cbn. intros Hl. destruct Ht as [n [Ha Hn Hr Ho]]; [lia|].
    assert (forall i z, (ts ++ [None])%list !! i = Some (Some z) -> ts !! i = Some (Some z)) as Hlook.
    { intros i z [?|[_ Hi]]%lookup_app_Some; [done|]. by apply list_elem_of_lookup_2, list_elem_of_singleton in Hi. }
    exists n. split; [done|by rewrite numbered_app|by intros i z ?%Hlook; eapply Hr|].
    intros i j z ?%Hlook ?%Hlook. by eapply Ho.
  - intros w w' ts _ Ht [He Hg] Hk. eapply tallied_kept; [done| |done].
    destruct He as [w b r m Hb Hs]. intros n Hn. unfold keys in *. cbn.
    destruct (redis_view r !! key_text K0) as [e|] eqn:Hr; [left|right; by left].
    eapply lookup_weaken in Hs; [|done]. eapply counter_same; [|exact Hn]. by rewrite Hr, Hs.
  - intros w w' ts i c t V t' _ Ht _ Hk Hi [[-> Hc]|(-> & [z ->] & Hc)].
    + rewrite list_insert_id by done. by eapply tallied_kept.
    + intros Hl. rewrite length_insert in Hl. destruct (Ht Hl) as [n [Ha Hn Hr Ho]].
      destruct (Hc n Ha) as [Ha' [= ->]].
      { pose proof (numbered_le ts). lia. }
      assert (forall j y, <[i := Some (n + 1)%Z]> ts !! j = Some (Some y) ->
        (j = i /\ y = (n + 1)%Z) \/ (j <> i /\ ts !! j = Some (Some y))) as Hlook.
      { intros j y [(-> & [= ->] & _)|[Hne Hj]]%list_lookup_insert_Some; [by left|by right]. }
      exists (n + 1)%Z. split; [done|rewrite numbered_insert by done; lia| |].
      * intros j y [[-> ->]|[_ Hj]]%Hlook; [lia|]. specialize (Hr j y Hj). lia.
      * intros j j' y [[-> ->]|[Hne Hj]]%Hlook [[-> Hy]|[Hne' Hj']]%Hlook; [done| | |by eapply Ho].
        -- specialize (Hr _ _ Hj'). lia.
        -- subst y. specialize (Hr _ _ Hj). lia.
Qed.

(** The calls that the guard let through, told apart by their place. *)
Definition through (s : system) (i : nat) : Prop :=
  exists c a, guard_of c = Some K0 /\ answered s i c a /\ let_through c a.

(** C7. The lockout holds under concurrency.  While Redis answers, along every
    interleaving that does not reset the attempt counter of an email, no more than the
    configured number of calls get past the guard: Logins for the email are answered with
    anything but the lockout, codes for it are compared, resets for it are processed at
    most that often, however many run at the same time. *)
Theorem attempts_bounded s0 s l :
  calls s0 = [] -> good (shared s0) -> keys (shared s0) !! key_text K0 = None ->
  rtc gstep s0 s -> (Z.of_nat (length (calls s)) < int64_max)%Z ->
  NoDup l -> (forall i, i ∈ l -> through s i) -> (Z.of_nat (length l) <= limit)%Z.
Proof.
  intros Hc Hg Hk Hst Hmax Hnd Hl. assert (PreOrder (fun _ _ : World => True)) as Hpre by by split.
  assert (pool_ok (AuthProg.code uc) env_up kept good (fun _ _ => True) (fun _ t _ => counts t) paid tallied s0 s)
    as [_ _ (ts & Hok & Hlen & Hcalls)].
  { eapply (pool_ok_steps _ _ _ _ _ _ _ None); [intros c; by apply tick_code|by intros w w' _ []|apply consistent_tallied| |exact Hst].
    apply pool_ok_start; [done|done|]. intros _. exists 0%Z. split; [by left|done|done|done]. }
  rewrite <- Hlen in Hmax. destruct (Hok Hmax) as [n [_ _ Hr Ho]].
  assert (forall i, i ∈ l -> exists z, ts !! i = Some (Some z) /\ (1 <= z <= limit)%Z) as Hz.
  { intros i Hi. destruct (Hl i Hi) as (c & a & Hgd & Ha & Hlt).
    destruct (lookup_lt_is_Some_2 ts i) as [t Ht]; [rewrite Hlen; by eapply lookup_lt_Some|].
    destruct (Hcalls i c _ t Ha Ht) as (V & [_ _ Hq]). destruct (Hq Hgd Hlt) as (z & -> & Hle).
    exists z. split; [done|]. specialize (Hr _ _ Ht). lia. }
  set (reply i := match ts !! i with Some (Some z) => Z.to_nat z | _ => 0%nat end).
  assert (NoDup (reply <$> l)) as Hnd'.
  { apply NoDup_fmap_2_strong; [|done]. intros i j Hi Hj. unfold reply.
    destruct (Hz i Hi) as (z & Hzi & ?), (Hz j Hj) as (y & Hyj & ?). rewrite Hzi, Hyj. intros Heq.
    assert (z = y) as -> by lia. by eapply Ho. }
  assert (reply <$> l ⊆ seq 1 (Z.to_nat limit)) as Hsub.
  { intros x (i & -> & Hi)%list_elem_of_fmap. apply elem_of_seq. unfold reply.
    destruct (Hz i Hi) as (z & -> & ?). lia. }
  pose proof (submseteq_length _ _ (NoDup_submseteq _ _ Hnd' Hsub)) as Hle.
  rewrite length_fmap, length_seq in Hle. lia.
Qed.
End attempts.
