(* ===== verification/AuthAlone.v ===== *)
(** The interleaved programs of the auth use case and its sequential model
    (src/internal/business/usecases/auth): a call that nobody interrupts is the operation
    of AuthUsecase.v. *)

From Stdlib Require Import Ascii String ZArith.
From stdpp Require Import base gmap strings list pretty relations.
From S2P Require Import Prelude GoStrings AppError Records Services World Domain Caches.
From S2P Require Import UsersUsecase Jwt OtpCode AuthUsecase AuthLemmas AuthSystem Sessions SessionsProps Concurrent AuthConcurrent.

Open Scope string_scope.

Section sequential.
Context `{Platform} `{!OTPMailer} `{!UsersUsecase} `{!JWTService}.
Variable uc : Auth.usecase.

Lemma is_op_cutoff id t : is_op (AuthProg.recordTokenCutoff uc id t) (Auth.recordTokenCutoff uc id t).
Proof. unfold AuthProg.recordTokenCutoff, Auth.recordTokenCutoff. is_op. Qed.
Lemma is_op_remember p : is_op (AuthProg.rememberRefresh uc p) (Auth.rememberRefresh uc p).
Proof. unfold AuthProg.rememberRefresh, Auth.rememberRefresh. is_op. Qed.
Lemma is_op_count k d : is_op (AuthProg.count_attempt k d) (Auth.count_attempt k d).
Proof. unfold AuthProg.count_attempt, Auth.count_attempt. is_op. Qed.

Ltac operation := is_op; first [apply is_op_cutoff|apply is_op_remember|apply is_op_count|idtac].

Lemma is_op_Register x : is_op (AuthProg.Register x) (Auth.Register x).
Proof. unfold AuthProg.Register, Auth.Register. operation. Qed.
Lemma is_op_Login email pw : is_op (AuthProg.Login uc email pw) (Auth.Login uc email pw).
Proof. unfold AuthProg.Login, Auth.Login, AuthProg.Login_checked, Auth.Login_checked. operation. Qed.
Lemma is_op_SendOTP n email : is_op (AuthProg.SendOTP uc n email) (Auth.SendOTP uc n email).
Proof. unfold AuthProg.SendOTP, Auth.SendOTP. operation. Qed.
Lemma is_op_VerifyOTP email code : is_op (AuthProg.VerifyOTP uc email code) (Auth.VerifyOTP uc email code).
Proof. unfold AuthProg.VerifyOTP, Auth.VerifyOTP. operation. Qed.
Lemma is_op_Refresh tok : is_op (AuthProg.Refresh uc tok) (Auth.Refresh uc tok).
Proof. unfold AuthProg.Refresh, Auth.Refresh. operation. Qed.
Lemma is_op_Logout tok : is_op (AuthProg.Logout tok) (Auth.Logout tok).
Proof. unfold AuthProg.Logout, Auth.Logout. operation. Qed.
Lemma is_op_ChangePassword id cur new : is_op (AuthProg.ChangePassword uc id cur new) (Auth.ChangePassword uc id cur new).
Proof. unfold AuthProg.ChangePassword, Auth.ChangePassword. operation. Qed.
Lemma is_op_ForgotPassword email : is_op (AuthProg.ForgotPassword uc email) (Auth.ForgotPassword uc email).
Proof.
  unfold AuthProg.ForgotPassword, Auth.ForgotPassword, AuthProg.ForgotPassword_limited, Auth.ForgotPassword_limited.
  operation.
Qed.
Lemma is_op_ResetPassword tok new : is_op (AuthProg.ResetPassword uc tok new) (Auth.ResetPassword uc tok new).
Proof. unfold AuthProg.ResetPassword, Auth.ResetPassword. operation. Qed.

Lemma is_op_plain {A} (p : prog World A) m f :
  is_op p m -> is_op (pbind p (fun r => Ret (APlain (f r)))) (bind (bind m (fun r => ret (f r))) (fun r => ret (APlain r))).
Proof.
  intros Hp w. rewrite (is_op_bind p m _ (fun r => ret (APlain (f r))) Hp (fun r => is_op_ret _)).
  unfold bind, ret. by destruct (m w).
Qed.

(** The interleaved programs are the operations: a call nobody interrupts gives the
    answer and leaves the state of the operation of AuthUsecase.v, for every call. *)
Theorem call_is_operation c w : alone (AuthProg.code uc c) w = answer_of uc c w.
Proof.
  enough (is_op (AuthProg.code uc c) (answer_of uc c)) as Hop by apply Hop.
  destruct c; cbn [AuthProg.code answer_of run]; unfold AuthProg.plain, forget;
    try refine (is_op_plain _ _ (fun r => Some (match r with Ok _ => Ok tt | Err e => Err e end)) _); try is_op;
    auto using is_op_Register, is_op_Login, is_op_SendOTP, is_op_VerifyOTP, is_op_Refresh, is_op_Logout,
      is_op_ChangePassword, is_op_ForgotPassword, is_op_ResetPassword.
Qed.
End sequential.
