(* ===== verification/Migration.v ===== *)
(** The migration runner: src/internal/datasources/migration/migration.go.  The
    database and the file system are parameters; what is kept of a database is
    which files it has recorded and the SQL texts that were executed on it. *)

From Stdlib Require Import Ascii String ZArith Sorted.
From stdpp Require Import base gmap strings list pretty sorting.
From S2P Require Import Prelude GoStrings AppError.

Open Scope string_scope.

(** * The database and the directory *)
Class MigrationDB := {
  pgdb : Type;
  pgtx : Type;
  exec_ensure : io pgdb (result error unit);        (** CREATE TABLE IF NOT EXISTS *)
  exec_lock : io pgdb (result error unit);          (** pg_advisory_lock *)
  exec_unlock : io pgdb (result error unit);
  select_names : io pgdb (result error (result error (list string)));
    (** the query, then the reading of its rows *)
  begin_tx : io pgdb (result error pgtx);
  tx_exec : string -> io pgtx (result error unit);  (** the text of a file *)
  tx_insert : string -> io pgtx (result error unit); (** ON CONFLICT DO NOTHING *)
  tx_delete : string -> io pgtx (result error unit);
  tx_commit : pgtx -> io pgdb (result error unit);
  tx_rollback : pgtx -> io pgdb unit;
  db_applied : pgdb -> gset string;                 (** schema_migrations.name *)
  db_history : pgdb -> list string;                 (** executed texts, oldest first *)
  tx_applied : pgtx -> gset string;
  tx_history : pgtx -> list string;
}.

(** Transactions are atomic and see the database they began on; an error of a
    statement leaves the database alone.  A COMMIT that reports an error may have
    happened.  The files do not touch schema_migrations. *)
Class MigrationDBLaws `{MigrationDB} : Prop := {
  ensure_law : forall d, db_applied (exec_ensure d).2 = db_applied d /\
    db_history (exec_ensure d).2 = db_history d;
  lock_law : forall d, db_applied (exec_lock d).2 = db_applied d /\
    db_history (exec_lock d).2 = db_history d;
  unlock_law : forall d, db_applied (exec_unlock d).2 = db_applied d /\
    db_history (exec_unlock d).2 = db_history d;
  select_law : forall d, db_applied (select_names d).2 = db_applied d /\
    db_history (select_names d).2 = db_history d /\
    forall ns, (select_names d).1 = Ok (Ok ns) -> list_to_set ns = db_applied d;
  begin_law : forall d, db_applied (begin_tx d).2 = db_applied d /\
    db_history (begin_tx d).2 = db_history d /\
    forall t, (begin_tx d).1 = Ok t -> tx_applied t = db_applied d /\ tx_history t = db_history d;
  tx_exec_law : forall sql t, (tx_exec sql t).1 = Ok tt ->
    tx_applied (tx_exec sql t).2 = tx_applied t /\
    tx_history (tx_exec sql t).2 = (tx_history t ++ [sql])%list;
  tx_insert_law : forall n t, (tx_insert n t).1 = Ok tt ->
    tx_applied (tx_insert n t).2 = {[n]} ∪ tx_applied t /\
    tx_history (tx_insert n t).2 = tx_history t;
  tx_delete_law : forall n t, (tx_delete n t).1 = Ok tt ->
    tx_applied (tx_delete n t).2 = tx_applied t ∖ {[n]} /\
    tx_history (tx_delete n t).2 = tx_history t;
  commit_law : forall t d,
    (db_applied (tx_commit t d).2 = tx_applied t /\ db_history (tx_commit t d).2 = tx_history t) \/
    (is_Ok (tx_commit t d).1 = false /\
     db_applied (tx_commit t d).2 = db_applied d /\ db_history (tx_commit t d).2 = db_history d);
  rollback_law : forall t d, db_applied (tx_rollback t d).2 = db_applied d /\
    db_history (tx_rollback t d).2 = db_history d;
}.

(** The directory: the base names that match ["*.up.sql"] or ["*.down.sql"], and the
    text of a file.  All files are in the one directory of the runner, so sorting
    paths is sorting base names. *)
Class MigrationDir := {
  glob : string -> result error (list string);
  read_file : string -> result error string;
}.

(** [sort.Strings] and its reverse. *)
Definition sort_Strings (l : list string) : list string := merge_sort String.le l.
#[export] Instance flip_le_dec : RelDecision (flip String.le).
Proof. intros s t. apply (_ : Decision (String.le t s)). Defined.

#[export] Instance flip_le_total : Total (flip String.le).
Proof. intros s t. destruct (total String.le s t); [by right|by left]. Qed.

#[export] Instance flip_le_trans : Transitive (flip String.le).
Proof. intros s t u Hst Htu. unfold flip in *. by transitivity t. Qed.

Definition sort_Reverse (l : list string) : list string := merge_sort (flip String.le) l.

(** [downName[:len-9] + ".up.sql"] when the name ends in [".down.sql"] and is longer. *)
Definition deriveUpName (downName : string) : string :=
  let suffix := ".down.sql" in
  let n := String.length downName in
  let k := String.length suffix in
  if (k <? n)%nat && (String.substring (n - k) k downName =? suffix)%string
  then String.substring 0 (n - k) downName +:+ ".up.sql"
  else downName.

(** ** Names of files *)
Lemma substring_prefix a b : String.substring 0 (String.length a) (a +:+ b) = a.
Proof. induction a as [|x a IH]; [by destruct b|]. exact (f_equal (String x) IH). Qed.

Lemma substring_suffix a b : String.substring (String.length a) (String.length b) (a +:+ b) = b.
Proof. induction a as [|x a IH]; [by apply substring_all|]. exact IH. Qed.

(** A down file goes with the up file of the same stem. *)
Lemma deriveUpName_down stem : stem <> "" -> deriveUpName (stem +:+ ".down.sql") = stem +:+ ".up.sql".
Proof.
  intros Hs. unfold deriveUpName. rewrite length_app_string.
  replace (String.length stem + String.length ".down.sql" - String.length ".down.sql")%nat
    with (String.length stem) by lia.
  rewrite substring_suffix, substring_prefix, String.eqb_refl.
  destruct stem; [done|]. by rewrite (proj2 (Nat.ltb_lt _ _)) by (cbn; lia).
Qed.

Section runner.
Context `{MigrationDB} `{MigrationDir}.

Definition listFiles (action : string) : result error (list string) :=
  match glob ("*." +:+ action +:+ ".sql") with
  | Err _ => Err (EText "glob migration files")
  | Ok files => Ok (sort_Strings files)
  end.

(** The map from name to [true]. *)
Definition loadApplied : io pgdb (result error (gset string)) :=
  try rows <- select_names catch err => ret (Err (EWrapped "load applied migrations" err)) ;;
  match rows with
  | Err err => ret (Err err)
  | Ok names => ret (Ok (list_to_set names))
  end.

(** The statements of [applyFile] on the transaction. *)
Definition in_tx (file data upName : string) (isUp : bool) : io pgtx (result error unit) :=
  try _ok <- tx_exec data catch err => ret (Err (EWrapped ("exec " +:+ file) err)) ;;
  if isUp then
    try _ok <- tx_insert upName
    catch err => ret (Err (EWrapped ("record migration " +:+ upName) err)) ;;
    ret (Ok tt)
  else
    try _ok <- tx_delete upName
    catch err => ret (Err (EWrapped ("forget migration " +:+ upName) err)) ;;
    ret (Ok tt).

Definition applyFile (file upName : string) (isUp : bool) : io pgdb (result error unit) :=
  match read_file file with
  | Err err => ret (Err (EWrapped ("read " +:+ file) err))
  | Ok data =>
      try tx <- begin_tx catch err => ret (Err (EWrapped "begin tx" err)) ;;
      let '(res, tx) := in_tx file data upName isUp tx in
      match res with
      | Err err => tx_rollback tx ;;; ret (Err err)   (* the deferred Rollback *)
      | Ok _ =>
          try _ok <- tx_commit tx catch err => ret (Err (EWrapped ("commit " +:+ file) err)) ;;
          ret (Ok tt)
      end
  end.

(** The loops of [Up] and [Down]. *)
Fixpoint up_files (applied : gset string) (files : list string) : io pgdb (result error unit) :=
  match files with
  | [] => ret (Ok tt)
  | name :: files =>
      if bool_decide (name ∈ applied) then up_files applied files else
      try _ok <- applyFile name name true catch err => ret (Err err) ;;
      up_files applied files
  end.

Fixpoint down_files (files : list string) : io pgdb (result error unit) :=
  match files with
  | [] => ret (Ok tt)
  | name :: files =>
      try _ok <- applyFile name (deriveUpName name) false catch err => ret (Err err) ;;
      down_files files
  end.

(** The error of the unlock is only logged. *)
Definition withAdvisoryLock (fn : io pgdb (result error unit)) : io pgdb (result error unit) :=
  try _ok <- exec_lock catch err => ret (Err (EWrapped "acquire advisory lock" err)) ;;
  res <- fn ;;
  exec_unlock ;;;
  ret res.

Definition Up : io pgdb (result error unit) :=
  try _ok <- exec_ensure catch err => ret (Err (EWrapped "create schema_migrations" err)) ;;
  withAdvisoryLock
    (match listFiles "up" with
     | Err err => ret (Err err)
     | Ok files =>
         try applied <- loadApplied catch err => ret (Err err) ;;
         up_files applied files
     end).

Definition Down : io pgdb (result error unit) :=
  try _ok <- exec_ensure catch err => ret (Err (EWrapped "create schema_migrations" err)) ;;
  withAdvisoryLock
    (match listFiles "down" with
     | Err err => ret (Err err)
     | Ok files => down_files (sort_Reverse files)
     end).

(** src/cmd/migration/main.go with its flags: an error is fatal, a [-down] after a failed
    [-up] does not happen. *)
Definition main (up down : bool) : io pgdb (result error unit) :=
  try _ok <- (if up then Up else ret (Ok tt)) catch err => ret (Err err) ;;
  if down then Down else ret (Ok tt).
End runner.

(** * Lemmas *)
Section runner_ok.
Context `{MigrationDBLaws} `{!MigrationDir}.

(** The database looks the same to the runner. *)
Definition same (d d' : pgdb) : Prop :=
  db_applied d' = db_applied d /\ db_history d' = db_history d.

Lemma same_trans d1 d2 d3 : same d1 d2 -> same d2 d3 -> same d1 d3.
Proof. intros [] []. split; congruence. Qed.

(** The record a successful [applyFile] leaves. *)
Definition noted (isUp : bool) (n : string) (X : gset string) : gset string :=
  if isUp then {[n]} ∪ X else X ∖ {[n]}.

Lemma in_tx_ok file data upName isUp t t' :
  in_tx file data upName isUp t = (Ok tt, t') ->
  tx_applied t' = noted isUp upName (tx_applied t) /\ tx_history t' = (tx_history t ++ [data])%list.
Proof.
  unfold in_tx, try_catch, bind, ret. pose proof (tx_exec_law data t) as Hx.
  destruct (tx_exec data t) as [[[]|e] t1]; [|done]. destruct (Hx eq_refl) as [Ha Hh].
  simpl in *. destruct isUp.
  - pose proof (tx_insert_law upName t1) as Hi. destruct (tx_insert upName t1) as [[[]|e] t2]; [|done].
    destruct (Hi eq_refl) as [Ha2 Hh2]. intros [= <-]. simpl in *. by rewrite Ha2, Hh2, Ha, Hh.
  - pose proof (tx_delete_law upName t1) as Hi. destruct (tx_delete upName t1) as [[[]|e] t2]; [|done].
    destruct (Hi eq_refl) as [Ha2 Hh2]. intros [= <-]. simpl in *. by rewrite Ha2, Hh2, Ha, Hh.
Qed.

(** One file: the text was executed and recorded, both or neither. *)
Definition applied_file (file upName : string) (isUp : bool) (d d' : pgdb) : Prop :=
  db_applied d' = noted isUp upName (db_applied d) /\
  exists data, read_file file = Ok data /\ db_history d' = (db_history d ++ [data])%list.

Lemma applyFile_ok file upName isUp d :
  wp (applyFile file upName isUp) (fun res d' =>
    applied_file file upName isUp d d' \/ (is_Ok res = false /\ same d d')) d.
Proof.
  unfold applyFile. destruct (read_file file) as [data|e] eqn:Er; [|wp_step; by right].
  wp_step. apply wp_intro. intros res d1 Hb. pose proof (begin_law d) as (Ha & Hh & Ht).
  rewrite Hb in *. simpl in *. destruct res as [t|e]; [|wp_step; by right].
  destruct (Ht t eq_refl) as [Hta Hth].
  destruct (in_tx file data upName isUp t) as [[[]|e] t'] eqn:Etx.
  - apply in_tx_ok in Etx as [Hta' Hth']. wp_step. apply wp_intro. intros res d2 Hc.
    pose proof (commit_law t' d1) as Hlaw. rewrite Hc in Hlaw. simpl in Hlaw.
    destruct Hlaw as [[Ha2 Hh2]|(Hok & Ha2 & Hh2)].
    + destruct res; wp_step; left; (split; [by rewrite Ha2, Hta', Hta|]);
        exists data; (split; [done|]); by rewrite Hh2, Hth', Hth.
    + destruct res; [done|]. wp_step. right. split; [done|]. split; congruence.
  - wp_step. apply wp_intro. intros [] d2 Hr. pose proof (rollback_law t' d1) as [Ha2 Hh2].
    rewrite Hr in *. simpl in *. wp_step. right. split; [done|]. split; congruence.
Qed.

(** A prefix [done] of the files was applied, in order, and the texts executed. *)
Record progress (isUp : bool) (up : string -> string) (files : list string) (d : pgdb)
    (res : result error unit) (d' : pgdb) (todo : list string) : Prop := {
  pr_applied : exists rest, files = (todo ++ rest)%list /\ (res = Ok tt -> rest = []);
  pr_names : db_applied d' = foldl (fun X n => noted isUp (up n) X) (db_applied d) todo;
  pr_texts : exists texts, db_history d' = (db_history d ++ texts)%list /\
    Forall2 (fun n t => read_file n = Ok t) todo texts;
}.

Lemma progress_nil isUp up d res files d' :
  same d d' -> (res = Ok tt -> files = []) -> progress isUp up files d res d' [].
Proof.
  intros [Ha Hh] Hok. split; [by exists files|done|]. exists []. by rewrite app_nil_r.
Qed.

Lemma progress_cons isUp up n files d d1 res d' todo :
  applied_file n (up n) isUp d d1 -> progress isUp up files d1 res d' todo ->
  progress isUp up (n :: files) d res d' (n :: todo).
Proof.
  intros [Ha (data & Hd & Hh)] [(rest & -> & Hr) Hn (texts & Ht & Hf)].
  split; [by exists rest|by rewrite Hn, Ha|].
  exists (data :: texts). split; [by rewrite Ht, Hh, <- app_assoc|by constructor].
Qed.

Lemma up_files_ok applied files d :
  wp (up_files applied files) (fun res d' =>
    exists todo, progress true (fun n => n) (filter (fun n => n ∉ applied) files) d res d' todo) d.
Proof.
  revert d. induction files as [|n files IH]; intros d; cbn [up_files].
  { wp_step. exists []. by apply progress_nil. }
  rewrite filter_cons. case_bool_decide.
  - rewrite decide_False by (intros Hn; by apply Hn). apply IH.
  - rewrite decide_True by done. wp_step. eapply wp_mono; [apply applyFile_ok|].
    intros res d1 [Hok|[Hf Hs]].
    + destruct res as [[]|e].
      * eapply wp_mono; [apply IH|]. intros res d2 [todo Hp]. exists (n :: todo).
        by eapply progress_cons.
      * wp_step. exists [n]. eapply progress_cons; [done|]. by apply progress_nil.
    + destruct res as [[]|e]; [done|]. wp_step. exists []. by apply progress_nil.
Qed.

Lemma down_files_ok files d :
  wp (down_files files) (fun res d' => exists todo, progress false deriveUpName files d res d' todo) d.
Proof.
  revert d. induction files as [|n files IH]; intros d; cbn [down_files].
  { wp_step. exists []. by apply progress_nil. }
  wp_step. eapply wp_mono; [apply applyFile_ok|]. intros res d1 [Hok|[Hf Hs]].
  - destruct res as [[]|e].
    + eapply wp_mono; [apply IH|]. intros res d2 [todo Hp]. exists (n :: todo).
      by eapply progress_cons.
    + wp_step. exists [n]. eapply progress_cons; [done|]. by apply progress_nil.
  - destruct res as [[]|e]; [done|]. wp_step. exists []. by apply progress_nil.
Qed.
(** ** What [Up] and [Down] do *)

(** The files of an action in ascending order; none when the pattern is bad. *)
Definition files_of (action : string) : list string :=
  match listFiles action with Ok files => files | Err _ => [] end.

(** What [Up] has to apply. *)
Definition pending (d : pgdb) : list string :=
  filter (fun n => n ∉ db_applied d) (files_of "up").

Lemma same_progress_nil isUp up d d' files e : same d d' -> progress isUp up files d (Err e) d' [].
Proof. intros Hs. by apply progress_nil. Qed.

(** A body under [ensureMigrationsTable] and the lock. *)
Lemma wp_locked isUp up files (fn : io pgdb (result error unit)) d :
  (forall d1, same d d1 -> wp fn (fun res d2 => exists todo, progress isUp up files d1 res d2 todo) d1) ->
  wp (try _ok <- exec_ensure catch err => ret (Err (EWrapped "create schema_migrations" err)) ;;
      withAdvisoryLock fn)
    (fun res d' => exists todo, progress isUp up files d res d' todo) d.
Proof.
  intros Hfn. wp_step. apply wp_intro. intros res d1 He. pose proof (ensure_law d) as Hs1.
  rewrite He in Hs1. destruct res as [[]|e]; [|wp_step; exists []; by apply same_progress_nil].
  unfold withAdvisoryLock. wp_step. apply wp_intro. intros res d2 Hl. pose proof (lock_law d1) as Hs2.
  rewrite Hl in Hs2. assert (same d d2) as Hs by (eapply same_trans; [exact Hs1|exact Hs2]).
  destruct res as [[]|e]; [|wp_step; exists []; by apply same_progress_nil].
  wp_step. eapply wp_mono; [by apply Hfn|]. intros res d3 [todo [Hf Hn Ht]].
  wp_step. apply wp_intro. intros r d4 Hu. pose proof (unlock_law d3) as [Ha Hh]. rewrite Hu in Ha, Hh.
  simpl in Ha, Hh. wp_step. exists todo. destruct Hs as [Ha2 Hh2].
  split; [done|by rewrite Ha, Hn, Ha2|]. by rewrite Hh, <- Hh2.
Qed.

Lemma wp_Up d : wp Up (fun res d' => exists todo, progress true (fun n => n) (pending d) d res d' todo) d.
Proof.
  apply wp_locked. intros d1 [Ha Hh]. unfold pending, files_of. rewrite <- Ha.
  destruct (listFiles "up") as [files|e]; [|wp_step; exists []; by apply same_progress_nil].
  unfold loadApplied. wp_step. wp_step. apply wp_intro. intros res d2 Hq.
  pose proof (select_law d1) as (Ha2 & Hh2 & Hns). rewrite Hq in *. simpl in *.
  destruct res as [[ns|e]|e]; wp_steps; [|exists []; by apply same_progress_nil..].
  rewrite (Hns ns eq_refl). eapply wp_mono; [apply up_files_ok|]. intros res d3 [todo [Hf Hn Ht]].
  exists todo. split; [done|by rewrite Hn, Ha2|by rewrite <- Hh2].
Qed.

Lemma wp_Down d : wp Down
  (fun res d' => exists todo, progress false deriveUpName (sort_Reverse (files_of "down")) d res d' todo) d.
Proof.
  apply wp_locked. intros d1 Hs. unfold files_of.
  destruct (listFiles "down") as [files|e]; [|wp_step; exists []; by apply same_progress_nil].
  apply down_files_ok.
Qed.

Lemma noted_up_all (l : list string) (X : gset string) : foldl (fun X n => noted true n X) X l = list_to_set l ∪ X.
Proof.
  revert X. induction l as [|n l IH]; intros X; cbn [foldl]; [set_solver|]. rewrite IH. set_solver.
Qed.

Lemma noted_down_all (up : string -> string) (l : list string) (X : gset string) :
  foldl (fun X n => noted false (up n) X) X l = X ∖ list_to_set (up <$> l).
Proof.
  revert X. induction l as [|n l IH]; intros X; cbn [foldl]; [set_solver|]. rewrite IH. set_solver.
Qed.

Lemma progress_success isUp up files d d' todo :
  progress isUp up files d (Ok tt) d' todo -> todo = files.
Proof. intros [(rest & -> & Hr) _ _]. by rewrite (Hr eq_refl), app_nil_r. Qed.

Lemma filter_none {A} (P : A -> Prop) `{!forall x, Decision (P x)} (l : list A) :
  (forall x, x ∈ l -> ~ P x) -> filter P l = [].
Proof.
  intros Hl. destruct (filter P l) as [|x k] eqn:Hf; [done|exfalso].
  apply (Hl x); apply (list_elem_of_filter P l x); rewrite Hf; left.
Qed.

Lemma filter_ext_in {A} (P Q : A -> Prop) `{!forall x, Decision (P x)} `{!forall x, Decision (Q x)} (l : list A) :
  (forall x, x ∈ l -> P x <-> Q x) -> filter P l = filter Q l.
Proof.
  induction l as [|x l IH]; intros Hl; [done|]. rewrite !filter_cons.
  rewrite IH by (intros y Hy; apply Hl; by right). pose proof (Hl x ltac:(left)).
  destruct (decide (P x)), (decide (Q x)); tauto.
Qed.

Lemma filter_all {A} (P : A -> Prop) `{!forall x, Decision (P x)} (l : list A) :
  (forall x, x ∈ l -> P x) -> filter P l = l.
Proof.
  induction l as [|x l IH]; intros Hl; [done|]. rewrite filter_cons, decide_True by (apply Hl; left).
  by rewrite IH by (intros y Hy; apply Hl; by right).
Qed.

(** A successful [Up] leaves nothing pending. *)
Lemma pending_after d d' todo :
  progress true (fun n => n) (pending d) d (Ok tt) d' todo -> pending d' = [].
Proof.
  intros Hp. pose proof (progress_success _ _ _ _ _ _ Hp) as ->. destruct Hp as [_ Hn _].
  unfold pending at 1. rewrite Hn, noted_up_all. apply filter_none.
  intros n Hin Hout. apply Hout, elem_of_union.
  destruct (decide (n ∈ db_applied d)); [by right|left].
  by apply elem_of_list_to_set, list_elem_of_filter.
Qed.
Lemma files_of_sorted action : StronglySorted String.le (files_of action).
Proof.
  unfold files_of, listFiles. destruct (glob _) as [files|e]; [|constructor].
  apply StronglySorted_merge_sort; apply _.
Qed.

Lemma pending_empty d : db_applied d = ∅ -> pending d = files_of "up".
Proof. intros He. unfold pending. rewrite He. apply filter_all. set_solver. Qed.

Lemma sort_Reverse_names (up : string -> string) l :
  list_to_set (C:=gset string) (up <$> sort_Reverse l) = list_to_set (up <$> l).
Proof. apply list_to_set_perm_L. f_equiv. apply merge_sort_Permutation. Qed.

(** * Properties *)

(** [Up] works through the pending files in ascending order and stops at the
    first that fails.  Each file it got through has been executed and recorded,
    both or neither, no other file has; without an error none is left. *)
Theorem Up_spec d res d' :
  Up d = (res, d') ->
  StronglySorted String.le (files_of "up") /\
  exists todo rest texts,
    pending d = (todo ++ rest)%list /\ (res = Ok tt -> rest = []) /\
    db_applied d' = list_to_set todo ∪ db_applied d /\
    db_history d' = (db_history d ++ texts)%list /\
    Forall2 (fun n t => read_file n = Ok t) todo texts.
Proof.
  intros Hrun. destruct (wp_run _ _ _ _ _ (wp_Up d) Hrun) as [todo [(rest & Hf & Hr) Hn (texts & Ht & Hx)]].
  split; [apply files_of_sorted|]. exists todo, rest, texts. by rewrite Hn, noted_up_all.
Qed.

(** [Up] again after a success: nothing is executed or recorded. *)
Theorem Up_idempotent d d1 res d2 : Up d = (Ok tt, d1) -> Up d1 = (res, d2) -> same d1 d2.
Proof.
  intros Hr1 Hr2. destruct (wp_run _ _ _ _ _ (wp_Up d) Hr1) as [todo Hp].
  destruct (wp_run _ _ _ _ _ (wp_Up d1) Hr2) as [todo2 [(rest & Hf & _) Hn (texts & Ht & Hx)]].
  rewrite (pending_after _ _ _ Hp) in Hf. symmetry in Hf. apply app_nil in Hf as [-> _].
  apply Forall2_nil_inv_l in Hx as ->. split; [done|by rewrite Ht, app_nil_r].
Qed.

(** [Down] works through all down files in descending order, whether their
    migration is applied or not, and forgets the up file of the same stem. *)
Theorem Down_spec d res d' :
  Down d = (res, d') ->
  StronglySorted (flip String.le) (sort_Reverse (files_of "down")) /\
  exists todo rest texts,
    sort_Reverse (files_of "down") = (todo ++ rest)%list /\ (res = Ok tt -> rest = []) /\
    db_applied d' = db_applied d ∖ list_to_set (deriveUpName <$> todo) /\
    db_history d' = (db_history d ++ texts)%list /\
    Forall2 (fun n t => read_file n = Ok t) todo texts.
Proof.
  intros Hrun. destruct (wp_run _ _ _ _ _ (wp_Down d) Hrun) as [todo [(rest & Hf & Hr) Hn (texts & Ht & Hx)]].
  split; [apply StronglySorted_merge_sort; apply _|]. exists todo, rest, texts.
  by rewrite Hn, noted_down_all.
Qed.

(** Up, down and up again on an empty database: the second [Up] executes an up
    file exactly if a down file of the same stem exists.  The others stay recorded
    although [Down] has undone them. *)
Theorem Up_Down_Up d d1 d2 d3 :
  db_applied d = ∅ ->
  Up d = (Ok tt, d1) -> Down d1 = (Ok tt, d2) -> Up d2 = (Ok tt, d3) ->
  let again := filter (fun n => n ∈ deriveUpName <$> files_of "down") (files_of "up") in
  db_applied d2 = list_to_set (files_of "up") ∖ list_to_set (deriveUpName <$> files_of "down") /\
  exists texts, db_history d3 = (db_history d2 ++ texts)%list /\
    Forall2 (fun n t => read_file n = Ok t) again texts.
Proof.
  intros He Hr1 Hr2 Hr3 again.
  destruct (wp_run _ _ _ _ _ (wp_Up d) Hr1) as [t1 Hp1].
  destruct (wp_run _ _ _ _ _ (wp_Down d1) Hr2) as [t2 Hp2].
  destruct (wp_run _ _ _ _ _ (wp_Up d2) Hr3) as [t3 Hp3].
  pose proof (progress_success _ _ _ _ _ _ Hp1) as ->.
  pose proof (progress_success _ _ _ _ _ _ Hp2) as ->.
  pose proof (progress_success _ _ _ _ _ _ Hp3) as ->.
  destruct Hp1 as [_ Hn1 _], Hp2 as [_ Hn2 _], Hp3 as [_ _ (texts & Ht & Hx)].
  assert (db_applied d2 = list_to_set (files_of "up") ∖ list_to_set (deriveUpName <$> files_of "down"))
    as Ha2.
  { rewrite Hn2, noted_down_all, Hn1, noted_up_all, He, (pending_empty _ He), union_empty_r_L.
    by rewrite sort_Reverse_names. }
  split; [done|]. exists texts. split; [done|]. replace again with (pending d2); [done|].
  unfold pending, again. rewrite Ha2. apply filter_ext_in. intros n Hn.
  rewrite elem_of_difference, !elem_of_list_to_set. destruct (decide (n ∈ deriveUpName <$> files_of "down")); tauto.
Qed.
End runner_ok.
