(* ===== verification/MigrationRunners.v ===== *)
(** Several migration runners on one database: src/cmd/migration/main.go and
    src/internal/datasources/migration/migration.go again, cut into what they send, and
    the advisory lock that PostgreSQL keeps for a session.  A runner has a pool of
    sessions: every statement goes to one of them, whichever is idle.

    Each script run alone is the operation of Migration.v ([main_alone]). *)

From Stdlib Require Import Ascii String ZArith Sorted.
From stdpp Require Import base gmap strings list pretty sorting relations.
From S2P Require Import Prelude GoStrings AppError Migration.

Open Scope string_scope.

(** * Scripts: what a runner sends, in order *)
Inductive script (D A : Type) : Type :=
| Done (a : A)
| Run (X : Type) (m : io D X) (k : X -> script D A)        (** on any session *)
| Lock (k : result error unit -> script D A)               (** pg_advisory_lock; may wait *)
| Unlock (k : result error unit -> script D A).
Arguments Done {D A} a.
Arguments Run {D A X} m k.
Arguments Lock {D A} k.
Arguments Unlock {D A} k.

Fixpoint sbind {D A B} (p : script D A) (f : A -> script D B) : script D B :=
  match p with
  | Done a => f a
  | Run m k => Run m (fun x => sbind (k x) f)
  | Lock k => Lock (fun r => sbind (k r) f)
  | Unlock k => Unlock (fun r => sbind (k r) f)
  end.

Definition stry {D A B} (p : script D (result error A)) (h : error -> script D B) (f : A -> script D B) : script D B :=
  sbind p (fun r => match r with Ok a => f a | Err e => h e end).

Definition send {D X} (m : io D X) : script D X := Run m Done.

Declare Scope script_scope.
Delimit Scope script_scope with script.
Notation "'try' x <- m 'catch' e => h ;; k" := (stry m (fun e => h) (fun x => k))
  (at level 20, x name, m at level 99, e name, h at level 99,
   k at level 200, only parsing) : script_scope.

Section scripts.
Context `{MigrationDB} `{MigrationDir}.
#[local] Open Scope script_scope.
Notation answer := (result error unit).

Fixpoint up_files_script (applied : gset string) (files : list string) : script pgdb answer :=
  match files with
  | [] => Done (Ok tt)
  | name :: files =>
      if bool_decide (name ∈ applied) then up_files_script applied files else
      try _ok <- send (applyFile name name true) catch err => Done (Err err) ;;
      up_files_script applied files
  end.

Fixpoint down_files_script (files : list string) : script pgdb answer :=
  match files with
  | [] => Done (Ok tt)
  | name :: files =>
      try _ok <- send (applyFile name (deriveUpName name) false) catch err => Done (Err err) ;;
      down_files_script files
  end.

Definition locked_script (fn : script pgdb answer) : script pgdb answer :=
  Lock (fun r =>
    match r with
    | Err err => Done (Err (EWrapped "acquire advisory lock" err))
    | Ok _ => sbind fn (fun res => Unlock (fun _ => Done res))
    end).

Definition up_body : script pgdb answer :=
  match listFiles "up" with
  | Err err => Done (Err err)
  | Ok files =>
      try applied <- send loadApplied catch err => Done (Err err) ;;
      up_files_script applied files
  end.

Definition down_body : script pgdb answer :=
  match listFiles "down" with
  | Err err => Done (Err err)
  | Ok files => down_files_script (sort_Reverse files)
  end.

Definition Up_script : script pgdb answer :=
  try _ok <- send exec_ensure catch err => Done (Err (EWrapped "create schema_migrations" err)) ;;
  locked_script up_body.

Definition Down_script : script pgdb answer :=
  try _ok <- send exec_ensure catch err => Done (Err (EWrapped "create schema_migrations" err)) ;;
  locked_script down_body.

Definition main_script (up down : bool) : script pgdb answer :=
  try _ok <- (if up then Up_script else Done (Ok tt)) catch err => Done (Err err) ;;
  if down then Down_script else Done (Ok tt).

(** ** A runner that has the database to itself *)
Fixpoint run_alone {A} (p : script pgdb A) : io pgdb A :=
  match p with
  | Done a => ret a
  | Run m k => bind m (fun x => run_alone (k x))
  | Lock k => bind exec_lock (fun r => run_alone (k r))
  | Unlock k => bind exec_unlock (fun r => run_alone (k r))
  end.

Definition is_script {A} (p : script pgdb A) (m : io pgdb A) : Prop := forall d, run_alone p d = m d.

Lemma run_alone_bind {A B} (p : script pgdb A) (f : A -> script pgdb B) d :
  run_alone (sbind p f) d = bind (run_alone p) (fun a => run_alone (f a)) d.
Proof.
  revert d. induction p as [a|X m k IH|k IH|k IH]; intros d; [done|..]; cbn; unfold bind.
  - destruct (m d). apply IH.
  - destruct (exec_lock d). apply IH.
  - destruct (exec_unlock d). apply IH.
Qed.

Lemma is_script_bind {A B} (p : script pgdb A) m (f : A -> script pgdb B) g :
  is_script p m -> (forall a, is_script (f a) (g a)) -> is_script (sbind p f) (bind m g).
Proof. intros Hp Hf d. rewrite run_alone_bind. unfold bind. rewrite Hp. destruct (m d). apply Hf. Qed.

Lemma is_script_try {A B} (p : script pgdb (result error A)) m (h : error -> script pgdb B) h'
    (f : A -> script pgdb B) g :
  is_script p m -> (forall e, is_script (h e) (h' e)) -> (forall a, is_script (f a) (g a)) ->
  is_script (stry p h f) (try_catch m h' g).
Proof. intros Hp Hh Hf. apply is_script_bind; [done|]. intros []; auto. Qed.

Lemma is_script_done {A} (a : A) : is_script (Done a) (ret a).
Proof. done. Qed.

Lemma is_script_send {X} (m : io pgdb X) : is_script (send m) m.
Proof. intros d. cbn. unfold bind, ret. by destruct (m d). Qed.
#[local] Hint Resolve is_script_try is_script_done is_script_send : core.

Lemma up_files_alone applied files : is_script (up_files_script applied files) (up_files applied files).
Proof. induction files; cbn [up_files_script up_files]; [done|]. case_bool_decide; auto. Qed.

Lemma down_files_alone files : is_script (down_files_script files) (down_files files).
Proof. induction files; cbn [down_files_script down_files]; auto. Qed.

Lemma locked_alone fn m : is_script fn m -> is_script (locked_script fn) (withAdvisoryLock m).
Proof.
  intros Hfn. unfold locked_script, withAdvisoryLock. intros d. cbn. unfold try_catch, bind.
  destruct (exec_lock d) as [[[]|e] d1]; [|done]. rewrite run_alone_bind. unfold bind. rewrite Hfn.
  destruct (m d1) as [res d2]. cbn. unfold bind. by destruct (exec_unlock d2).
Qed.
#[local] Hint Resolve up_files_alone down_files_alone locked_alone : core.

Lemma Up_alone : is_script Up_script Up.
Proof.
  apply is_script_try; [done..|]. intros _. apply locked_alone. unfold up_body.
  destruct (listFiles "up"); auto.
Qed.

Lemma Down_alone : is_script Down_script Down.
Proof.
  apply is_script_try; [done..|]. intros _. apply locked_alone. unfold down_body.
  destruct (listFiles "down"); auto.
Qed.

Lemma main_alone up down : is_script (main_script up down) (main up down).
Proof. apply is_script_try; destruct up, down; auto using Up_alone, Down_alone. Qed.
End scripts.

(** * Sessions and the lock

    A session belongs to the pool of one runner ([owner]).  The lock is held by one
    session or by none; a request of another session waits ([None]). *)
Class PgSessions `{MigrationDB} := {
  session : Type;
  #[global] session_dec :: EqDecision session;
  owner : session -> nat;
  holder : pgdb -> option session;
  lock_on : session -> pgdb -> option (result error unit * pgdb);
  unlock_on : session -> io pgdb (result error unit);
  close_session : session -> pgdb -> pgdb;
}.

(** A session may take the lock again that it has; it then keeps it until it has
    unlocked as often.  Unlocking from another session has no effect, closing the session
    gives the lock back.  Nothing else moves it. *)
Class PgSessionsLaws `{PgSessions} : Prop := {
  lock_on_law : forall s d r d', lock_on s d = Some (r, d') -> same d d' /\
    if is_Ok r then (holder d = None \/ holder d = Some s) /\ holder d' = Some s
    else holder d' = holder d;
  unlock_on_law : forall s d, same d (unlock_on s d).2 /\
    (holder (unlock_on s d).2 = holder d \/ (holder d = Some s /\ holder (unlock_on s d).2 = None));
  close_session_law : forall s d, same d (close_session s d) /\
    holder (close_session s d) = if decide (holder d = Some s) then None else holder d;
  holder_ensure : forall d, holder (exec_ensure d).2 = holder d;
  holder_select : forall d, holder (select_names d).2 = holder d;
  holder_begin : forall d, holder (begin_tx d).2 = holder d;
  holder_commit : forall t d, holder (tx_commit t d).2 = holder d;
  holder_rollback : forall t d, holder (tx_rollback t d).2 = holder d;
}.

(** * The runners *)
Section fleet.
Context `{PgSessions} `{MigrationDir}.
Notation answer := (result error unit).

(** A process with its flags, what is left of its script, and whether it is between its
    lock and its unlock. *)
Record runner := Runner { r_up : bool; r_down : bool; r_script : script pgdb answer; inside : bool }.
Record fleet := Fleet { f_db : pgdb; runners : list runner }.

Definition advance (r : runner) (p : script pgdb answer) (b : bool) : runner := Runner (r_up r) (r_down r) p b.
Definition answered (r : runner) (res : answer) : Prop := r_script r = Done res.

(** The pools leave a session that holds the lock open while its runner is inside.
    (Nothing in the code sees to that: a pool closes idle sessions when they are too many or
    too old, [idle_session_race].) *)
Definition left_open (f : fleet) (s : session) : Prop :=
  holder (f_db f) = Some s -> forall r, runners f !! owner s = Some r -> inside r = false.

Context (may_close : fleet -> session -> Prop).

Inductive fleet_step (f : fleet) : fleet -> Prop :=
| fs_start up down :
    fleet_step f (Fleet (f_db f) (runners f ++ [Runner up down (main_script up down) false]))
| fs_run i r X (m : io pgdb X) k :
    runners f !! i = Some r -> r_script r = Run m k ->
    fleet_step f (Fleet (m (f_db f)).2 (<[i := advance r (k (m (f_db f)).1) (inside r)]> (runners f)))
| fs_lock i r k s res d :
    runners f !! i = Some r -> r_script r = Lock k -> owner s = i -> lock_on s (f_db f) = Some (res, d) ->
    fleet_step f (Fleet d (<[i := advance r (k res) (is_Ok res)]> (runners f)))
| fs_unlock i r k s :
    runners f !! i = Some r -> r_script r = Unlock k -> owner s = i ->
    fleet_step f (Fleet (unlock_on s (f_db f)).2
      (<[i := advance r (k (unlock_on s (f_db f)).1) false]> (runners f)))
| fs_close s : may_close f s -> fleet_step f (Fleet (close_session s (f_db f)) (runners f))
| fs_other d : same (f_db f) d -> holder d = holder (f_db f) -> fleet_step f (Fleet d (runners f)).
End fleet.

(** ** Schedules *)
Section schedules.
Context `{PgSessions} `{MigrationDir}.

Inductive event :=
| EStart (up down : bool)
| ERun (i : nat)
| ELock (i : nat) (s : session)
| EUnlock (i : nat) (s : session)
| EClose (s : session).

Definition perform (e : event) (f : fleet) : option fleet :=
  match e with
  | EStart up down => Some (Fleet (f_db f) (runners f ++ [Runner up down (main_script up down) false]))
  | ERun i =>
      r ← runners f !! i;
      match r_script r with
      | Run m k => let '(x, d) := m (f_db f) in
          Some (Fleet d (<[i := advance r (k x) (inside r)]> (runners f)))
      | _ => None
      end
  | ELock i s =>
      r ← runners f !! i;
      match r_script r with
      | Lock k =>
          if decide (owner s = i) then
            '(res, d) ← lock_on s (f_db f);
            Some (Fleet d (<[i := advance r (k res) (is_Ok res)]> (runners f)))
          else None
      | _ => None
      end
  | EUnlock i s =>
      r ← runners f !! i;
      match r_script r with
      | Unlock k =>
          if decide (owner s = i) then
            let '(res, d) := unlock_on s (f_db f) in
            Some (Fleet d (<[i := advance r (k res) false]> (runners f)))
          else None
      | _ => None
      end
  | EClose s => Some (Fleet (close_session s (f_db f)) (runners f))
  end.

Fixpoint performs (es : list event) (f : fleet) : option fleet :=
  match es with
  | [] => Some f
  | e :: es => f ← perform e f; performs es f
  end.

Lemma perform_step may_close e f f' :
  perform e f = Some f' -> (forall s, e = EClose s -> may_close f s) -> fleet_step may_close f f'.
Proof.
  destruct e as [up down|i|i s|i s|s]; cbn; intros Hp Hc; [by injection Hp as <-; constructor|..].
  - destruct (runners f !! i) as [r|] eqn:Hi; [|done]. cbn in Hp. destruct (r_script r) as [|X m k| |] eqn:Hs; try done.
    pose proof (fs_run may_close f i r X m k Hi Hs) as Hst. destruct (m (f_db f)). by injection Hp as <-.
  - destruct (runners f !! i) as [r|] eqn:Hi; [|done]. cbn in Hp. destruct (r_script r) as [| |k|] eqn:Hs; try done.
    destruct (decide _) as [Ho|]; [|done]. destruct (lock_on s (f_db f)) as [[res d]|] eqn:Hl; [|done].
    injection Hp as <-. by eapply fs_lock.
  - destruct (runners f !! i) as [r|] eqn:Hi; [|done]. cbn in Hp. destruct (r_script r) as [| | |k] eqn:Hs; try done.
    destruct (decide _) as [Ho|]; [|done]. pose proof (fs_unlock may_close f i r k s Hi Hs Ho) as Hst.
    destruct (unlock_on s (f_db f)). by injection Hp as <-.
  - injection Hp as <-. constructor. by apply Hc.
Qed.

Lemma performs_reach may_close es f f' :
  performs es f = Some f' -> (forall f s, EClose s ∈ es -> may_close f s) -> rtc (fleet_step may_close) f f'.
Proof.
  revert f. induction es as [|e es IH]; intros f Hp Hc; cbn in Hp; [injection Hp as <-; apply rtc_refl|].
  destruct (perform e f) as [f1|] eqn:He; [|done]. cbn in Hp.
  eapply rtc_l; [eapply perform_step; [done|]|apply IH; [done|]].
  - intros s ->. apply Hc. left.
  - intros g s Hin. apply Hc. by right.
Qed.

(** A schedule in which nothing is closed. *)
Definition keeps_open (e : event) : bool := match e with EClose _ => false | _ => true end.

Definition after (es : list event) (f : fleet) : fleet := default f (performs es f).
Definition possible (es : list event) (f : fleet) : bool := if performs es f is Some _ then true else false.

Lemma after_reach may_close es f :
  possible es f = true -> (forall g s, EClose s ∈ es -> may_close g s) -> rtc (fleet_step may_close) f (after es f).
Proof.
  unfold possible, after. intros Hp Hc. destruct (performs es f) as [f'|] eqn:He; [|done]. by eapply performs_reach.
Qed.

Lemma after_open may_close es f :
  possible es f && forallb keeps_open es = true -> rtc (fleet_step may_close) f (after es f).
Proof.
  intros [Hp Ho]%andb_true_iff. apply after_reach; [done|]. intros g s Hin.
  rewrite forallb_forall in Ho. apply list_elem_of_In, Ho in Hin. done.
Qed.

(** Runner [i] has migrated up with success. *)
Definition migrated (f : fleet) (i : nat) : bool :=
  match runners f !! i with
  | Some r => match r_script r with Done (Ok _) => r_up r | _ => false end
  | None => false
  end.

Lemma migrated_answered f i : migrated f i = true ->
  exists r, runners f !! i = Some r /\ r_up r = true /\ answered r (Ok tt).
Proof.
  unfold migrated, answered. destruct (runners f !! i) as [r|]; [|done].
  destruct (r_script r) as [[[]|]| | |] eqn:Hs; try done. intros Hu. by exists r.
Qed.
End schedules.
