(* ===== verification/MigrationRunnersProps.v ===== *)
(** What several migration runners leave (MigrationRunners.v): while sessions that
    hold the lock are left open, at most one runner is between its lock and its unlock, and
    any number of runners does what one would.

    A script is reasoned about on its own ([safe]): outside it knows nothing of the
    database that another runner could change, inside it knows what the database shows
    and owes the others [G].  [kept] is what follows for all of them together. *)

From Stdlib Require Import Ascii String ZArith Sorted.
From stdpp Require Import base gmap strings list pretty sorting relations.
From S2P Require Import Prelude GoStrings AppError Migration MigrationRunners.

Open Scope string_scope.

(** * What a runner may do, inside and outside *)
Section contract.
Context `{PgSessionsLaws} `{!MigrationDBLaws} `{!MigrationDir}.
Context (G : pgdb -> pgdb -> Prop) (fin : pgdb -> Prop).
Notation answer := (result error unit).

(** Outside a runner knows nothing of the database but, once it has succeeded, [fin];
    inside it knows what the database shows. *)
Inductive mode := Outside (finished : bool) | Inside (d : pgdb).

Fixpoint safe (md : mode) (p : script pgdb answer) : Prop :=
  match p, md with
  | Done a, Outside b => a = Ok tt -> b = true
  | Run m k, Outside b => forall d,
      wp m (fun x d' => same d d' /\ holder d' = holder d /\ safe (Outside b) (k x)) d
  | Run m k, Inside d0 => forall d, same d0 d ->
      wp m (fun x d' => holder d' = holder d /\ G d d' /\ safe (Inside d') (k x)) d
  | Lock k, Outside b => (forall d, safe (Inside d) (k (Ok tt))) /\ forall e, safe (Outside b) (k (Err e))
  | Unlock k, Inside d => exists b, (b = true -> fin d) /\ forall r, safe (Outside b) (k r)
  | _, _ => False
  end.

(** The part inside. *)
Fixpoint body_wp {A} (d0 : pgdb) (p : script pgdb A) (Q : A -> pgdb -> Prop) : Prop :=
  match p with
  | Done a => Q a d0
  | Run m k => forall d, same d0 d -> wp m (fun x d' => holder d' = holder d /\ G d d' /\ body_wp d' (k x) Q) d
  | _ => False
  end.

Lemma body_wp_mono {A} (p : script pgdb A) (Q1 Q2 : A -> pgdb -> Prop) d :
  (forall a d, Q1 a d -> Q2 a d) -> body_wp d p Q1 -> body_wp d p Q2.
Proof.
  intros HQ. revert d. induction p as [a|X m k IH|k IH|k IH]; intros d; cbn; [auto| |done|done].
  intros Hp d1 Hs. eapply wp_mono; [by apply Hp|]. intros x d2 (? & ? & ?). split_and!; auto.
Qed.

Lemma body_wp_bind {A B} (p : script pgdb A) (f : A -> script pgdb B) Q d :
  body_wp d p (fun a d' => body_wp d' (f a) Q) -> body_wp d (sbind p f) Q.
Proof.
  revert d. induction p as [a|X m k IH|k IH|k IH]; intros d; cbn; [done| |done|done].
  intros Hp d1 Hs. eapply wp_mono; [by apply Hp|]. intros x d2 (Hh & HG & Hk). split_and!; auto.
Qed.

Lemma safe_body fn (k : answer -> script pgdb answer) d :
  body_wp d fn (fun res d' => exists b, (b = true -> fin d') /\ safe (Outside b) (k res)) ->
  safe (Inside d) (sbind (sbind fn (fun res => Unlock (fun _ => Done res))) k).
Proof.
  revert d. induction fn as [a|X m c IH|c IH|c IH]; intros d; cbn; [|..|done|done].
  - intros (b & Hf & Hs). by exists b.
  - intros Hp d1 Hs. eapply wp_mono; [by apply Hp|]. intros x d2 (Hh & HG & Hk). split_and!; auto.
Qed.

Lemma safe_ret md (p : script pgdb answer) : safe md (sbind p Done) -> safe md p.
Proof.
  revert md. induction p as [a|X m c IH|c IH|c IH]; intros [b|d]; cbn; try done.
  - intros Hp d. eapply wp_mono; [apply Hp|]. intros x d' (? & ? & ?). auto.
  - intros Hp d1 Hs. eapply wp_mono; [by apply Hp|]. intros x d' (? & ? & ?). auto.
  - intros [? ?]. auto.
  - intros (b & ? & ?). eauto.
Qed.

(** [Up] and [Down]: the statement under no lock, then the body under it. *)
Lemma safe_operation b body (k : answer -> script pgdb answer) msg :
  (forall d, body_wp d body (fun res d' => res = Ok tt -> fin d')) ->
  (forall b e, safe (Outside b) (k (Err e))) -> safe (Outside true) (k (Ok tt)) ->
  safe (Outside b) (sbind (stry (send exec_ensure) (fun e => Done (Err (EWrapped msg e)))
    (fun _ => locked_script body)) k).
Proof.
  intros Hbody Herr Hok d. apply wp_intro. intros res d' He.
  pose proof (ensure_law d) as Hs. pose proof (holder_ensure d) as Hh. rewrite He in Hs, Hh.
  split; [exact Hs|]. split; [exact Hh|].
  destruct res as [[]|e]; cbn; [|apply Herr]. split; [|intros e; apply Herr].
  intros d1. apply safe_body.
  eapply body_wp_mono; [|apply Hbody]. intros [[]|e] d2 Hf; [exists true; by split; [intros _; apply Hf|]|].
  exists false. split; [done|apply Herr].
Qed.

Lemma safe_main up down :
  (up = true -> forall d, body_wp d up_body (fun res d' => res = Ok tt -> fin d')) ->
  (down = true -> forall d, body_wp d down_body (fun res d' => res = Ok tt -> fin d')) ->
  safe (Outside (negb up)) (main_script up down).
Proof.
  intros Hu Hd. unfold main_script, stry at 1.
  assert (safe (Outside true) (if down then Down_script else Done (Ok tt))) as Hdown.
  { destruct down; [|done]. apply safe_ret, safe_operation; [by apply Hd|done..]. }
  destruct up; cbn [negb]; [|exact Hdown].
  apply safe_operation; [by apply Hu|done|exact Hdown].
Qed.
End contract.

(** * All runners together *)
Section together.
Context `{PgSessionsLaws} `{!MigrationDBLaws} `{!MigrationDir}.
Context (G : pgdb -> pgdb -> Prop) (fin : pgdb -> Prop) `{!PreOrder G}.
Context (G_same : forall d d', same d d' -> G d d') (fin_G : forall d d', fin d -> G d d' -> fin d').
Context (allowed : bool -> bool -> Prop).
Context (allowed_safe : forall up down, allowed up down -> safe G fin (Outside (negb up)) (main_script up down)).

Definition knows (f : fleet) (i : nat) (r : runner) (md : mode) : Prop :=
  match md with
  | Outside b => inside r = false /\ (b = true -> r_up r = true -> fin (f_db f))
  | Inside d => inside r = true /\ same d (f_db f) /\ exists s, holder (f_db f) = Some s /\ owner s = i
  end.

Record kept (d0 : pgdb) (f : fleet) : Prop := {
  kept_db : G d0 (f_db f);
  kept_runners : forall i r, runners f !! i = Some r -> exists md, safe G fin md (r_script r) /\ knows f i r md;
}.

Lemma inside_holds d0 f i r : kept d0 f -> runners f !! i = Some r -> inside r = true ->
  exists s, holder (f_db f) = Some s /\ owner s = i.
Proof.
  intros Hk Hi Hin. destruct (kept_runners _ _ Hk i r Hi) as ([b|d] & _ & Hkn); cbn in Hkn.
  - destruct Hkn as [Hout _]. congruence.
  - apply Hkn.
Qed.

(** The lock excludes. *)
Lemma inside_one d0 f i j ri rj : kept d0 f -> runners f !! i = Some ri -> runners f !! j = Some rj ->
  inside ri = true -> inside rj = true -> i = j.
Proof.
  intros Hk Hi Hj Hini Hinj. destruct (inside_holds _ _ _ _ Hk Hi Hini) as (s & Hs & <-).
  destruct (inside_holds _ _ _ _ Hk Hj Hinj) as (t & Ht & <-). congruence.
Qed.

Lemma knows_keep f f' i r md :
  knows f i r md -> G (f_db f) (f_db f') ->
  (inside r = true -> same (f_db f) (f_db f') /\ holder (f_db f') = holder (f_db f)) -> knows f' i r md.
Proof.
  destruct md as [b|d]; cbn.
  - intros [Ho Hf] HG _. split; [done|]. eauto.
  - intros (Hi & Hs & s & Hh & Ho) _ Hin. destruct (Hin Hi) as [Hs' Hh'].
    split; [done|]. split; [by eapply same_trans|]. exists s. by rewrite Hh'.
Qed.

(** Runner [i] moves, the others stay where they are. *)
Lemma kept_move d0 f i r d' p b :
  kept d0 f -> runners f !! i = Some r -> G (f_db f) d' ->
  (forall j rj, j <> i -> runners f !! j = Some rj -> inside rj = true ->
     same (f_db f) d' /\ holder d' = holder (f_db f)) ->
  (exists md, safe G fin md p /\ knows (Fleet d' []) i (advance r p b) md) ->
  kept d0 (Fleet d' (<[i := advance r p b]> (runners f))).
Proof.
  intros Hk Hi HG Hothers (md & Hsafe & Hknows). split; [cbn; by etransitivity; [apply Hk|]|].
  cbn. intros j rj Hj. destruct (decide (i = j)) as [<-|Hne].
  - rewrite list_lookup_insert_eq in Hj by by eapply lookup_lt_Some. injection Hj as <-.
    exists md. split; [exact Hsafe|]. by destruct md.
  - rewrite list_lookup_insert_ne in Hj by done. destruct (kept_runners _ _ Hk j rj Hj) as (mj & Hs & Hkn).
    exists mj. split; [done|]. eapply knows_keep; [done|done|]. intros Hin. by eapply Hothers.
Qed.

Lemma kept_start d0 f up down : allowed up down -> kept d0 f ->
  kept d0 (Fleet (f_db f) (runners f ++ [Runner up down (main_script up down) false])).
Proof.
  intros Ha [Hd Hr]. split; [done|]. cbn. intros i r Hi. apply lookup_app_Some in Hi as [Hi|[_ Hi]].
  - destruct (Hr i r Hi) as (md & Hs & Hk). exists md. split; [done|]. by destruct md.
  - apply list_lookup_singleton_Some in Hi as [_ <-]. exists (Outside (negb up)). split; [by apply allowed_safe|].
    cbn. split; [done|]. by destruct up.
Qed.

Lemma kept_db_move d0 f d : kept d0 f -> same (f_db f) d ->
  (forall i r, runners f !! i = Some r -> inside r = true -> holder d = holder (f_db f)) ->
  kept d0 (Fleet d (runners f)).
Proof.
  intros [Hd Hr] Hs Hin. split; [cbn; etransitivity; [exact Hd|by apply G_same]|]. cbn. intros i r Hi.
  destruct (Hr i r Hi) as (md & Hsf & Hk). exists md. split; [done|].
  eapply knows_keep; [done|by apply G_same|]. eauto.
Qed.

Lemma kept_run d0 f i r X (m : io pgdb X) k : kept d0 f -> runners f !! i = Some r -> r_script r = Run m k ->
  kept d0 (Fleet (m (f_db f)).2 (<[i := advance r (k (m (f_db f)).1) (inside r)]> (runners f))).
Proof.
  intros Hk Hi Hp. destruct (kept_runners _ _ Hk i r Hi) as (md & Hs & Hkn). rewrite Hp in Hs.
  destruct md as [b|d]; cbn in Hs, Hkn.
  - destruct (Hs (f_db f)) as (Hsame & Hh & Hs'). eapply kept_move; [done|done|by apply G_same|done|].
    exists (Outside b). split; [done|]. cbn. destruct Hkn as [Ho Hf]. split; [done|].
    intros Hb Hup. eapply fin_G; [by apply Hf|by apply G_same].
  - destruct Hkn as (Hin & Hsame & s & Hhs & Ho). destruct (Hs (f_db f) Hsame) as (Hh & HG & Hs').
    eapply kept_move; [done|done|done| |].
    + intros j rj Hne Hj Hinj. destruct Hne. by eapply inside_one.
    + exists (Inside (m (f_db f)).2). split; [done|]. cbn. split; [done|]. split; [done|]. exists s. by rewrite Hh.
Qed.

Lemma kept_lock d0 f i r k s res d : kept d0 f -> runners f !! i = Some r -> r_script r = Lock k -> owner s = i ->
  lock_on s (f_db f) = Some (res, d) -> kept d0 (Fleet d (<[i := advance r (k res) (is_Ok res)]> (runners f))).
Proof.
  intros Hk Hi Hp Ho Hl. destruct (kept_runners _ _ Hk i r Hi) as ([b|d1] & Hs & Hkn); rewrite Hp in Hs; [|done].
  destruct Hs as [Hok Herr], Hkn as [Hout Hf]. pose proof (lock_on_law _ _ _ _ Hl) as [Hsame Hlaw].
  eapply kept_move; [done|done|by apply G_same| |].
  - intros j rj Hne Hj Hinj. split; [done|]. destruct res as [[]|e]; [|done]. cbn in Hlaw.
    destruct (inside_holds _ _ _ _ Hk Hj Hinj) as (t & Ht & <-). destruct Hlaw as [[Hn|Hn] _]; [congruence|].
    destruct Hne. congruence.
  - destruct res as [[]|e]; cbn in Hlaw.
    + exists (Inside d). split; [apply Hok|]. cbn. split; [done|]. split; [done|]. exists s. by split; [apply Hlaw|].
    + exists (Outside b). split; [apply Herr|]. cbn. split; [done|].
      intros Hb Hup. eapply fin_G; [by apply Hf|by apply G_same].
Qed.

Lemma kept_unlock d0 f i r k s : kept d0 f -> runners f !! i = Some r -> r_script r = Unlock k ->
  kept d0 (Fleet (unlock_on s (f_db f)).2 (<[i := advance r (k (unlock_on s (f_db f)).1) false]> (runners f))).
Proof.
  intros Hk Hi Hp. destruct (kept_runners _ _ Hk i r Hi) as ([b|d1] & Hs & Hkn); rewrite Hp in Hs; [done|].
  destruct Hs as (b & Hfin & Hs), Hkn as (Hin & Hsame & _). pose proof (unlock_on_law s (f_db f)) as [Hu _].
  eapply kept_move; [done|done|by apply G_same| |].
  - intros j rj Hne Hj Hinj. destruct Hne. by eapply inside_one.
  - exists (Outside b). split; [apply Hs|]. cbn. split; [done|]. intros Hb _.
    eapply fin_G; [by apply Hfin|]. apply G_same. by eapply same_trans.
Qed.

Lemma kept_close d0 f s : kept d0 f -> left_open f s -> kept d0 (Fleet (close_session s (f_db f)) (runners f)).
Proof.
  intros Hk Hopen. pose proof (close_session_law s (f_db f)) as [Hsame Hh]. apply kept_db_move; [done|done|].
  intros i r Hi Hin. rewrite Hh. rewrite decide_False; [done|]. intros Hs.
  destruct (inside_holds _ _ _ _ Hk Hi Hin) as (t & Ht & <-). rewrite Hs in Ht. injection Ht as <-.
  pose proof (Hopen Hs r Hi). congruence.
Qed.

Definition all_allowed (f : fleet) : Prop := Forall (fun r => allowed (r_up r) (r_down r)) (runners f).

Lemma allowed_before f f' : fleet_step left_open f f' -> all_allowed f' -> all_allowed f.
Proof.
  assert (forall i r p b, runners f !! i = Some r ->
    Forall (fun r => allowed (r_up r) (r_down r)) (<[i:=advance r p b]> (runners f)) -> all_allowed f) as Hins.
  { intros i r p b Hi Ha. apply Forall_lookup. intros j rj Hj. destruct (decide (i = j)) as [<-|Hne].
    - rewrite Hi in Hj. injection Hj as <-. apply (Forall_lookup_1 _ _ i (advance r p b) Ha).
      apply list_lookup_insert_eq. by eapply lookup_lt_Some.
    - apply (Forall_lookup_1 _ _ j rj Ha). by rewrite list_lookup_insert_ne. }
  destruct 1; cbn; intros Ha; [by apply Forall_app in Ha as [? _]|by eapply Hins..|done|done].
Qed.

Lemma kept_step d0 f f' : fleet_step left_open f f' -> all_allowed f' -> kept d0 f -> kept d0 f'.
Proof.
  destruct 1 as [up down|i r X m k Hi Hp|i r k s res d Hi Hp Ho Hl|i r k s Hi Hp Ho|s Hs|d Hs Hh]; intros Ha Hk.
  - apply kept_start; [|done]. apply Forall_app in Ha as [_ Ha]. exact (Forall_inv Ha).
  - by apply kept_run.
  - by eapply kept_lock.
  - by apply kept_unlock.
  - by apply kept_close.
  - by apply kept_db_move.
Qed.

Lemma kept_reach d f : rtc (fleet_step left_open) (Fleet d []) f -> all_allowed f -> kept d f.
Proof.
  revert f. apply (rtc_ind_r (fun f => all_allowed f -> kept d f)).
  - intros _. split; [reflexivity|]. done.
  - intros f f' _ Hst IH Ha. eapply kept_step; [done|done|]. apply IH. by eapply allowed_before.
Qed.
End together.

(** * What the runners do to the database *)
Section serialized.
Context `{PgSessionsLaws} `{!MigrationDBLaws} `{!MigrationDir}.
Implicit Types d : pgdb.

Lemma loadApplied_ok d : wp loadApplied (fun res d' =>
  same d d' /\ holder d' = holder d /\ forall X, res = Ok X -> X = db_applied d) d.
Proof.
  unfold loadApplied. wp_step. apply wp_intro. intros res d' Hq.
  pose proof (select_law d) as (Ha & Hh & Hns). pose proof (holder_select d) as Hl. rewrite Hq in *. cbn in *.
  destruct res as [[ns|e]|e]; wp_step; (split; [done|]); (split; [done|]); [|done|done].
  intros X [= <-]. by apply Hns.
Qed.

Lemma applyFile_holder file upName isUp d :
  wp (applyFile file upName isUp) (fun _ d' => holder d' = holder d) d.
Proof.
  unfold applyFile. destruct (read_file file) as [data|e]; [|by wp_step].
  wp_step. apply wp_intro. intros res d1 Hb. pose proof (holder_begin d) as Hh. rewrite Hb in Hh. cbn in Hh.
  destruct res as [t|e]; [|by wp_step]. destruct (in_tx file data upName isUp t) as [[u|e] t'].
  - wp_step. apply wp_intro. intros res d2 Hc. pose proof (holder_commit t' d1) as Hh2. rewrite Hc in Hh2. cbn in Hh2.
    destruct res; wp_step; congruence.
  - wp_step. apply wp_intro. intros [] d2 Hr. pose proof (holder_rollback t' d1) as Hh2. rewrite Hr in Hh2.
    wp_step. cbn in Hh2. congruence.
Qed.

(** ** Whatever the flags *)
Notation any := (fun _ _ : pgdb => True).

Lemma body_wp_send {A X} (m : io pgdb X) (k : X -> script pgdb A) Q d :
  (forall d, wp m (fun _ d' => holder d' = holder d) d) -> (forall x d', body_wp any d' (k x) Q) ->
  body_wp any d (Run m k) Q.
Proof. intros Hm Hk d1 _. eapply wp_mono; [apply Hm|]. by intros x d2 Hh. Qed.

Lemma up_body_any d : body_wp any d up_body (fun _ _ => True).
Proof.
  unfold up_body. destruct (listFiles "up") as [files|e]; [|done]. apply body_wp_send.
  { intros d1. eapply wp_mono; [apply loadApplied_ok|]. by intros res d2 (_ & ? & _). }
  intros [X|e] d1; [|done]. cbn. revert d1. induction files as [|n files IH]; intros d1; cbn [up_files_script]; [done|].
  case_bool_decide; [apply IH|]. apply body_wp_send; [intros; apply applyFile_holder|]. intros [u|e] d2; [apply IH|done].
Qed.

Lemma down_body_any d : body_wp any d down_body (fun _ _ => True).
Proof.
  unfold down_body. destruct (listFiles "down") as [files|e]; [|done].
  revert d. induction (sort_Reverse files) as [|n l IH]; intros d; cbn [down_files_script]; [done|].
  apply body_wp_send; [intros; apply applyFile_holder|]. intros [u|e] d2; [apply IH|done].
Qed.

Lemma lock_excludes d f i j ri rj :
  rtc (fleet_step left_open) (Fleet d []) f -> runners f !! i = Some ri -> runners f !! j = Some rj ->
  inside ri = true -> inside rj = true -> i = j.
Proof.
  intros Hr. apply (inside_one any (fun _ => True) d).
  assert (PreOrder any) by done. assert (forall d d', same d d' -> any d d') as Hs by done.
  assert (forall d d' : pgdb, True -> any d d' -> True) as Hf by done.
  apply (kept_reach any (fun _ => True) Hs Hf (fun _ _ => True)); [|done|by apply Forall_true].
  intros up down _. apply safe_main; intros _ d1.
  - by eapply body_wp_mono; [|apply up_body_any].
  - by eapply body_wp_mono; [|apply down_body_any].
Qed.

(** ** Runners that migrate up *)

(** Files that were pending have been executed and recorded, in their order. *)
Definition executed d d' : Prop := exists todo texts,
  pending d = (todo ++ pending d')%list /\
  db_applied d' = list_to_set todo ∪ db_applied d /\
  db_history d' = (db_history d ++ texts)%list /\
  Forall2 (fun n t => read_file n = Ok t) todo texts.

Lemma same_executed d d' : same d d' -> executed d d'.
Proof.
  intros [Ha Hh]. exists [], []. unfold pending. rewrite Ha, Hh, app_nil_r. split_and!; [done|set_solver|done|constructor].
Qed.

#[export] Instance executed_preorder : PreOrder executed.
Proof.
  split; [by intros d; apply same_executed|].
  intros d1 d2 d3 (t1 & x1 & Hp1 & Ha1 & Hh1 & Hf1) (t2 & x2 & Hp2 & Ha2 & Hh2 & Hf2).
  exists (t1 ++ t2)%list, (x1 ++ x2)%list. split_and!.
  - by rewrite Hp1, Hp2, <- app_assoc.
  - rewrite Ha2, Ha1, list_to_set_app_L. set_solver.
  - by rewrite Hh2, Hh1, <- app_assoc.
  - by apply Forall2_app.
Qed.

Lemma finished_stays d d' : pending d = [] -> executed d d' -> pending d' = [].
Proof. intros He (todo & _ & Hp & _). rewrite He in Hp. symmetry in Hp. by apply app_nil in Hp as [_ ?]. Qed.

Context (files_nodup : NoDup (files_of "up")).

Lemma pending_next d d' n rest :
  pending d = n :: rest -> db_applied d' = {[n]} ∪ db_applied d -> pending d' = rest.
Proof.
  intros Hp Ha. assert (NoDup (n :: rest)) as [Hn Hnd]%NoDup_cons by (rewrite <- Hp; by apply NoDup_filter).
  assert (pending d' = filter (fun m => m <> n) (pending d)) as ->.
  { unfold pending. rewrite Ha, list_filter_filter. apply filter_ext_in. intros m _. set_solver. }
  rewrite Hp, filter_cons, decide_False by tauto. apply filter_all. intros m Hm ->. done.
Qed.

Lemma executed_file d d' n rest : pending d = n :: rest -> applied_file n n true d d' ->
  executed d d' /\ pending d' = rest.
Proof.
  intros Hp [Ha (data & Hd & Hh)]. cbn in Ha. pose proof (pending_next _ _ _ _ Hp Ha) as Hrest. split; [|done].
  exists [n], [data]. rewrite Hp, Hrest, Ha. split_and!; [done|set_solver|done|by repeat constructor].
Qed.

Lemma up_files_body X files d :
  filter (fun n => n ∉ X) files = pending d ->
  body_wp executed d (up_files_script X files) (fun res d' => res = Ok tt -> pending d' = []).
Proof.
  revert d. induction files as [|n files IH]; intros d Hp; cbn [up_files_script]; [by intros _|].
  rewrite filter_cons in Hp. case_bool_decide; [rewrite decide_False in Hp by tauto; by apply IH|].
  rewrite decide_True in Hp by done. intros d1 Hs.
  assert (pending d1 = n :: filter (fun n => n ∉ X) files) as Hp1 by (rewrite Hp; unfold pending; by rewrite (proj1 Hs)).
  eapply wp_mono; [apply wp_conj; [apply applyFile_holder|apply applyFile_ok]|].
  intros res d2 [Hh [Ha|[Hf Hs2]]].
  - destruct (executed_file _ _ _ _ Hp1 Ha) as [Hex Hrest]. split_and!; [done|done|].
    destruct res as [u|e]; [by apply IH|done].
  - split_and!; [done|by apply same_executed|]. by destruct res.
Qed.

Lemma up_body_executes d : body_wp executed d up_body (fun res d' => res = Ok tt -> pending d' = []).
Proof.
  unfold up_body. destruct (listFiles "up") as [files|e] eqn:Hl; [|done].
  intros d1 Hs. eapply wp_mono; [apply loadApplied_ok|]. intros res d2 (Hs2 & Hh & Hx).
  split_and!; [done|by apply same_executed|]. destruct res as [X|e]; [|done]. cbn.
  apply up_files_body. rewrite (Hx X eq_refl). unfold pending, files_of. by rewrite Hl, (proj1 Hs2).
Qed.

(** C37. Any number of migration runners on one database, started at any time and interleaved
    statement by statement, while the pools leave the session open that holds the lock:
    no two are between lock and unlock at once, whatever their flags.  When all of
    them migrate up, they leave what one would: of the pending files a prefix has been
    executed and recorded, each once and in ascending order, and as soon as one
    runner has succeeded nothing is pending. *)
Theorem runners_serialized d f :
  rtc (fleet_step left_open) (Fleet d []) f ->
  (forall i j ri rj, runners f !! i = Some ri -> runners f !! j = Some rj ->
     inside ri = true -> inside rj = true -> i = j) /\
  (Forall (fun r => r_down r = false) (runners f) ->
     executed d (f_db f) /\
     forall i r, runners f !! i = Some r -> r_up r = true -> answered r (Ok tt) -> pending (f_db f) = []).
Proof.
  intros Hr. split; [intros i j ri rj; by eapply lock_excludes|]. intros Hup.
  assert (kept executed (fun d => pending d = []) d f) as [Hex Hk].
  { apply (kept_reach executed _ same_executed finished_stays (fun _ down => down = false)); [|done|done].
    intros up down ->. apply safe_main; [|done]. intros _. apply up_body_executes. }
  split; [done|]. intros i r Hi Hu Ha. destruct (Hk i r Hi) as (md & Hs & Hkn). rewrite Ha in Hs.
  destruct md as [b|d1]; [|done]. destruct Hkn as [_ Hf]. apply Hf; [by apply Hs|done].
Qed.
End serialized.
