(* ===== verification/AsyncMailer.v ===== *)
(** The queue in front of the mailer: src/pkg/mailer/mailer.async.go.  The channel,
    the worker goroutines and the shutdown are one state; a step is what one goroutine
    does between two points where another may run.  Trace spans and log lines are left
    out, the metrics counter is kept. *)

From Stdlib Require Import Ascii String ZArith.
From stdpp Require Import base gmap strings list pretty relations.
From S2P Require Import Prelude GoStrings AppError Records Services World.

Open Scope string_scope.

Inductive jobKind := jobOTP | jobPasswordReset.

(** [spanCtx] only serves tracing. *)
Record otpJob := OtpJob { kind : jobKind; payload : string; receiver : string }.

Definition ErrQueueFull : error := EText "otp mailer queue is full".

(** The fields of [AsyncOTPMailer] that never change. *)
Record config := Config { workers : Z; queueSize : Z; retries : Z; backoff : Duration }.

(** The constructor replaces what is not positive. *)
Definition positive_or (n d : Z) : Z := if (n <=? 0)%Z then d else n.
Definition NewAsyncOTPMailer (workers queueSize retries : Z) (backoff : Duration) : config :=
  Config (positive_or workers 2) (positive_or queueSize 64) (positive_or retries 3)
    (positive_or backoff Second).

(** [time.Duration(1 << uint(n))]: the shift is done in int64 and drops what does not fit. *)
Definition shl64 (n : Z) : Z := if (n <? 64)%Z then wrap64 (Z.shiftl 1 n) else 0%Z.

(** The pause after attempt [attempt]: doubling, at most half a minute. *)
Definition wait_after (c : config) (attempt : Z) : Duration :=
  let wait := mul64 (backoff c) (shl64 (attempt - 1)) in
  if (30 * Second <? wait)%Z then (30 * Second)%Z else wait.

(** Where a worker goroutine is: receiving from the channel; in a call of the inner
    mailer; in the [select] of the pause, whose timer fires at [due]; returned.  Jobs
    carry the number of jobs accepted before them, to tell them apart. *)
Inductive worker :=
| Receiving
| Sending (n : nat) (job : otpJob) (attempt : Z)
| Waiting (n : nat) (job : otpJob) (attempt : Z) (due : Time)
| Exited.

(** How [deliver] ended: sent, given up after the last attempt, or cut short by the
    shutdown. *)
Inductive ending := Sent | GivenUp | CutShort.

Section async.
Context `{OTPMailer}.

(** [accepted], [tried] (the outcomes of the attempts for a job, latest first) and
    [ends] record what happened; the code reads none of them. *)
Record state := St {
  queue : list (nat * otpJob);    (* the buffer of the channel, oldest first *)
  stop_closed : bool;
  queue_closed : bool;
  ws : list worker;
  now : Time;
  inner : mail;
  obs : list metric;              (* latest first *)
  accepted : list otpJob;
  tried : gmap nat (list bool);
  ends : gmap nat ending;
}.

(** The state [NewAsyncOTPMailer] leaves: the workers are at their first receive. *)
Definition started (c : config) (t : Time) (m : mail) : state :=
  St [] false false (replicate (Z.to_nat (workers c)) Receiving) t m [] [] ∅ ∅.

(** [enqueue]: a send on a closed channel panics, the [default] of the [select] does
    not help. *)
Inductive answer := Returns (r : result error unit) | Panics.

Definition enqueue (c : config) (j : otpJob) (s : state) : answer * state :=
  if queue_closed s then (Panics, s)
  else if (Z.of_nat (length (queue s)) <? queueSize c)%Z
  then (Returns (Ok tt),
        St (queue s ++ [(length (accepted s), j)]) (stop_closed s) (queue_closed s) (ws s) (now s)
          (inner s) (obs s) (accepted s ++ [j]) (tried s) (ends s))
  else (Returns (Err ErrQueueFull), s).

Definition SendOTP (c : config) (otpCode receiver : string) : state -> answer * state :=
  enqueue c (OtpJob jobOTP otpCode receiver).
Definition SendPasswordReset (c : config) (token receiver : string) : state -> answer * state :=
  enqueue c (OtpJob jobPasswordReset token receiver).

(** The call of the inner mailer in [deliver]. *)
Definition inner_send (j : otpJob) : io mail (result error unit) :=
  match kind j with
  | jobPasswordReset => mailer_SendPasswordReset (payload j) (receiver j)
  | jobOTP => mailer_SendOTP (payload j) (receiver j)
  end.

Definition attempts_of (s : state) (n : nat) : list bool := default [] (tried s !! n).

Definition set_worker (i : nat) (w : worker) (s : state) : state :=
  St (queue s) (stop_closed s) (queue_closed s) (<[i := w]> (ws s)) (now s) (inner s) (obs s)
    (accepted s) (tried s) (ends s).

Definition finish (i n : nat) (e : ending) (o : list metric) (s : state) : state :=
  St (queue s) (stop_closed s) (queue_closed s) (<[i := Receiving]> (ws s)) (now s) (inner s)
    (o ++ obs s) (accepted s) (tried s) (<[n := e]> (ends s)).

(** A call of the inner mailer has come back. *)
Definition note_attempt (n : nat) (ok : bool) (m : mail) (s : state) : state :=
  St (queue s) (stop_closed s) (queue_closed s) (ws s) (now s) m (obs s) (accepted s)
    (<[n := ok :: attempts_of s n]> (tried s)) (ends s).

(** The loop of [deliver] from the answer of an attempt to the next point where the
    goroutine can block. *)
Definition after_attempt (c : config) (i n : nat) (j : otpJob) (attempt : Z)
    (res : result error unit) (s : state) : state :=
  match res with
  | Ok _ => finish i n Sent [MailerOp "sent"] s
  | Err _ =>
      if (attempt =? retries c)%Z then finish i n GivenUp [MailerOp "failed"] s
      else set_worker i (Waiting n j attempt (now s + wait_after c attempt)%Z) s
  end.

(** The next step of worker [i]; [None] when it is blocked or has returned.  In the
    [select] of the pause [stop] says which case is taken. *)
Definition worker_step (c : config) (stop : bool) (i : nat) (s : state) : option state :=
  match ws s !! i with
  | Some Receiving =>
      match queue s with
      | (n, j) :: q =>
          Some (St q (stop_closed s) (queue_closed s) (<[i := Sending n j 1]> (ws s)) (now s)
                  (inner s) (obs s) (accepted s) (tried s) (ends s))
      | [] => if queue_closed s then Some (set_worker i Exited s) else None
      end
  | Some (Sending n j attempt) =>
      let '(res, m) := inner_send j (inner s) in
      Some (after_attempt c i n j attempt res (note_attempt n (is_Ok res) m s))
  | Some (Waiting n j attempt due) =>
      if stop then
        if stop_closed s then Some (finish i n CutShort [] s) else None
      else if (due <=? now s)%Z then Some (set_worker i (Sending n j (attempt + 1)) s) else None
  | Some Exited | None => None
  end.

(** [Shutdown]: the two [close]s of [stopOnce], then the wait for all workers. *)
Definition close_stop (s : state) : state :=
  St (queue s) true (queue_closed s) (ws s) (now s) (inner s) (obs s) (accepted s) (tried s) (ends s).
Definition close_queue (s : state) : state :=
  St (queue s) (stop_closed s) true (ws s) (now s) (inner s) (obs s) (accepted s) (tried s) (ends s).
Definition all_done (s : state) : bool :=
  forallb (fun w => match w with Exited => true | _ => false end) (ws s).

Definition tick (d : Z) (s : state) : state :=
  St (queue s) (stop_closed s) (queue_closed s) (ws s) (now s + d)%Z (inner s) (obs s) (accepted s)
    (tried s) (ends s).

(** Who moves. *)
Inductive label :=
| LEnqueue (j : otpJob) (a : answer)
| LWorker (i : nat)
| LCloseStop
| LCloseQueue
| LReturn       (* Shutdown returns nil *)
| LTick (d : Z).

Inductive step (c : config) : label -> state -> state -> Prop :=
| s_enqueue j a s s' : enqueue c j s = (a, s') -> step c (LEnqueue j a) s s'
| s_worker stop i s s' : worker_step c stop i s = Some s' -> step c (LWorker i) s s'
| s_close_stop s : stop_closed s = false -> step c LCloseStop s (close_stop s)
| s_close_queue s : stop_closed s = true -> queue_closed s = false ->
    step c LCloseQueue s (close_queue s)
| s_return s : queue_closed s = true -> all_done s = true -> step c LReturn s s
| s_tick d s : (0 <= d)%Z -> step c (LTick d) s (tick d s).

Inductive steps (c : config) : state -> list label -> state -> Prop :=
| steps_nil s : steps c s [] s
| steps_cons l ls s1 s2 s3 : step c l s1 s2 -> steps c s2 ls s3 -> steps c s1 (l :: ls) s3.

Definition reachable (c : config) (t : Time) (m : mail) (s : state) : Prop :=
  exists ls, steps c (started c t m) ls s.
End async.
