(* ===== verification/AsyncMailerProps.v ===== *)
(** What the queue of src/pkg/mailer/mailer.async.go guarantees: no accepted mail is
    lost, duplicated or tried too often; it implements the abstract spool below; after
    Shutdown the workers come to an end; the pauses between attempts. *)

From Stdlib Require Import Ascii String ZArith.
From stdpp Require Import base gmap strings list pretty relations.
From S2P Require Import Prelude GoStrings AppError Records Services World AsyncMailer.

Open Scope string_scope.

#[export] Instance exited_dec (w : worker) : Decision (w = Exited).
Proof. destruct w; (by left) || by right. Defined.

Section async.
Context `{OTPMailer}.

(** * The invariant *)

Definition job_in_hand (w : worker) : option (nat * otpJob) :=
  match w with
  | Sending n j _ | Waiting n j _ _ => Some (n, j)
  | Receiving | Exited => None
  end.

Definition in_hand (s : state) : list (nat * otpJob) := omap job_in_hand (ws s).

(** The jobs that have no ending yet. *)
Definition busy (s : state) : list (nat * otpJob) := (queue s ++ in_hand s)%list.

(** [k] failed attempts. *)
Definition failures (k : Z) : list bool := replicate (Z.to_nat k) false.

Definition worker_ok (c : config) (s : state) (w : worker) : Prop :=
  match w with
  | Receiving => True
  | Sending n j a => (1 <= a <= retries c)%Z /\ attempts_of s n = failures (a - 1)
  | Waiting n j a _ => (1 <= a < retries c)%Z /\ attempts_of s n = failures a
  | Exited => queue_closed s = true /\ queue s = []
  end.

Definition ending_ok (c : config) (s : state) (n : nat) (e : ending) : Prop :=
  match e with
  | Sent => exists a, (1 <= a <= retries c)%Z /\ attempts_of s n = true :: failures (a - 1)
  | GivenUp => attempts_of s n = failures (retries c)
  | CutShort => stop_closed s = true /\
      exists a, (1 <= a < retries c)%Z /\ attempts_of s n = failures a
  end.

(** The jobs without an ending, each once, are the busy ones. *)
Record jobs_ok (b : list (nat * otpJob)) (acc : list otpJob) (en : gmap nat ending) : Prop := {
  jo_nodup : NoDup b.*1;
  jo_job : forall n j, (n, j) ∈ b -> acc !! n = Some j;
  jo_busy : forall n, n ∈ b.*1 <-> n < length acc /\ en !! n = None;
}.

Record inv (c : config) (s : state) : Prop := {
  inv_room : (Z.of_nat (length (queue s)) <= queueSize c)%Z;
  inv_workers : length (ws s) = Z.to_nat (workers c);
  inv_fifo : (queue s).*1 = seq (length (accepted s) - length (queue s)) (length (queue s));
  inv_jobs : jobs_ok (busy s) (accepted s) (ends s);
  inv_new : forall n j, (n, j) ∈ queue s -> attempts_of s n = [];
  inv_fresh : forall n, length (accepted s) <= n -> attempts_of s n = [] /\ ends s !! n = None;
  inv_hand : forall i w, ws s !! i = Some w -> worker_ok c s w;
  inv_ends : forall n e, ends s !! n = Some e -> ending_ok c s n e;
  inv_closed : queue_closed s = true -> stop_closed s = true;
}.

(** A configuration as the constructor makes it. *)
Definition config_ok (c : config) : Prop :=
  (0 < workers c /\ 0 < queueSize c /\ 0 < retries c)%Z.

Lemma NewAsyncOTPMailer_ok w q r b : config_ok (NewAsyncOTPMailer w q r b) /\
  (0 < backoff (NewAsyncOTPMailer w q r b))%Z.
Proof.
  unfold config_ok, NewAsyncOTPMailer, positive_or, Second. cbn [workers queueSize retries backoff].
  destruct (Z.leb_spec w 0), (Z.leb_spec q 0), (Z.leb_spec r 0), (Z.leb_spec b 0); lia.
Qed.

Lemma in_hand_split s i w : ws s !! i = Some w ->
  exists l k, length l = i /\ ws s = (l ++ w :: k)%list /\
    in_hand s = (omap job_in_hand l ++ option_list (job_in_hand w) ++ omap job_in_hand k)%list /\
    forall w', omap job_in_hand (<[i := w']> (ws s))
      = (omap job_in_hand l ++ option_list (job_in_hand w') ++ omap job_in_hand k)%list.
Proof.
  intros Hi. exists (take i (ws s)), (drop (S i) (ws s)).
  assert (ws s = (take i (ws s) ++ w :: drop (S i) (ws s))%list) as Hs by by rewrite take_drop_middle.
  assert (length (take i (ws s)) = i) as Hl.
  { rewrite length_take. apply lookup_lt_Some in Hi. lia. }
  split; [done|]. split; [done|].
  assert (forall w', omap job_in_hand (take i (ws s) ++ w' :: drop (S i) (ws s))%list
    = (omap job_in_hand (take i (ws s)) ++ option_list (job_in_hand w')
        ++ omap job_in_hand (drop (S i) (ws s)))%list) as Ho.
  { intros w'. rewrite omap_app. f_equal. cbn. by destruct (job_in_hand w'). }
  split; [unfold in_hand; rewrite Hs at 1; apply Ho|].
  intros w'. rewrite Hs at 1. rewrite insert_app_r_alt by lia. rewrite Hl, Nat.sub_diag. apply Ho.
Qed.

(** ** Jobs *)
#[local] Instance jobs_ok_perm : Proper ((≡ₚ) ==> eq ==> eq ==> iff) jobs_ok.
Proof.
  assert (forall b b' acc en, b ≡ₚ b' -> jobs_ok b acc en -> jobs_ok b' acc en) as Himp.
  { intros b b' acc en Hb [Hn Hj He]. split.
    - by rewrite <- Hb.
    - intros n j. rewrite <- Hb. apply Hj.
    - intros n. rewrite <- Hb. apply He. }
  intros b b' Hb acc ? <- en ? <-. split; by apply Himp.
Qed.

Lemma jobs_finish n j b acc en e : jobs_ok ((n, j) :: b) acc en -> jobs_ok b acc (<[n := e]> en).
Proof.
  intros [Hn Hj He]. cbn in Hn. apply NoDup_cons in Hn as [Hout Hn]. split; [done| |].
  - intros n' j' Hin. apply Hj. by right.
  - intros n'. specialize (He n'). cbn in He. rewrite elem_of_cons in He.
    destruct (decide (n' = n)) as [->|Hne].
    + rewrite lookup_insert. split; [done|]. intros [_ ?]. by rewrite decide_True in *.
    + rewrite lookup_insert_ne by done. rewrite <- He. split; [by right|]. by intros [|].
Qed.

Lemma jobs_accept j b acc en : en !! length acc = None ->
  jobs_ok b acc en -> jobs_ok ((length acc, j) :: b) (acc ++ [j]) en.
Proof.
  intros Hen [Hn Hj He]. split.
  - cbn. apply NoDup_cons. split; [|done]. rewrite He. lia.
  - intros n j'. rewrite elem_of_cons. intros [[= -> ->]|Hin].
    + by rewrite lookup_app_r, Nat.sub_diag by lia.
    + by apply lookup_app_l_Some, Hj.
  - intros n. cbn. rewrite elem_of_cons, He, length_app. cbn. split.
    + intros [->|[? ?]]; (split; [lia|done]).
    + intros [? ?]. destruct (decide (n = length acc)); [by left|right]. split; [lia|done].
Qed.

(** Two workers never hold the same job. *)
Lemma hand_distinct s i i' w w' n j j' :
  NoDup (in_hand s).*1 -> ws s !! i = Some w -> ws s !! i' = Some w' ->
  job_in_hand w = Some (n, j) -> job_in_hand w' = Some (n, j') -> i = i'.
Proof.
  intros Hn Hi Hi' Hw Hw'. destruct (in_hand_split s i w Hi) as (l & k & Hl & Hs & Hh & _).
  destruct (decide (i = i')) as [|Hne]; [done|exfalso]. rewrite Hh, Hw in Hn. cbn in Hn.
  rewrite fmap_app in Hn. apply NoDup_app in Hn as (_ & Hlk & Hk). apply NoDup_cons in Hk as [Hk _].
  assert (forall x, w' ∈ x -> n ∈ (omap job_in_hand x).*1) as Hx.
  { intros x Hx. apply (list_elem_of_fmap_2 fst _ (n, j')). apply list_elem_of_omap. by exists w'. }
  rewrite Hs in Hi'. apply lookup_app_Some in Hi' as [Hi'|[Hge Hi']].
  - apply (Hlk n); [|by left]. apply Hx. by eapply list_elem_of_lookup_2.
  - apply Hk, Hx. apply lookup_cons_Some in Hi' as [[Heq _]|[_ Hi']]; [lia|].
    by eapply list_elem_of_lookup_2.
Qed.

Lemma nodup_hand c s : inv c s -> NoDup (in_hand s).*1.
Proof.
  intros Hi. pose proof (jo_nodup _ _ _ (inv_jobs _ _ Hi)) as Hn. unfold busy in Hn.
  rewrite fmap_app in Hn. by apply NoDup_app in Hn as (_ & _ & Hn).
Qed.

(** ** Preservation *)

Lemma worker_ok_frame c s s' w :
  (forall n j, job_in_hand w = Some (n, j) -> attempts_of s' n = attempts_of s n) ->
  (queue_closed s = true -> queue_closed s' = true) -> (queue s = [] -> queue s' = []) ->
  worker_ok c s w -> worker_ok c s' w.
Proof.
  intros Ha Hq Hq0. destruct w as [|n j a|n j a due|]; cbn in *; [done| | |].
  - by rewrite (Ha n j eq_refl).
  - by rewrite (Ha n j eq_refl).
  - intros [? ?]. auto.
Qed.

Lemma ending_ok_frame c s s' n e :
  attempts_of s' n = attempts_of s n -> (stop_closed s = true -> stop_closed s' = true) ->
  ending_ok c s n e -> ending_ok c s' n e.
Proof. intros Ha Hs. destruct e; cbn; rewrite Ha; [done..|]. intros [? ?]. auto. Qed.

Lemma jobs_bound b acc en (q h : list (nat * otpJob)) : jobs_ok b acc en ->
  b = (q ++ h)%list -> length q <= length acc.
Proof.
  intros [Hn _ He] ->. rewrite fmap_app in Hn. apply NoDup_app in Hn as (Hn & _ & _).
  rewrite <- (length_fmap fst q), <- (length_seq (length acc) 0).
  apply submseteq_length, NoDup_submseteq; [done|]. intros n Hin. apply elem_of_seq.
  assert (n ∈ (q ++ h)%list.*1) as Hin' by (rewrite fmap_app; apply elem_of_app; by left).
  apply He in Hin' as [? _]. lia.
Qed.

Lemma fifo_suffix (q k l : list (nat * otpJob)) n :
  l.*1 = seq (n - length l) (length l) -> l = (q ++ k)%list -> length l <= n ->
  k.*1 = seq (n - length k) (length k).
Proof.
  intros Hl -> Hle. rewrite fmap_app, length_app, seq_app in Hl.
  apply app_inj_1 in Hl as [_ ->]; [|by rewrite length_fmap, length_seq].
  rewrite length_app in Hle. f_equal. lia.
Qed.

(** A worker moved from [w] to [w'] and touched its own job only. *)
Lemma inv_worker_update c s s' i w w' :
  inv c s -> ws s !! i = Some w -> ws s' = <[i := w']> (ws s) ->
  accepted s' = accepted s -> stop_closed s' = stop_closed s -> queue_closed s' = queue_closed s ->
  suffix (queue s') (queue s) ->
  jobs_ok (busy s') (accepted s') (ends s') ->
  (forall n, attempts_of s' n = attempts_of s n \/ exists j, job_in_hand w = Some (n, j)) ->
  worker_ok c s' w' ->
  (forall n e, ends s' !! n = Some e ->
     ends s !! n = Some e \/ (exists j, job_in_hand w = Some (n, j)) /\ ending_ok c s' n e) ->
  inv c s'.
Proof.
  intros Hi Hw Hws Hacc Hst Hqc [q Hq] Hjobs Ha Hw' He.
  pose proof (nodup_hand _ _ Hi) as Hnh.
  destruct Hi as [Hroom Hlen Hfifo [Hnd Hjob Hbz] Hnew Hfresh Hhand Hends Hcl].
  assert (forall n j, job_in_hand w = Some (n, j) -> (n, j) ∈ busy s) as Hbusy.
  { intros n j Hj. apply elem_of_app. right. apply list_elem_of_omap. exists w.
    split; [by eapply list_elem_of_lookup_2|done]. }
  assert (forall n, n ∉ (busy s).*1 -> attempts_of s' n = attempts_of s n) as Hidle.
  { intros n Hn. destruct (Ha n) as [|[j Hj]]; [done|]. exfalso. apply Hn.
    by apply (list_elem_of_fmap_2 fst _ (n, j)), Hbusy. }
  split.
  - rewrite Hq, length_app in Hroom. lia.
  - by rewrite Hws, length_insert.
  - rewrite Hacc. eapply (fifo_suffix q); [done..|].
    eapply jobs_bound; [|done]. by split.
  - done.
  - intros n j Hin. assert ((n, j) ∈ queue s) as Hin' by (rewrite Hq; apply elem_of_app; by right).
    destruct (Ha n) as [->|[j' Hj']]; [by eapply Hnew|exfalso].
    unfold busy in Hnd. rewrite fmap_app in Hnd. apply NoDup_app in Hnd as (_ & Hd & _).
    apply (Hd n); [by apply (list_elem_of_fmap_2 fst _ (n, j))|].
    apply (list_elem_of_fmap_2 fst _ (n, j')), list_elem_of_omap. exists w.
    split; [by eapply list_elem_of_lookup_2|done].
  - intros n Hn. rewrite Hacc in Hn. rewrite Hidle by (rewrite Hbz; lia). split; [by apply Hfresh|].
    destruct (ends s' !! n) as [e|] eqn:Hen; [exfalso|done].
    destruct (He n e Hen) as [Hs|[[j Hj] _]].
    + destruct (Hfresh n Hn) as [_ ?]. congruence.
    + apply Hbusy in Hj. apply (list_elem_of_fmap_2 fst) in Hj. apply Hbz in Hj. cbn in Hj. lia.
  - intros i' v Hv. rewrite Hws in Hv. apply list_lookup_insert_Some in Hv as [(-> & <- & _)|[Hne Hv]]; [done|].
    apply (worker_ok_frame c s); [|by rewrite Hqc| |by eapply Hhand].
    + intros n j Hj. destruct (Ha n) as [|[j' Hj']]; [done|]. exfalso. apply Hne.
      eapply (hand_distinct s i i' w v n); done.
    + rewrite Hq. intros Hnil. by apply app_nil in Hnil as [_ ?].
  - intros n e Hen. destruct (He n e Hen) as [Hs|[_ ?]]; [|done].
    apply (ending_ok_frame c s); [|by rewrite Hst|by apply Hends].
    apply Hidle. rewrite Hbz. intros [_ ?]. congruence.
  - by rewrite Hst, Hqc.
Qed.

Lemma attempts_note n ok m s k :
  attempts_of (note_attempt n ok m s) k = if decide (k = n) then ok :: attempts_of s n else attempts_of s k.
Proof.
  unfold attempts_of at 1. cbn. destruct (decide (k = n)) as [->|Hne].
  - by rewrite lookup_insert_eq.
  - by rewrite lookup_insert_ne.
Qed.

Lemma failures_succ a : (1 <= a)%Z -> false :: failures (a - 1) = failures a.
Proof. intros Ha. unfold failures. by replace (Z.to_nat a) with (S (Z.to_nat (a - 1))) by lia. Qed.

(** What becomes of the busy jobs when a worker moves. *)
Lemma busy_update s s' i w w' :
  ws s !! i = Some w -> ws s' = <[i := w']> (ws s) -> queue s' = queue s ->
  exists b, busy s ≡ₚ (option_list (job_in_hand w) ++ b)%list /\
            busy s' ≡ₚ (option_list (job_in_hand w') ++ b)%list.
Proof.
  intros Hw Hws Hq. destruct (in_hand_split s i w Hw) as (l & k & _ & _ & Hh & Hu).
  exists (queue s ++ omap job_in_hand l ++ omap job_in_hand k)%list.
  unfold busy. rewrite Hh. unfold in_hand at 1. rewrite Hws, Hu, Hq. split; solve_Permutation.
Qed.

Lemma inv_finish c s s0 i n j w e o :
  inv c s0 -> ws s0 !! i = Some w -> job_in_hand w = Some (n, j) ->
  ws s = ws s0 -> queue s = queue s0 -> accepted s = accepted s0 -> ends s = ends s0 ->
  stop_closed s = stop_closed s0 -> queue_closed s = queue_closed s0 ->
  (forall k, k <> n -> attempts_of s k = attempts_of s0 k) ->
  ending_ok c s n e ->
  inv c (finish i n e o s).
Proof.
  intros Hi Hw Hj Hws Hq Hacc Hen Hst Hqc Ha He.
  destruct (busy_update s0 (finish i n e o s) i w Receiving) as (b & Hb & Hb'); [done|by cbn; rewrite Hws|done|].
  rewrite Hj in Hb. cbn in Hb, Hb'.
  eapply (inv_worker_update c s0 _ i w Receiving Hi Hw); cbn; try done.
  - by rewrite Hws.
  - by rewrite Hq.
  - rewrite Hb', Hen, Hacc. eapply jobs_finish. rewrite <- Hb. exact (inv_jobs _ _ Hi).
  - intros k. destruct (decide (k = n)) as [->|Hne]; [right; by exists j|left; by apply Ha].
  - intros k e' Hk. destruct (decide (k = n)) as [->|Hne].
    + rewrite lookup_insert_eq in Hk. injection Hk as <-. right. split; [by exists j|]. exact He.
    + rewrite lookup_insert_ne, Hen in Hk by done. by left.
Qed.

Lemma inv_set_worker c s s0 i w w' :
  inv c s0 -> ws s0 !! i = Some w -> job_in_hand w' = job_in_hand w ->
  ws s = ws s0 -> queue s = queue s0 -> accepted s = accepted s0 -> ends s = ends s0 ->
  stop_closed s = stop_closed s0 -> queue_closed s = queue_closed s0 ->
  (forall k, attempts_of s k = attempts_of s0 k \/ exists j, job_in_hand w = Some (k, j)) ->
  worker_ok c (set_worker i w' s) w' ->
  inv c (set_worker i w' s).
Proof.
  intros Hi Hw Hj Hws Hq Hacc Hen Hst Hqc Ha Hw'.
  destruct (busy_update s0 (set_worker i w' s) i w w') as (b & Hb & Hb'); [done|by cbn; rewrite Hws|done|].
  rewrite Hj, <- Hb in Hb'.
  eapply (inv_worker_update c s0 _ i w w' Hi Hw); cbn; try done.
  - by rewrite Hws.
  - by rewrite Hq.
  - rewrite Hb', Hen, Hacc. exact (inv_jobs _ _ Hi).
  - intros k e Hk. rewrite Hen in Hk. by left.
Qed.

Lemma inv_worker_step c stop i s s' : inv c s -> (0 < retries c)%Z ->
  worker_step c stop i s = Some s' -> inv c s'.
Proof.
  intros Hi Hr. unfold worker_step. destruct (ws s !! i) as [w|] eqn:Hw; [|done].
  pose proof (inv_hand _ _ Hi i w Hw) as Hok. destruct w as [|n j a|n j a due|]; [| | |done].
  - destruct (queue s) as [|[n j] q] eqn:Hq.
    + destruct (queue_closed s) eqn:Hc; [|done]. intros [= <-].
      eapply (inv_set_worker c s s); try done. by left.
    + intros [= <-]. destruct (in_hand_split s i _ Hw) as (l & k & _ & _ & Hh & Hu).
      eapply (inv_worker_update c s _ i); try done; cbn.
      * exists [(n, j)]. by rewrite Hq.
      * unfold busy. cbn. unfold in_hand. cbn. rewrite Hu. cbn.
        eapply jobs_ok_perm; [|done..|exact (inv_jobs _ _ Hi)]. unfold busy. rewrite Hq, Hh. cbn. solve_Permutation.
      * by left.
      * split; [lia|]. change (attempts_of s n = failures (1 - 1)).
        rewrite (inv_new _ _ Hi n j); [done|]. rewrite Hq. by left.
      * by left.
  - destruct Hok as [Ha Hat]. destruct (inner_send j (inner s)) as [[[]|e] m]; intros [= <-]; cbn [is_Ok after_attempt].
    + eapply (inv_finish c _ s i n j); try done.
      * intros k Hk. by rewrite attempts_note, decide_False.
      * exists a. by rewrite attempts_note, decide_True, Hat.
    + assert (attempts_of (note_attempt n false m s) n = failures a) as Hf.
      { by rewrite attempts_note, decide_True, Hat, failures_succ by (done || lia). }
      destruct (Z.eqb_spec a (retries c)) as [->|Hne].
      * eapply (inv_finish c _ s i n j); try done.
        intros k Hk. by rewrite attempts_note, decide_False.
      * eapply (inv_set_worker c _ s i); try done.
        -- intros k. rewrite attempts_note. destruct (decide (k = n)) as [->|]; [right; by exists j|by left].
        -- split; [lia|exact Hf].
  - destruct Hok as [Ha Hat]. destruct stop.
    + destruct (stop_closed s) eqn:Hs; [|done]. intros [= <-].
      eapply (inv_finish c s s i n j); try done. split; [done|]. by exists a.
    + destruct (due <=? now s)%Z; [|done]. intros [= <-].
      eapply (inv_set_worker c s s i); try done; [by left|]. split; [lia|].
      cbn. replace (a + 1 - 1)%Z with a by lia. exact Hat.
Qed.

Lemma inv_enqueue c j s a s' : inv c s -> enqueue c j s = (a, s') -> inv c s'.
Proof.
  intros Hi. unfold enqueue. destruct (queue_closed s) eqn:Hc; [by intros [= <- <-]|].
  destruct (Z.ltb_spec (Z.of_nat (length (queue s))) (queueSize c)); [|by intros [= <- <-]].
  intros [= <- <-]. destruct Hi as [Hroom Hlen Hfifo Hjobs Hnew Hfresh Hhand Hends Hcl].
  destruct (Hfresh (length (accepted s)) (le_n _)) as [Hf1 Hf2].
  split; cbn; try done.
  - rewrite length_app. cbn. lia.
  - assert (length (queue s) <= length (accepted s)) as Hle.
    { by eapply jobs_bound; [exact Hjobs|]. }
    rewrite fmap_app, !length_app, Hfifo. cbn. rewrite seq_app. f_equal; [f_equal; lia|].
    cbn. f_equal. lia.
  - eapply jobs_ok_perm; [|done..|by apply (jobs_accept j), Hjobs]. unfold busy, in_hand. cbn. solve_Permutation.
  - intros n j'. rewrite elem_of_app, list_elem_of_singleton. intros [Hin|[= -> _]]; [by eapply Hnew|exact Hf1].
  - intros n. rewrite length_app. cbn. intros Hn. apply Hfresh. lia.
  - intros i w Hw. specialize (Hhand i w Hw). destruct w; try done. cbn in *. destruct Hhand. congruence.
Qed.

Lemma inv_step c l s s' : inv c s -> (0 < retries c)%Z -> step c l s s' -> inv c s'.
Proof.
  intros Hi Hr Hs. destruct Hs as [j a s s' He|stop i s s' Hw|s Hc|s Hc Hq|s Hc Hd|d s Hd].
  - by eapply inv_enqueue.
  - by eapply inv_worker_step.
  - destruct Hi. split; try done. intros n e Hen.
    eapply (ending_ok_frame c s); [done|done|eauto].
  - destruct Hi. split; try done. intros i w Hw.
    eapply (worker_ok_frame c s); [done|done|done|eauto].
  - done.
  - by destruct Hi.
Qed.

Lemma omap_replicate_none {A B} (f : A -> option B) k x : f x = None -> omap f (replicate k x) = [].
Proof. intros Hf. induction k as [|k IH]; [done|]. cbn. by rewrite Hf. Qed.

Lemma inv_started c t m : config_ok c -> inv c (started c t m).
Proof.
  intros (? & ? & ?). split; cbn; try done; [lia|by rewrite length_replicate| |].
  - unfold busy, in_hand. cbn. rewrite omap_replicate_none by done. split; cbn; [constructor|set_solver|].
    intros n. rewrite elem_of_nil. lia.
  - intros i w Hw. apply lookup_replicate in Hw as [-> _]. done.
Qed.

Lemma inv_steps c ls s s' : (0 < retries c)%Z -> inv c s -> steps c s ls s' -> inv c s'.
Proof. intros Hr Hi Hs. induction Hs; [done|]. eauto using inv_step. Qed.

Lemma reachable_inv c t m s : config_ok c -> reachable c t m s -> inv c s.
Proof. intros Hc [ls Hs]. eapply inv_steps; [apply Hc|by apply inv_started|done]. Qed.

(** * The abstract spool

    What the callers of the mailer may count on: a list of mails, each of which is
    pending until it is sent or dropped for good. *)
Inductive status := Pending | Delivered (attempts : Z) | Undeliverable | Interrupted.
Record spool := Spool { sp_mails : list (otpJob * status); sp_stopping : bool; sp_closed : bool }.

Inductive spool_step (c : config) : spool -> spool -> Prop :=
| sp_submit j p : sp_closed p = false ->
    spool_step c p (Spool (sp_mails p ++ [(j, Pending)]) (sp_stopping p) (sp_closed p))
| sp_resolve n j st p : sp_mails p !! n = Some (j, Pending) ->
    match st with
    | Pending => False
    | Delivered a => (1 <= a <= retries c)%Z
    | Undeliverable => True
    | Interrupted => sp_stopping p = true
    end ->
    spool_step c p (Spool (<[n := (j, st)]> (sp_mails p)) (sp_stopping p) (sp_closed p))
| sp_stop p : spool_step c p (Spool (sp_mails p) true (sp_closed p))
| sp_close p : sp_stopping p = true -> spool_step c p (Spool (sp_mails p) (sp_stopping p) true).

(** The spool a state stands for. *)
Definition status_of (s : state) (n : nat) : status :=
  match ends s !! n with
  | None => Pending
  | Some Sent => Delivered (Z.of_nat (length (attempts_of s n)))
  | Some GivenUp => Undeliverable
  | Some CutShort => Interrupted
  end.
Definition spool_of (s : state) : spool :=
  Spool (imap (fun n j => (j, status_of s n)) (accepted s)) (stop_closed s) (queue_closed s).

Lemma spool_of_same s s' :
  accepted s' = accepted s -> stop_closed s' = stop_closed s -> queue_closed s' = queue_closed s ->
  (forall n, n < length (accepted s) -> status_of s' n = status_of s n) -> spool_of s' = spool_of s.
Proof.
  intros Ha Hs Hq Hn. unfold spool_of. rewrite Ha, Hs, Hq. f_equal.
  apply list_eq. intros n. rewrite !list_lookup_imap. destruct (accepted s !! n) as [j|] eqn:Hj; [|done].
  cbn. rewrite Hn; [done|]. by eapply lookup_lt_Some.
Qed.

(** The moves of a worker the spool sees. *)
Lemma spool_of_finish c s s' i n j w e :
  inv c s -> ws s !! i = Some w -> job_in_hand w = Some (n, j) ->
  accepted s' = accepted s -> stop_closed s' = stop_closed s -> queue_closed s' = queue_closed s ->
  ends s' = <[n := e]> (ends s) -> (forall k, k <> n -> attempts_of s' k = attempts_of s k) ->
  match e with
  | Sent => (1 <= Z.of_nat (length (attempts_of s' n)) <= retries c)%Z
  | GivenUp => True
  | CutShort => stop_closed s = true
  end ->
  spool_step c (spool_of s) (spool_of s').
Proof.
  intros Hi Hw Hj Ha Hs Hq He Hk Hok.
  assert ((n, j) ∈ busy s) as Hb.
  { apply elem_of_app. right. apply list_elem_of_omap. exists w.
    split; [by eapply list_elem_of_lookup_2|done]. }
  pose proof (jo_job _ _ _ (inv_jobs _ _ Hi) n j Hb) as Hacc.
  apply (list_elem_of_fmap_2 fst) in Hb. apply (jo_busy _ _ _ (inv_jobs _ _ Hi)) in Hb as [Hlt Hn].
  cbn in Hlt, Hn.
  replace (spool_of s') with
    (Spool (<[n := (j, status_of s' n)]> (sp_mails (spool_of s))) (sp_stopping (spool_of s)) (sp_closed (spool_of s))).
  - apply (sp_resolve _ n j).
    + cbn. rewrite list_lookup_imap, Hacc. cbn. unfold status_of. by rewrite Hn.
    + unfold status_of. rewrite He, lookup_insert_eq. by destruct e.
  - unfold spool_of. cbn. rewrite Ha, Hs, Hq. f_equal. apply list_eq. intros k.
    rewrite list_lookup_imap. destruct (decide (k = n)) as [->|Hne].
    + rewrite list_lookup_insert_eq by (rewrite length_imap; done). by rewrite Hacc.
    + rewrite list_lookup_insert_ne, list_lookup_imap by done. destruct (accepted s !! k); [|done].
      cbn. unfold status_of. rewrite He, lookup_insert_ne, Hk by done. done.
Qed.

Lemma length_failures a : (0 <= a)%Z -> Z.of_nat (length (failures a)) = a.
Proof. intros Ha. unfold failures. rewrite length_replicate. lia. Qed.

Lemma spool_worker_step c stop i s s' : inv c s -> worker_step c stop i s = Some s' ->
  accepted s' = accepted s /\
  (spool_of s' = spool_of s \/ spool_step c (spool_of s) (spool_of s')).
Proof.
  intros Hi. unfold worker_step. destruct (ws s !! i) as [w|] eqn:Hw; [|done].
  pose proof (inv_hand _ _ Hi i w Hw) as Hok. destruct w as [|n j a|n j a due|]; [| | |done].
  - destruct (queue s) as [|[n j] q] eqn:Hq; [destruct (queue_closed s); [|done]|];
      intros [= <-]; (split; [done|by left]).
  - destruct Hok as [Ha Hat]. destruct (inner_send j (inner s)) as [[[]|e] m]; intros [= <-]; cbn [is_Ok after_attempt].
    + split; [done|]. right. eapply (spool_of_finish c s _ i n j); try done.
      * intros k Hk. by apply (eq_trans (attempts_note n true m s k)), decide_False.
      * change (attempts_of (finish i n Sent [MailerOp "sent"] (note_attempt n true m s)) n)
          with (attempts_of (note_attempt n true m s) n).
        rewrite attempts_note, decide_True, Hat by done. cbn [length].
        rewrite Nat2Z.inj_succ, length_failures; lia.
    + destruct (Z.eqb_spec a (retries c)) as [->|Hne].
      * split; [done|]. right. eapply (spool_of_finish c s _ i n j); try done.
        intros k Hk. by apply (eq_trans (attempts_note n false m s k)), decide_False.
      * split; [done|]. left. apply spool_of_same; try done. intros k _.
        unfold status_of. cbn. destruct (ends s !! k) as [[]|] eqn:Hen; try done. f_equal. f_equal. f_equal.
        refine (eq_trans (attempts_note n false m s k) _). rewrite decide_False; [done|]. intros ->.
        destruct (jo_busy _ _ _ (inv_jobs _ _ Hi) n) as [Hb _]. destruct Hb as [_ Hb]; [|congruence].
        apply (list_elem_of_fmap_2 fst _ (n, j)), elem_of_app. right. apply list_elem_of_omap.
        eexists. split; [by eapply list_elem_of_lookup_2|done].
  - destruct Hok as [Ha Hat]. destruct stop.
    + destruct (stop_closed s) eqn:Hs; [|done]. intros [= <-]. split; [done|]. right.
      by eapply (spool_of_finish c s _ i n j).
    + destruct (due <=? now s)%Z; [|done]. intros [= <-]. split; [done|by left].
Qed.

Definition accepted_by (l : label) : option otpJob :=
  match l with LEnqueue j (Returns (Ok _)) => Some j | _ => None end.

Lemma spool_step_of c l s s' : inv c s -> step c l s s' ->
  accepted s' = (accepted s ++ option_list (accepted_by l))%list /\
  (spool_of s' = spool_of s \/ spool_step c (spool_of s) (spool_of s')).
Proof.
  intros Hi Hs. destruct Hs as [j a s s' He|stop i s s' Hw|s Hc|s Hc Hq|s Hc Hd|d s Hd].
  - revert He. unfold enqueue. destruct (queue_closed s) eqn:Hq.
    { intros [= <- <-]. split; [by rewrite app_nil_r|by left]. }
    destruct (_ <? _)%Z; intros [= <- <-]; cbn [accepted_by option_list]; [|split; [by rewrite app_nil_r|by left]].
    split; [done|]. right. destruct (inv_fresh _ _ Hi (length (accepted s)) (le_n _)) as [_ Hn].
    refine (eq_ind _ (spool_step c _) (sp_submit c j (spool_of s) Hq) _ _).
    unfold spool_of. cbn. rewrite imap_app, Hq. f_equal. f_equal. cbn.
    unfold status_of. cbn. by rewrite Nat.add_0_r, Hn.
  - cbn [accepted_by option_list]. rewrite app_nil_r. by eapply spool_worker_step.
  - split; [by rewrite app_nil_r|]. right. exact (sp_stop c (spool_of s)).
  - split; [by rewrite app_nil_r|]. right. exact (sp_close c (spool_of s) Hc).
  - split; [by rewrite app_nil_r|by left].
  - split; [by rewrite app_nil_r|by left].
Qed.

(** C20. The queue implements the spool.  Whatever the goroutines do, every step is a
    move of the abstract spool or invisible to it: mails are accepted in order, each
    is settled at most once, and an interruption needs a shutdown. *)
Theorem spool_refinement c t m ls s :
  config_ok c -> steps c (started c t m) ls s ->
  rtc (spool_step c) (Spool [] false false) (spool_of s) /\
  (sp_mails (spool_of s)).*1 = omap accepted_by ls.
Proof.
  intros Hc Hs.
  assert (forall s0 ls s, inv c s0 -> steps c s0 ls s ->
    rtc (spool_step c) (spool_of s0) (spool_of s) /\
    accepted s = (accepted s0 ++ omap accepted_by ls)%list) as Hgen.
  { intros s0 ls' s' Hi Hst. induction Hst as [s1|l ls' s1 s2 s3 H1 Hst IH]; [by rewrite app_nil_r|].
    destruct (spool_step_of c l s1 s2 Hi H1) as [Ha Hsp].
    destruct IH as [IH IHa]; [by eapply inv_step; [|apply Hc|]|]. split.
    - destruct Hsp as [<-|Hsp]; [done|]. by eapply rtc_l.
    - rewrite IHa, Ha, <- app_assoc. f_equal. cbn. by destruct (accepted_by l). }
  destruct (Hgen _ _ _ (inv_started c t m Hc) Hs) as [Hr Ha]. split; [done|].
  unfold spool_of. cbn in *. rewrite <- Ha. generalize (accepted s). intros l.
  apply list_eq. intros n. rewrite list_lookup_fmap, list_lookup_imap. by destruct (l !! n).
Qed.

(** * Accounting *)

Lemma length_omap_le {A B} (f : A -> option B) l : length (omap f l) <= length l.
Proof. induction l as [|x l IH]; [done|]. cbn. destruct (f x); cbn; lia. Qed.

Lemma worker_attempts c s w n j : worker_ok c s w -> job_in_hand w = Some (n, j) ->
  exists a, (0 <= a < retries c)%Z /\ attempts_of s n = failures a.
Proof.
  intros Hok Hj. destruct w; cbn in *; try done; simplify_eq; destruct Hok as [Ha Hat].
  - exists (attempt - 1)%Z. by (split; [lia|]).
  - exists attempt. by (split; [lia|]).
Qed.

(** C21. No accepted mail is lost or sent twice.  It waits in the buffer untried, or one
    worker holds it after failed attempts only, or it has ended: with a success in at
    most [retries] attempts, after exactly [retries] failures, or cut short by a
    shutdown.  The buffer is in order of acceptance and bounded, the mails without an
    ending are at most its size plus the workers. *)
Theorem every_mail_accounted c t m s n j :
  config_ok c -> reachable c t m s -> accepted s !! n = Some j ->
  (queue s).*1 = seq (length (accepted s) - length (queue s)) (length (queue s)) /\
  (Z.of_nat (length (busy s)) <= queueSize c + workers c)%Z /\ NoDup (busy s).*1 /\
  match ends s !! n with
  | Some e => n ∉ (busy s).*1 /\ ending_ok c s n e
  | None => (n, j) ∈ queue s /\ attempts_of s n = [] \/
      exists i w a, ws s !! i = Some w /\ job_in_hand w = Some (n, j) /\
        (0 <= a < retries c)%Z /\ attempts_of s n = failures a
  end.
Proof.
  intros Hc Hr Hj. pose proof (reachable_inv _ _ _ _ Hc Hr) as Hi.
  split; [apply (inv_fifo _ _ Hi)|]. split.
  { pose proof (inv_room _ _ Hi). pose proof (inv_workers _ _ Hi).
    pose proof (length_omap_le job_in_hand (ws s)). destruct Hc.
    unfold busy, in_hand. rewrite length_app. lia. }
  split; [apply (inv_jobs _ _ Hi)|]. destruct (ends s !! n) as [e|] eqn:He.
  - split; [|by apply (inv_ends _ _ Hi)]. intros Hb. apply (jo_busy _ _ _ (inv_jobs _ _ Hi)) in Hb as [_ ?].
    congruence.
  - assert (n ∈ (busy s).*1) as Hb.
    { apply (jo_busy _ _ _ (inv_jobs _ _ Hi)). split; [by eapply lookup_lt_Some|done]. }
    apply list_elem_of_fmap in Hb as ([n' j'] & -> & Hb).
    pose proof (jo_job _ _ _ (inv_jobs _ _ Hi) _ _ Hb) as Hj'. cbn in Hj. simplify_eq.
    apply elem_of_app in Hb as [Hq|Hh]; [left; split; [done|by eapply (inv_new _ _ Hi)]|right].
    apply list_elem_of_omap in Hh as (w & Hw & Hwj). apply list_elem_of_lookup_1 in Hw as [i Hw].
    destruct (worker_attempts c s w n' j (inv_hand _ _ Hi i w Hw) Hwj) as (a & ? & ?).
    by exists i, w, a.
Qed.

(** * Shutdown *)

(** An upper bound on the steps the workers can still make. *)
Definition worker_work (c : config) (w : worker) : nat :=
  match w with
  | Receiving => 1
  | Sending _ _ a => 2 * Z.to_nat (retries c - a) + 2
  | Waiting _ _ a _ => 2 * Z.to_nat (retries c - a) + 1
  | Exited => 0
  end.
Definition work (c : config) (s : state) : nat :=
  2 * Z.to_nat (retries c) * length (queue s) + sum_list_with (worker_work c) (ws s).

Lemma sum_list_with_insert {A} (f : A -> nat) l i x y : l !! i = Some x ->
  sum_list_with f (<[i := y]> l) + f x = sum_list_with f l + f y.
Proof.
  revert i. induction l as [|z l IH]; intros [|i] Hi; [done|done|cbn in *; simplify_eq; lia|].
  change (f z + sum_list_with f (<[i := y]> l) + f x = f z + sum_list_with f l + f y).
  specialize (IH i Hi). lia.
Qed.

Lemma work_step c stop i s s' : inv c s -> (0 < retries c)%Z -> worker_step c stop i s = Some s' -> work c s' < work c s.
Proof.
  intros Hi Hr. unfold worker_step. destruct (ws s !! i) as [w|] eqn:Hw; [|done].
  pose proof (inv_hand _ _ Hi i w Hw) as Hok.
  pose proof (fun y => sum_list_with_insert (worker_work c) (ws s) i w y Hw) as Hsum.
  unfold work. destruct w as [|n j a|n j a due|]; [| | |done].
  - destruct (queue s) as [|[n j] q] eqn:Hq.
    + destruct (queue_closed s); [|done]. intros [= <-]. specialize (Hsum Exited). cbn in *.
      rewrite Hq. cbn. lia.
    + intros [= <-]. specialize (Hsum (Sending n j 1)). cbn in *.
      replace (Z.to_nat (retries c)) with (S (Z.to_nat (retries c - 1))) in * by lia. lia.
  - destruct Hok as [Ha _]. destruct (inner_send j (inner s)) as [[[]|e] m]; intros [= <-]; cbn.
    + specialize (Hsum Receiving). cbn in *. lia.
    + destruct (Z.eqb_spec a (retries c)).
      * specialize (Hsum Receiving). cbn in *. lia.
      * specialize (Hsum (Waiting n j a (now s + wait_after c a)%Z)). cbn in *. lia.
  - destruct Hok as [Ha _]. destruct stop.
    + destruct (stop_closed s); [|done]. intros [= <-]. specialize (Hsum Receiving). cbn in *. lia.
    + destruct (due <=? now s)%Z; [|done]. intros [= <-].
      specialize (Hsum (Sending n j (a + 1)%Z)). cbn in *. lia.
Qed.

Definition is_worker (l : label) : bool := match l with LWorker _ => true | _ => false end.
Definition worker_steps (ls : list label) : nat := length (filter (fun l => is_worker l = true) ls).

(** Once the channel is closed nothing adds work, and it stays closed. *)
Lemma closed_step c l s s' : inv c s -> (0 < retries c)%Z -> queue_closed s = true -> step c l s s' ->
  queue_closed s' = true /\ (if is_worker l then 1 else 0) + work c s' <= work c s.
Proof.
  intros Hi Hr Hq Hs. destruct Hs as [j a s s' He|stop i s s' Hw|s Hc|s Hc Hq'|s Hc Hd|d s Hd]; cbn [is_worker].
  - unfold enqueue in He. rewrite Hq in He. by injection He as _ <-.
  - pose proof (work_step c stop i s s' Hi Hr Hw). split; [|lia].
    revert Hw. unfold worker_step, set_worker, finish, after_attempt, note_attempt.
    repeat (case_match; try done); intros; simplify_eq; done.
  - done.
  - congruence.
  - done.
  - done.
Qed.

Lemma closed_steps c s ls s' : inv c s -> (0 < retries c)%Z -> queue_closed s = true -> steps c s ls s' ->
  inv c s' /\ queue_closed s' = true /\ worker_steps ls + work c s' <= work c s.
Proof.
  intros Hi Hr Hq Hs. induction Hs as [s|l ls s1 s2 s3 H1 Hs IH]; [done|].
  destruct (closed_step c l s1 s2 Hi Hr Hq H1) as [Hq2 Hw].
  destruct IH as (Hi3 & Hq3 & Hw3); [by eapply inv_step|done|]. split; [done|]. split; [done|].
  unfold worker_steps in *. rewrite filter_cons. case_decide as Hl; [rewrite Hl in Hw|destruct (is_worker l); [done|]]; cbn [length]; lia.
Qed.

(** With the channel closed a worker that has not returned can move. *)
Lemma worker_moves c s i w : inv c s -> queue_closed s = true -> ws s !! i = Some w -> w <> Exited ->
  exists stop s', worker_step c stop i s = Some s'.
Proof.
  intros Hi Hq Hw Hne. exists true. unfold worker_step. rewrite Hw.
  pose proof (inv_closed _ _ Hi Hq) as Hs. destruct w; [|by destruct (inner_send _ _); eauto|rewrite Hs; eauto|done].
  rewrite Hq. destruct (queue s) as [|[]]; eauto.
Qed.

Lemma all_exited s : (forall i w, ws s !! i = Some w -> w = Exited) -> in_hand s = [] /\ all_done s = true.
Proof.
  unfold in_hand, all_done. induction (ws s) as [|w l IH]; intros Hl; [done|].
  rewrite (Hl 0 w eq_refl). cbn. apply IH. intros i. exact (Hl (S i)).
Qed.

(** C22. Shutdown comes to an end.  From the moment the channel is closed the workers
    make at most [work] steps, whatever the others do meanwhile; as long as one of
    them has not returned it has a step to make; and when none has, every accepted
    mail has its ending and Shutdown returns. *)
Theorem shutdown_drains c t m s ls s' :
  config_ok c -> reachable c t m s -> queue_closed s = true -> steps c s ls s' ->
  worker_steps ls <= work c s /\
  ((exists i s'', step c (LWorker i) s' s'') \/
   step c LReturn s' s' /\ queue s' = [] /\ forall n j, accepted s' !! n = Some j -> is_Some (ends s' !! n)).
Proof.
  intros Hc Hr Hq Hs. pose proof (reachable_inv _ _ _ _ Hc Hr) as Hi. destruct Hc as (Hwk & _ & Hrt).
  destruct (closed_steps c s ls s' Hi Hrt Hq Hs) as (Hi' & Hq' & Hw). split; [lia|].
  destruct (decide (Forall (fun w => w = Exited) (ws s'))) as [Hall|Hsome].
  - right. rewrite Forall_lookup in Hall. destruct (all_exited s' Hall) as [Hh Hd].
    assert (queue s' = []) as Hnil.
    { pose proof (inv_workers _ _ Hi') as Hl. destruct (ws s' !! 0) as [w|] eqn:H0.
      - rewrite (Hall 0 w H0) in H0. by apply (inv_hand _ _ Hi') in H0 as [_ ?].
      - apply lookup_ge_None in H0. lia. }
    split; [by constructor|]. split; [done|]. intros n j Hj.
    destruct (ends s' !! n) as [e|] eqn:He; [done|exfalso].
    destruct (jo_busy _ _ _ (inv_jobs _ _ Hi') n) as [_ Hb].
    assert (n ∈ (busy s').*1) as Hin by (apply Hb; split; [by eapply lookup_lt_Some|done]).
    unfold busy in Hin. rewrite Hnil, Hh in Hin. by apply elem_of_nil in Hin.
  - left. apply not_Forall_Exists in Hsome; [|apply _]. apply Exists_exists in Hsome as (w & Hin & Hne).
    apply list_elem_of_lookup_1 in Hin as [i Hin].
    destruct (worker_moves c s' i w Hi' Hq' Hin Hne) as (stop & s'' & Hstep).
    exists i, s''. by econstructor.
Qed.

(** [SendOTP] and [SendPasswordReset] never wait.  Before the shutdown the answer is
    nil exactly if the buffer has room, and then one mail more is accepted; otherwise it
    is ErrQueueFull and nothing changes.  After the shutdown they panic. *)
Theorem enqueue_answers c j s :
  match enqueue c j s with
  | (Returns (Ok _), s') => queue_closed s = false /\ (Z.of_nat (length (queue s)) < queueSize c)%Z /\
      accepted s' = (accepted s ++ [j])%list /\ queue s' = (queue s ++ [(length (accepted s), j)])%list /\
      ws s' = ws s /\ ends s' = ends s
  | (Returns (Err e), s') => queue_closed s = false /\ (queueSize c <= Z.of_nat (length (queue s)))%Z /\
      e = ErrQueueFull /\ s' = s
  | (Panics, s') => queue_closed s = true /\ s' = s
  end.
Proof.
  unfold enqueue. destruct (queue_closed s); [done|].
  by destruct (Z.ltb_spec (Z.of_nat (length (queue s))) (queueSize c)).
Qed.
End async.

(** * The pauses *)

Lemma shl64_exact n : (0 <= n < 63)%Z -> shl64 n = (2 ^ n)%Z.
Proof.
  intros Hn. unfold shl64. rewrite (proj2 (Z.ltb_lt n 64)), Z.shiftl_1_l by lia.
  assert (2 ^ n < 2 ^ 63)%Z by (apply Z.pow_lt_mono_r; lia). assert (0 < 2 ^ n)%Z by lia.
  apply wrap64_id. unfold in_int64, int64_min, int64_max. lia.
Qed.

(** The pause after attempt [k] is [backoff * 2 ^ (k - 1)], cut at 30 s, as long as
    that product is an int64.  With the backoff of one second the server uses, this
    covers 34 attempts.  The product for the 35th wraps to a negative number and all
    from the 56th on are zero: those pauses are over at once, and
    [MAILER_RETRIES] may ask for that many. *)
Theorem wait_after_spec c k :
  (0 < backoff c)%Z -> (1 <= k <= 63)%Z -> (backoff c * 2 ^ (k - 1) <= int64_max)%Z ->
  wait_after c k = Z.min (backoff c * 2 ^ (k - 1)) (30 * Second) /\ (0 < wait_after c k <= 30 * Second)%Z.
Proof.
  intros Hb Hk Hfit. assert (0 < 2 ^ (k - 1))%Z by lia.
  assert (0 < backoff c * 2 ^ (k - 1))%Z by lia.
  unfold wait_after, mul64. rewrite shl64_exact, wrap64_id
    by (try lia; unfold in_int64, int64_min, int64_max in *; lia).
  unfold Second in *. destruct (Z.ltb_spec (30 * 1000000000) (backoff c * 2 ^ (k - 1))); lia.
Qed.

Lemma wait_after_overflow w q r :
  let c := NewAsyncOTPMailer w q r Second in
  wait_after c 34 = (30 * Second)%Z /\ (wait_after c 35 < 0)%Z /\
  forall k, (56 <= k)%Z -> wait_after c k = 0%Z.
Proof.
  intros c. split; [vm_compute; reflexivity|]. split; [vm_compute; reflexivity|].
  intros k Hk. unfold wait_after. replace (mul64 _ _) with 0%Z; [done|].
  unfold mul64, shl64. change (backoff c) with (2 ^ 9 * 1953125)%Z.
  destruct (Z.ltb_spec (k - 1) 64); [|done].
  assert (exists d, k = 56 + d /\ 0 <= d <= 8)%Z as (d & -> & Hd) by (exists (k - 56)%Z; lia).
  assert (d = 0 \/ d = 1 \/ d = 2 \/ d = 3 \/ d = 4 \/ d = 5 \/ d = 6 \/ d = 7 \/ d = 8)%Z as Hcases by lia.
  repeat (destruct Hcases as [->|Hcases]; [vm_compute; reflexivity|]). subst d. vm_compute. reflexivity.
Qed.
