(* ===== verification/Config.v ===== *)
(** The configuration: src/internal/config/config.go, the start-up errors of
    src/internal/constants, and the choice of the data source in
    src/internal/datasources/drivers/driver.sqlx_setup.go.

    viper, which reads the .env file and the environment, is a parameter, and so are
    [url.Parse] and the quoting of [%q]. *)

From Stdlib Require Import Ascii String ZArith.
From Stdlib Require Import SpecFloat.
From stdpp Require Import base strings list pretty.
From S2P Require Import Prelude GoStrings AppError Records.

Open Scope string_scope.

Definition EnvironmentProduction : string := "production".
Definition EnvironmentDevelopment : string := "development".

Definition ErrLoadConfig : error := EText "failed to load config file".
Definition ErrParseConfig : error := EText "failed to parse env to config struct".
Definition ErrEmptyVar : error := EText "required variable environment is empty".

(** A Go int is 64 bits wide, a float64 is its IEEE 754 value. *)
Definition float64 : Type := spec_float.
Definition float_zero : float64 := S754_zero false.
Definition float_one : float64 := S754_finite false 4503599627370496 (-52).

Record Config := MkConfig {
  Port : Z;
  Environment : string;
  Debug : bool;
  DBPostgreDriver : string;
  DBPostgreDsn : string;
  DBPostgreURL : string;
  DBMaxOpenConns : Z;
  DBMaxIdleConns : Z;
  DBConnMaxLifeMins : Z;
  JWTSecret : string;
  JWTExpired : Z;
  JWTIssuer : string;
  JWTRefreshExpired : Z;
  OTPEmail : string;
  OTPPassword : string;
  OTPMaxAttempts : Z;
  MailerWorkers : Z;
  MailerQueueSize : Z;
  MailerRetries : Z;
  BcryptCost : Z;
  OTelExporter : string;
  OTelSampleRatio : float64;
  REDISHost : string;
  REDISPassword : string;
  REDISExpired : Z;
  AllowedOrigins : string;
}.

(** [strings.Split] at a one-byte separator. *)
Fixpoint split_at_go (sep : ascii) (cur s : string) : list string :=
  match s with
  | EmptyString => [cur]
  | String a r =>
      if Ascii.eqb a sep then cur :: split_at_go sep "" r
      else split_at_go sep (cur +:+ String a "") r
  end.
Definition Split (s : string) (sep : ascii) : list string := split_at_go sep "" s.

Definition comma : ascii := ",".

Definition AllowedOriginsList (c : Config) : list string :=
  if (AllowedOrigins c =? "")%string then
    if (Environment c =? EnvironmentProduction)%string then [] else ["*"]
  else
    let parts := Split (AllowedOrigins c) comma in
    fold_left (fun out p =>
      let trimmed := TrimSpace p in
      if negb (trimmed =? "")%string then (out ++ [trimmed])%list else out) parts [].

(** [if field == 0 { field = n }] *)
Definition or_default (z n : Z) : Z := if (z =? 0)%Z then n else z.

Definition applyDefaults (c : Config) : Config :=
  MkConfig (Port c) (Environment c) (Debug c) (DBPostgreDriver c) (DBPostgreDsn c) (DBPostgreURL c)
    (or_default (DBMaxOpenConns c) 25)
    (or_default (DBMaxIdleConns c) 5)
    (or_default (DBConnMaxLifeMins c) 15)
    (JWTSecret c) (JWTExpired c) (JWTIssuer c)
    (or_default (JWTRefreshExpired c) 7)
    (OTPEmail c) (OTPPassword c)
    (or_default (OTPMaxAttempts c) 5)
    (or_default (MailerWorkers c) 2)
    (or_default (MailerQueueSize c) 64)
    (or_default (MailerRetries c) 3)
    (or_default (BcryptCost c) 12)
    (OTelExporter c)
    (if SFeqb (OTelSampleRatio c) float_zero && negb (OTelExporter c =? "")%string
     then float_one else OTelSampleRatio c)
    (REDISHost c) (REDISPassword c) (REDISExpired c) (AllowedOrigins c).

Class ConfigLib := {
  viper_ReadInConfig : option error;
  viper_Unmarshal : result error Config;
  url_Parse : string -> option error;      (** the error, if any *)
  fmt_Quote : string -> string;
}.

Section config.
Context `{ConfigLib}.

(** The variables without a default. *)
Definition empty_var (c : Config) : bool :=
  ((Port c =? 0)%Z || (Environment c =? "")%string || (JWTSecret c =? "")%string
   || (JWTExpired c =? 0)%Z || (JWTIssuer c =? "")%string || (OTPEmail c =? "")%string
   || (OTPPassword c =? "")%string || (REDISHost c =? "")%string || (REDISPassword c =? "")%string
   || (REDISExpired c =? 0)%Z || (DBPostgreDriver c =? "")%string).

(** The checks, in the order of the code; [None] is [nil]. *)
Definition check_ranges (c : Config) : option error :=
  if ((Port c <? 1) || (65535 <? Port c))%Z then
    Some (EText ("PORT must be between 1 and 65535, got " +:+ Itoa (Port c))) else
  if ((JWTExpired c <? 1) || (720 <? JWTExpired c))%Z then
    Some (EText ("JWT_EXPIRED must be between 1 and 720 hours, got " +:+ Itoa (JWTExpired c))) else
  if ((JWTRefreshExpired c <? 1) || (365 <? JWTRefreshExpired c))%Z then
    Some (EText ("JWT_REFRESH_EXPIRED must be between 1 and 365 days, got " +:+ Itoa (JWTRefreshExpired c))) else
  if (String.length (JWTSecret c) <? 32)%nat then
    Some (EText ("JWT_SECRET must be at least 32 characters (got "
      +:+ Itoa (Z.of_nat (String.length (JWTSecret c))) +:+ ") — HS256 requires 256-bit entropy")) else
  if (REDISExpired c <? 1)%Z then
    Some (EText ("REDIS_EXPIRED must be at least 1 minute, got " +:+ Itoa (REDISExpired c))) else
  if ((DBMaxOpenConns c <? 1) || (DBMaxIdleConns c <? 0) || (DBMaxOpenConns c <? DBMaxIdleConns c))%Z then
    Some (EText ("invalid DB pool config: open=" +:+ Itoa (DBMaxOpenConns c)
      +:+ " idle=" +:+ Itoa (DBMaxIdleConns c))) else
  if (OTPMaxAttempts c <? 1)%Z then
    Some (EText ("OTP_MAX_ATTEMPTS must be >= 1, got " +:+ Itoa (OTPMaxAttempts c))) else
  if ((BcryptCost c <? 10) || (31 <? BcryptCost c))%Z then
    Some (EText ("BCRYPT_COST must be between 10 and 31, got " +:+ Itoa (BcryptCost c))) else
  None.

Definition check_environment (c : Config) : option error :=
  if (Environment c =? EnvironmentDevelopment)%string then
    if (DBPostgreDsn c =? "")%string then Some ErrEmptyVar else None
  else if (Environment c =? EnvironmentProduction)%string then
    if (DBPostgreURL c =? "")%string then Some ErrEmptyVar else
    match url_Parse (DBPostgreURL c) with
    | Some err => Some (EWrapped "DB_POSTGRE_URL is not a valid URL" err)
    | None =>
        if (AllowedOrigins c =? "")%string then
          Some (EText "ALLOWED_ORIGINS must be set in production (comma-separated origins)")
        else None
    end
  else Some (EText ("ENVIRONMENT must be 'development' or 'production', got " +:+ fmt_Quote (Environment c))).

(** The state is the global [AppConfig]. *)
Definition InitializeAppConfig : io Config (option error) :=
  match viper_ReadInConfig with
  | Some _ => ret (Some ErrLoadConfig)
  | None =>
      match viper_Unmarshal with
      | Err _ => ret (Some ErrParseConfig)
      | Ok c =>
          modify (fun _ => applyDefaults c) ;;;
          AppConfig <- get_state ;;
          if empty_var AppConfig then ret (Some ErrEmptyVar) else
          match check_ranges AppConfig with
          | Some err => ret (Some err)
          | None => ret (check_environment AppConfig)
          end
      end
  end.

(** [SetupSQLXPostgres]: the data source and the pool. *)
Record SQLXConfig := MkSQLX {
  DriverName : string; DataSourceName : string; MaxOpenConns : Z; MaxIdleConns : Z;
  MaxLifetime : Duration }.

Definition SetupSQLXPostgres_config (c : Config) : SQLXConfig :=
  MkSQLX (DBPostgreDriver c)
    (if (Environment c =? EnvironmentDevelopment)%string then DBPostgreDsn c
     else if (Environment c =? EnvironmentProduction)%string then DBPostgreURL c else "")
    (DBMaxOpenConns c) (DBMaxIdleConns c) (mul64 (DBConnMaxLifeMins c) Minute).
End config.

(** * The CORS policy (src/internal/http/middlewares/middleware.cors.go)

    gin-contrib/cors gets the policy; what it does with a request is its own. *)
Record cors_Config := MkCors {
  AllowOrigins : list string;
  AllowMethods : list string;
  AllowHeaders : list string;
  ExposeHeaders : list string;
  AllowCredentials : bool;
  MaxAge : Duration }.

Definition CORSMiddleware_config (c : Config) : cors_Config :=
  let origins := AllowedOriginsList c in
  MkCors origins ["GET"; "POST"; "PUT"; "PATCH"; "DELETE"; "OPTIONS"]
    ["Origin"; "Content-Type"; "Content-Length"; "Accept-Encoding"; "X-CSRF-Token"; "Authorization";
     "Accept"; "Cache-Control"; "X-Requested-With"; "X-Request-ID"]
    ["Content-Length"; "X-Request-ID"]
    (match origins with [o] => negb (o =? "*")%string | _ => true end)
    (12 * Hour)%Z.

(** * What an accepted configuration guarantees *)

(** Every clause of the checks, read positively. *)
Record valid_config (c : Config) : Prop := {
  vc_port : (1 <= Port c <= 65535)%Z;
  vc_access : (1 <= JWTExpired c <= 720)%Z;
  vc_refresh : (1 <= JWTRefreshExpired c <= 365)%Z;
  vc_secret : 32 <= String.length (JWTSecret c);
  vc_issuer : JWTIssuer c <> "";
  vc_smtp : OTPEmail c <> "" /\ OTPPassword c <> "";
  vc_redis : REDISHost c <> "" /\ REDISPassword c <> "" /\ (1 <= REDISExpired c)%Z;
  vc_pool : (1 <= DBMaxOpenConns c /\ 0 <= DBMaxIdleConns c <= DBMaxOpenConns c)%Z;
  vc_driver : DBPostgreDriver c <> "";
  vc_otp : (1 <= OTPMaxAttempts c)%Z;
  vc_bcrypt : (10 <= BcryptCost c <= 31)%Z;
  vc_source : DataSourceName (SetupSQLXPostgres_config c) <> "";
  vc_env : Environment c = EnvironmentDevelopment \/
    Environment c = EnvironmentProduction /\ AllowedOrigins c <> "";
}.

Section accepted.
Context `{ConfigLib}.

(** The URL is only parsed in production. *)
Definition url_ok (c : Config) : Prop :=
  Environment c = EnvironmentProduction -> url_Parse (DBPostgreURL c) = None.

Lemma empty_var_false c : empty_var c = false <->
  (Port c <> 0%Z /\ Environment c <> "" /\ JWTSecret c <> "" /\ JWTExpired c <> 0%Z /\ JWTIssuer c <> "" /\
   OTPEmail c <> "" /\ OTPPassword c <> "" /\ REDISHost c <> "" /\ REDISPassword c <> "" /\
   REDISExpired c <> 0%Z /\ DBPostgreDriver c <> "").
Proof. unfold empty_var. rewrite !orb_false_iff, !String.eqb_neq, !Z.eqb_neq. tauto. Qed.

Ltac ranges := rewrite ?orb_true_iff, ?orb_false_iff, ?Z.ltb_lt, ?Z.ltb_ge, ?Nat.ltb_lt, ?Nat.ltb_ge in *.

Lemma check_ranges_None c : check_ranges c = None <->
  (1 <= Port c <= 65535 /\ 1 <= JWTExpired c <= 720 /\ 1 <= JWTRefreshExpired c <= 365)%Z /\
  32 <= String.length (JWTSecret c) /\
  (1 <= REDISExpired c /\ 1 <= DBMaxOpenConns c /\ 0 <= DBMaxIdleConns c <= DBMaxOpenConns c /\
   1 <= OTPMaxAttempts c /\ 10 <= BcryptCost c <= 31)%Z.
Proof.
  unfold check_ranges. split.
  - intros Hc. repeat (case_match; [done|]). ranges. lia.
  - intros ?. repeat (case_match; [exfalso; ranges; lia|]). done.
Qed.

Lemma check_environment_None c : check_environment c = None <->
  (Environment c = EnvironmentDevelopment /\ DBPostgreDsn c <> "" \/
   Environment c = EnvironmentProduction /\ DBPostgreURL c <> "" /\
     url_Parse (DBPostgreURL c) = None /\ AllowedOrigins c <> "").
Proof.
  unfold check_environment.
  destruct (String.eqb_spec (Environment c) EnvironmentDevelopment) as [He|He].
  { destruct (String.eqb_spec (DBPostgreDsn c) "") as [Hd|Hd]; [|by split; [left|]].
    split; [done|]. intros [[_ ?]|[? _]]; [done|]. by rewrite He in *. }
  destruct (String.eqb_spec (Environment c) EnvironmentProduction) as [Hp|Hp].
  - destruct (String.eqb_spec (DBPostgreURL c) "") as [Hd|Hd]; [split; [done|naive_solver]|].
    destruct (url_Parse (DBPostgreURL c)) as [e|] eqn:Hu; [split; [done|naive_solver]|].
    destruct (String.eqb_spec (AllowedOrigins c) "") as [Ho|Ho]; [split; [done|naive_solver]|].
    split; [|done]. by right.
  - split; [done|naive_solver].
Qed.

(** What the checks amount to. *)
Lemma InitializeAppConfig_None g c :
  InitializeAppConfig g = (None, c) <->
  viper_ReadInConfig = None /\
  exists raw, viper_Unmarshal = Ok raw /\ c = applyDefaults raw /\ valid_config c /\ url_ok c.
Proof.
  unfold InitializeAppConfig. destruct viper_ReadInConfig as [e|]; [split; [done|by intros [? _]]|].
  destruct viper_Unmarshal as [raw|e]; [|split; [done|by intros (_ & ? & ? & _)]].
  unfold bind, modify, get_state, ret.
  assert ((empty_var (applyDefaults raw) = false /\ check_ranges (applyDefaults raw) = None /\
           check_environment (applyDefaults raw) = None) <->
          valid_config (applyDefaults raw) /\ url_ok (applyDefaults raw)) as Hiff.
  { generalize (applyDefaults raw). intros d.
    rewrite empty_var_false, check_ranges_None, check_environment_None. split.
    - intros (Hv & Hr & He). destruct Hv as (? & ? & ? & ? & ? & ? & ? & ? & ? & ? & ?).
      destruct Hr as ((? & ? & ?) & ? & ? & ? & ? & ? & ?). split.
      + split; try done. unfold SetupSQLXPostgres_config, DataSourceName.
        destruct He as [[-> ?]|[-> ?]]; cbn; tauto.
        destruct He as [[-> ?]|[-> ?]]; tauto.
      + intros Hp. destruct He as [[He _]|He]; [by rewrite He in Hp|tauto].
    - intros [[] Hu]. unfold SetupSQLXPostgres_config, DataSourceName in vc_source0.
      destruct vc_env0 as [He|[He ?]]; rewrite He in *; cbn in vc_source0;
        (split; [split_and!; try tauto; try lia; try done; intros Hs; rewrite Hs in *; cbn in *; lia|]);
        (split; [split_and!; tauto|]); [by left|right]. split_and!; try tauto. by apply Hu. }
  destruct (empty_var (applyDefaults raw)).
  { split; [done|]. intros (_ & raw' & [= <-] & -> & Hv & Hu). by destruct (proj2 Hiff (conj Hv Hu)). }
  destruct (check_ranges (applyDefaults raw)) as [e|] eqn:Hr.
  { split; [done|]. intros (_ & raw' & [= <-] & -> & Hv & Hu). by destruct (proj2 Hiff (conj Hv Hu)) as (_ & ? & _). }
  split.
  - intros [= He <-]. split; [done|]. exists raw. split; [done|]. split; [done|]. by apply Hiff.
  - intros (_ & raw' & [= <-] & -> & Hv & Hu). destruct (proj2 Hiff (conj Hv Hu)) as (_ & _ & ->). done.
Qed.

End accepted.

(** ** Lists of origins *)

Definition has_no (a : ascii) (s : string) : bool := string_forall (fun b => negb (Ascii.eqb b a)) s.

Fixpoint join (sep : string) (l : list string) : string :=
  match l with
  | [] => ""
  | [s] => s
  | s :: l => s +:+ sep +:+ join sep l
  end.

Lemma split_at_go_app sep cur s r : has_no sep s = true ->
  split_at_go sep cur (s +:+ r) = split_at_go sep (cur +:+ s) r.
Proof.
  revert cur. induction s as [|a s IH]; intros cur Hs.
  { by rewrite app_nil_l_string, app_nil_r_string. }
  cbn in Hs. apply andb_true_iff in Hs as [Ha Hs]. rewrite app_cons_string. cbn [split_at_go].
  destruct (Ascii.eqb a sep); [done|]. rewrite IH by done. f_equal.
  by rewrite <- app_assoc_string.
Qed.

Lemma Split_join sep l : l <> [] -> Forall (fun s => has_no sep s = true) l ->
  Split (join (String sep "") l) sep = l.
Proof.
  intros Hne Hl. unfold Split. induction Hl as [|s l Hs Hl IH]; [done|]. destruct l as [|s' l].
  - cbn [join]. rewrite <- (app_nil_r_string s) at 1. rewrite split_at_go_app by done. done.
  - change (join (String sep "") (s :: s' :: l)) with (s +:+ String sep (join (String sep "") (s' :: l))).
    rewrite split_at_go_app by done. cbn [split_at_go]. rewrite Ascii.eqb_refl, app_nil_l_string.
    f_equal. by apply IH.
Qed.

Lemma origins_filter parts out :
  fold_left (fun out p => let trimmed := TrimSpace p in
    if negb (trimmed =? "")%string then (out ++ [trimmed])%list else out) parts out
  = (out ++ filter (fun o => o <> "") (TrimSpace <$> parts))%list.
Proof.
  revert out. induction parts as [|p parts IH]; intros out; [by rewrite app_nil_r|].
  cbn [fold_left fmap list_fmap]. rewrite IH, filter_cons.
  destruct (String.eqb_spec (TrimSpace p) "") as [->|Hne]; cbn [negb].
  - by rewrite decide_False by (intros Hc; by apply Hc).
  - by rewrite decide_True, <- app_assoc by done.
Qed.

(** [AllowedOriginsList] reads back a comma-separated list of origins, spaces
    around them and empty entries dropped.  An origin it gives is never empty and has
    no space around it, and nothing set means any origin, in production none. *)
Theorem AllowedOriginsList_reads_back c parts :
  AllowedOrigins c = join (String comma "") parts -> parts <> [] ->
  Forall (fun p => has_no comma p = true) parts ->
  (AllowedOrigins c <> "" ->
     AllowedOriginsList c = filter (fun o => o <> "") (TrimSpace <$> parts) /\
     (Forall (fun p => TrimSpace p = p /\ p <> "") parts -> AllowedOriginsList c = parts) /\
     Forall (fun o => o <> "" /\ TrimSpace o = o) (AllowedOriginsList c)) /\
  (AllowedOrigins c = "" ->
     AllowedOriginsList c = if (Environment c =? EnvironmentProduction)%string then [] else ["*"]).
Proof.
  intros Hj Hne Hp. split.
  - intros Ho. assert (AllowedOriginsList c = filter (fun o => o <> "") (TrimSpace <$> parts)) as Heq.
    { unfold AllowedOriginsList. rewrite (proj2 (String.eqb_neq _ _) Ho), origins_filter, Hj.
      by rewrite Split_join. }
    split; [done|]. rewrite Heq. split.
    + clear. induction parts as [|p parts IH]; [done|]. intros [[Hp Hn] Hps]%Forall_cons.
      cbn [fmap list_fmap]. rewrite filter_cons, Hp, decide_True by done. f_equal. by apply IH.
    + apply Forall_forall. intros o [Hn Hin]%list_elem_of_filter. split; [done|].
      apply list_elem_of_fmap in Hin as (p & -> & _). apply TrimSpace_idem.
  - intros Ho. unfold AllowedOriginsList. by rewrite Ho.
Qed.

(** Credentials are refused only for the list that is exactly ["*"]: a longer list that
    contains it is passed on with credentials. *)
Lemma cors_star_with_credentials c : AllowedOrigins c = "*,https://a.example" ->
  "*" ∈ AllowOrigins (CORSMiddleware_config c) /\ AllowCredentials (CORSMiddleware_config c) = true.
Proof.
  intros Ho. unfold CORSMiddleware_config, AllowedOriginsList. cbn [AllowOrigins AllowCredentials].
  rewrite Ho. split; [|reflexivity].
  change (fold_left _ _ _) with ["*"; "https://a.example"]. left.
Qed.
