(* ===== verification/Tracing.v ===== *)
(** Tracing and the gauges of the connection pool: src/pkg/observability/tracing.go and
    metrics.go.  The OpenTelemetry SDK is a parameter: which of its constructors fail.
    What is kept is what the set-up installs globally. *)

From Stdlib Require Import Ascii String ZArith SpecFloat.
From stdpp Require Import base strings list pretty.
From S2P Require Import Prelude GoStrings AppError Config.

Open Scope string_scope.

Record TracingConfig := MkTracing {
  ServiceName : string; TEnvironment : string; Exporter : string; SampleRatio : float64 }.

Inductive exporter := StdoutExporter | OTLPExporter.

Class OtelLib := {
  stdouttrace_New : option error;
  otlptracegrpc_New : option error;
  resource_New : string -> string -> option error;      (** service and environment *)
  Sprintf_q : string -> string;                         (** the verb [%q] *)
}.

Definition clampRatio (r : float64) : float64 :=
  if SFleb r float_zero then float_zero else
  if SFleb float_one r then float_one else r.

Definition orDefault (s fallback : string) : string := if (s =? "")%string then fallback else s.

(** The tracer provider: exporter, resource and the ratio of its sampler. *)
Record provider := MkProvider {
  tp_exporter : exporter; tp_service : string; tp_environment : string; tp_ratio : float64 }.

(** OpenTelemetry's global state; [None] is its no-op provider. *)
Record otel := MkOtel { tracer_provider : option provider; propagator : bool }.

(** [Shutdown]: a no-op, or that of a provider. *)
Inductive shutdown := NoShutdown | ProviderShutdown (p : provider).

Section tracing.
Context `{OtelLib}.

Definition buildExporter (kind : string) : result error exporter :=
  if (kind =? "stdout")%string then
    match stdouttrace_New with Some err => Err err | None => Ok StdoutExporter end
  else if (kind =? "otlp")%string then
    match otlptracegrpc_New with Some err => Err err | None => Ok OTLPExporter end
  else Err (EText ("unknown exporter " +:+ Sprintf_q kind +:+ " (expected stdout|otlp)")).

Definition SetTextMapPropagator : io otel unit := modify (fun o => MkOtel (tracer_provider o) true).
Definition SetTracerProvider (p : provider) : io otel unit := modify (fun o => MkOtel (Some p) (propagator o)).

Definition SetupTracing (cfg : TracingConfig) : io otel (result error shutdown) :=
  if (Exporter cfg =? "")%string then SetTextMapPropagator ;;; ret (Ok NoShutdown) else
  match buildExporter (Exporter cfg) with
  | Err err => ret (Err (EWrapped "build trace exporter" err))
  | Ok exporter =>
      let service := orDefault (ServiceName cfg) "go-rest-boilerplate" in
      let environment := orDefault (TEnvironment cfg) "development" in
      match resource_New service environment with
      | Some err => ret (Err (EWrapped "build resource" err))
      | None =>
          let tp := MkProvider exporter service environment (clampRatio (SampleRatio cfg)) in
          SetTracerProvider tp ;;;
          SetTextMapPropagator ;;;
          ret (Ok (ProviderShutdown tp))
      end
  end.
End tracing.

(** * The gauges of the pool: [dbStatsProvider] may be nil, and what it gives too *)
Record dbStatsSnapshot := Stats { OpenConnections : Z; InUse : Z; WaitCount : Z }.

Definition currentDBStats {DB} (stats : DB -> dbStatsSnapshot) (dbStatsProvider : option (option DB))
    : dbStatsSnapshot :=
  match dbStatsProvider with
  | None => Stats 0 0 0
  | Some None => Stats 0 0 0
  | Some (Some db) => stats db
  end.

(** * Ratios *)

(** Between zero and one, in the order of float64; NaN is in no order. *)
Definition is_ratio (r : float64) : Prop := SFleb float_zero r = true /\ SFleb r float_one = true.

Lemma SFcompare_swap f g : SFcompare g f = CompOpp <$> SFcompare f g.
Proof.
  assert (forall m1 m2 : positive, Pos.compare_cont Eq m2 m1 = CompOpp (Pos.compare_cont Eq m1 m2)) as Hp
    by (intros; exact (Pos.compare_antisym m1 m2)).
  destruct f as [[]|[]| |[] m1 e1], g as [[]|[]| |[] m2 e2]; try reflexivity;
    unfold SFcompare; rewrite (Z.compare_antisym e1 e2); destruct (Z.compare e1 e2); try reflexivity;
    cbn [CompOpp]; rewrite (Hp m1 m2); by destruct (Pos.compare_cont Eq m1 m2).
Qed.

Lemma SFcompare_ordered f g : f <> S754_nan -> g <> S754_nan -> is_Some (SFcompare f g).
Proof.
  intros Hf Hg. destruct f as [[]|[]| |[] m1 e1], g as [[]|[]| |[] m2 e2]; try done; try by eexists.
  all: unfold SFcompare; destruct (Z.compare e1 e2); by eexists.
Qed.

Lemma SFleb_total f g : f <> S754_nan -> g <> S754_nan -> SFleb f g = false -> SFleb g f = true.
Proof.
  intros Hf Hg. unfold SFleb. rewrite (SFcompare_swap f g).
  destruct (SFcompare_ordered f g Hf Hg) as [c ->]. by destruct c.
Qed.

Lemma SFleb_antisym f g : SFleb f g = true -> SFleb g f = true -> SFcompare f g = Some Eq.
Proof. unfold SFleb. rewrite (SFcompare_swap f g). by destruct (SFcompare f g) as [[]|]. Qed.

(** Only one float64 equals one. *)
Lemma eq_one r : SFcompare r float_one = Some Eq -> r = float_one.
Proof.
  unfold float_one. generalize 4503599627370496%positive (-52)%Z. intros n k.
  destruct r as [[]|[]| |[] m e]; try done. unfold SFcompare.
  destruct (Z.compare_spec e k) as [->|?|?]; try done. intros [= Hm].
  apply Pos.compare_eq in Hm as ->. done.
Qed.

Lemma clampRatio_range r : r <> S754_nan -> is_ratio (clampRatio r).
Proof.
  intros Hn. unfold clampRatio, is_ratio. destruct (SFleb r float_zero) eqn:H0; [by split|].
  destruct (SFleb float_one r) eqn:H1; [by split|].
  split; by apply SFleb_total.
Qed.

Lemma clampRatio_id r : is_ratio r -> r <> S754_zero true ->
  clampRatio r = r.
Proof.
  unfold is_ratio, clampRatio. intros [H0 H1] Hz. destruct (SFleb r float_zero) eqn:Hle.
  - by destruct r as [[]|[]| |[] m e].
  - destruct (SFleb float_one r) eqn:Hge; [|done]. symmetry. by apply eq_one, SFleb_antisym.
Qed.

(** The tracing a configuration asks for (NewApp in src/cmd/api/server/server.go). *)
Definition tracing_of (c : Config) : TracingConfig :=
  MkTracing "go-rest-boilerplate" (Environment c) (OTelExporter c) (OTelSampleRatio c).

(** Tracing comes up whole or not at all: on an error nothing global has changed; without
    an exporter only the propagator is set; with one, the provider samples at a ratio
    between zero and one, the configured one if it is such a ratio (NaN aside). *)
Theorem SetupTracing_spec `{OtelLib} cfg o res o' :
  SetupTracing cfg o = (res, o') -> SampleRatio cfg <> S754_nan ->
  match res with
  | Err _ => o' = o /\ Exporter cfg <> ""
  | Ok NoShutdown => o' = MkOtel (tracer_provider o) true /\ Exporter cfg = ""
  | Ok (ProviderShutdown tp) => o' = MkOtel (Some tp) true /\
      (Exporter cfg = "stdout" /\ tp_exporter tp = StdoutExporter \/
       Exporter cfg = "otlp" /\ tp_exporter tp = OTLPExporter) /\
      is_ratio (tp_ratio tp) /\
      (is_ratio (SampleRatio cfg) -> SampleRatio cfg <> S754_zero true -> tp_ratio tp = SampleRatio cfg) /\
      tp_service tp <> "" /\ tp_environment tp <> ""
  end.
Proof.
  intros Hrun Hn. unfold SetupTracing, bind, modify, ret, SetTextMapPropagator, SetTracerProvider in Hrun.
  destruct (String.eqb_spec (Exporter cfg) "") as [He|He]; [by injection Hrun as <- <-|].
  destruct (buildExporter (Exporter cfg)) as [x|e] eqn:Hb; [|by injection Hrun as <- <-].
  destruct (resource_New _ _) as [e|]; [by injection Hrun as <- <-|]. injection Hrun as <- <-. cbn.
  split; [done|]. split.
  { unfold buildExporter in Hb. destruct (String.eqb_spec (Exporter cfg) "stdout") as [->|].
    - destruct stdouttrace_New; [done|]. injection Hb as <-. by left.
    - destruct (String.eqb_spec (Exporter cfg) "otlp") as [->|]; [|done].
      destruct otlptracegrpc_New; [done|]. injection Hb as <-. by right. }
  split; [by apply clampRatio_range|]. split; [intros; by apply clampRatio_id|].
  split; unfold orDefault; case_match; try done; by apply String.eqb_neq.
Qed.

(** A ratio of zero cannot be configured together with an exporter: the default turns it
    into one. *)
Lemma zero_ratio_records_all c : OTelSampleRatio c = float_zero -> OTelExporter c <> "" ->
  SampleRatio (tracing_of (applyDefaults c)) = float_one.
Proof. intros Hz He. cbn. rewrite Hz. by rewrite (proj2 (String.eqb_neq _ _) He). Qed.
