(* ===== verification/Seeder.v ===== *)
(** The seeder: src/cmd/seed/seeders.  The database is a parameter, of which the rows
    that were inserted are seen. *)

From Stdlib Require Import Ascii String ZArith.
From stdpp Require Import base gmap strings list pretty.
From S2P Require Import Prelude GoStrings AppError Records Services World Domain.

Open Scope string_scope.

(** The data: hashed when the package is initialised, before main has loaded the
    configuration, so that the cost is what [GenerateHash] falls back to.  An error panics. *)
Definition seed_user (username email password : string) (active : bool) (roleID : Z) : Users.t :=
  Users.mk "" username email password active roleID zero_time None None None.

Definition UserData `{Platform} : io Base (result error (list Users.t)) :=
  try pass <- GenerateHash 0 "12345" catch err => ret (Err err) ;;
  ret (Ok [seed_user "patrick star 7" "patrick@gmail.com" pass true 1;
           seed_user "john doe" "johndoe@gmail.com" pass false 2]).

(** * The database *)
Class SeedDB := {
  seed_db : Type;
  seed_tx : Type;
  seed_Beginx : io seed_db (result error seed_tx);
  seed_NamedQuery : Users.t -> io seed_tx (result error unit);   (** the INSERT, its [*sqlx.Rows] *)
  seed_Commit : seed_tx -> io seed_db (result error unit);
  seed_Rollback : seed_tx -> io seed_db unit;
  seed_rows : seed_db -> list Users.t;       (** as they were given to the INSERT *)
  seed_tx_rows : seed_tx -> list Users.t;
}.

Class SeedDBLaws `{SeedDB} : Prop := {
  seed_begin_law : forall d, seed_rows (seed_Beginx d).2 = seed_rows d /\
    forall t, (seed_Beginx d).1 = Ok t -> seed_tx_rows t = seed_rows d;
  seed_query_law : forall u t, (seed_NamedQuery u t).1 = Ok tt ->
    seed_tx_rows (seed_NamedQuery u t).2 = (seed_tx_rows t ++ [u])%list;
  seed_commit_law : forall t d,
    seed_rows (seed_Commit t d).2 = seed_tx_rows t \/
    (is_Ok (seed_Commit t d).1 = false /\ seed_rows (seed_Commit t d).2 = seed_rows d);
  seed_rollback_law : forall t d, seed_rows (seed_Rollback t d).2 = seed_rows d;
}.

Section seeder.
Context `{ClockSrv} `{SeedDB}.

Record state := St { s_db : seed_db; s_clk : clk }.

(** The transaction, with the result sets opened on it: they are closed when it ends. *)
Record txn := Txn { t_tx : seed_tx; t_clk : clk; t_open : nat }.

Definition l_db : lens state seed_db := Lens s_db (fun d s => St d (s_clk s)).
Definition l_tx : lens txn seed_tx := Lens t_tx (fun x t => Txn x (t_clk t) (t_open t)).
Definition l_tclk : lens txn clk := Lens t_clk (fun c t => Txn (t_tx t) c (t_open t)).

Definition with_CreatedAt (u : Users.t) (t : Time) : Users.t :=
  Users.mk (Users.Id u) (Users.Username u) (Users.Email u) (Users.Password u) (Users.Active u)
    (Users.RoleId u) t (Users.UpdatedAt u) (Users.DeletedAt u) (Users.PasswordChangedAt u).

(** The loop; the rows NamedQuery returns are dropped without [Close]. *)
Fixpoint insert_users (userData : list Users.t) : io txn (result error unit) :=
  match userData with
  | [] => ret (Ok tt)
  | user :: userData =>
      now <- zoom l_tclk time_Now ;;
      try _rows <- zoom l_tx (seed_NamedQuery (with_CreatedAt user now)) catch err => ret (Err err) ;;
      modify (fun t => Txn (t_tx t) (t_clk t) (S (t_open t))) ;;;
      insert_users userData
  end.

(** After a failed Commit the deferred Rollback finds the transaction done and does
    nothing. *)
Definition UserSeeder (userData : list Users.t) : io state (result error unit) :=
  match userData with
  | [] => ret (Err (EText "users data is empty"))
  | _ =>
      try tx <- zoom l_db seed_Beginx catch err => ret (Err err) ;;
      s <- get_state ;;
      let '(res, t) := insert_users userData (Txn tx (s_clk s) 0) in
      modify (fun s => St (s_db s) (t_clk t)) ;;;
      match res with
      | Err err => zoom l_db (seed_Rollback (t_tx t)) ;;; ret (Err err)
      | Ok _ =>
          try _ok <- zoom l_db (seed_Commit (t_tx t)) catch err => ret (Err err) ;;
          ret (Ok tt)
      end
  end.
End seeder.

Section seeded.
Context `{ClockSrv} `{SeedDBLaws}.

Lemma insert_users_ok users t :
  wp (insert_users users) (fun res t' => res = Ok tt ->
    (exists stamps, length stamps = length users /\
       seed_tx_rows (t_tx t') = (seed_tx_rows (t_tx t) ++ zip_with with_CreatedAt users stamps)%list) /\
    t_open t' = t_open t + length users) t.
Proof.
  revert t. induction users as [|u users IH]; intros t; cbn [insert_users].
  { wp_step. intros _. split; [exists []; by rewrite app_nil_r|cbn; lia]. }
  wp_step. wp_step. apply wp_intro. intros now k _. wp_step. wp_step. apply wp_intro.
  intros res x Hq. cbn [lget lset l_tx l_tclk t_tx t_clk t_open] in *.
  pose proof (seed_query_law (with_CreatedAt u now) (t_tx t)) as Hlaw. rewrite Hq in Hlaw.
  destruct res as [[]|e]; [|by wp_step]. specialize (Hlaw eq_refl). cbn [snd] in Hlaw.
  wp_step. wp_step. eapply wp_mono; [apply IH|]. intros res t' Hok Hres.
  destruct (Hok Hres) as [(stamps & Hl & Hr) Ho]. cbn [t_tx t_open] in *. split.
  - exists (now :: stamps). cbn [length zip_with]. split; [by rewrite Hl|].
    by rewrite Hr, Hlaw, <- app_assoc.
  - rewrite Ho. cbn [length]. lia.
Qed.

(** What a finished seeding leaves: all users in order, stamped. *)
Definition seeded (users : list Users.t) (s s' : state) : Prop :=
  exists stamps, length stamps = length users /\
    seed_rows (s_db s') = (seed_rows (s_db s) ++ zip_with with_CreatedAt users stamps)%list.

Lemma wp_UserSeeder users s :
  wp (UserSeeder users) (fun res s' =>
    match res with
    | Ok _ => users <> [] /\ seeded users s s'
    | Err _ => seed_rows (s_db s') = seed_rows (s_db s) \/ seeded users s s'
    end) s.
Proof.
  unfold UserSeeder. destruct users as [|u users]; [wp_step; by left|]. set (us := u :: users).
  wp_step. wp_step. apply wp_intro. intros res d Hb. pose proof (seed_begin_law (s_db s)) as [Hd Ht].
  cbn [lget lset l_db] in *. rewrite Hb in *. cbn [fst snd] in *.
  destruct res as [tx|e]; [|wp_step; by left]. specialize (Ht tx eq_refl). do 2 wp_step.
  pose proof (insert_users_ok us (Txn tx (s_clk (St d (s_clk s))) 0)) as Hi.
  unfold wp in Hi. destruct (insert_users _ _) as [res t]. cbn [fst snd] in Hi.
  wp_step. wp_step. destruct res as [[]|e].
  - destruct (Hi eq_refl) as [(stamps & Hl & Hr) Ho]. cbn [t_tx t_open] in *.
    wp_step. wp_step. apply wp_intro. intros res d2 Hc. cbn [lget lset l_db s_db] in *.
    pose proof (seed_commit_law (t_tx t) d) as Hlaw. rewrite Hc in Hlaw. cbn [fst snd] in Hlaw.
    destruct Hlaw as [Hrows|[Hf Hrows]].
    + assert (forall c, seeded us s (St d2 c)) as Hs.
      { intros c. exists stamps. split; [done|]. cbn. by rewrite Hrows, Hr, Ht. }
      destruct res as [[]|e]; wp_step; [by split_and!|by right].
    + destruct res as [[]|e]; [done|]. wp_step. left. cbn. by rewrite Hrows, Hd.
  - wp_step. wp_step. apply wp_intro. intros [] d2 Hr. cbn [lget lset l_db s_db] in *.
    pose proof (seed_rollback_law (t_tx t) d) as Hlaw. rewrite Hr in Hlaw. cbn in Hlaw.
    wp_step. left. cbn. by rewrite Hlaw, Hd.
Qed.

(** Seeding is all or nothing: on success every user was inserted, in order, stamped with
    the time of its insertion; an error leaves the table as it was (or, when it is the
    COMMIT that reports it, possibly all of them in);
    no data is an error. *)
Theorem UserSeeder_all_or_nothing users s res s' :
  UserSeeder users s = (res, s') ->
  match res with
  | Ok _ => users <> [] /\ seeded users s s'
  | Err _ => seed_rows (s_db s') = seed_rows (s_db s) \/ seeded users s s'
  end.
Proof. intros Hrun. exact (wp_run _ _ _ _ _ (wp_UserSeeder users s) Hrun). Qed.
End seeded.

(** The seeded accounts open with "12345", at the default cost whatever is configured. *)
Lemma UserData_spec `{PlatformLaws} b :
  wp UserData (fun res _ => forall us, res = Ok us ->
    Forall (fun u => bcrypt_CompareHashAndPassword (Users.Password u) "12345" = None) us /\
    (fun u => (Users.Email u, Users.RoleId u)) <$> us = [("patrick@gmail.com", 1%Z); ("johndoe@gmail.com", 2%Z)]) b.
Proof.
  unfold UserData, GenerateHash. wp_step. wp_step; [by wp_steps|]. unfold GenerateFromPassword.
  wp_step. apply wp_intro. intros res g Hg. pose proof (bcrypt_law "12345" (bcryptCost 0) (b_rng b)) as [_ Hlaw].
  cbn [lget l_rng] in Hg. rewrite Hg in Hlaw. destruct res as [h|e]; wp_step; [|done].
  intros us [= <-]. destruct (Hlaw h eq_refl) as (_ & _ & Hv). split; [|done].
  by repeat constructor.
Qed.
