(* ===== verification/RateLimiter.v ===== *)
(** The per-address rate limiter:
    src/internal/http/middlewares/middleware.ratelimit.go.

    golang.org/x/time/rate is a parameter: a token bucket.  A float64 is its IEEE 754
    value and the arithmetic on it rounds as the hardware does.  One request runs to
    the end of the middleware, and one sweep to its end, before the next begins. *)

From Stdlib Require Import Ascii String ZArith QArith SpecFloat Lqa.
From stdpp Require Import base gmap strings list pretty.
From S2P Require Import Prelude GoStrings AppError Records Services.

Open Scope string_scope.

(** * float64 *)
Definition float64 : Type := spec_float.
Definition fsub : float64 -> float64 -> float64 := SFsub 53 1024.
Definition fdiv : float64 -> float64 -> float64 := SFdiv 53 1024.
Definition fltb : float64 -> float64 -> bool := SFltb.
Definition fleb : float64 -> float64 -> bool := SFleb.
Definition of_int (z : Z) : float64 := binary_normalize 53 1024 z 0 false.
Definition fzero : float64 := S754_zero false.
Definition fone : float64 := of_int 1.

(** The value of a finite float64. *)
Definition signed (s : bool) (m : positive) : Z := if s then Zneg m else Zpos m.

(** [int(math.Floor(f))] and [int(math.Ceil(f))]; on infinities, NaN and beyond int64 the
    conversion gives the smallest int64, as on amd64. *)
Definition to_int (z : Z) : Z := if in_int64 z then z else int64_min.
Definition int_floor (f : float64) : Z :=
  match f with
  | S754_zero _ => 0
  | S754_finite s m e =>
      to_int (if (0 <=? e)%Z then signed s m * 2 ^ e else signed s m / 2 ^ (- e))
  | _ => int64_min
  end.
Definition int_ceil (f : float64) : Z :=
  match f with
  | S754_zero _ => 0
  | S754_finite s m e =>
      to_int (if (0 <=? e)%Z then signed s m * 2 ^ e else - ((- signed s m) / 2 ^ (- e)))
  | _ => int64_min
  end.

Definition float_Q (f : float64) : Q :=
  match f with
  | S754_finite s m e =>
      if (0 <=? e)%Z then inject_Z (signed s m * 2 ^ e) else signed s m # Z.to_pos (2 ^ (- e))
  | _ => 0
  end.

(** * The bucket *)
Class RateLib := {
  limiter : Type;
  rate_NewLimiter : float64 -> Z -> limiter;
  lim_Limit : limiter -> float64;
  lim_TokensAt : limiter -> Time -> float64;
  lim_AllowAt : limiter -> Time -> bool * limiter;    (* AllowN(t, 1) *)
  lim_burst : limiter -> Z;
  lim_level : limiter -> Time -> Q;                   (* the tokens in it *)
  lim_last : limiter -> Time;                         (* when it was last used *)
}.

(** Tokens per nanosecond. *)
Definition per_ns (r : float64) : Q := float_Q r / inject_Z Second.

(** "A Limiter ... implements a token bucket of size b, initially full and refilled at
    rate r tokens per second"; Allow takes one token or says no. *)
Class RateLaws `{RateLib} : Prop := {
  new_law : forall r b t, (0 <= b)%Z -> lim_burst (rate_NewLimiter r b) = b /\
    lim_Limit (rate_NewLimiter r b) = r /\ (lim_level (rate_NewLimiter r b) t == inject_Z b)%Q /\
    lim_last (rate_NewLimiter r b) = zero_time;
  level_cap : forall l t, (lim_last l <= t)%Z -> (lim_level l t <= inject_Z (lim_burst l))%Q;
  level_refill : forall l t t', (lim_last l <= t)%Z -> (t <= t')%Z -> (0 <= per_ns (lim_Limit l))%Q ->
    let full := (lim_level l t + per_ns (lim_Limit l) * inject_Z (t' - t))%Q in
    (lim_level l t' <= full)%Q /\ (inject_Z (lim_burst l) <= lim_level l t' \/ full <= lim_level l t')%Q;
  allow_law : forall l t, (lim_last l <= t)%Z ->
    let '(ok, l') := lim_AllowAt l t in
    lim_burst l' = lim_burst l /\ lim_Limit l' = lim_Limit l /\ lim_last l' = t /\
    (ok = true <-> (1 <= lim_level l t)%Q) /\
    (lim_level l' t == lim_level l t - (if ok then 1 else 0))%Q;
}.

(** Go's clock readings carry monotonic time. *)
Class MonotoneClock `{ClockSrv} := {
  clk_last : clk -> Time;
  clk_law : forall c, (clk_last c <= (time_Now c).1)%Z /\ clk_last (time_Now c).2 = (time_Now c).1;
  clk_sane : forall c, (zero_time <= clk_last c)%Z;
}.


Module RateLimiter.
(** [rate] and [burst]; the map is in the state, the mutex makes its uses atomic, and
    [stop] ends the sweeper. *)
Record t := NewRateLimiter { rate : float64; burst : Z }.

Record headers := Headers { h_limit : string; h_remaining : string; h_reset : string }.

(** [rateLimitedResponse]. *)
Record limited := Limited { Status : bool; Message : string; RequestID : string }.

Inductive verdict :=
| Next                                       (* [c.Next()] *)
| TooMany (retryAfter : string) (body : limited).

(** The answer, with the instants at which [getLimiter] and [Allow] read the clock. *)
Record outcome := Outcome {
  o_headers : headers; o_verdict : verdict; o_seen : Time; o_at : Time }.

Section limiter.
Context `{ClockSrv} `{RateLib}.

Record ipLimiter := MkIp { ip_limiter : limiter; lastSeen : Time }.
Record state := St { visitors : gmap string ipLimiter; clock : clk }.

Definition l_clock : lens state clk := Lens clock (fun c s => St (visitors s) c).
Definition Now : io state Time := zoom l_clock time_Now.
Definition set_visitor (ip : string) (v : ipLimiter) : io state unit :=
  modify (fun s => St (<[ip := v]> (visitors s)) (clock s)).
Definition del_visitor (ip : string) : io state unit :=
  modify (fun s => St (delete ip (visitors s)) (clock s)).

(** [getLimiter]: the limiter and the instant stored in [lastSeen]. *)
Definition getLimiter (rl : t) (ip : string) : io state (limiter * Time) :=
  s <- get_state ;;
  match visitors s !! ip with
  | None =>
      let limiter := rate_NewLimiter (rate rl) (burst rl) in
      now <- Now ;;
      set_visitor ip (MkIp limiter now) ;;;
      ret (limiter, now)
  | Some v =>
      now <- Now ;;
      set_visitor ip (MkIp (ip_limiter v) now) ;;;
      ret (ip_limiter v, now)
  end.

Definition writeRateLimitHeaders (burst : Z) (limiter : limiter) : io state headers :=
  now <- Now ;;
  let tokens := lim_TokensAt limiter now in
  let remaining := Z.max (int_floor tokens) 0 in
  let r := lim_Limit limiter in
  let resetSeconds :=
    if fltb fzero r then
      let missing := fsub (of_int burst) tokens in
      if fltb fzero missing then int_ceil (fdiv missing r) else 0%Z
    else 0%Z in
  now <- Now ;;
  ret (Headers (Itoa burst) (Itoa remaining)
         (Itoa (time_Unix (time_Add now (mul64 resetSeconds Second))))).

Definition retryAfterSeconds (limiter : limiter) : io state Z :=
  let r := lim_Limit limiter in
  if fleb r fzero then ret 1%Z else
  now <- Now ;;
  let deficit := fsub fone (lim_TokensAt limiter now) in
  if fleb deficit fzero then ret 0%Z
  else ret (int_ceil (fdiv deficit r)).

(** [limiter.Allow()], through the pointer kept in the map. *)
Definition Allow (ip : string) (l : limiter) (seen : Time) : io state (bool * Time * limiter) :=
  now <- Now ;;
  let '(ok, l') := lim_AllowAt l now in
  set_visitor ip (MkIp l' seen) ;;;
  ret (ok, now, l').

Definition Middleware (rl : t) (ip requestID : string) : io state outcome :=
  got <- getLimiter rl ip ;;
  let '(limiter, seen) := got in
  hdrs <- writeRateLimitHeaders (burst rl) limiter ;;
  allowed <- Allow ip limiter seen ;;
  let '(ok, at_, limiter) := allowed in
  if negb ok then
    retryAfter <- retryAfterSeconds limiter ;;
    ret (Outcome hdrs (TooMany (Itoa retryAfter)
           (Limited false "too many requests, please try again later" requestID)) seen at_)
  else ret (Outcome hdrs Next seen at_).

(** One run of [cleanup] on its ticker, over the entries in the order of the map. *)
Fixpoint sweep (entries : list (string * ipLimiter)) : io state unit :=
  match entries with
  | [] => ret tt
  | (ip, v) :: entries =>
      now <- Now ;;
      (if (5 * Minute <? time_Sub now (lastSeen v))%Z then del_visitor ip else ret tt) ;;;
      sweep entries
  end.
Definition cleanup : io state unit :=
  s <- get_state ;; sweep (map_to_list (visitors s)).
End limiter.
End RateLimiter.
