(* ===== verification/RateLimiterProps.v ===== *)
(** How many requests of one address the limiter of
    src/internal/http/middlewares/middleware.ratelimit.go lets through, the sweeping
    of idle entries included. *)

From Stdlib Require Import Ascii String ZArith QArith SpecFloat Lqa.
From stdpp Require Import base gmap strings list pretty.
From S2P Require Import Prelude GoStrings AppError Records Services RateLimiter.

Open Scope string_scope.

Module Limits.
Import RateLimiter.
Section limits.
Context `{RateLaws} `{MonotoneClock}.
Variables (rl : RateLimiter.t) (slack : Duration).

Definition pace : Q := per_ns (rate rl).

(** A bucket emptied no more than [slack] after the request was seen is full again
    when the entry is swept. *)
Record params_ok : Prop := {
  po_burst : (0 <= burst rl)%Z;
  po_pace : (0 <= pace)%Q;
  po_slack : (0 <= slack)%Z;
  po_refill : (inject_Z (burst rl) <= pace * inject_Z (5 * Minute - slack))%Q;
}.

Definition moment (s : state) : Time := clk_last (clock s).

Record visitor_ok (now : Time) (v : ipLimiter) : Prop := {
  vo_burst : lim_burst (ip_limiter v) = burst rl;
  vo_limit : lim_Limit (ip_limiter v) = rate rl;
  vo_last : (lim_last (ip_limiter v) <= now)%Z;
  vo_level : (0 <= lim_level (ip_limiter v) (lim_last (ip_limiter v)))%Q;
  vo_seen : (lim_last (ip_limiter v) <= lastSeen v + slack)%Z;
}.

Definition inv (s : state) : Prop :=
  forall ip v, visitors s !! ip = Some v -> visitor_ok (moment s) v.

(** The requests of [ip] that could be let through at once. *)
Definition credit (ip : string) (s : state) : Q :=
  match visitors s !! ip with
  | Some v => lim_level (ip_limiter v) (moment s)
  | None => inject_Z (burst rl)
  end.

(** From [s] to [s'] at most [a] requests of [ip] beyond what time has refilled. *)
Record paid (ip : string) (a : Q) (s s' : state) : Prop := {
  pd_time : (moment s <= moment s')%Z;
  pd_inv : inv s';
  pd_credit : (a + credit ip s' <= credit ip s + pace * inject_Z (moment s' - moment s))%Q;
}.

Lemma inject_Z_sub a b : (inject_Z (a - b) == inject_Z a - inject_Z b)%Q.
Proof. unfold Z.sub, Qminus. rewrite <- inject_Z_opp. by rewrite inject_Z_plus. Qed.

Lemma paid_trans ip a1 a2 s1 s2 s3 : paid ip a1 s1 s2 -> paid ip a2 s2 s3 -> paid ip (a1 + a2) s1 s3.
Proof.
  intros [Ht1 _ Hc1] [Ht2 Hi2 Hc2]. split; [lia|done|].
  rewrite !inject_Z_sub in *. set (x := inject_Z (moment s1)) in *.
  set (y := inject_Z (moment s2)) in *. set (z := inject_Z (moment s3)) in *.
  assert (pace * (y - x) + pace * (z - y) == pace * (z - x))%Q as Hsum by ring. lra.
Qed.

Hypothesis Hp : params_ok.

Lemma Qmult_le_l_weak x y z : (0 <= z)%Q -> (x <= y)%Q -> (z * x <= z * y)%Q.
Proof. intros Hz Hxy. rewrite !(Qmult_comm z). by apply Qmult_le_compat_r. Qed.

Lemma level_later v now now' : visitor_ok now v -> (now <= now')%Z ->
  (lim_level (ip_limiter v) now' <= lim_level (ip_limiter v) now + pace * inject_Z (now' - now))%Q /\
  (0 <= lim_level (ip_limiter v) now')%Q /\ (lim_level (ip_limiter v) now' <= inject_Z (burst rl))%Q.
Proof.
  intros [Hb Hl Hla Hnn Hs] Hle. destruct v as [l seen]. cbn [ip_limiter lastSeen] in *. pose proof (po_pace Hp) as Hpace. unfold pace in *. rewrite <- Hl in *.
  assert (forall t t', (t <= t')%Z -> (0 <= inject_Z (t' - t))%Q) as Hd.
  { intros t t' Ht. change 0%Q with (inject_Z 0). rewrite <- Zle_Qle. lia. }
  destruct (level_refill l now now' Hla Hle Hpace) as [Hup _].
  destruct (level_refill l (lim_last l) now' (Z.le_refl _) ltac:(lia) Hpace) as [_ Hlow].
  pose proof (level_cap l now' ltac:(lia)) as Hcap. rewrite <- Hb. split_and!; [done| |done].
  assert (0 <= inject_Z (lim_burst l))%Q as Hbq.
  { change 0%Q with (inject_Z 0). rewrite <- Zle_Qle, Hb. apply Hp. }
  pose proof (Qmult_le_0_compat _ _ Hpace (Hd (lim_last l) now' ltac:(lia))). lra.
Qed.

Lemma visitor_later v now now' : visitor_ok now v -> (now <= now')%Z -> visitor_ok now' v.
Proof. intros [] Hle. split; try done. lia. Qed.

Lemma paid_same ip s s' : inv s -> visitors s' = visitors s -> (moment s <= moment s')%Z ->
  paid ip 0 s s'.
Proof.
  intros Hi Hv Ht. split; [done| |].
  - intros k v Hk. rewrite Hv in Hk. by eapply visitor_later, Ht; apply (Hi k).
  - unfold credit. rewrite Hv. destruct (visitors s !! ip) as [v|] eqn:Hk.
    + destruct (level_later v _ _ (Hi ip v Hk) Ht) as [? _]. lra.
    + assert (0 <= inject_Z (moment s' - moment s))%Q as Hd.
      { change 0%Q with (inject_Z 0). rewrite <- Zle_Qle. lia. }
      pose proof (Qmult_le_0_compat _ _ (po_pace Hp) Hd). lra.
Qed.

Lemma wp_Now_frame s (Q : Time -> state -> Prop) :
  (forall s', visitors s' = visitors s -> (moment s <= moment s')%Z -> Q (moment s') s') -> wp Now Q s.
Proof.
  intros HQ. unfold Now. wp_step. apply wp_intro. intros t c Hrun. pose proof (clk_law (clock s)) as [Hle Hl].
  cbn in Hrun. rewrite Hrun in *. cbn in Hle, Hl. subst t. by apply (HQ (St (visitors s) c)).
Qed.

Lemma wp_limiter_Now ip s (Q : Time -> state -> Prop) : inv s ->
  (forall s', visitors s' = visitors s -> (moment s <= moment s')%Z -> inv s' -> paid ip 0 s s' ->
     Q (moment s') s') -> wp Now Q s.
Proof.
  intros Hi HQ. apply wp_Now_frame. intros s' Hv Ht.
  pose proof (paid_same ip s s' Hi Hv Ht) as Hpaid. by apply HQ; [| |apply Hpaid|].
Qed.

Lemma paid_set ip ip' a v s : inv s -> visitor_ok (moment s) v ->
  (ip' = ip -> (a + lim_level (ip_limiter v) (moment s) <= credit ip s)%Q) ->
  (ip' <> ip -> a = 0%Q) ->
  paid ip a s (St (<[ip' := v]> (visitors s)) (clock s)).
Proof.
  intros Hi Hv Heq Hne. split; unfold moment in *; cbn; [lia| |].
  - intros k w Hk. cbn in Hk. apply lookup_insert_Some in Hk as [[_ <-]|[_ Hk]]; [done|by apply (Hi k)].
  - rewrite Z.sub_diag. assert (pace * inject_Z 0 == 0)%Q as -> by (unfold inject_Z; ring).
    unfold credit at 1, moment. cbn. destruct (decide (ip' = ip)) as [->|Hn].
    + rewrite lookup_insert_eq. specialize (Heq eq_refl). lra.
    + rewrite lookup_insert_ne, (Hne Hn) by done. fold (credit ip s). unfold credit, moment.
      destruct (visitors s !! ip); lra.
Qed.

(** A swept entry was full. *)
Lemma paid_del ip ip' v s : inv s -> visitors s !! ip' = Some v ->
  (5 * Minute < time_Sub (moment s) (lastSeen v))%Z ->
  paid ip 0 s (St (delete ip' (visitors s)) (clock s)).
Proof.
  intros Hi Hv Hlate. split; unfold moment in *; cbn; [lia| |].
  - intros k w Hk. cbn in Hk. apply lookup_delete_Some in Hk as [_ Hk]. by apply (Hi k).
  - rewrite Z.sub_diag. assert (pace * inject_Z 0 == 0)%Q as -> by (unfold inject_Z; ring).
    unfold credit, moment. cbn. destruct (decide (ip' = ip)) as [->|Hn].
    + rewrite lookup_delete_eq, Hv. destruct (Hi ip v Hv) as [Hb Hl Hla Hnn Hs]. unfold moment in *.
      assert (5 * Minute - slack <= clk_last (clock s) - lim_last (ip_limiter v))%Z as Hidle.
      { revert Hlate. unfold time_Sub, Minute, Second, int64_min, int64_max. lia. }
      pose proof (po_pace Hp) as Hpace. pose proof (po_refill Hp) as Hfull. unfold pace in *. rewrite <- Hl in *.
      destruct (level_refill _ _ (clk_last (clock s)) (Z.le_refl _) Hla Hpace) as [_ Hlow].
      rewrite Zle_Qle in Hidle. pose proof (Qmult_le_l_weak _ _ _ Hpace Hidle). rewrite Hb in Hlow. lra.
    + rewrite lookup_delete_ne by done. destruct (visitors s !! ip); lra.
Qed.

(** ** The operations *)

Definition admitted (o : outcome) : bool := match o_verdict o with Next => true | TooMany _ _ => false end.
Definition cost (ip ip' : string) (o : outcome) : Q :=
  if bool_decide (ip' = ip) && admitted o then 1 else 0.

Lemma paid_0 ip a s1 s2 s3 : paid ip 0 s1 s2 -> paid ip a s2 s3 -> paid ip a s1 s3.
Proof.
  intros H12 H23. destruct (paid_trans ip 0 a s1 s2 s3 H12 H23) as [Ht Hi Hc]. split; [done..|]. lra.
Qed.

Lemma paid_more ip a s1 s2 s3 : paid ip a s1 s2 -> paid ip 0 s2 s3 -> paid ip a s1 s3.
Proof.
  intros H12 H23. destruct (paid_trans ip a 0 s1 s2 s3 H12 H23) as [Ht Hi Hc]. split; [done..|]. lra.
Qed.

(** The limiter [getLimiter] hands out. *)
Definition limiter_of (ip : string) (s : state) : limiter :=
  match visitors s !! ip with
  | Some v => ip_limiter v
  | None => rate_NewLimiter (rate rl) (burst rl)
  end.

Lemma wp_getLimiter ip ip' s (Q : limiter * Time -> state -> Prop) : inv s ->
  (forall v s', visitors s' = <[ip' := v]> (visitors s) -> ip_limiter v = limiter_of ip' s ->
     (moment s <= moment s')%Z -> visitor_ok (moment s') v -> inv s' -> paid ip 0 s s' ->
     (lastSeen v <= moment s')%Z -> Q (ip_limiter v, lastSeen v) s') ->
  wp (getLimiter rl ip') Q s.
Proof.
  intros Hi HQ. unfold limiter_of in HQ. unfold getLimiter, set_visitor. do 2 wp_step. destruct (visitors s !! ip') as [v|] eqn:Hv.
  - wp_step. apply (wp_limiter_Now ip); [done|]. intros s1 Hvs Ht Hi1 Hp1. do 3 wp_step.
    assert (visitor_ok (moment s1) (MkIp (ip_limiter v) (moment s1))) as Hok.
    { destruct (visitor_later v _ _ (Hi ip' v Hv) Ht). split; cbn; try done. pose proof (po_slack Hp). lia. }
    assert (paid ip 0 s1 (St (<[ip':=MkIp (ip_limiter v) (moment s1)]> (visitors s1)) (clock s1))) as Hp2.
    { apply paid_set; [done|done| |done]. intros ->. unfold credit. rewrite Hvs, Hv. cbn. lra. }
    apply (HQ (MkIp (ip_limiter v) (moment s1))); [by cbn; rewrite Hvs|done|done|done|apply Hp2|by eapply paid_0|done].
  - wp_step. apply (wp_limiter_Now ip); [done|]. intros s1 Hvs Ht Hi1 Hp1. do 3 wp_step.
    destruct (new_law (rate rl) (burst rl) (moment s1) (po_burst Hp)) as (Hb & Hl & Hlev & Hla).
    destruct (new_law (rate rl) (burst rl) zero_time (po_burst Hp)) as (_ & _ & Hlev0 & _).
    assert (0 <= inject_Z (burst rl))%Q as Hbq.
    { change 0%Q with (inject_Z 0). rewrite <- Zle_Qle. apply Hp. }
    pose proof (clk_sane (clock s1)) as Hz. fold (moment s1) in Hz.
    assert (visitor_ok (moment s1) (MkIp (rate_NewLimiter (rate rl) (burst rl)) (moment s1))) as Hok.
    { split; cbn; rewrite ?Hla; [done|done|done|by rewrite Hlev0|]. pose proof (po_slack Hp). lia. }
    assert (paid ip 0 s1 (St (<[ip':=MkIp (rate_NewLimiter (rate rl) (burst rl)) (moment s1)]> (visitors s1)) (clock s1))) as Hp2.
    { apply paid_set; [done|done| |done]. intros ->. unfold credit. rewrite Hvs, Hv. cbn. lra. }
    apply (HQ (MkIp (rate_NewLimiter (rate rl) (burst rl)) (moment s1)));
      [by cbn; rewrite Hvs|done|done|done|apply Hp2|by eapply paid_0|done].
Qed.

Lemma wp_headers ip n l s (Q : headers -> state -> Prop) : inv s ->
  (forall h s', visitors s' = visitors s -> (moment s <= moment s')%Z -> inv s' -> paid ip 0 s s' -> Q h s') ->
  wp (writeRateLimitHeaders n l) Q s.
Proof.
  intros Hi HQ. unfold writeRateLimitHeaders. wp_step. apply (wp_limiter_Now ip); [done|]. intros s1 Hv1 Ht1 Hi1 Hp1.
  wp_step. apply (wp_limiter_Now ip); [done|]. intros s2 Hv2 Ht2 Hi2 Hp2. wp_step.
  apply HQ; [congruence|lia|done|by eapply paid_0].
Qed.

Lemma wp_retryAfter l s (Q : Z -> state -> Prop) :
  (forall z s', visitors s' = visitors s -> (moment s <= moment s')%Z -> Q z s') ->
  wp (retryAfterSeconds l) Q s.
Proof.
  intros HQ. unfold retryAfterSeconds. destruct (fleb _ _); [wp_step; by apply HQ|].
  wp_step. apply wp_Now_frame. intros s1 Hv1 Ht1. destruct (fleb _ _); wp_step; by apply HQ.
Qed.

(** One request. *)
Lemma wp_Middleware ip ip' rid s : inv s ->
  wp (Middleware rl ip' rid) (fun o s' =>
    (o_at o - o_seen o <= slack)%Z -> paid ip (cost ip ip' o) s s') s.
Proof.
  intros Hi. unfold Middleware. wp_step. apply (wp_getLimiter ip); [done|].
  intros v s1 Hvs1 _ _ Hok1 Hi1 Hp1 Hseen. wp_step. apply (wp_headers ip); [done|].
  intros h s2 Hv2 Ht2 Hi2 Hp2. unfold Allow, set_visitor. wp_step. wp_step. apply (wp_limiter_Now ip); [done|].
  intros s3 Hv3 Ht3 Hi3 Hp3. 
  assert (visitors s3 !! ip' = Some v) as Hv1 by (by rewrite Hv3, Hv2, Hvs1, lookup_insert_eq).
  pose proof (Hi3 ip' v Hv1) as [Hb Hl Hla Hnn Hs].
  pose proof (level_later v _ _ (Hi3 ip' v Hv1) (Z.le_refl _)) as (_ & Hnow & _).
  pose proof (allow_law (ip_limiter v) (moment s3) Hla) as Hallow.
  destruct (lim_AllowAt (ip_limiter v) (moment s3)) as [ok l'] eqn:Hrun.
  destruct Hallow as (Hb' & Hl' & Hla' & Hok & Hlev).
  wp_step. wp_step. wp_step.
  set (s4 := St _ _).
  assert ((moment s3 - lastSeen v <= slack)%Z -> paid ip (if bool_decide (ip' = ip) && ok then 1 else 0) s s4) as Hall.
  { intros Hslack. eapply paid_0, paid_0, paid_0; [exact Hp1|exact Hp2|exact Hp3|].
    assert (0 <= lim_level l' (moment s3))%Q as Hge.
    { rewrite Hlev. destruct ok; [|lra]. assert (1 <= lim_level (ip_limiter v) (moment s3))%Q by (by apply Hok). lra. }
    apply paid_set; [done| | |].
    - split; cbn; rewrite ?Hla'; [congruence|congruence|done|done|lia].
    - intros ->. rewrite bool_decide_true by done. unfold credit. rewrite Hv1. cbn. rewrite Hlev.
      destruct ok; lra.
    - intros Hne. by rewrite bool_decide_false. }
  destruct ok; cbn [negb]; [wp_step; exact Hall|].
  wp_step. apply wp_retryAfter. intros z s5 Hv5 Ht5. wp_step. intros Hsl. specialize (Hall Hsl).
  unfold cost, admitted. cbn. eapply paid_more; [exact Hall|]. apply paid_same; [apply Hall|done|done].
Qed.

Definition verdict_ok (ip rid : string) (s : state) (o : outcome) (s' : state) : Prop :=
  (moment s <= o_at o <= moment s')%Z /\
  (admitted o = true <-> (1 <= lim_level (limiter_of ip s) (o_at o))%Q) /\
  (forall ra b, o_verdict o = TooMany ra b ->
     b = Limited false "too many requests, please try again later" rid) /\
  h_limit (o_headers o) = Itoa (burst rl) /\
  forall ip', ip' <> ip -> visitors s' !! ip' = visitors s !! ip'.

Lemma wp_verdict ip rid s : inv s -> wp (Middleware rl ip rid) (verdict_ok ip rid s) s.
Proof.
  intros Hi. unfold Middleware.
  wp_step. apply (wp_getLimiter ip); [done|]. intros v s1 Hv1 Hlim Ht1 Hok1 Hi1 _ _.
  wp_step. unfold writeRateLimitHeaders. wp_step. apply (wp_limiter_Now ip); [done|]. intros s2 Hv2 Ht2 Hi2 _.
  wp_step. apply (wp_limiter_Now ip); [done|]. intros s3 Hv3 Ht3 Hi3 _. wp_step.
  unfold Allow, set_visitor. wp_step. wp_step. apply (wp_limiter_Now ip); [done|]. intros s4 Hv4 Ht4 Hi4 _.
  assert (visitors s4 !! ip = Some v) as Hv by (by rewrite Hv4, Hv3, Hv2, Hv1, lookup_insert_eq).
  pose proof (allow_law (ip_limiter v) (moment s4) (vo_last _ _ (Hi4 ip v Hv))) as Hallow.
  destruct (lim_AllowAt (ip_limiter v) (moment s4)) as [ok l'] eqn:Hrun.
  destruct Hallow as (_ & _ & _ & Hok & _). rewrite Hlim in Hok. do 3 wp_step.
  assert (forall c, forall ip', ip' <> ip ->
    visitors (St (<[ip:=MkIp l' (lastSeen v)]> (visitors s4)) c) !! ip' = visitors s !! ip') as Hother.
  { intros c ip' Hne. cbn. by rewrite lookup_insert_ne, Hv4, Hv3, Hv2, Hv1, lookup_insert_ne. }
  assert (moment s <= moment s4)%Z as Hle by lia.
  destruct ok; cbn [negb]; wp_step.
  { split; [split; [done|reflexivity]|]. split; [exact Hok|]. split; [done|]. split; [done|]. apply Hother. }
  apply wp_retryAfter. intros z s5 Hv5 Ht5. wp_step.
  split; [by split|]. split; [exact Hok|]. split; [by intros ? ? [= _ <-]|]. split; [done|].
  intros ip' Hne. rewrite Hv5. by apply (Hother (clock s4)).
Qed.


(** One request: it is let through exactly if its own bucket holds a token at the
    moment of asking, a new address has a full one; otherwise the answer is 429 with
    the fixed text and the request id.  No entry of another address is touched. *)
Theorem Middleware_verdict ip rid s o s' :
  inv s -> Middleware rl ip rid s = (o, s') ->
  (moment s <= o_at o <= moment s')%Z /\
  (admitted o = true <-> (1 <= lim_level (limiter_of ip s) (o_at o))%Q) /\
  (forall ra b, o_verdict o = TooMany ra b ->
     b = Limited false "too many requests, please try again later" rid) /\
  h_limit (o_headers o) = Itoa (burst rl) /\
  forall ip', ip' <> ip -> visitors s' !! ip' = visitors s !! ip'.
Proof. intros Hi Hrun. exact (wp_run _ _ _ _ _ (wp_verdict ip rid s Hi) Hrun). Qed.

Lemma wp_sweep ip entries s : inv s -> NoDup entries.*1 ->
  (forall ip' v, (ip', v) ∈ entries -> visitors s !! ip' = Some v) ->
  wp (sweep entries) (fun _ s' => paid ip 0 s s') s.
Proof.
  revert s. induction entries as [|[ip' v] entries IH]; intros s Hi Hnd Hin; cbn [sweep].
  { wp_step. by apply paid_same. }
  cbn in Hnd. apply NoDup_cons in Hnd as [Hout Hnd].
  wp_step. apply (wp_limiter_Now ip); [done|]. intros s1 Hv1 Ht1 Hi1 Hp1.
  assert (visitors s1 !! ip' = Some v) as Hv by (rewrite Hv1; apply Hin; left).
  assert (forall s2, paid ip 0 s1 s2 ->
    (forall k, k <> ip' -> visitors s2 !! k = visitors s1 !! k) ->
    wp (sweep entries) (fun _ s' => paid ip 0 s s') s2) as Hrest.
  { intros s2 Hp2 Hk. eapply wp_mono; [apply IH|].
    - apply Hp2.
    - done.
    - intros k w Hkw. rewrite Hk, Hv1; [apply Hin; by right|]. intros ->. apply Hout.
      by apply (list_elem_of_fmap_2 fst _ (ip', w)).
    - intros [] s3 Hp3. exact (paid_0 _ _ _ _ _ Hp1 (paid_0 _ _ _ _ _ Hp2 Hp3)). }
  wp_step. destruct (Z.ltb_spec (5 * Minute) (time_Sub (moment s1) (lastSeen v))) as [Hlate|_].
  - unfold del_visitor. wp_step. apply Hrest; [by eapply paid_del|].
    intros k Hk. cbn. by apply lookup_delete_ne.
  - wp_step. apply Hrest; [by apply paid_same|done].
Qed.

Lemma wp_cleanup ip s : inv s -> wp cleanup (fun _ s' => paid ip 0 s s') s.
Proof.
  intros Hi. unfold cleanup. do 2 wp_step. apply wp_sweep; [done|apply NoDup_fst_map_to_list|].
  intros ip' v. by rewrite elem_of_map_to_list.
Qed.

(** ** Sequences of requests and sweeps *)

Inductive event := Requested (ip : string) (o : outcome) | Swept | Passed.

Inductive step : event -> state -> state -> Prop :=
| st_request ip rid o s s' : Middleware rl ip rid s = (o, s') -> (o_at o - o_seen o <= slack)%Z ->
    step (Requested ip o) s s'
| st_sweep s s' : cleanup s = (tt, s') -> step Swept s s'
| st_time s s' : visitors s' = visitors s -> (moment s <= moment s')%Z -> step Passed s s'.

Inductive trace : state -> list event -> state -> Prop :=
| tr_nil s : trace s [] s
| tr_cons e es s1 s2 s3 : step e s1 s2 -> trace s2 es s3 -> trace s1 (e :: es) s3.

(** How often [ip] was let through. *)
Definition passes (ip : string) (e : event) : Z :=
  match e with
  | Requested ip' o => if bool_decide (ip' = ip) && admitted o then 1 else 0
  | Swept | Passed => 0
  end.
Definition let_through (ip : string) (es : list event) : Z := foldr (fun e n => (passes ip e + n)%Z) 0%Z es.

Lemma step_paid ip e s s' : inv s -> step e s s' -> paid ip (inject_Z (passes ip e)) s s'.
Proof.
  intros Hi Hs. destruct Hs as [ip' rid o s s' Hr Hsl|s s' Hr|s s' Hv Ht]; cbn [passes].
  - pose proof (wp_run _ _ _ _ _ (wp_Middleware ip ip' rid s Hi) Hr Hsl) as Hpaid.
    unfold cost in Hpaid. by destruct (bool_decide (ip' = ip) && admitted o).
  - exact (wp_run _ _ _ _ _ (wp_cleanup ip s Hi) Hr).
  - by apply paid_same.
Qed.

Lemma trace_paid ip es s s' : inv s -> trace s es s' -> paid ip (inject_Z (let_through ip es)) s s'.
Proof.
  intros Hi Ht. induction Ht as [s|e es s1 s2 s3 Hs Ht IH]; [by apply paid_same|].
  pose proof (step_paid ip e s1 s2 Hi Hs) as Hp1. destruct (paid_trans _ _ _ _ _ _ Hp1 (IH (pd_inv _ _ _ _ Hp1)))
    as [Hm Hi3 Hc]. split; [done..|]. cbn [let_through foldr]. rewrite inject_Z_plus. exact Hc.
Qed.

Lemma inv_empty c : inv (St ∅ c).
Proof. intros ip v. cbn. by rewrite lookup_empty. Qed.

Lemma credit_range ip s : inv s -> (0 <= credit ip s <= inject_Z (burst rl))%Q.
Proof.
  intros Hi. unfold credit. destruct (visitors s !! ip) as [v|] eqn:Hv.
  - by destruct (level_later v _ _ (Hi ip v Hv) (Z.le_refl _)) as (_ & ? & ?).
  - split; [|lra]. change 0%Q with (inject_Z 0). rewrite <- Zle_Qle. apply Hp.
Qed.

Lemma rate_bound ip c es1 s es2 s' :
  trace (St ∅ c) es1 s -> trace s es2 s' -> (moment s <= moment s')%Z /\
  (inject_Z (let_through ip es2) <= inject_Z (burst rl) + pace * inject_Z (moment s' - moment s))%Q.
Proof.
  intros Hes1 Hes2. pose proof (trace_paid ip _ _ _ (inv_empty c) Hes1) as [_ Hi _].
  pose proof (trace_paid ip _ _ _ Hi Hes2) as [Hm Hi' Hc].
  pose proof (credit_range ip s Hi). pose proof (credit_range ip s' Hi'). split; [done|lra].
Qed.
End limits.

(** The limiter of the composition root: [rate.Limit(5.0/60.0)], burst 5. *)
Definition server_limiter : RateLimiter.t :=
  RateLimiter.NewRateLimiter (S754_finite false 6004799503160661 (-56)) 5.

Lemma server_params : params_ok server_limiter (3 * Minute)%Z.
Proof. split; vm_compute; congruence. Qed.

(** C23. The limit on the anonymous surface.  In any stretch of time the server's
    limiter lets through at most five requests of an address plus one for every
    twelve seconds: ten in a minute, 305 in an hour.  Sweeping idle entries and the
    requests of other addresses give nothing back.  (A request may be stalled up to
    three minutes between its two readings of the clock.) *)
Theorem auth_rate_limit `{RateLaws} `{MonotoneClock} ip c es1 s es2 s' :
  trace server_limiter (3 * Minute)%Z (RateLimiter.St ∅ c) es1 s ->
  trace server_limiter (3 * Minute)%Z s es2 s' ->
  (let_through ip es2 <= 5 + (moment s' - moment s) / (12 * Second))%Z.
Proof.
  intros Hes1 Hes2. destruct (rate_bound server_limiter _ server_params ip c es1 s es2 s' Hes1 Hes2) as [Hpos Hb].
  assert (0 <= moment s' - moment s)%Z as Hd by lia.
  revert Hd Hb. generalize (let_through ip es2) (moment s' - moment s)%Z. intros n d Hd Hb.
  assert (inject_Z (n - 5) <= inject_Z d / inject_Z (12 * Second))%Q as Hq.
  { rewrite inject_Z_sub. change (inject_Z (RateLimiter.burst server_limiter)) with (inject_Z 5) in Hb.
    assert (pace server_limiter * inject_Z d <= inject_Z d / inject_Z (12 * Second))%Q.
    { unfold Qdiv. rewrite Qmult_comm. apply Qmult_le_l_weak; [|vm_compute; congruence].
      change 0%Q with (inject_Z 0). by rewrite <- Zle_Qle. }
    lra. }
  assert (n - 5 <= d / (12 * Second))%Z; [|lia].
  apply Z.div_le_lower_bound; [done|]. rewrite Zle_Qle, inject_Z_mult.
  apply (Qmult_le_l_weak _ _ (inject_Z (12 * Second))) in Hq; [|vm_compute; congruence].
  unfold Qdiv in Hq. rewrite (Qmult_comm (inject_Z d)), Qmult_assoc in Hq.
  assert (inject_Z (12 * Second) * / inject_Z (12 * Second) == 1)%Q as Hone by reflexivity.
  rewrite Hone, Qmult_1_l in Hq. exact Hq.
Qed.
End Limits.
