(* ===== verification/Logger.v ===== *)
(** The structured logger: src/pkg/logger.  zap is a parameter: what it is asked to
    write is recorded call by call.

    A Go slice is a pointer to an array, a length and the capacity of that array, and
    [append] writes into the array when there is room.  Loggers derived from one another
    hold slices, so the arrays are modelled: what one logger does must not show in
    another. *)

From Stdlib Require Import Ascii String ZArith.
From stdpp Require Import base gmap strings list pretty.
From S2P Require Import Prelude GoStrings AppError.

Open Scope string_scope.

(** * Levels, instances, contexts *)
Inductive zapLevel := DebugLevel | InfoLevel | WarnLevel | ErrorLevel | FatalLevel | PanicLevel.

Definition LevelDebug := "debug".
Definition LevelInfo := "info".
Definition LevelWarn := "warn".
Definition LevelError := "error".
Definition LevelFatal := "fatal".
Definition LevelPanic := "panic".

Definition parseZapLevel (level : string) : zapLevel :=
  if (level =? LevelDebug)%string then DebugLevel else
  if (level =? LevelInfo)%string then InfoLevel else
  if (level =? LevelWarn)%string then WarnLevel else
  if (level =? LevelError)%string then ErrorLevel else
  if (level =? LevelFatal)%string then FatalLevel else
  if (level =? LevelPanic)%string then PanicLevel else InfoLevel.

(** What [ctx.Value] has under the two keys; [None] also for a value that is no string. *)
Record ctxValues := Ctx { TraceIDKey : option string; RequestIDKey : option string }.

(** The context may be nil. *)
Definition GetTraceIDFromContext (ctx : option ctxValues) : string :=
  match ctx with
  | None => ""
  | Some c => match TraceIDKey c with
              | Some traceID => if negb (traceID =? "")%string then traceID else ""
              | None => ""
              end
  end.
Definition GetRequestIDFromContext (ctx : option ctxValues) : string :=
  match ctx with
  | None => ""
  | Some c => match RequestIDKey c with
              | Some requestID => if negb (requestID =? "")%string then requestID else ""
              | None => ""
              end
  end.

(** Map values are of type [interface{}]; [FString] is [zap.String], [FAny] [zap.Any]. *)
Section logger.
Context {V : Type}.

Definition Fields : Type := gmap string V.
Inductive field := FString (key value : string) | FAny (key : string) (value : V).

Definition ConvertMapToFields (data : gmap string V) : Fields :=
  map_fold (fun k v fields => <[k := v]> fields) ∅ data.
Definition MergeFields (fieldMaps : list Fields) : Fields :=
  fold_left (fun result f => map_fold (fun k v result => <[k := v]> result) result f) fieldMaps ∅.

(** The order in which [range] visits a map is not fixed: it may differ every time. *)
Class MapRange := {
  range_order : nat -> Fields -> list (string * V);
  range_law : forall n m, range_order n m ≡ₚ map_to_list m;
}.

(** * Slices *)
Record slice := Slice { ptr : nat; len : nat }.
Record heap := Heap { arrays : gmap nat (list field); fresh : nat }.

(** The zero value in cells no element has been put in, and the capacity the runtime
    chooses when it must grow a slice to [n] elements. *)
Class Runtime := { zero_field : field; grow : nat -> nat; grow_law : forall n, n <= grow n }.

Context `{Runtime} `{MapRange}.

Definition contents (h : heap) (s : slice) : list field := take (len s) (default [] (arrays h !! ptr s)).

Definition alloc (cells : list field) : io heap nat :=
  fun h => (fresh h, Heap (<[fresh h := cells]> (arrays h)) (S (fresh h))).

(** [make([]zap.Field, n, cap)] *)
Definition make (n cap : nat) : io heap slice :=
  p <- alloc (replicate cap zero_field) ;; ret (Slice p n).

(** [append(s, f)] *)
Definition append1 (s : slice) (f : field) : io heap slice := fun h =>
  let cells := default [] (arrays h !! ptr s) in
  if (len s <? length cells)%nat
  then (Slice (ptr s) (S (len s)), Heap (<[ptr s := <[len s := f]> cells]> (arrays h)) (fresh h))
  else (p <- alloc (contents h s ++ f :: replicate (grow (S (len s)) - S (len s)) zero_field)%list ;;
        ret (Slice p (S (len s)))) h.

Fixpoint append (s : slice) (fs : list field) : io heap slice :=
  match fs with
  | [] => ret s
  | f :: fs => s <- append1 s f ;; append s fs
  end.

(** [copy(dst, src)] into cells [dst] already has. *)
Definition copy (dst src : slice) : io heap unit := fun h =>
  let cells := default [] (arrays h !! ptr dst) in
  let n := Nat.min (len dst) (len src) in
  (tt, Heap (<[ptr dst := (take n (contents h src) ++ drop n cells)%list]> (arrays h)) (fresh h)).

(** * zap

    The three instances share the outputs and differ in the caller frames they skip. *)
Record instance := Instance { skip : nat; service : list field }.
Record call := Call { c_instance : instance; c_level : zapLevel; c_msg : string; c_fields : list field }.

(** After writing, Fatal ends the process and Panic panics. *)
Inductive flow := Returns | Exits | Panics.
Definition flow_of (level : zapLevel) : flow :=
  match level with FatalLevel => Exits | PanicLevel => Panics | _ => Returns end.

(** [ranges] counts the uses of [range]. *)
Record state := St { mem : heap; ranges : nat; calls : list call }.

Definition l_mem : lens state heap := Lens mem (fun h s => St h (ranges s) (calls s)).
Definition range (m : Fields) : io state (list (string * V)) := fun s =>
  (range_order (ranges s) m, St (mem s) (S (ranges s)) (calls s)).
Definition zap_log (i : instance) (level : zapLevel) (msg : string) (fields : slice) : io state flow := fun s =>
  (flow_of level, St (mem s) (ranges s) (calls s ++ [Call i level msg (contents (mem s) fields)])).

(** * zapLogger *)
Record zapLogger := ZapLogger {
  base : instance; contextLogger : instance; chainedLogger : instance;
  fields : slice; isChained : bool }.

(** [for k, v := range m { fields = append(fields, zap.Any(k, v)) }] *)
Definition append_map (s : slice) (m : Fields) : io state slice :=
  kvs <- range m ;;
  zoom l_mem (append s ((fun kv => FAny kv.1 kv.2) <$> kvs)).

Fixpoint append_maps (s : slice) (ms : list Fields) : io state slice :=
  match ms with
  | [] => ret s
  | m :: ms => s <- append_map s m ;; append_maps s ms
  end.

(** [append(fields, l.fields...)] *)
Definition append_slice (s t : slice) : io heap slice := fun h => append s (contents h t) h.

Definition mergeFields (l : zapLogger) (additional : list Fields) : io state slice :=
  let totalSize := fold_left (fun n fieldMap => n + size fieldMap) additional (len (fields l)) in
  s <- zoom l_mem (make 0 totalSize) ;;
  s <- zoom l_mem (append_slice s (fields l)) ;;
  append_maps s additional.

Definition appendCorrelation (ctx : option ctxValues) (s : slice) : io heap slice :=
  let traceID := GetTraceIDFromContext ctx in
  let requestID := GetRequestIDFromContext ctx in
  s <- (if negb (traceID =? "")%string && negb (traceID =? "unknown")%string
        then append1 s (FString "traceId" traceID) else ret s) ;;
  if negb (requestID =? "")%string then append1 s (FString "request_id" requestID) else ret s.

Definition direct (l : zapLogger) : instance := if isChained l then chainedLogger l else base l.

(** [Debug], .., [Panic]; [Debugf], .., [Panicf], the message already formatted; the
    same with a context. *)
Definition log (level : zapLevel) (l : zapLogger) (msg : string) (fs : list Fields) : io state flow :=
  allFields <- mergeFields l fs ;;
  zap_log (direct l) level msg allFields.

Definition logf (level : zapLevel) (l : zapLogger) (msg : string) : io state flow :=
  zap_log (direct l) level msg (fields l).

Definition logWithContext (level : zapLevel) (l : zapLogger) (ctx : option ctxValues) (msg : string)
    (fs : list Fields) : io state flow :=
  allFields <- mergeFields l fs ;;
  allFields <- zoom l_mem (appendCorrelation ctx allFields) ;;
  zap_log (contextLogger l) level msg allFields.

Definition logfWithContext (level : zapLevel) (l : zapLogger) (ctx : option ctxValues) (msg : string)
    : io state flow :=
  fs <- zoom l_mem (make (len (fields l)) (len (fields l))) ;;
  zoom l_mem (copy fs (fields l)) ;;;
  fs <- zoom l_mem (appendCorrelation ctx fs) ;;
  zap_log (contextLogger l) level msg fs.

Definition WithFields (l : zapLogger) (m : Fields) : io state zapLogger :=
  newFields <- zoom l_mem (make 0 (len (fields l) + size m)) ;;
  newFields <- zoom l_mem (append_slice newFields (fields l)) ;;
  newFields <- append_map newFields m ;;
  ret (ZapLogger (base l) (contextLogger l) (chainedLogger l) newFields true).

Definition WithContext (l : zapLogger) (ctx : option ctxValues) : io state zapLogger :=
  newFields <- zoom l_mem (make 0 (len (fields l) + 2)) ;;
  newFields <- zoom l_mem (append_slice newFields (fields l)) ;;
  newFields <- zoom l_mem (appendCorrelation ctx newFields) ;;
  ret (ZapLogger (base l) (contextLogger l) (chainedLogger l) newFields true).

(** ** newZapLogger *)
Record Config := MkConfig {
  Level : string; EnableConsole : bool; ConsoleJSONFormat : bool; EnableFile : bool;
  FileJSONFormat : bool; FileLocation : string; AppName : string; SamplingEnabled : bool }.

Inductive encoder := JSONEncoder | ConsoleEncoder.
Inductive output := Stdout | File (name : string).
Record core := Core { co_encoder : encoder; co_output : output; co_level : zapLevel }.

Definition encoder_of (json : bool) : encoder := if json then JSONEncoder else ConsoleEncoder.

(** [openFile] is [os.OpenFile]: the error, if any. *)
Definition newZapLogger (openFile : string -> option error) (config : Config)
    : io state (result error (zapLogger * list core)) :=
  let level := parseZapLevel (Level config) in
  let cores := if EnableConsole config
               then [Core (encoder_of (ConsoleJSONFormat config)) Stdout level] else [] in
  let opened :=
    if EnableFile config && negb (FileLocation config =? "")%string then
      match openFile (FileLocation config) with
      | Some err => Err (EWrapped "failed to open log file" err)
      | None => Ok (cores ++ [Core (encoder_of (FileJSONFormat config)) (File (FileLocation config)) level])%list
      end
    else Ok cores in
  match opened with
  | Err err => ret (Err err)
  | Ok cores =>
      match cores with
      | [] => ret (Err (EText "no output configured (console or file must be enabled)"))
      | _ =>
          let with_ := if negb (AppName config =? "")%string then [FString "service" (AppName config)] else [] in
          fs <- zoom l_mem (make 0 0) ;;
          ret (Ok (ZapLogger (Instance 2 with_) (Instance 2 with_) (Instance 1 with_) fs false, cores))
      end
  end.

(** ** The package-level functions: [defaultLogger] may be nil *)
Definition ErrInvalidLoggerInstance : error := EText "invalid logger instance".
Definition InstanceZap : Z := 0.

Definition NewLogger (openFile : string -> option error) (config : Config) (instanceType : Z)
    : io state (result error (zapLogger * list core)) :=
  if (instanceType =? InstanceZap)%Z then newZapLogger openFile config
  else ret (Err ErrInvalidLoggerInstance).

(** [InitDefault]: the new value of [defaultLogger] and the error. *)
Definition InitDefault (openFile : string -> option error) (config : Config) (instanceType : Z)
    (defaultLogger : option zapLogger) : io state (option zapLogger * option error) :=
  created <- NewLogger openFile config instanceType ;;
  match created with
  | Err err => ret (defaultLogger, Some err)
  | Ok (logger, _) => ret (Some logger, None)
  end.

Definition global (defaultLogger : option zapLogger) (method : zapLogger -> io state flow) : io state flow :=
  match defaultLogger with Some l => method l | None => ret Returns end.
Definition global_with (defaultLogger : option zapLogger) (method : zapLogger -> io state zapLogger)
    : io state (option zapLogger) :=
  match defaultLogger with
  | Some l => derived <- method l ;; ret (Some derived)
  | None => ret None
  end.
End logger.
#[global] Arguments Fields : clear implicits.
#[global] Arguments field : clear implicits.
