(* ===== verification/LoggerProps.v ===== *)
(** Loggers behave like values: src/pkg/logger/zap.go against a model in which a logger
    is the list of its fields. *)

From Stdlib Require Import Ascii String ZArith.
From stdpp Require Import base gmap strings list pretty.
From S2P Require Import Prelude GoStrings AppError Logger.

Open Scope string_scope.

Section loggers.
Context {V : Type} `{@Runtime V} `{@MapRange V}.

(** * Arrays of other loggers *)

Definition heap_ok (h : @heap V) : Prop := forall p, fresh h <= p -> arrays h !! p = None.
Definition valid (h : @heap V) (s : slice) : Prop :=
  exists cells, arrays h !! ptr s = Some cells /\ len s <= length cells.

(** A slice made after [h0], with contents [l]; what [h0] has is as it was. *)
Record built (h0 : heap) (s : slice) (l : list (field V)) (h : heap) : Prop := {
  bt_ok : heap_ok h;
  bt_new : fresh h0 <= ptr s;
  bt_valid : valid h s;
  bt_contents : contents h s = l;
  bt_fresh : fresh h0 <= fresh h;
  bt_same : forall p, p < fresh h0 -> arrays h !! p = arrays h0 !! p;
}.

Lemma contents_same h0 h s : heap_ok h0 -> valid h0 s ->
  (forall p, p < fresh h0 -> arrays h !! p = arrays h0 !! p) ->
  ptr s < fresh h0 /\ valid h s /\ contents h s = contents h0 s.
Proof.
  intros Hok (cells & Hc & Hl) Hs.
  assert (ptr s < fresh h0) as Hlt.
  { destruct (decide (ptr s < fresh h0)) as [|Hge]; [done|]. rewrite Hok in Hc by lia. done. }
  split; [done|]. unfold valid, contents. rewrite Hs, Hc by done. split; [by exists cells|done].
Qed.

Lemma built_alloc h0 h n cells : heap_ok h -> fresh h0 <= fresh h ->
  (forall p, p < fresh h0 -> arrays h !! p = arrays h0 !! p) -> n <= length cells ->
  built h0 (Slice (fresh h) n) (take n cells) (Heap (<[fresh h := cells]> (arrays h)) (S (fresh h))).
Proof.
  intros Hok Hf Hs Hn. split; cbn.
  - intros p Hp. cbn in *. rewrite lookup_insert_ne by lia. apply Hok. lia.
  - done.
  - exists cells. cbn. by rewrite lookup_insert_eq.
  - unfold contents. cbn. by rewrite lookup_insert_eq.
  - lia.
  - intros p Hp. rewrite lookup_insert_ne by lia. by apply Hs.
Qed.

Lemma wp_make0 h cap (Q : slice -> heap -> Prop) : heap_ok h ->
  (forall s h', built h s [] h' -> Q s h') -> wp (make 0 cap) Q h.
Proof.
  intros Hok HQ. unfold make. wp_step. unfold wp, alloc, ret. cbn. apply HQ.
  apply (built_alloc h h 0); [done|lia|done|lia].
Qed.

Lemma wp_append1 h0 s l f h (Q : slice -> heap -> Prop) : built h0 s l h ->
  (forall s' h', built h0 s' (l ++ [f]) h' -> Q s' h') -> wp (append1 s f) Q h.
Proof.
  intros [Hok Hnew (cells & Hc & Hle) Hcon Hf Hs] HQ. unfold wp, append1.
  unfold contents in *. rewrite Hc in *. change (default [] (Some cells)) with cells in *.
  destruct (Nat.ltb_spec (len s) (length cells)) as [Hlt|Hge]; cbn [fst snd].
  - assert (ptr s < fresh h) as Hps.
    { destruct (decide (ptr s < fresh h)) as [|Hn]; [done|]. rewrite Hok in Hc by lia. done. }
    apply HQ. split; cbn.
    + intros p Hp. cbn in *. rewrite lookup_insert_ne by lia. by apply Hok.
    + done.
    + eexists. cbn. rewrite lookup_insert_eq, length_insert. split; [done|lia].
    + unfold contents. cbn. rewrite lookup_insert_eq. cbn.
      rewrite (take_S_r _ _ f) by (by apply list_lookup_insert_eq).
      by rewrite take_insert_ge, Hcon by lia.
    + done.
    + intros p Hp. rewrite lookup_insert_ne by lia. by apply Hs.
  - unfold bind, alloc, ret. cbn [fst snd]. apply HQ. rewrite Hcon.
    pose proof (built_alloc h0 h (S (len s)) (l ++ f :: replicate (grow (S (len s)) - S (len s)) zero_field)
      Hok Hf Hs) as Hb.
    assert (length l = len s) as Hll by (rewrite <- Hcon, length_take; lia).
    rewrite length_app in Hb. cbn in Hb. specialize (Hb ltac:(lia)).
    rewrite take_app_ge, Hll in Hb by lia. replace (S (len s) - len s) with 1 in Hb by lia. exact Hb.
Qed.

Lemma wp_append h0 s l fs h (Q : slice -> heap -> Prop) : built h0 s l h ->
  (forall s' h', built h0 s' (l ++ fs) h' -> Q s' h') -> wp (append s fs) Q h.
Proof.
  revert s l h. induction fs as [|f fs IH]; intros s l h Hb HQ; cbn [append].
  { wp_step. apply HQ. by rewrite app_nil_r. }
  wp_step. eapply wp_append1; [done|]. intros s' h' Hb'. eapply IH; [done|].
  intros s2 h2 Hb2. apply HQ. by rewrite <- app_assoc in Hb2.
Qed.

(** The fields [appendCorrelation] adds. *)
Definition correlation (ctx : option ctxValues) : list (field V) :=
  let traceID := GetTraceIDFromContext ctx in
  let requestID := GetRequestIDFromContext ctx in
  ((if negb (traceID =? "")%string && negb (traceID =? "unknown")%string
    then [FString "traceId" traceID] else []) ++
   (if negb (requestID =? "")%string then [FString "request_id" requestID] else []))%list.

Lemma wp_appendCorrelation h0 ctx s l h (Q : slice -> heap -> Prop) : built h0 s l h ->
  (forall s' h', built h0 s' (l ++ correlation ctx) h' -> Q s' h') -> wp (appendCorrelation ctx s) Q h.
Proof.
  intros Hb HQ. unfold appendCorrelation, correlation in *. wp_step.
  assert (forall s l h, built h0 s l h ->
    (forall s' h', built h0 s' (l ++ (if negb (GetRequestIDFromContext ctx =? "")%string
       then [FString "request_id" (GetRequestIDFromContext ctx)] else [])) h' -> Q s' h') ->
    wp (if negb (GetRequestIDFromContext ctx =? "")%string
        then append1 s (FString "request_id" (GetRequestIDFromContext ctx)) else ret s) Q h) as Hrest.
  { intros s1 l1 h1 Hb1 HQ1. destruct (negb (GetRequestIDFromContext ctx =? "")%string); [by eapply wp_append1|]. wp_step. apply HQ1. by rewrite app_nil_r. }
  destruct (negb (GetTraceIDFromContext ctx =? "")%string && _).
  - eapply wp_append1; [done|]. intros s' h' Hb'. eapply Hrest; [done|].
    intros s2 h2 Hb2. apply HQ. by rewrite <- app_assoc in Hb2.
  - wp_step. eapply Hrest; [done|]. exact HQ.
Qed.

(** * The operations *)

Definition any_fields (kvs : list (string * V)) : list (field V) := (fun kv => FAny kv.1 kv.2) <$> kvs.

(** The fields of several maps, the [n]th use of [range] first. *)
Fixpoint map_fields (n : nat) (ms : list (Fields V)) : list (field V) :=
  match ms with
  | [] => []
  | m :: ms => any_fields (range_order n m) ++ map_fields (S n) ms
  end.

Notation state := (@state V).
Notation zapLogger := (@zapLogger V).

(** A program that built a slice and called nothing. *)
Definition quiet (h0 : heap) (s0 : state) (n : nat) (sl : slice) (l : list (field V)) (s : state) : Prop :=
  built h0 sl l (mem s) /\ ranges s = ranges s0 + n /\ calls s = calls s0.

Lemma wp_append_map h0 m s0 n sl l s (Q : slice -> state -> Prop) : quiet h0 s0 n sl l s ->
  (forall sl' s', quiet h0 s0 (S n) sl' (l ++ any_fields (range_order (ranges s0 + n) m)) s' -> Q sl' s') ->
  wp (append_map sl m) Q s.
Proof.
  intros (Hb & Hr & Hc) HQ. unfold append_map. wp_step. unfold wp at 1, range. cbn [fst snd].
  wp_step. cbn [lget l_mem mem]. eapply wp_append; [exact Hb|]. intros sl' h' Hb'. apply HQ.
  rewrite Hr in Hb'. split; [exact Hb'|]. cbn. split; [lia|done].
Qed.

Lemma wp_append_maps h0 ms s0 n sl l s (Q : slice -> state -> Prop) : quiet h0 s0 n sl l s ->
  (forall sl' s', quiet h0 s0 (n + length ms) sl' (l ++ map_fields (ranges s0 + n) ms) s' -> Q sl' s') ->
  wp (append_maps sl ms) Q s.
Proof.
  revert n sl l s. induction ms as [|m ms IH]; intros n sl l s Hq HQ; cbn [append_maps].
  { wp_step. apply HQ. cbn. by rewrite app_nil_r, Nat.add_0_r. }
  wp_step. eapply wp_append_map; [done|]. intros sl1 s1 Hq1. eapply IH; [done|].
  intros sl2 s2 Hq2. apply HQ. rewrite <- app_assoc, <- plus_n_Sm in Hq2. cbn [length map_fields].
  by rewrite Nat.add_succ_r.
Qed.

(** Copying the fields of a logger into a new slice. *)
Lemma wp_copied (l : zapLogger) cap s (Q : slice -> heap -> Prop) :
  heap_ok (mem s) -> valid (mem s) (fields l) ->
  (forall sl h, built (mem s) sl (contents (mem s) (fields l)) h -> Q sl h) ->
  wp (make 0 cap) (fun sl h => wp (append_slice sl (fields l)) Q h) (mem s).
Proof.
  intros Hok Hv HQ. apply wp_make0; [done|]. intros sl h Hb. unfold wp, append_slice.
  destruct (contents_same _ h _ Hok Hv (bt_same _ _ _ _ Hb)) as (_ & _ & ->).
  by apply (wp_append (mem s) sl [] _ h Q).
Qed.

Lemma wp_mergeFields (l : zapLogger) ms s (Q : slice -> state -> Prop) : heap_ok (mem s) -> valid (mem s) (fields l) ->
  (forall sl s', quiet (mem s) s (length ms) sl (contents (mem s) (fields l) ++ map_fields (ranges s) ms) s' ->
     Q sl s') ->
  wp (mergeFields l ms) Q s.
Proof.
  intros Hok Hv HQ. unfold mergeFields. wp_step. wp_step. cbn [lget l_mem].
  eapply wp_mono; [apply (wp_copied l _ s (fun sl h =>
    wp (append_maps sl ms) Q (St h (ranges s) (calls s)))); [done|done|]|].
  - intros sl h Hb. eapply wp_append_maps.
    + split; [exact Hb|]. cbn. by rewrite Nat.add_0_r.
    + intros sl' s' Hq. apply HQ. by rewrite !Nat.add_0_r in Hq.
  - intros sl h Hw. wp_step. wp_step. exact Hw.
Qed.

Lemma wp_zap i level msg sl (Q : flow -> state -> Prop) s :
  Q (flow_of level) (St (mem s) (ranges s) (calls s ++ [Call i level msg (contents (mem s) sl)])) ->
  wp (zap_log i level msg sl) Q s.
Proof. done. Qed.

(** Everything [s0] has is in [s], and [cs] was written in between. *)
Record extends (s0 : state) (n : nat) (cs : list (@call V)) (s : state) : Prop := {
  ex_ok : heap_ok (mem s);
  ex_slices : forall sl, valid (mem s0) sl -> valid (mem s) sl /\ contents (mem s) sl = contents (mem s0) sl;
  ex_ranges : ranges s = ranges s0 + n;
  ex_calls : calls s = (calls s0 ++ cs)%list;
}.

Lemma built_extends s0 sl l h n cs : heap_ok (mem s0) -> built (mem s0) sl l h ->
  extends s0 n cs (St h (ranges s0 + n) (calls s0 ++ cs)).
Proof.
  intros Hok Hb. split; cbn; [apply Hb| |done|done]. intros sl' Hv.
  destruct (contents_same _ h _ Hok Hv (bt_same _ _ _ _ Hb)) as (_ & ? & ?). done.
Qed.

Lemma wp_log level (l : zapLogger) msg fs s : heap_ok (mem s) -> valid (mem s) (fields l) ->
  wp (log level l msg fs) (fun r s' => r = flow_of level /\ extends s (length fs)
    [Call (direct l) level msg (contents (mem s) (fields l) ++ map_fields (ranges s) fs)] s') s.
Proof.
  intros Hok Hv. unfold log. wp_step. apply wp_mergeFields; [done|done|].
  intros sl s' (Hb & Hr & Hc). apply wp_zap. split; [done|]. rewrite (bt_contents _ _ _ _ Hb), Hr, Hc.
  by eapply built_extends.
Qed.

Lemma wp_logf level (l : zapLogger) msg s : heap_ok (mem s) -> valid (mem s) (fields l) ->
  wp (logf level l msg) (fun r s' => r = flow_of level /\
    extends s 0 [Call (direct l) level msg (contents (mem s) (fields l))] s') s.
Proof.
  intros Hok Hv. unfold logf. apply wp_zap. split; [done|]. split; cbn; [done|done|lia|done].
Qed.

Lemma wp_logWithContext level (l : zapLogger) ctx msg fs s : heap_ok (mem s) -> valid (mem s) (fields l) ->
  wp (logWithContext level l ctx msg fs) (fun r s' => r = flow_of level /\ extends s (length fs)
    [Call (contextLogger l) level msg
       (contents (mem s) (fields l) ++ map_fields (ranges s) fs ++ correlation ctx)] s') s.
Proof.
  intros Hok Hv. unfold logWithContext. wp_step. apply wp_mergeFields; [done|done|].
  intros sl s' (Hb & Hr & Hc). wp_step. wp_step. eapply wp_appendCorrelation; [exact Hb|].
  intros sl2 h2 Hb2. apply wp_zap. split; [done|]. cbn. rewrite (bt_contents _ _ _ _ Hb2), Hr, Hc.
  rewrite <- app_assoc. by eapply built_extends.
Qed.

Lemma wp_logfWithContext level (l : zapLogger) ctx msg s : heap_ok (mem s) -> valid (mem s) (fields l) ->
  wp (logfWithContext level l ctx msg) (fun r s' => r = flow_of level /\ extends s 0
    [Call (contextLogger l) level msg (contents (mem s) (fields l) ++ correlation ctx)] s') s.
Proof.
  intros Hok Hv. unfold logfWithContext, make. wp_step. wp_step. wp_step.
  unfold wp at 1, alloc. cbn [fst snd lget l_mem mem]. wp_step.
  set (h1 := Heap _ _). pose proof (built_alloc (mem s) (mem s) (len (fields l))
    (replicate (len (fields l)) zero_field) Hok (le_n _) (fun _ _ => eq_refl)
    ltac:(by rewrite length_replicate)) as Hb. fold h1 in Hb.
  destruct (contents_same _ h1 _ Hok Hv (bt_same _ _ _ _ Hb)) as (Hlt & _ & Hsame).
  destruct Hv as (cells & Hcells & Hlen).
  assert (length (contents (mem s) (fields l)) = len (fields l)) as Hcl.
  { unfold contents. rewrite Hcells, length_take. cbn. lia. }
  wp_step. wp_step. unfold wp at 1, copy. cbn [fst snd lget lset l_mem mem ranges calls]. rewrite Hsame.
  set (h2 := Heap _ _).
  assert (built (mem s) (Slice (fresh (mem s)) (len (fields l))) (contents (mem s) (fields l)) h2) as Hb2.
  { unfold h2. cbn [ptr len]. rewrite Nat.min_id. subst h1. cbn [arrays fresh]. rewrite lookup_insert_eq. cbn [from_option id].
    rewrite insert_insert_eq, drop_ge, app_nil_r by (rewrite length_replicate; lia).
    rewrite firstn_all2 by lia.
    pose proof (built_alloc (mem s) (mem s) (len (fields l)) (contents (mem s) (fields l)) Hok (le_n _)
      (fun _ _ => eq_refl) ltac:(lia)) as Hb2. by rewrite take_ge in Hb2 by lia. }
  wp_step. wp_step. eapply wp_appendCorrelation; [exact Hb2|]. intros sl3 h3 Hb3. apply wp_zap.
  split; [done|]. cbn. rewrite (bt_contents _ _ _ _ Hb3).
  rewrite <- (Nat.add_0_r (ranges s)) at 1. by eapply built_extends.
Qed.

(** [l'] was derived from [l] with the fields [fs] more. *)
Record derived (s : state) (l : zapLogger) (n : nat) (fs : list (field V)) (l' : zapLogger) (s' : state) : Prop := {
  dr_extends : extends s n [] s';
  dr_valid : valid (mem s') (fields l');
  dr_contents : contents (mem s') (fields l') = (contents (mem s) (fields l) ++ fs)%list;
  dr_base : base l' = base l;
  dr_context : contextLogger l' = contextLogger l;
  dr_chainedLogger : chainedLogger l' = chainedLogger l;
  dr_isChained : isChained l' = true;
}.

Lemma derived_intro s (l : zapLogger) n sl fs h : heap_ok (mem s) ->
  built (mem s) sl (contents (mem s) (fields l) ++ fs) h ->
  derived s l n fs (ZapLogger (base l) (contextLogger l) (chainedLogger l) sl true) (St h (ranges s + n) (calls s)).
Proof.
  intros Hok Hb. pose proof (built_extends s sl _ h n [] Hok Hb) as He. rewrite app_nil_r in He.
  by split; [exact He|apply Hb|apply Hb|..].
Qed.

Lemma wp_WithFields (l : zapLogger) m s : heap_ok (mem s) -> valid (mem s) (fields l) ->
  wp (WithFields l m) (derived s l 1 (any_fields (range_order (ranges s) m))) s.
Proof.
  intros Hok Hv. unfold WithFields. wp_step. wp_step. cbn [lget l_mem].
  eapply wp_mono; [apply (wp_copied l _ s (fun sl h =>
    wp (newFields <- append_map sl m ;;
        ret (ZapLogger (base l) (contextLogger l) (chainedLogger l) newFields true))
       (derived s l 1 (any_fields (range_order (ranges s) m))) (St h (ranges s) (calls s)))); [done|done|]|].
  - intros sl h Hb. wp_step. eapply (wp_append_map (mem s) m s 0).
    { split; [exact Hb|]. cbn. by rewrite Nat.add_0_r. }
    intros sl' s' (Hb' & Hr & Hc). rewrite Nat.add_0_r in Hb'. wp_step.
    pose proof (derived_intro s l 1 sl' _ (mem s') Hok Hb') as Hd. rewrite <- Hr, <- Hc in Hd.
    by destruct s'.
  - intros sl h Hw. wp_step. wp_step. exact Hw.
Qed.

Lemma wp_WithContext (l : zapLogger) ctx s : heap_ok (mem s) -> valid (mem s) (fields l) ->
  wp (WithContext l ctx) (derived s l 0 (correlation ctx)) s.
Proof.
  intros Hok Hv. unfold WithContext. wp_step. wp_step. cbn [lget l_mem].
  eapply wp_mono; [apply (wp_copied l _ s (fun sl h =>
    wp (newFields <- zoom l_mem (appendCorrelation ctx sl) ;;
        ret (ZapLogger (base l) (contextLogger l) (chainedLogger l) newFields true))
       (derived s l 0 (correlation ctx)) (St h (ranges s) (calls s)))); [done|done|]|].
  - intros sl h Hb. do 2 wp_step. eapply wp_appendCorrelation; [exact Hb|]. intros sl' h' Hb'. wp_step.
    pose proof (derived_intro s l 0 sl' _ h' Hok Hb') as Hd. by rewrite Nat.add_0_r in Hd.
  - intros sl h Hw. wp_step. wp_step. exact Hw.
Qed.

(** * The reference: a logger is the list of its fields *)
Record plogger := PLogger {
  p_base : @instance V; p_context : @instance V; p_chained : @instance V;
  p_fields : list (field V); p_isChained : bool }.

(** A program over a growing list of loggers; it goes on after Fatal and Panic.  An
    index that names no logger does nothing. *)
Inductive op :=
| OLog (level : zapLevel) (i : nat) (msg : string) (fs : list (Fields V))
| OLogf (level : zapLevel) (i : nat) (msg : string)
| OLogWithContext (level : zapLevel) (i : nat) (ctx : option ctxValues) (msg : string) (fs : list (Fields V))
| OLogfWithContext (level : zapLevel) (i : nat) (ctx : option ctxValues) (msg : string)
| OWithFields (i : nat) (m : Fields V)
| OWithContext (i : nat) (ctx : option ctxValues).

Definition op_logger (o : op) : nat :=
  match o with
  | OLog _ i _ _ | OLogf _ i _ | OLogWithContext _ i _ _ _ | OLogfWithContext _ i _ _
  | OWithFields i _ | OWithContext i _ => i
  end.

(** The code. *)
Definition exec_on (o : op) (l : zapLogger) : io state (list zapLogger) :=
  match o with
  | OLog level _ msg fs => log level l msg fs ;;; ret []
  | OLogf level _ msg => logf level l msg ;;; ret []
  | OLogWithContext level _ ctx msg fs => logWithContext level l ctx msg fs ;;; ret []
  | OLogfWithContext level _ ctx msg => logfWithContext level l ctx msg ;;; ret []
  | OWithFields _ m => l' <- WithFields l m ;; ret [l']
  | OWithContext _ ctx => l' <- WithContext l ctx ;; ret [l']
  end.
Fixpoint exec (os : list op) (ls : list zapLogger) : io state (list zapLogger) :=
  match os with
  | [] => ret ls
  | o :: os =>
      match ls !! op_logger o with
      | None => exec os ls
      | Some l => new <- exec_on o l ;; exec os (ls ++ new)%list
      end
  end.

(** The reference: the new loggers, the uses of [range], the calls of zap. *)
Definition p_direct (l : plogger) : instance := if p_isChained l then p_chained l else p_base l.
Definition p_with (l : plogger) (fs : list (field V)) : plogger :=
  PLogger (p_base l) (p_context l) (p_chained l) (p_fields l ++ fs) true.
Definition pexec_on (n : nat) (o : op) (l : plogger) : list plogger * nat * list (@call V) :=
  match o with
  | OLog level _ msg fs =>
      ([], length fs, [Call (p_direct l) level msg (p_fields l ++ map_fields n fs)])
  | OLogf level _ msg => ([], 0, [Call (p_direct l) level msg (p_fields l)])
  | OLogWithContext level _ ctx msg fs =>
      ([], length fs, [Call (p_context l) level msg (p_fields l ++ map_fields n fs ++ correlation ctx)])
  | OLogfWithContext level _ ctx msg =>
      ([], 0, [Call (p_context l) level msg (p_fields l ++ correlation ctx)])
  | OWithFields _ m => ([p_with l (any_fields (range_order n m))], 1, [])
  | OWithContext _ ctx => ([p_with l (correlation ctx)], 0, [])
  end.
Fixpoint pexec (n : nat) (os : list op) (ls : list plogger) : list plogger * list (@call V) :=
  match os with
  | [] => (ls, [])
  | o :: os =>
      match ls !! op_logger o with
      | None => pexec n os ls
      | Some l =>
          let '(new, k, cs) := pexec_on n o l in
          let '(ls', cs') := pexec (n + k) os (ls ++ new)%list in (ls', cs ++ cs')%list
      end
  end.

(** The list a logger stands for in a heap. *)
Definition stands_for (h : heap) (l : zapLogger) (p : plogger) : Prop :=
  valid h (fields l) /\ p = PLogger (base l) (contextLogger l) (chainedLogger l) (contents h (fields l)) (isChained l).

Lemma stands_for_extends s n cs s' l p : extends s n cs s' -> stands_for (mem s) l p -> stands_for (mem s') l p.
Proof. intros He [Hv ->]. destruct (ex_slices _ _ _ _ He _ Hv) as [Hv' Hc]. split; [done|]. by rewrite Hc. Qed.

Lemma exec_on_ok o l p s : heap_ok (mem s) -> stands_for (mem s) l p ->
  wp (exec_on o l) (fun new s' => let '(pnew, k, cs) := pexec_on (ranges s) o p in
    extends s k cs s' /\ Forall2 (stands_for (mem s')) new pnew) s.
Proof.
  intros Hok [Hv ->]. destruct o; cbn [exec_on pexec_on p_base p_context p_chained p_fields p_isChained].
  - wp_step. eapply wp_mono; [by apply wp_log|]. intros r s' [_ He]. by wp_step.
  - wp_step. eapply wp_mono; [by apply wp_logf|]. intros r s' [_ He]. by wp_step.
  - wp_step. eapply wp_mono; [by apply wp_logWithContext|]. intros r s' [_ He]. by wp_step.
  - wp_step. eapply wp_mono; [by apply wp_logfWithContext|]. intros r s' [_ He]. by wp_step.
  - wp_step. eapply wp_mono; [by apply wp_WithFields|]. intros l' s' [He Hv' Hc Hb Hx Hch Hi].
    wp_step. split; [done|]. repeat constructor; [done|]. unfold p_with. cbn. by rewrite Hc, Hb, Hx, Hch, Hi.
  - wp_step. eapply wp_mono; [by apply wp_WithContext|]. intros l' s' [He Hv' Hc Hb Hx Hch Hi].
    wp_step. split; [done|]. repeat constructor; [done|]. unfold p_with. cbn. by rewrite Hc, Hb, Hx, Hch, Hi.
Qed.

(** C25. Loggers are values.  Whatever a program does with loggers derived from one
    another, in whatever order, zap gets exactly the calls of the reference, in which a
    logger is a list of fields: no [append] of one logger ever shows in another. *)
Theorem logger_refines_lists os ls ps s ls' s' :
  heap_ok (mem s) -> Forall2 (stands_for (mem s)) ls ps -> exec os ls s = (ls', s') ->
  let '(ps', cs) := pexec (ranges s) os ps in
  calls s' = (calls s ++ cs)%list /\ Forall2 (stands_for (mem s')) ls' ps'.
Proof.
  revert ls ps s. induction os as [|o os IH]; intros ls ps s Hok Hls; cbn [exec pexec].
  { intros [= <- <-]. by rewrite app_nil_r. }
  destruct (ls !! op_logger o) as [l|] eqn:Hl.
  - destruct (Forall2_lookup_l _ _ _ _ _ Hls Hl) as (p & Hp & Hlp). rewrite Hp. unfold bind.
    destruct (exec_on o l s) as [new s1] eqn:H1'.
    pose proof (wp_run _ _ _ _ _ (exec_on_ok o l p s Hok Hlp) H1') as Hon. cbn beta in Hon.
    destruct (pexec_on (ranges s) o p) as [[pnew k] cs]. destruct Hon as [He Hnew]. intros Hrun.
    specialize (IH (ls ++ new)%list (ps ++ pnew)%list s1 (ex_ok _ _ _ _ He)).
    rewrite (ex_ranges _ _ _ _ He) in IH. destruct (pexec (ranges s + k) os (ps ++ pnew)) as [ps' cs'].
    destruct IH as [Hc Hf]; [|done|].
    + apply Forall2_app; [|done]. eapply Forall2_impl; [exact Hls|]. intros l0 p0. by eapply stands_for_extends.
    + rewrite (ex_calls _ _ _ _ He), <- app_assoc in Hc. done.
  - assert (ps !! op_logger o = None) as ->.
    { rewrite lookup_ge_None, <- (Forall2_length _ _ _ Hls), <- lookup_ge_None. done. }
    intros Hrun. exact (IH ls ps s Hok Hls Hrun).
Qed.
End loggers.
