(* ===== verification/Mailer.v ===== *)
(** The mailer that talks SMTP: src/pkg/mailer/mailer.otp.go and its template,
    templates/otp.html.  gomail is a parameter: it is given a message and a dialer and
    answers.  A token or a code comes out of the mail as it went in and never as markup. *)

From Stdlib Require Import Ascii String ZArith.
From stdpp Require Import base strings list pretty.
From S2P Require Import Prelude GoStrings AppError Records Services World.

Open Scope string_scope.

(** * Escaping *)

(** [template.HTMLEscapeString], byte by byte; NUL becomes U+FFFD. *)
Definition replacement : string :=
  String (ascii_of_N 239) (String (ascii_of_N 191) (String (ascii_of_N 189) "")).

Definition html_escape_byte (a : ascii) : string :=
  let c := code a in
  if (c =? 34)%N then "&#34;" else
  if (c =? 39)%N then "&#39;" else
  if (c =? 38)%N then "&amp;" else
  if (c =? 60)%N then "&lt;" else
  if (c =? 62)%N then "&gt;" else
  if (c =? 0)%N then replacement else String a "".

Fixpoint HTMLEscapeString (s : string) : string :=
  match s with
  | EmptyString => ""
  | String a s => html_escape_byte a +:+ HTMLEscapeString s
  end.

(** What html/template puts in for [{{.Code}}] between tags: "+" is escaped too. *)
Definition template_escape_byte (a : ascii) : string :=
  if (code a =? 43)%N then "&#43;" else html_escape_byte a.

Fixpoint template_escape (s : string) : string :=
  match s with
  | EmptyString => ""
  | String a s => template_escape_byte a +:+ template_escape s
  end.

(** * Messages *)
Record otpTemplateData := OtpData {
  AppName : string; Region : string; Code : string; Year : Z; ValidMinutes : Z }.

Definition defaultAppName := "Go Rest boilerplate".
Definition defaultRegion := "East Java, Indonesia".
Definition defaultValidMinutes : Z := 5.

Record message := Message { From : string; To : string; Subject : string; Body : string }.

(** [gomail.NewDialer] with its timeout. *)
Record dialer := Dialer {
  Host : string; SmtpPort : Z; Username : string; Password : string; Timeout : Duration }.

Class Gomail := {
  smtp : Type;
  DialAndSend : dialer -> message -> io smtp (result error unit);
  smtp_Year : smtp -> Z;                    (** [time.Now().Year()], in the zone of the machine *)
}.

(** The quotation mark; in [html] a tilde stands for it. *)
Definition dquote : ascii := ascii_of_N 34.
Definition html (s : string) : string := string_map (fun a => if Ascii.eqb a "~" then dquote else a) s.
Definition newline : string := String (ascii_of_N 10) "".

(** templates/otp.html, line by line. *)
Definition otp_html (d : otpTemplateData) : list string :=
  let app := template_escape (AppName d) in
  [html "<div style=~font-family: Helvetica,Arial,sans-serif;min-width:1000px;overflow:auto;line-height:2~>";
   html "    <div style=~margin:50px auto;width:70%;padding:20px 0~>";
   html "        <div style=~border-bottom:1px solid #eee~>";
   html "            <a href=~~ style=~font-size:1.4em;color: #00466a;text-decoration:none;font-weight:600~>" +:+ app +:+ "</a>";
   "        </div>";
   html "        <p style=~font-size:1.1em~>Hi,</p>";
   "        <p>Thank you for choosing Our Services. Use the following OTP to complete your Sign Up procedures. OTP is valid for " +:+ Itoa (ValidMinutes d) +:+ " minutes.</p>";
   html "        <h2 style=~background: #00466a;margin: 0 auto;width: max-content;padding: 0 10px;color: #fff;border-radius: 4px;~>" +:+ template_escape (Code d) +:+ "</h2>";
   html "        <p style=~font-size:0.9em;~>Regards,<br />" +:+ app +:+ "</p>";
   html "        <hr style=~border:none;border-top:1px solid #eee~ />";
   html "        <div style=~float:right;padding:8px 0;color:#aaa;font-size:0.8em;line-height:1;font-weight:300~>";
   "            <p>Copyright &copy; " +:+ app +:+ " " +:+ Itoa (Year d) +:+ "</p>";
   "            <p>" +:+ template_escape (Region d) +:+ "</p>";
   "        </div>";
   "    </div>";
   "</div>"].

Definition unlines (l : list string) : string := fold_right (fun s r => s +:+ newline +:+ r) "" l.

Section mailer.
Context `{Gomail}.

(** [otpMailer]. *)
Record otpMailer := NewOTPMailer { email : string; password : string }.

(** The template has no action that can fail on this data. *)
Definition renderOTPBody (code : string) : io smtp string := fun s =>
  (unlines (otp_html (OtpData defaultAppName defaultRegion code (smtp_Year s) defaultValidMinutes)), s).

Definition gmail (m : otpMailer) : dialer :=
  Dialer "smtp.gmail.com" 587 (email m) (password m) (10 * Second)%Z.

Definition SendOTP (m : otpMailer) (otpCode receiver : string) : io smtp (result error unit) :=
  body <- renderOTPBody otpCode ;;
  DialAndSend (gmail m) (Message (email m) receiver "Verification Email" body).

Definition reset_body (token : string) : string :=
  "<p>Use the following token to reset your password. The token expires in " +:+ Itoa defaultValidMinutes
  +:+ " minutes.</p><p><b>" +:+ HTMLEscapeString token +:+ "</b></p>".

Definition SendPasswordReset (m : otpMailer) (token receiver : string) : io smtp (result error unit) :=
  DialAndSend (gmail m) (Message (email m) receiver "Password Reset" (reset_body token)).

(** The interface the async queue is given. *)
Definition mailer (m : otpMailer) : OTPMailer := {|
  mail := smtp;
  mailer_SendOTP := SendOTP m;
  mailer_SendPasswordReset := SendPasswordReset m;
|}.
End mailer.

(** * Reading the mail back *)

(** No byte a browser takes for a tag or the end of an attribute. *)
Definition inert_byte (a : ascii) : bool :=
  negb (existsb (N.eqb (code a)) [34; 39; 60; 62; 0])%N.
Definition inert (s : string) : bool := string_forall inert_byte s.

(** The entities the two escapings write. *)
Definition entities : list (string * ascii) :=
  [("&#34;", ascii_of_N 34); ("&#39;", ascii_of_N 39); ("&amp;", ascii_of_N 38);
   ("&lt;", ascii_of_N 60); ("&gt;", ascii_of_N 62); ("&#43;", ascii_of_N 43)].

Fixpoint starts (p s : string) : bool :=
  match p, s with
  | EmptyString, _ => true
  | String a p, String b s => Ascii.eqb a b && starts p s
  | _, EmptyString => false
  end.

Definition entity_at (s : string) : option (string * ascii) :=
  List.find (fun e => starts e.1 s) entities.

Fixpoint html_unescape (skip : nat) (s : string) : string :=
  match s with
  | EmptyString => ""
  | String a r =>
      match skip with
      | S skip => html_unescape skip r
      | O =>
          match entity_at s with
          | Some (e, c) => String c (html_unescape (pred (String.length e)) r)
          | None => String a (html_unescape 0 r)
          end
      end
  end.

Definition no_nul (s : string) : bool := string_forall (fun a => negb (code a =? 0)%N) s.

Lemma code_eq a n : code a = n -> a = ascii_of_N n.
Proof. intros <-. unfold code. by rewrite ascii_N_embedding. Qed.

Lemma entity_at_plain a r : code a <> 38%N -> entity_at (String a r) = None.
Proof.
  intros Ha. unfold entity_at, entities. cbn [List.find fst starts].
  by destruct (Ascii.eqb_spec "&" a) as [<-|].
Qed.

Lemma skip_all p r : html_unescape (String.length p) (p +:+ r) = html_unescape 0 r.
Proof. induction p as [|a p IH]; [by destruct r|]. rewrite app_cons_string. exact IH. Qed.

(** An entity in front reads back as its byte. *)
Lemma unescape_entity e c r : entity_at (e +:+ r) = Some (e, c) -> e <> "" ->
  html_unescape 0 (e +:+ r) = String c (html_unescape 0 r).
Proof.
  intros He Hne. destruct e as [|a e]; [done|]. rewrite app_cons_string in *. cbn [html_unescape].
  rewrite He. cbn [String.length pred]. by rewrite skip_all.
Qed.

Ltac byte_cases a :=
  repeat match goal with
  | |- context [(code a =? ?n)%N] =>
      let Hc := fresh "Hc" in destruct (N.eqb_spec (code a) n) as [Hc|Hc]; [apply code_eq in Hc; subst a|]
  end.

Lemma unescape_byte a r : code a <> 0%N ->
  html_unescape 0 (template_escape_byte a +:+ r) = String a (html_unescape 0 r) /\
  html_unescape 0 (html_escape_byte a +:+ r) = String a (html_unescape 0 r).
Proof.
  intros Hz.
  assert (forall b, code b <> 38%N -> html_unescape 0 (String b "" +:+ r) = String b (html_unescape 0 r)) as Hplain.
  { intros b Hb. rewrite app_cons_string, app_nil_l_string. cbn [html_unescape]. by rewrite entity_at_plain. }
  unfold template_escape_byte, html_escape_byte.
  byte_cases a; try done; split; try (by apply unescape_entity); by apply Hplain.
Qed.

(** What was escaped reads back. *)
Lemma unescape_escape s : no_nul s = true ->
  html_unescape 0 (template_escape s) = s /\ html_unescape 0 (HTMLEscapeString s) = s.
Proof.
  unfold no_nul. induction s as [|a s IH]; [done|]. cbn [string_forall template_escape HTMLEscapeString].
  intros [Ha%negb_true_iff%N.eqb_neq Hs]%andb_true_iff. destruct (IH Hs) as [H1 H2].
  destruct (unescape_byte a (template_escape s) Ha) as [-> _].
  destruct (unescape_byte a (HTMLEscapeString s) Ha) as [_ ->]. by rewrite H1, H2.
Qed.

Lemma escape_inert s : inert (template_escape s) = true /\ inert (HTMLEscapeString s) = true.
Proof.
  unfold inert. induction s as [|a s [IH1 IH2]]; [done|]. cbn [template_escape HTMLEscapeString].
  rewrite !string_forall_app, IH1, IH2, !andb_true_r. clear.
  assert (inert_byte a = true -> string_forall inert_byte (String a "") = true) as Hplain
    by (cbn; intros ->; done).
  assert (forall n, code a <> n -> (code a =? n)%N = false) as Hne by (intros n; by apply N.eqb_neq).
  unfold template_escape_byte, html_escape_byte.
  byte_cases a; split; try reflexivity; apply Hplain; unfold inert_byte; cbn [existsb]; rewrite !Hne by done; done.
Qed.

(** Letters, digits, "-" and "_": the alphabet of the tokens and the codes. *)
Definition token_byte (a : ascii) : bool :=
  ((48 <=? code a) && (code a <=? 57) || (65 <=? code a) && (code a <=? 90)
   || (97 <=? code a) && (code a <=? 122) || (code a =? 45) || (code a =? 95))%N.

Lemma escape_token s : string_forall token_byte s = true -> template_escape s = s /\ HTMLEscapeString s = s.
Proof.
  induction s as [|a s IH]; [done|]. cbn [string_forall template_escape HTMLEscapeString].
  intros [Ha Hs]%andb_true_iff. destruct (IH Hs) as [-> ->].
  assert (forall n, In n [34; 39; 38; 60; 62; 0; 43]%N -> (code a =? n)%N = false) as Hne.
  { intros n Hn. apply N.eqb_neq. intros Hc. unfold token_byte in Ha. rewrite Hc in Ha.
    by repeat (destruct Hn as [<-|Hn]; [done|]). }
  unfold template_escape_byte, html_escape_byte. rewrite !Hne by (cbn; tauto). done.
Qed.

Section mails.
Context `{Gomail}.

(** What stands around the secret in a mail. *)
Definition otp_before : string :=
  unlines (take 7 (otp_html (OtpData defaultAppName defaultRegion "" 0 defaultValidMinutes)))
  +:+ html "        <h2 style=~background: #00466a;margin: 0 auto;width: max-content;padding: 0 10px;color: #fff;border-radius: 4px;~>".
Definition otp_after (year : Z) : string :=
  "</h2>" +:+ newline +:+
  unlines (drop 8 (otp_html (OtpData defaultAppName defaultRegion "" year defaultValidMinutes))).

Lemma unlines_cons x l : unlines (x :: l) = x +:+ newline +:+ unlines l.
Proof. done. Qed.

Lemma unlines_app l1 l2 : unlines (l1 ++ l2) = unlines l1 +:+ unlines l2.
Proof.
  induction l1 as [|x l1 IH]; [by rewrite app_nil_l_string|].
  rewrite <- app_comm_cons, !unlines_cons, IH. by rewrite <- !app_assoc_string.
Qed.

Lemma otp_frame code s : (renderOTPBody code s).1 = otp_before +:+ template_escape code +:+ otp_after (smtp_Year s).
Proof.
  unfold renderOTPBody, otp_before, otp_after. cbn [fst].
  set (d := fun c y => OtpData defaultAppName defaultRegion c y defaultValidMinutes).
  change (OtpData defaultAppName defaultRegion code (smtp_Year s) defaultValidMinutes) with (d code (smtp_Year s)).
  change (OtpData defaultAppName defaultRegion "" (smtp_Year s) defaultValidMinutes) with (d "" (smtp_Year s)).
  rewrite <- (take_drop 7 (otp_html (d code (smtp_Year s)))), unlines_app, <- app_assoc_string. f_equal.
  unfold otp_html. cbn [drop]. rewrite !unlines_cons. by rewrite <- !app_assoc_string.
Qed.

Definition reset_before : string :=
  "<p>Use the following token to reset your password. The token expires in 5 minutes.</p><p><b>".

(** [e] shows [secret] and nothing else. *)
Definition shows (e secret : string) : Prop :=
  inert e = true /\ html_unescape 0 e = secret /\ (string_forall token_byte secret = true -> e = secret).

(** C40. The mails carry the secret to the receiver and no markup with it: each goes from
    the configured address to that receiver alone, and around the escaped secret, which
    has no tag or quotation mark and reads back to the secret, the text is fixed.  The
    tokens and codes the service draws go in letter by letter. *)
Theorem mails_carry_secret m secret receiver s :
  no_nul secret = true ->
  (exists e, SendPasswordReset m secret receiver s = DialAndSend (gmail m)
     (Message (email m) receiver "Password Reset" (reset_before +:+ e +:+ "</b></p>")) s /\ shows e secret) /\
  (exists e, SendOTP m secret receiver s = DialAndSend (gmail m)
     (Message (email m) receiver "Verification Email" (otp_before +:+ e +:+ otp_after (smtp_Year s))) s /\
     shows e secret).
Proof.
  intros Hz. destruct (unescape_escape secret Hz) as [Ht Hh]. destruct (escape_inert secret) as [It Ih]. split.
  - exists (HTMLEscapeString secret). split; [|by split_and!; [| |intros [_ ?]%escape_token]].
    unfold SendPasswordReset, reset_body, reset_before. do 2 f_equal.
  - exists (template_escape secret). split; [|by split_and!; [| |intros [? _]%escape_token]].
    unfold SendOTP, bind. rewrite <- otp_frame. by destruct (renderOTPBody secret s) as [b s'] eqn:Hr; injection Hr as <- <-.
Qed.
End mails.
