(* ===== verification/Router.v ===== *)
(** The way of a request through the server: the global middlewares of setupRouter
    (src/cmd/api/server/server.go, src/internal/http/middlewares), the routes with the
    limiter and the body cap of the /auth group (src/internal/http/routes), the health
    and root handlers.

    gin and net/http call these in the order in which they are mounted; which route a
    path belongs to is theirs to say.  gin-contrib/cors, promhttp and the swagger handler
    are parameters; otelgin has put the trace id into the request before. *)

From Stdlib Require Import Ascii String ZArith.
From stdpp Require Import base gmap strings list pretty.
From S2P Require Import Prelude GoStrings AppError Records Services World Domain Repository Caches.
From S2P Require Import UsersUsecase Jwt OtpCode AuthUsecase Validators Middleware Http Config RateLimiter.

Open Scope string_scope.

Definition RequestIDHeader := "X-Request-ID".

(** Where a request goes. [Unmatched] is gin's 404. *)
Inductive target :=
| Api (r : route)
| Health | Ready | Metrics | Swagger | Root | Unmatched.

Record request := Req {
  q_method : string;
  q_path : string;                  (** as it came *)
  q_request_id : string;            (** header X-Request-ID, empty if absent *)
  q_user_agent : string;
  q_origin : string;
  q_ip : string;                    (** [c.ClientIP()] *)
  q_trace_id : string;
  q_body : option Z;                (** bytes its decoding has to read; [None]: no body *)
  q_target : target;
}.

(** [c.FullPath()]: the pattern the route was mounted under. *)
Definition FullPath (t : target) : string :=
  match t with
  | Api (PostRegister _) => "/api/v1/auth/register"
  | Api (PostLogin _) => "/api/v1/auth/login"
  | Api (PostSendOTP _ _) => "/api/v1/auth/send-otp"
  | Api (PostVerifyOTP _) => "/api/v1/auth/verify-otp"
  | Api (PostRefresh _) => "/api/v1/auth/refresh"
  | Api (PostLogout _) => "/api/v1/auth/logout"
  | Api (PostForgot _) => "/api/v1/auth/password/forgot"
  | Api (PostReset _) => "/api/v1/auth/password/reset"
  | Api (PutChange _ _) => "/api/v1/auth/password/change"
  | Api (GetMe _) => "/api/v1/users/me"
  | Health => "/health"
  | Ready => "/ready"
  | Metrics => "/metrics"
  | Swagger => "/swagger/*any"
  | Root => "/api/"
  | Unmatched => ""
  end.

(** * Replies *)
Inductive rbody :=
| BApi (b : BaseResponse)
| BLimited (b : RateLimiter.limited)
| BHealth (status : bool) (message : string)
| BReady (status : bool) (checks : gmap string string)
| BOther.                                   (** of gin, promhttp, swagger or cors *)

Record reply := Reply { r_status : Z; r_headers : gmap string string; r_body : rbody }.

Class GinLib := {
  cors_handle : cors_Config -> request -> option Z * gmap string string;
    (** the status it aborts with, if it does, and the headers it sets *)
  other_status : target -> Z;               (** promhttp, swagger *)
  Latency : Type;
  Latency_String : Latency -> string;
  Time_Format : Time -> string;             (** layout "2006-01-02 15:04:05" *)
}.

(** * Body caps (middleware.bodysizelimit.go) *)
Definition DefaultBodyMaxBytes : Z := Z.shiftl 1 20.
Definition AuthBodyMaxBytes : Z := Z.shiftl 4 10.

(** [http.MaxBytesReader] around [http.MaxBytesReader]: each lets its own number of
    bytes through. *)
Definition BodySizeLimit (maxBytes : Z) (caps : list Z) (q : request) : list Z :=
  match q_body q with Some _ => maxBytes :: caps | None => caps end.

Definition within (caps : list Z) (q : request) : bool :=
  match q_body q with Some n => forallb (fun cap => n <=? cap)%Z caps | None => false end.

(** What [ShouldBindJSON] gives the handler: an error without a body, and when a cap cuts it. *)
Definition bind_under (caps : list Z) (q : request) (r : route) : route :=
  if within caps q then r else
  match r with
  | PostRegister _ => PostRegister None
  | PostLogin _ => PostLogin None
  | PostSendOTP fuel _ => PostSendOTP fuel None
  | PostVerifyOTP _ => PostVerifyOTP None
  | PostRefresh _ => PostRefresh None
  | PostLogout _ => PostLogout None
  | PostForgot _ => PostForgot None
  | PostReset _ => PostReset None
  | PutChange hdr _ => PutChange hdr None
  | GetMe hdr => GetMe hdr
  end.

(** * Security headers (middleware.security.go) *)
Definition SecurityHeaders (cfg : Config) (h : gmap string string) : gmap string string :=
  let h := <["X-Content-Type-Options" := "nosniff"]> h in
  let h := <["X-Frame-Options" := "DENY"]> h in
  let h := <["Referrer-Policy" := "strict-origin-when-cross-origin"]> h in
  let h := <["Content-Security-Policy" := "default-src 'none'; frame-ancestors 'none'"]> h in
  let h := <["Permissions-Policy" := "accelerometer=(), camera=(), geolocation=(), gyroscope=(), magnetometer=(), microphone=(), payment=(), usb=()"]> h in
  if (Environment cfg =? EnvironmentProduction)%string
  then <["Strict-Transport-Security" := "max-age=31536000; includeSubDomains"]> h else h.

(** * Health (handler.health.go): what the pings answered; no Redis client, no check *)
Definition Ready_reply (db_ping : option error) (redis_ping : option (option error)) (h : gmap string string) : reply :=
  let '(checks, healthy) :=
    match db_ping with
    | Some err => (<["database" := "unreachable: " +:+ Error err]> (∅ : gmap string string), false)
    | None => (<["database" := "ok"]> ∅, true)
    end in
  let '(checks, healthy) :=
    match redis_ping with
    | None => (checks, healthy)
    | Some (Some err) => (<["redis" := "unreachable: " +:+ Error err]> checks, false)
    | Some None => (<["redis" := "ok"]> checks, healthy)
    end in
  Reply (if negb healthy then 503 else 200)%Z h (BReady healthy checks).

(** * The access log (middleware.access_log.go) *)
Definition esc : string := String (ascii_of_N 27) "".
Definition newline : string := String (ascii_of_N 10) "".

Definition AccessLogFormatter (timestamp requestID : string) (status : Z)
    (method path latency ip errorMessage userAgent : string) : string :=
  let color := if (500 <=? status)%Z then "41" else if (400 <=? status)%Z then "43" else "42" in
  let requestID := if negb (requestID =? "")%string then requestID else "-" in
  "[LOGGING HTTP] [" +:+ timestamp +:+ "] req=" +:+ requestID +:+ " " +:+ esc +:+ "[" +:+ color
  +:+ "m " +:+ Itoa status +:+ " " +:+ esc +:+ "[0m " +:+ method +:+ " " +:+ path +:+ " " +:+ latency
  +:+ " " +:+ ip +:+ " " +:+ errorMessage +:+ " " +:+ userAgent +:+ newline.

(** * The chain *)
Section router.
Context `{Platform} `{!OTPMailer} `{!UsersUsecase} `{!JWTService} `{!ValidatorLib}.
Context `{RateLib} `{GinLib}.
Variables (cfg : Config) (usecase : Auth.usecase) (guard : AuthMiddleware.t) (rl : RateLimiter.t).

(** [http_requests_total] by its labels, latest first; the lines of the access log too. *)
Record Server := MkServer {
  sv_http : HState;
  sv_limiter : RateLimiter.state;
  sv_requests : list (string * string * string);
  sv_access : list string;
}.

Definition l_http : lens Server HState :=
  Lens sv_http (fun h s => MkServer h (sv_limiter s) (sv_requests s) (sv_access s)).
Definition l_limiter : lens Server RateLimiter.state :=
  Lens sv_limiter (fun l s => MkServer (sv_http s) l (sv_requests s) (sv_access s)).

(** RequestIDMiddleware (middleware.requestid.go). *)
Definition RequestID (q : request) : io Server string :=
  if (q_request_id q =? "")%string
  then zoom l_http (zoom l_world (zoom l_wbase uuid))
  else ret (q_request_id q).

(** The limiter's headers on the reply. *)
Definition limit_headers (o : RateLimiter.outcome) (h : gmap string string) : gmap string string :=
  let hd := RateLimiter.o_headers o in
  let h := <["X-RateLimit-Limit" := RateLimiter.h_limit hd]> h in
  let h := <["X-RateLimit-Remaining" := RateLimiter.h_remaining hd]> h in
  <["X-RateLimit-Reset" := RateLimiter.h_reset hd]> h.

Definition api_reply (h : gmap string string) (o : option response) : option reply :=
  (fun out => Reply (code_ out) h (BApi (body out))) <$> o.

(** A route of the /auth group, then one of the /users group. *)
Definition auth_group (c : gin) (q : request) (r : route) (caps : list Z) (h : gmap string string)
    : io Server (option reply) :=
  o <- zoom l_limiter (RateLimiter.Middleware rl (q_ip q) (g_request_id c)) ;;
  let h := limit_headers o h in
  match RateLimiter.o_verdict o with
  | RateLimiter.TooMany retryAfter b =>
      ret (Some (Reply 429 (<["Retry-After" := retryAfter]> h) (BLimited b)))
  | RateLimiter.Next =>
      let caps := BodySizeLimit AuthBodyMaxBytes caps q in
      out <- zoom l_http (serve usecase guard c (bind_under caps q r)) ;;
      ret (api_reply h out)
  end.

Definition users_group (c : gin) (q : request) (r : route) (caps : list Z) (h : gmap string string)
    : io Server (option reply) :=
  out <- zoom l_http (serve usecase guard c (bind_under caps q r)) ;;
  ret (api_reply h out).

(** The matched handlers; the pings are what the probes answered. *)
Definition dispatch (c : gin) (q : request) (db_ping : option error) (redis_ping : option (option error))
    (caps : list Z) (h : gmap string string) : io Server (option reply) :=
  match q_target q with
  | Api (GetMe hdr) => users_group c q (GetMe hdr) caps h
  | Api r => auth_group c q r caps h
  | Health => ret (Some (Reply 200 h (BHealth true "service is healthy")))
  | Ready => ret (Some (Ready_reply db_ping redis_ping h))
  | Root => ret (Some (Reply 200 h (BHealth true "welcome to an amazing api")))
  | Metrics | Swagger => ret (Some (Reply (other_status (q_target q)) h BOther))
  | Unmatched => ret (Some (Reply 404 h BOther))
  end.

(** MetricsMiddleware after [c.Next()], and the line of the access log. *)
Definition observe_request (q : request) (status : Z) : io Server unit :=
  let path := FullPath (q_target q) in
  let path := if (path =? "")%string then "unknown" else path in
  modify (fun s => MkServer (sv_http s) (sv_limiter s) ((q_method q, path, Itoa status) :: sv_requests s) (sv_access s)).

Definition access_line (q : request) (rid : string) (status : Z) (stamp : Time) (latency : Latency) (err : string)
    : io Server unit :=
  let line := AccessLogFormatter (Time_Format stamp) rid status (q_method q) (q_path q)
                (Latency_String latency) (q_ip q) err (q_user_agent q) in
  modify (fun s => MkServer (sv_http s) (sv_limiter s) (sv_requests s) (line :: sv_access s)).

(** What surrounds a request: the probes and the log's own readings. *)
Record surroundings := Around {
  a_db_ping : option error; a_redis_ping : option (option error);
  a_stamp : Time; a_latency : Latency; a_error : string }.

(** setupRouter: request id, metrics, security headers, CORS, body cap, access log, routes.
    [None] only for a send-otp whose code generator is not done. *)
Definition ServeHTTP (q : request) (a : surroundings) : io Server (option reply) :=
  rid <- RequestID q ;;
  let h := SecurityHeaders cfg {[RequestIDHeader := rid]} in
  let '(abort, cors) := cors_handle (CORSMiddleware_config cfg) q in
  let h := cors ∪ h in
  match abort with
  | Some status =>
      observe_request q status ;;;
      ret (Some (Reply status h BOther))
  | None =>
      let caps := BodySizeLimit DefaultBodyMaxBytes [] q in
      let c := fresh_ctx rid (q_ip q) (q_user_agent q) (q_trace_id q) in
      out <- dispatch c q (a_db_ping a) (a_redis_ping a) caps h ;;
      match out with
      | None => ret None
      | Some out =>
          access_line q rid (r_status out) (a_stamp a) (a_latency a) (a_error a) ;;;
          observe_request q (r_status out) ;;;
          ret (Some out)
      end
  end.
End router.
