(* ===== verification/RouterProps.v ===== *)
(** Properties of the whole way of a request (Router.v): the headers every reply carries,
    what a limited or oversized request can do, and what is counted of it. *)

From Stdlib Require Import Ascii String ZArith.
From stdpp Require Import base gmap strings list pretty relations.
From S2P Require Import Prelude GoStrings AppError Records Services World Domain Repository Caches.
From S2P Require Import UsersUsecase Jwt OtpCode AuthUsecase AuthLemmas AuthEffects AuthSystem AuthProps.
From S2P Require Import Validators Middleware Http HttpProps Config RateLimiter Router.

Open Scope string_scope.

(** The cors middleware leaves the other middlewares' headers alone: it names only its own,
    "Vary" and those beginning "Access-Control-". *)
Class CorsLaws `{GinLib} : Prop := {
  cors_law : forall c q k, is_Some ((cors_handle c q).2 !! k) ->
    k = "Vary" \/ String.prefix "Access-Control-" k = true;
}.

Definition security_names : list string :=
  ["X-Content-Type-Options"; "X-Frame-Options"; "Referrer-Policy"; "Content-Security-Policy";
   "Permissions-Policy"; "Strict-Transport-Security"].

Definition limit_names : list string :=
  ["X-RateLimit-Limit"; "X-RateLimit-Remaining"; "X-RateLimit-Reset"; "Retry-After"].

Section router_props.
Context `{PlatformLaws} `{!OTPMailer} `{!UsersUsecase} `{!UsersContract}
  `{!JWTService} `{!JWTContract} `{!ValidatorLib} `{RateLib} `{GinLib}.
#[local] Existing Instances pl_text pl_redis pl_sql pl_rist pl_rng.
Variables (cfg : Config) (uc : Auth.usecase) (guard : AuthMiddleware.t) (rl : RateLimiter.t).

Definition sv_rows (s : Server) : gmap string Users.t := rows (h_world (sv_http s)).
Definition sv_inv (s : Server) : Prop := users_inv (w_u (h_world (sv_http s))).

(** No account, no key in Redis, no cached user, no audit event: the request did nothing but
    draw its id and pass the limiter. *)
Definition untouched (s s' : Server) : Prop :=
  u_d (w_u (h_world (sv_http s'))) = u_d (w_u (h_world (sv_http s))) /\
  u_cache (w_u (h_world (sv_http s'))) = u_cache (w_u (h_world (sv_http s))) /\
  w_redis (h_world (sv_http s')) = w_redis (h_world (sv_http s)) /\
  h_audit (sv_http s') = h_audit (sv_http s) /\ h_causes (sv_http s') = h_causes (sv_http s).

Lemma untouched_rows s s' : untouched s s' -> sv_rows s' = sv_rows s.
Proof. intros (Hd & _). unfold sv_rows, rows, table. by rewrite Hd. Qed.

Lemma untouched_inv s s' : untouched s s' -> sv_inv s -> sv_inv s'.
Proof.
  unfold sv_inv. intros (Hd & Hc & _) Hi. destruct (w_u (h_world (sv_http s'))) as [b d ch].
  simpl in *. subst. by apply users_inv_base.
Qed.

(** A call that changed an account recorded an event of its request. *)
Lemma call_changes c r h o h' :
  call_made uc c r h o h' -> rows (h_world h') <> rows (h_world h) ->
  exists call, route_call r call /\ exists e, h_audit h' = e :: h_audit h /\ exists b, event_of c b e.
Proof.
  intros (w0 & call & res & w1 & _ & Hr0 & Hi0 & Hrc & Hcall & Hr1 & Hres) Hne. exists call. split; [done|].
  pose proof (wp_run _ _ _ _ _ (run_effect uc call w0 Hi0) Hcall) as [_ _ Ht _ He].
  destruct res as [[[]|e]|].
  - destruct Hres as [(ev & Ha & Hev) _]. eauto.
  - destruct Hres as [[(ev & Ha & Hev)|[Hu _]] _]; [by eauto|]. exfalso.
    destruct (He e eq_refl) as [_ [Hs|(_ & x & i & s & -> & _)]]; [congruence|]. by inversion Hrc; subst.
  - exfalso. destruct (run_none _ _ _ _ Hcall) as (fuel & email & ->). inversion Ht. congruence.
Qed.

(** The handlers let through only bodies under every cap of the route. *)
Lemma bind_under_cut caps q r call :
  route_call (bind_under caps q r) call ->
  within caps q = true /\ bind_under caps q r = r /\ forall hdr, r <> GetMe hdr.
Proof.
  unfold bind_under. intros Hc. destruct (within caps q); [|by destruct r; inversion Hc].
  split_and!; [done|done|]. by intros hdr ->; inversion Hc.
Qed.

Lemma within_caps q :
  within (BodySizeLimit AuthBodyMaxBytes (BodySizeLimit DefaultBodyMaxBytes [] q) q) q = true ->
  exists n, q_body q = Some n /\ (n <= AuthBodyMaxBytes)%Z.
Proof.
  unfold within, BodySizeLimit. destruct (q_body q) as [n|]; [|done]. simpl. intros Hb. exists n.
  split; [done|]. by apply andb_prop in Hb as [Hb%Z.leb_le _].
Qed.

(** * The handlers *)

(** [h'] has the values of [h] outside the limiter's headers. *)
Definition keeps_headers (h h' : gmap string string) : Prop :=
  forall k, k ∉ limit_names -> h' !! k = h !! k.

Lemma keeps_refl h : keeps_headers h h.
Proof. by intros k. Qed.

Lemma limit_headers_keeps o h : keeps_headers h (limit_headers o h).
Proof.
  intros k Hk. unfold limit_headers, limit_names in *.
  rewrite !lookup_insert_ne; [done|set_solver..].
Qed.

Lemma insert_keeps h h' k v :
  k ∈ limit_names -> keeps_headers h h' -> keeps_headers h (<[k := v]> h').
Proof. intros Hk Hh i Hi. rewrite lookup_insert_ne by congruence. by apply Hh. Qed.

(** A request came through to its handler, which ran from [s]. *)
Definition handled (c : gin) (q : request) (caps : list Z) (s s' : Server) (o : option reply) : Prop :=
  exists r out caps', q_target q = Api r /\
    ((forall hdr, r <> GetMe hdr) ->
       caps' = BodySizeLimit AuthBodyMaxBytes caps q /\
       exists o, RateLimiter.Middleware rl (q_ip q) (g_request_id c) (sv_limiter s) = (o, sv_limiter s') /\
         RateLimiter.o_verdict o = RateLimiter.Next) /\
    serve uc guard c (bind_under caps' q r) (sv_http s) = (out, sv_http s') /\
    match out with
    | None => o = None
    | Some out => exists h, o = Some (Reply (code_ out) h (BApi (body out)))
    end.

(** Or it was turned away before it. *)
Definition turned_away (s s' : Server) (o : option reply) : Prop :=
  untouched s s' /\ exists out, o = Some out /\ forall b, r_body out <> BApi b.

Record dispatched (c : gin) (q : request) (caps : list Z) (h : gmap string string)
    (s : Server) (o : option reply) (s' : Server) : Prop := {
  dp_logs : sv_requests s' = sv_requests s /\ sv_access s' = sv_access s;
  dp_headers : forall out, o = Some out -> keeps_headers h (r_headers out);
  dp_done : turned_away s s' o \/ handled c q caps s s' o;
}.

Lemma untouched_limiter s l : untouched s (lset l_limiter l s).
Proof. done. Qed.

Lemma handled_headers h o (out : option response) :
  o = api_reply h out -> forall rep, o = Some rep -> keeps_headers h (r_headers rep).
Proof. intros -> rep. unfold api_reply. intros (out' & -> & ->)%fmap_Some. apply keeps_refl. Qed.

Lemma wp_auth_group c q r caps h s :
  q_target q = Api r -> (forall hdr, r <> GetMe hdr) ->
  wp (auth_group uc guard rl c q r caps h) (dispatched c q caps h s) s.
Proof.
  intros Hq Hr. unfold auth_group. wp_step. wp_step. apply wp_intro. intros o l Hl.
  destruct (RateLimiter.o_verdict o) as [|retryAfter b] eqn:Ev.
  - wp_step. wp_step. apply wp_intro. intros out h' Hef. wp_step. split.
    + done.
    + intros rep Hrep. intros k Hk. erewrite (handled_headers _ _ _ eq_refl rep Hrep k Hk).
      by apply limit_headers_keeps.
    + right. exists r, out, (BodySizeLimit AuthBodyMaxBytes caps q). split_and!; try done.
      * intros _. split; [done|]. by exists o.
      * destruct out as [out|]; [by eexists|done].
  - wp_step. split; [done| |].
    + intros rep [= <-]. apply insert_keeps; [set_solver|apply limit_headers_keeps].
    + left. split; [done|]. by eexists.
Qed.

Lemma wp_dispatch c q dbp rdp caps h s :
  wp (dispatch uc guard rl c q dbp rdp caps h) (dispatched c q caps h s) s.
Proof.
  unfold dispatch. destruct (q_target q) as [r| | | | | |] eqn:Eq.
  2-7: wp_step; split; [done|intros rep [= <-]; unfold Ready_reply;
    repeat case_match; simplify_eq; apply keeps_refl
   |left; split; [done|eexists; split; [done|]; unfold Ready_reply; repeat case_match; simplify_eq; done]].
  destruct r; try (apply wp_auth_group; [done|done]).
  unfold users_group. wp_step. wp_step. apply wp_intro.
  intros out h' Hef. wp_step. split; [done|by eapply handled_headers|].
  right. exists (GetMe authHeader), out, caps. split_and!; try done.
  - intros Hne. by destruct (Hne authHeader).
  - destruct out as [out|]; [by eexists|done].
Qed.

(** * The whole chain *)

(** The headers the chain sets before it calls a handler, the cors ones on top. *)
Definition chain_headers (q : request) (rid : string) : gmap string string :=
  (cors_handle (CORSMiddleware_config cfg) q).2 ∪ SecurityHeaders cfg {[RequestIDHeader := rid]}.

(** What one request writes to the counter and to the access log. *)
Definition counted (q : request) (status : Z) (s s' : Server) : Prop :=
  sv_requests s' =
    (q_method q, (if (FullPath (q_target q) =? "")%string then "unknown" else FullPath (q_target q)), Itoa status)
    :: sv_requests s.

Definition logged (q : request) (a : surroundings) (rid : string) (status : Z) (s s' : Server) : Prop :=
  sv_access s' = AccessLogFormatter (Time_Format (a_stamp a)) rid status (q_method q) (q_path q)
    (Latency_String (a_latency a)) (q_ip q) (a_error a) (q_user_agent q) :: sv_access s.

Lemma RequestID_spec q s :
  wp (RequestID q) (fun rid s' => untouched s s' /\ sv_limiter s' = sv_limiter s /\
    sv_requests s' = sv_requests s /\ sv_access s' = sv_access s /\
    (q_request_id q <> "" -> rid = q_request_id q) /\
    (q_request_id q = "" -> rid ∉ issued (h_world (sv_http s)))) s.
Proof.
  unfold RequestID. wp_step; [|by wp_steps].
  wp_step. wp_step. wp_step. apply wp_uuid. intros i g Hf Ha Hu. split_and!; try done.
Qed.

(** The request went down the chain with the id [rid]. *)
Record served (q : request) (a : surroundings) (rid : string) (s : Server) (o : option reply) (s' : Server) : Prop := {
  sd_inv : sv_inv s';
  sd_headers : forall out, o = Some out -> keeps_headers (chain_headers q rid) (r_headers out);
  sd_counted : forall out, o = Some out -> counted q (r_status out) s s';
  sd_logged : (cors_handle (CORSMiddleware_config cfg) q).1 = None ->
    forall out, o = Some out -> logged q a rid (r_status out) s s';
  sd_done : turned_away s s' o \/
    ((cors_handle (CORSMiddleware_config cfg) q).1 = None /\
     exists s1 s2, untouched s s1 /\ sv_limiter s1 = sv_limiter s /\ sv_http s2 = sv_http s' /\
       sv_limiter s2 = sv_limiter s' /\
       handled (fresh_ctx rid (q_ip q) (q_user_agent q) (q_trace_id q)) q
         (BodySizeLimit DefaultBodyMaxBytes [] q) s1 s2 o);
}.

Lemma untouched_trans s1 s2 s3 : untouched s1 s2 -> untouched s2 s3 -> untouched s1 s3.
Proof. unfold untouched. intuition congruence. Qed.

Lemma handled_effect c q caps s s' o :
  sv_inv s -> handled c q caps s s' o ->
  exists r out caps', q_target q = Api r /\
    effect uc c (bind_under caps' q r) (sv_http s) out (sv_http s') /\
    match out with
    | None => o = None
    | Some out => exists h, o = Some (Reply (code_ out) h (BApi (body out)))
    end.
Proof.
  intros Hi (r & out & caps' & Hq & _ & Hrun & Ho). exists r, out, caps'.
  split_and!; [done| |done]. exact (wp_run _ _ _ _ _ (serve_effect uc guard c _ _ Hi) Hrun).
Qed.

Lemma handled_inv c q caps s s' o : sv_inv s -> handled c q caps s s' o -> sv_inv s'.
Proof. intros Hi (? & ? & ? & _ & Hef & _)%handled_effect; [exact (ef_inv _ _ _ _ _ _ Hef)|done]. Qed.

(** The end of the chain after a reply. *)
Lemma served_done q a rid s s1 s2 s3 out h :
  sv_inv s1 -> (cors_handle (CORSMiddleware_config cfg) q).1 = None ->
  untouched s s1 -> sv_limiter s1 = sv_limiter s -> sv_http s3 = sv_http s2 -> sv_limiter s3 = sv_limiter s2 ->
  keeps_headers h (r_headers out) -> h = chain_headers q rid ->
  counted q (r_status out) s s3 -> logged q a rid (r_status out) s s3 ->
  turned_away s1 s2 (Some out) \/
  handled (fresh_ctx rid (q_ip q) (q_user_agent q) (q_trace_id q)) q
    (BodySizeLimit DefaultBodyMaxBytes [] q) s1 s2 (Some out) ->
  served q a rid s (Some out) s3.
Proof.
  intros Hi1 Hc Hu Hl Hh3 Hl3 Hk -> Hcount Hlog Hd. split.
  - unfold sv_inv. rewrite Hh3. destruct Hd as [[Hu2 _]|Hd]; [by eapply untouched_inv|by eapply handled_inv].
  - by intros ? [= <-].
  - by intros ? [= <-].
  - by intros _ ? [= <-].
  - destruct Hd as [[Hu2 Hb]|Hd].
    + left. split; [|done]. eapply untouched_trans; [done|]. unfold untouched. by rewrite Hh3.
    + right. split; [done|]. by exists s1, s2.
Qed.

Lemma ServeHTTP_served q a s :
  sv_inv s -> wp (ServeHTTP cfg uc guard rl q a) (fun o s' => exists rid,
    (q_request_id q <> "" -> rid = q_request_id q) /\
    (q_request_id q = "" -> rid ∉ issued (h_world (sv_http s))) /\ served q a rid s o s') s.
Proof.
  intros Hi. unfold ServeHTTP. wp_step. eapply wp_mono; [apply RequestID_spec|].
  intros rid s1 (Hu & Hl & Hrq & Hac & Hid & Hfresh). pose proof (untouched_inv _ _ Hu Hi) as Hi1.
  destruct (cors_handle _ q) as [[status|] cors] eqn:Ec.
  - unfold observe_request. wp_step. wp_step. wp_step. exists rid. split_and!; [done|done|].
    split; simpl; try done.
    + intros out [= <-]. unfold chain_headers. rewrite Ec. apply keeps_refl.
    + intros out [= <-]. unfold counted. simpl. by rewrite Hrq.
    + by rewrite Ec.
    + left. split; [exact Hu|by eexists].
  - wp_step. eapply wp_mono; [apply wp_dispatch|]. intros o s2 [[Hr2 Ha2] Hh Hd].
    destruct o as [out|].
    + unfold access_line, observe_request. wp_step. wp_step. wp_step. wp_step. wp_step.
      exists rid. split_and!; [done|done|].
      apply (served_done q a rid s s1 s2 _ out (cors ∪ SecurityHeaders cfg {[RequestIDHeader := rid]}));
        try done; [by rewrite Ec|by apply Hh| | |].
      * unfold chain_headers. by rewrite Ec.
      * unfold counted. simpl. by rewrite Hr2, Hrq.
      * unfold logged. simpl. by rewrite Ha2, Hac.
    + wp_step. exists rid. split_and!; [done|done|]. destruct Hd as [[_ (? & ? & _)]|Hd]; [done|].
      split; try done; [by eapply handled_inv|]. right. rewrite Ec. split; [done|]. by exists s1, s2.
Qed.

(** * Properties *)

Lemma chain_header `{!CorsLaws} q rid out k :
  keeps_headers (chain_headers q rid) (r_headers out) -> k ∉ limit_names ->
  k <> "Vary" -> String.prefix "Access-Control-" k = false ->
  r_headers out !! k = SecurityHeaders cfg {[RequestIDHeader := rid]} !! k.
Proof.
  intros Hk Hl Hv Hp. rewrite (Hk k Hl). unfold chain_headers.
  apply lookup_union_r, eq_None_not_Some. intros Hs. apply cors_law in Hs as [?|?]; congruence.
Qed.

(** C9. Every reply, of whatever route or middleware, carries the request's id (the client's,
    or a new uuid) and the security headers; HSTS in production and only there. *)
Theorem reply_headers `{!CorsLaws} q a s out s' :
  sv_inv s -> ServeHTTP cfg uc guard rl q a s = (Some out, s') ->
  (exists rid, r_headers out !! RequestIDHeader = Some rid /\
     (q_request_id q <> "" -> rid = q_request_id q) /\
     (q_request_id q = "" -> rid ∉ issued (h_world (sv_http s)))) /\
  r_headers out !! "X-Content-Type-Options" = Some "nosniff" /\
  r_headers out !! "X-Frame-Options" = Some "DENY" /\
  r_headers out !! "Content-Security-Policy" = Some "default-src 'none'; frame-ancestors 'none'" /\
  (r_headers out !! "Strict-Transport-Security" =
     if (Environment cfg =? EnvironmentProduction)%string
     then Some "max-age=31536000; includeSubDomains" else None).
Proof.
  intros Hi Hrun. destruct (wp_run _ _ _ _ _ (ServeHTTP_served q a s Hi) Hrun) as (rid & Hid & Hf & Hs).
  pose proof (sd_headers _ _ _ _ _ _ Hs out eq_refl) as Hk.
  split; [exists rid; split; [|done]|split_and!];
    (rewrite (chain_header _ _ _ _ Hk); [|unfold limit_names; set_solver|done|done]);
    unfold SecurityHeaders; destruct (_ =? _)%string; by simplify_map_eq.
Qed.

(** Every reply is counted exactly once, under its method, the pattern of its route (never
    the path as it came) and its final status; and unless cors cut it off, one line of
    the access log tells the same status and id. *)
Theorem reply_counted q a s out s' :
  sv_inv s -> ServeHTTP cfg uc guard rl q a s = (Some out, s') ->
  counted q (r_status out) s s' /\
  ((cors_handle (CORSMiddleware_config cfg) q).1 = None ->
     exists rid, logged q a rid (r_status out) s s' /\ (q_request_id q <> "" -> rid = q_request_id q)).
Proof.
  intros Hi Hrun. destruct (wp_run _ _ _ _ _ (ServeHTTP_served q a s Hi) Hrun) as (rid & Hid & Hf & Hs).
  split; [exact (sd_counted _ _ _ _ _ _ Hs out eq_refl)|]. intros Hc. exists rid.
  split; [exact (sd_logged _ _ _ _ _ _ Hs Hc out eq_refl)|done].
Qed.

(** Accounts change only through an /auth route, of a request that cors let pass, the
    limiter admitted and whose body is at most 4 KiB; the change is audited under the
    reply's request id. *)
Theorem account_change_admitted q a s o s' :
  sv_inv s -> ServeHTTP cfg uc guard rl q a s = (o, s') -> sv_rows s' <> sv_rows s ->
  (cors_handle (CORSMiddleware_config cfg) q).1 = None /\
  (exists r, q_target q = Api r /\ forall hdr, r <> GetMe hdr) /\
  (exists n, q_body q = Some n /\ (n <= 4096)%Z) /\
  exists rid, (q_request_id q <> "" -> rid = q_request_id q) /\
    (exists lo, RateLimiter.Middleware rl (q_ip q) rid (sv_limiter s) = (lo, sv_limiter s') /\
       RateLimiter.o_verdict lo = RateLimiter.Next) /\
    exists e, h_audit (sv_http s') = e :: h_audit (sv_http s) /\ ev_RequestID e = rid /\ ev_IP e = q_ip q.
Proof.
  intros Hi Hrun Hne.
  destruct (wp_run _ _ _ _ _ (ServeHTTP_served q a s Hi) Hrun) as (rid & Hid & Hf & [_ _ _ _ Hd]).
  destruct Hd as [[Hu _]|(Hc & s1 & s2 & Hu & Hl1 & Hh2 & Hl2 & Hd)]; [by apply untouched_rows in Hu|].
  pose proof (untouched_inv _ _ Hu Hi) as Hi1. pose proof (untouched_rows _ _ Hu) as Hr1.
  destruct Hu as (_ & _ & _ & Ha1 & _).
  destruct Hd as (r & out & caps & Hq & Hroute & Hs & Ho).
  destruct (wp_run _ _ _ _ _ (serve_effect uc guard _ _ _ Hi1) Hs) as [_ _ [(Hr & _)|Hcall]].
  { destruct Hne. unfold sv_rows in *. congruence. }
  destruct (call_changes _ _ _ _ _ Hcall) as (call & Hrc & e & He & Hev).
  { unfold sv_rows in *. congruence. }
  destruct (bind_under_cut _ _ _ _ Hrc) as (Hw & _ & Hme).
  destruct (Hroute Hme) as (-> & lo & Hlo & Hv). rewrite Hl1, Hl2 in Hlo.
  split_and!; [done|by exists r|by apply within_caps|]. exists rid. split_and!; [done|by exists lo|].
  exists e. destruct Hev as (succ & _ & Hip & Hrid). split_and!; [congruence|done|done].
Qed.

(** A limited request, 429, changes nothing: no account, no key, no cached user, no audit
    event. *)
Theorem limited_untouched q a s out s' :
  sv_inv s -> ServeHTTP cfg uc guard rl q a s = (Some out, s') -> r_status out = 429%Z -> untouched s s'.
Proof.
  intros Hi Hrun H429.
  destruct (wp_run _ _ _ _ _ (ServeHTTP_served q a s Hi) Hrun) as (rid & Hid & Hf & [_ _ _ _ Hd]).
  destruct Hd as [[Hu _]|(Hc & s1 & s2 & Hu & Hl1 & Hh2 & Hl2 & Hd)]; [done|exfalso].
  destruct (handled_effect _ _ _ _ _ _ (untouched_inv _ _ Hu Hi) Hd) as (r & o & caps & _ & Hef & Ho).
  destruct o as [o|]; [|done]. destruct Ho as (h & [= ->]).
  pose proof (cl_code _ _ _ _ (ef_clean _ _ _ _ _ _ Hef o eq_refl)) as Hin. simpl in H429.
  rewrite H429 in Hin. unfold statuses in Hin.
  by repeat (apply elem_of_cons in Hin as [Hin|Hin]; [done|]); apply not_elem_of_nil in Hin.
Qed.
End router_props.
