(* ===== verification/Json.v ===== *)
(** encoding/json as the program uses it: the text of a value, and its reader.

    [json_text] is the compact text [json.Marshal] writes; [json_read] is what
    [json.Unmarshal] and a [json.Decoder] find in a text, the nesting limit
    included.  Strings are byte strings: the encoder replaces a byte that starts no
    valid UTF-8 sequence by U+FFFD ([scrub]), so what is read back is the scrubbed
    value ([json_read_text]), and the text itself never holds a line end
    ([json_text_one_line]). *)

From Stdlib Require Import Ascii String ZArith.
From stdpp Require Import base gmap strings list pretty.
From S2P Require Import Prelude GoStrings.

Open Scope string_scope.

(** * Runes *)

Definition replacement : string := encode_rune 65533.

(** [strings.ToValidUTF8] byte by byte: what the encoder makes of a Go string. *)
Fixpoint scrub_go (skip : nat) (s : string) : string :=
  match s with
  | EmptyString => EmptyString
  | String a r =>
      match skip with
      | S k => String a (scrub_go k r)
      | O => match rune_len s with
             | O => replacement +:+ scrub_go 0 r
             | S n => String a (scrub_go n r)
             end
      end
  end.
Definition scrub (s : string) : string := scrub_go 0 s.

Definition high_byte (a : ascii) : bool := negb (is_ascii_byte a).

Lemma scrub_go_valid k s : valid_utf8_go k s = true -> scrub_go k s = s.
Proof.
  revert k. induction s as [|a s IH]; intros k Hv; [done|].
  cbn [valid_utf8_go scrub_go] in *. destruct k as [|k]; [|by rewrite IH].
  destruct (rune_len (String a s)); [done|]. by rewrite IH.
Qed.

Lemma scrub_valid s : valid_utf8 s = true -> scrub s = s.
Proof. apply scrub_go_valid. Qed.

Lemma cont_high a : cont a = true -> high_byte a = true.
Proof.
  unfold cont, high_byte, is_ascii_byte. intros [H1%N.leb_le _]%andb_prop.
  apply negb_true_iff, N.ltb_ge. lia.
Qed.

(** Second byte of a sequence of three or four bytes, and the rest of it. *)
Lemma three_high a b d :
  (((code a =? 224) && (160 <=? code b) && (code b <=? 191)
    || (225 <=? code a) && (code a <=? 236) && (128 <=? code b) && (code b <=? 191)
    || (code a =? 237) && (128 <=? code b) && (code b <=? 159)
    || (238 <=? code a) && (code a <=? 239) && (128 <=? code b) && (code b <=? 191))%N
   && cont d) = true -> high_byte b = true /\ high_byte d = true.
Proof.
  intros [Hb ->%cont_high]%andb_prop. split; [|done].
  unfold high_byte, is_ascii_byte. apply negb_true_iff, N.ltb_ge.
  rewrite !orb_true_iff, !andb_true_iff, !N.leb_le, !N.eqb_eq in Hb. lia.
Qed.

Lemma four_high a b d f :
  (((code a =? 240) && (144 <=? code b) && (code b <=? 191)
    || (241 <=? code a) && (code a <=? 243) && (128 <=? code b) && (code b <=? 191)
    || (code a =? 244) && (128 <=? code b) && (code b <=? 143))%N
   && cont d && cont f) = true ->
  high_byte b = true /\ high_byte d = true /\ high_byte f = true.
Proof.
  intros [[Hb ->%cont_high]%andb_prop ->%cont_high]%andb_prop. split; [|done].
  unfold high_byte, is_ascii_byte. apply negb_true_iff, N.ltb_ge.
  rewrite !orb_true_iff, !andb_true_iff, !N.leb_le, !N.eqb_eq in Hb. lia.
Qed.

(** A sequence of the length [rune_len] has found, with whatever follows it. *)
Lemma rune_len_split a r n :
  is_ascii_byte a = false -> rune_len (String a r) = S n ->
  exists p q, r = p +:+ q /\ String.length p = n /\ 0 < n /\ string_forall high_byte p = true /\
    forall x, rune_len (String a (p +:+ x)) = S n.
Proof.
  intros Ha. assert (code a <? 128 = false)%N as Ha' by apply Ha.
  destruct r as [|b [|d [|f r]]]; cbn [rune_len]; rewrite Ha'.
  - done.
  - destruct (_ && cont b) eqn:E2; [|done]. intros [= <-].
    exists (String b ""), "". split_and!; try done; try lia.
    + apply andb_prop in E2 as [_ Hb%cont_high]. cbn. by rewrite Hb.
    + intros x. rewrite !app_cons_string, app_nil_l_string. by rewrite E2.
  - destruct (_ && cont b) eqn:E2.
    + intros [= <-]. exists (String b ""), (String d ""). split_and!; try done; try lia.
      * apply andb_prop in E2 as [_ Hb%cont_high]. cbn. by rewrite Hb.
      * intros x. rewrite !app_cons_string, app_nil_l_string. by rewrite E2.
    + destruct (_ && cont d) eqn:E3; [|done]. intros [= <-].
      exists (String b (String d "")), "". split_and!; try done; try lia.
      * apply three_high in E3 as [Hb Hd]. cbn. by rewrite Hb, Hd.
      * intros x. rewrite !app_cons_string, app_nil_l_string. by rewrite E2, E3.
  - destruct (_ && cont b) eqn:E2.
    + intros [= <-]. exists (String b ""), (String d (String f r)). split_and!; try done; try lia.
      * apply andb_prop in E2 as [_ Hb%cont_high]. cbn. by rewrite Hb.
      * intros x. rewrite !app_cons_string, app_nil_l_string. by rewrite E2.
    + destruct (_ && cont d) eqn:E3.
      * intros [= <-]. exists (String b (String d "")), (String f r). split_and!; try done; try lia.
        -- apply three_high in E3 as [Hb Hd]. cbn. by rewrite Hb, Hd.
        -- intros x. rewrite !app_cons_string, app_nil_l_string. by rewrite E2, E3.
      * destruct (_ && cont f) eqn:E4; [|done]. intros [= <-].
        exists (String b (String d (String f ""))), r. split_and!; try done; try lia.
        -- apply four_high in E4 as (Hb & Hd & Hf). cbn. by rewrite Hb, Hd, Hf.
        -- intros x. by rewrite !app_cons_string, E2, E3, E4.
Qed.

Lemma rune_len_le s : rune_len s <= 4.
Proof. unfold rune_len. repeat case_match; lia. Qed.

(** Induction on a byte string as the encoder walks it: an ASCII byte, a byte that
    starts no rune, a rune of several bytes. *)
Lemma utf8_ind (P : string -> Prop) :
  P "" ->
  (forall a r, is_ascii_byte a = true -> P r -> P (String a r)) ->
  (forall a r, is_ascii_byte a = false -> rune_len (String a r) = 0 -> P r -> P (String a r)) ->
  (forall a p q, is_ascii_byte a = false -> string_forall high_byte p = true ->
     (forall x, rune_len (String a (p +:+ x)) = S (String.length p)) ->
     0 < String.length p <= 3 -> P q -> P (String a (p +:+ q))) ->
  forall s, P s.
Proof.
  intros H0 Ha Hb Hr s. remember (String.length s) as n eqn:Hn.
  revert s Hn. induction (lt_wf n) as [n _ IH]. intros [|a r] ->; [done|].
  assert (P r) as Pr by (apply (IH (String.length r)); simpl; [lia|done]).
  destruct (is_ascii_byte a) eqn:E; [by apply Ha|].
  destruct (rune_len (String a r)) as [|n] eqn:En; [by apply Hb|].
  pose proof (rune_len_le (String a r)).
  destruct (rune_len_split a r n E En) as (p & q & -> & Hp & Hpos & Hhigh & Hx).
  apply Hr; [done|done|by rewrite Hp|lia|].
  apply (IH (String.length q)); simpl; [rewrite length_app_string; lia|done].
Qed.

(** * String literals *)

(** The scanner: the literal up to its closing quote, and what follows. *)
Fixpoint scan_string (s : string) : option (string * string) :=
  match s with
  | EmptyString => None
  | String a r =>
      if (code a =? 34)%N then Some (quote, r)
      else if (code a =? 92)%N then
        match r with
        | String b r' => prod_map (fun t => String a (String b t)) id <$> scan_string r'
        | EmptyString => None
        end
      else prod_map (String a) id <$> scan_string r
  end.

Definition read_string (s : string) : option (string * string) :=
  '(raw, rest) ← scan_string s; v ← json_Unmarshal (quote +:+ raw); Some (v, rest).

(** No bare quote, and no backslash without the byte it escapes. *)
Fixpoint quiet (p : string) : bool :=
  match p with
  | EmptyString => true
  | String a r =>
      if (code a =? 34)%N then false
      else if (code a =? 92)%N then
        match r with String _ r' => quiet r' | EmptyString => false end
      else quiet r
  end.

Lemma quiet_scan p x : quiet p = true ->
  scan_string (p +:+ x) = prod_map (String.append p) id <$> scan_string x.
Proof.
  remember (String.length p) as n eqn:Hn. revert p Hn.
  induction (lt_wf n) as [n _ IH]. intros [|a p] Hn Hp.
  - rewrite app_nil_l_string. by destruct (scan_string x) as [[]|].
  - rewrite app_cons_string. cbn [scan_string quiet] in *.
    destruct (code a =? 34)%N; [done|]. destruct (code a =? 92)%N.
    + destruct p as [|b p]; [done|]. rewrite app_cons_string.
      rewrite (IH (String.length p)) by (simpl in Hn; lia || done).
      by destruct (scan_string x) as [[]|].
    + rewrite (IH (String.length p)) by (simpl in Hn; lia || done).
      by destruct (scan_string x) as [[]|].
Qed.

Lemma quiet_high p : string_forall high_byte p = true -> quiet p = true.
Proof.
  induction p as [|a p IH]; [done|]. cbn. unfold high_byte, is_ascii_byte.
  intros [Ha%negb_true_iff%N.ltb_ge Hp]%andb_prop.
  by rewrite (proj2 (N.eqb_neq _ 34)), (proj2 (N.eqb_neq _ 92)) by lia; auto.
Qed.

Definition printable (a : ascii) : bool := negb (code a <? 32)%N.

(** A piece of a literal: it prints [u], the scanner passes over it, the reader turns it
    back into [u], it has no control character. *)
Record piece (p u : string) : Prop := {
  piece_pos : 0 < String.length p;
  piece_scan : forall x, scan_string (p +:+ x) = prod_map (String.append p) id <$> scan_string x;
  piece_read : forall fuel x,
    json_unescape_go (S fuel) None (p +:+ x) = String.append u <$> json_unescape_go fuel None x;
  piece_line : string_forall printable p = true;
}.

Inductive written : string -> string -> Prop :=
| written_nil : written "" ""
| written_piece p u t s : piece p u -> written t s -> written (p +:+ t) (u +:+ s).

Lemma piece_ascii a : is_ascii_byte a = true -> piece (json_escape_ascii a) (String a "").
Proof.
  intros Ha. split.
  - byte_cases a; cbv; lia.
  - intros x. apply quiet_scan. byte_cases a; first [discriminate Ha | reflexivity].
  - intros fuel x. by apply json_unescape_step.
  - byte_cases a; first [discriminate Ha | reflexivity].
Qed.

Lemma piece_replacement : piece (backslash +:+ "ufffd") replacement.
Proof. split; [cbv; lia|intros x; by apply quiet_scan|done|done]. Qed.

Lemma piece_rune a p :
  is_ascii_byte a = false -> string_forall high_byte p = true ->
  (forall x, rune_len (String a (p +:+ x)) = S (String.length p)) ->
  0 < String.length p <= 3 -> piece (String a p) (String a p).
Proof.
  intros Ha Hp Hr Hl. assert (string_forall high_byte (String a p) = true) as Hq.
  { apply andb_true_intro. split; [unfold high_byte; by rewrite Ha|done]. }
  split; [simpl; lia|intros x; by apply quiet_scan, quiet_high| |].
  - intros fuel x. rewrite app_cons_string. specialize (Hr x). cbn [json_unescape_go].
    rewrite Hr, Ha. unfold is_ascii_byte in Ha. apply N.ltb_ge in Ha.
    rewrite (proj2 (N.eqb_neq _ 34)), (proj2 (N.eqb_neq _ 92)), (proj2 (N.ltb_ge _ 32)) by lia.
    clear -Hl. destruct p as [|b [|d [|f [|]]]]; cbn in Hl; try lia; reflexivity.
  - eapply string_forall_impl, Hq. unfold high_byte, is_ascii_byte, printable. intros b Hb.
    apply negb_true_iff, N.ltb_ge in Hb. apply negb_true_iff, N.ltb_ge. lia.
Qed.

Lemma piece_separator a p q t :
  (forall x, rune_len (String a (p +:+ x)) = S (String.length p)) ->
  line_separator (String a (p +:+ q)) = Some t -> piece t (String a p).
Proof.
  intros Hr Hs. assert (exists b d r, p +:+ q = String b (String d r) /\
    code a = 226%N /\ code b = 128%N /\
    ((code d = 168%N /\ t = backslash +:+ "u2028") \/ (code d = 169%N /\ t = backslash +:+ "u2029")))
    as (b & d & r & Hpq & Ea & Eb & Hd).
  { unfold line_separator in Hs. destruct (p +:+ q) as [|b [|d r]]; try done.
    destruct ((code a =? 226) && (code b =? 128))%N eqn:E; [|done].
    apply andb_prop in E as [Ea%N.eqb_eq Eb%N.eqb_eq]. exists b, d, r. split_and!; try done.
    destruct (code d =? 168)%N eqn:E8; [left; apply N.eqb_eq in E8; by injection Hs as <-|].
    destruct (code d =? 169)%N eqn:E9; [|done]. right. apply N.eqb_eq in E9. by injection Hs as <-. }
  assert (forall c n, code c = n -> c = chr n) as Hcode.
  { intros c n <-. symmetry. apply ascii_N_embedding. }
  apply Hcode in Ea as ->. apply Hcode in Eb as ->.
  assert (p = String (chr 128) (String d "")) as ->.
  { pose proof (Hr q) as Hq. rewrite Hpq in Hq.
    assert (String.length p = 2) as Hl.
    { destruct Hd as [[Hd _]|[Hd _]]; apply Hcode in Hd as ->; injection Hq; auto. }
    destruct p as [|x [|y [|]]]; try done. rewrite !app_cons_string in Hpq.
    by injection Hpq as -> -> _. }
  destruct Hd as [[Hd ->]|[Hd ->]]; apply Hcode in Hd as ->.
  all: split; [cbv; lia|intros x; by apply quiet_scan|done|done].
Qed.

Lemma escape_copy p q : json_escape_go (Copy (String.length p)) (p +:+ q) = p +:+ json_escape_go (Copy 0) q.
Proof. induction p as [|a p IH]; [done|]. rewrite !app_cons_string. cbn. by rewrite IH. Qed.

Lemma escape_discard p q :
  0 < String.length p ->
  json_escape_go (Discard (String.length p)) (p +:+ q) = json_escape_go (Copy 0) q.
Proof.
  assert (forall q, json_escape_go (Discard 0) q = json_escape_go (Copy 0) q) as H0 by by intros [].
  induction p as [|a p IH]; [simpl; lia|]. intros _. rewrite app_cons_string. cbn.
  destruct p as [|b p]; [apply H0|]. apply IH. simpl. lia.
Qed.

Lemma scrub_copy p q : scrub_go (String.length p) (p +:+ q) = p +:+ scrub_go 0 q.
Proof. induction p as [|a p IH]; [done|]. rewrite !app_cons_string. cbn. by rewrite IH. Qed.

Lemma escape_written s : written (json_escape_go (Copy 0) s) (scrub s).
Proof.
  unfold scrub. induction s as [|a r Ha IH|a r Ha Hr IH|a p q Ha Hp Hr Hl IH] using utf8_ind.
  - constructor.
  - cbn [json_escape_go scrub_go]. rewrite Ha.
    assert (rune_len (String a r) = 1) as ->.
    { unfold rune_len. unfold is_ascii_byte in Ha. by rewrite Ha. }
    apply (written_piece _ (String a "")); [by apply piece_ascii|done].
  - cbn [json_escape_go scrub_go]. rewrite Ha, Hr, app_assoc_string.
    apply written_piece; [apply piece_replacement|done].
  - cbn [json_escape_go scrub_go]. rewrite Ha, Hr, scrub_copy.
    destruct (line_separator (String a (p +:+ q))) as [t|] eqn:Hs.
    + rewrite escape_discard by lia. apply (written_piece t (String a p)); [|done].
      by eapply piece_separator.
    + rewrite escape_copy. apply (written_piece (String a p) (String a p)); [|done].
      by apply piece_rune.
Qed.

Lemma written_scan t s rest : written t s ->
  scan_string (t +:+ quote +:+ rest) = Some (t +:+ quote, rest).
Proof.
  induction 1 as [|p u t s Hp _ IH]; [done|].
  rewrite <- !app_assoc_string, (piece_scan _ _ Hp), IH. done.
Qed.

Lemma written_read t s fuel : written t s -> String.length t < fuel ->
  json_unescape_go fuel None (t +:+ quote) = Some s.
Proof.
  intros Hw. revert fuel. induction Hw as [|p u t s Hp _ IH]; intros [|fuel] Hf; simpl in Hf; try lia.
  - done.
  - pose proof (piece_pos _ _ Hp). rewrite length_app_string in Hf.
    rewrite <- app_assoc_string, (piece_read _ _ Hp), IH by lia. done.
Qed.

Lemma written_line t s : written t s -> string_forall printable t = true.
Proof.
  induction 1 as [|p u t s Hp _ IH]; [done|]. by rewrite string_forall_app, (piece_line _ _ Hp).
Qed.

Lemma json_Unmarshal_Marshal s : json_Unmarshal (json_Marshal s) = Some (scrub s).
Proof.
  unfold json_Marshal, json_Unmarshal.
  change (drop_json_space (quote +:+ ?x)) with (quote +:+ x).
  cbn [String.append quote]. change (code (chr 34) =? 34)%N with true. cbn iota.
  apply (written_read _ _ _ (escape_written s)). rewrite length_app_string. simpl. lia.
Qed.

Lemma read_string_Marshal s rest :
  exists t, json_Marshal s +:+ rest = quote +:+ t /\ read_string t = Some (scrub s, rest).
Proof.
  exists (json_escape_go (Copy 0) s +:+ quote +:+ rest).
  unfold json_Marshal at 1. rewrite <- !app_assoc_string. split; [done|].
  unfold read_string. rewrite (written_scan _ _ _ (escape_written s)). cbn.
  change (quote +:+ json_escape_go (Copy 0) s +:+ quote) with (json_Marshal s).
  by rewrite json_Unmarshal_Marshal.
Qed.

(** * Numbers *)

Definition is_digit (a : ascii) : bool := ((48 <=? code a) && (code a <=? 57))%N.

Fixpoint drop_digits (s : string) : string :=
  match s with
  | String a r => if is_digit a then drop_digits r else s
  | EmptyString => EmptyString
  end.

(** At least one digit, and what follows the digits. *)
Definition some_digits (s : string) : option string :=
  match s with
  | String a r => if is_digit a then Some (drop_digits r) else None
  | EmptyString => None
  end.

Definition drop_int (s : string) : option string :=
  match s with
  | String a r => if (code a =? 48)%N then Some r else some_digits s
  | EmptyString => None
  end.
Definition drop_frac (s : string) : option string :=
  match s with
  | String a r => if (code a =? 46)%N then some_digits r else Some s
  | EmptyString => Some ""
  end.
Definition drop_exp (s : string) : option string :=
  match s with
  | String a r =>
      if ((code a =? 101) || (code a =? 69))%N then
        match r with
        | String b r' => some_digits (if ((code b =? 43) || (code b =? 45))%N then r' else r)
        | EmptyString => None
        end
      else Some s
  | EmptyString => Some ""
  end.

(** [-? int frac? exp?], the whole text. *)
Definition valid_number (s : string) : bool :=
  let s := match s with String a r => if (code a =? 45)%N then r else s | _ => s end in
  let rest := x ← drop_int s; y ← drop_frac x; drop_exp y in
  bool_decide (rest = Some "").

Definition number_byte (a : ascii) : bool :=
  is_digit a || ((code a =? 43) || (code a =? 45) || (code a =? 46) || (code a =? 101) || (code a =? 69))%N.

#[local] Arguments number_byte : simpl never.
#[local] Arguments is_digit : simpl never.

(** The longest prefix of bytes a number can have. *)
Fixpoint span_number (s : string) : string * string :=
  match s with
  | String a r => if number_byte a then let '(x, y) := span_number r in (String a x, y) else ("", s)
  | EmptyString => ("", "")
  end.

Definition number_ends (rest : string) : bool :=
  match rest with String a _ => negb (number_byte a) | EmptyString => true end.

Lemma span_number_app p rest :
  string_forall number_byte p = true -> number_ends rest = true ->
  span_number (p +:+ rest) = (p, rest).
Proof.
  intros Hp Hr. induction p as [|a p IH].
  - rewrite app_nil_l_string. destruct rest as [|a r]; [done|]. apply negb_true_iff in Hr.
    cbn. by rewrite Hr.
  - cbn in Hp. apply andb_prop in Hp as [Ha Hp]. rewrite app_cons_string. cbn.
    by rewrite Ha, IH.
Qed.

Lemma pretty_N_char_is_digit n : (n < 10)%N -> is_digit (pretty_N_char n) = true.
Proof. intros Hn. destruct n as [|p]; [done|]. do 9 (destruct p as [p|p|]; try done; try lia). Qed.

Lemma drop_digits_all s : string_forall is_digit s = true -> drop_digits s = "".
Proof. induction s as [|a s IH]; [done|]. cbn. intros [-> H]%andb_prop. auto. Qed.

(** The digits of a positive number start with none of them zero. *)
Lemma pretty_N_go_lead x s :
  (0 < x)%N -> string_forall is_digit s = true ->
  exists n t, (0 < n < 10)%N /\ pretty_N_go x s = String (pretty_N_char n) t /\
    string_forall is_digit t = true.
Proof.
  revert s. induction (N.lt_wf_0 x) as [x _ IH]; intros s Hx Hs.
  rewrite pretty_N_go_step by done.
  assert (x `mod` 10 < 10)%N as Hm by by apply N.mod_lt.
  destruct (decide (x < 10)%N) as [Hlt|Hge].
  - rewrite N.div_small by done. rewrite pretty_N_go_0. rewrite N.mod_small by done. by exists x, s.
  - apply IH; [by apply N.div_lt| |].
    + apply N.div_str_pos. lia.
    + cbn. by rewrite pretty_N_char_is_digit.
Qed.

Lemma Itoa_cases z :
  Itoa z = "0" \/ exists sign n t, (sign = "" \/ sign = "-") /\ (0 < n < 10)%N /\
    Itoa z = sign +:+ String (pretty_N_char n) t /\ string_forall is_digit t = true.
Proof.
  assert (forall p, exists n t, (0 < n < 10)%N /\ pretty (N.pos p) = String (pretty_N_char n) t /\
    string_forall is_digit t = true) as Hp.
  { intros p. unfold pretty, pretty_N. case_decide; [done|]. by apply pretty_N_go_lead. }
  unfold Itoa. destruct z as [|p|p]; [by left| |]; right; destruct (Hp p) as (n & t & Hn & Heq & Ht).
  - exists "", n, t. split_and!; try done; [by left| |]; try lia.
  - exists "-", n, t. split_and!; try lia; [by right| |done].
    change (pretty (Z.neg p)) with ("-" +:+ pretty (N.pos p)). by rewrite Heq.
Qed.

Lemma lead_digit n : (0 < n < 10)%N ->
  (code (pretty_N_char n) =? 45)%N = false /\ (code (pretty_N_char n) =? 48)%N = false /\
  is_digit (pretty_N_char n) = true.
Proof. intros Hn. destruct n as [|p]; [lia|]. do 9 (destruct p as [p|p|]; try done; try lia). Qed.

Lemma valid_number_Itoa z : valid_number (Itoa z) = true.
Proof.
  destruct (Itoa_cases z) as [->|(sign & n & t & Hsign & Hn & -> & Ht)]; [done|].
  destruct (lead_digit n Hn) as (H45 & H48 & Hd).
  unfold valid_number. destruct Hsign as [->| ->]; rewrite ?app_cons_string, ?app_nil_l_string.
  - rewrite H45. cbn. by rewrite H48, Hd, (drop_digits_all t Ht).
  - change (code "-" =? 45)%N with true. cbn. by rewrite H48, Hd, (drop_digits_all t Ht).
Qed.

Lemma Itoa_number_bytes z : string_forall number_byte (Itoa z) = true.
Proof.
  destruct (Itoa_cases z) as [->|(sign & n & t & Hsign & Hn & -> & Ht)]; [done|].
  assert (forall a, is_digit a = true -> number_byte a = true) as Hd.
  { intros a Ha. unfold number_byte. by rewrite Ha. }
  rewrite string_forall_app. apply andb_true_intro. split; [by destruct Hsign as [->| ->]|].
  cbn. rewrite (Hd _ (proj2 (proj2 (lead_digit n Hn)))). by apply (string_forall_impl is_digit).
Qed.

(** * Values *)

(** A number is kept as its literal. *)
Inductive json :=
| JNull
| JBool (b : bool)
| JNum (lit : string)
| JStr (s : string)
| JArr (vs : list json)
| JObj (ms : list (string * json)).

Definition JInt (z : Z) : json := JNum (Itoa z).

Section json_ind.
Variable P : json -> Prop.
Hypotheses (HNull : P JNull) (HBool : forall b, P (JBool b)) (HNum : forall l, P (JNum l))
  (HStr : forall s, P (JStr s)) (HArr : forall vs, Forall P vs -> P (JArr vs))
  (HObj : forall ms, Forall (fun m => P m.2) ms -> P (JObj ms)).

(** Induction with the values inside arrays and objects. *)
Fixpoint json_ind' (v : json) : P v :=
  match v with
  | JNull => HNull
  | JBool b => HBool b
  | JNum l => HNum l
  | JStr s => HStr s
  | JArr vs => HArr vs ((fix go vs : Forall P vs := match vs with
      | [] => Forall_nil_2 _ | v :: r => Forall_cons_2 _ _ _ (json_ind' v) (go r) end) vs)
  | JObj ms => HObj ms ((fix go ms : Forall (fun m => P m.2) ms := match ms with
      | [] => Forall_nil_2 _ | m :: r => Forall_cons_2 _ _ _ (json_ind' m.2) (go r) end) ms)
  end.
End json_ind.

Definition comma (vs : list string) : string := String.concat "," vs.

(** What [json.Marshal] writes. *)
Fixpoint json_text (v : json) : string :=
  match v with
  | JNull => "null"
  | JBool b => if b then "true" else "false"
  | JNum lit => lit
  | JStr s => json_Marshal s
  | JArr vs => "[" +:+ comma (map json_text vs) +:+ "]"
  | JObj ms => "{" +:+ comma (map (fun m => json_Marshal m.1 +:+ ":" +:+ json_text m.2) ms) +:+ "}"
  end.

Fixpoint json_scrub (v : json) : json :=
  match v with
  | JStr s => JStr (scrub s)
  | JArr vs => JArr (map json_scrub vs)
  | JObj ms => JObj (map (fun m => (scrub m.1, json_scrub m.2)) ms)
  | _ => v
  end.

(** The numbers of the value are numbers, and it nests at most [d] deep. *)
Fixpoint json_ok (d : nat) (v : json) {struct v} : bool :=
  match v with
  | JNum lit => valid_number lit && string_forall number_byte lit
  | JArr vs => match d with O => false | S d => forallb (json_ok d) vs end
  | JObj ms => match d with O => false | S d => forallb (fun m => json_ok d m.2) ms end
  | _ => true
  end.

(** * The reader *)

Definition literal (lit : string) (v : json) (s : string) : option (json * string) :=
  if String.prefix lit s
  then Some (v, String.substring (String.length lit) (String.length s) s) else None.

Definition read_number (s : string) : option (json * string) :=
  let '(lit, rest) := span_number s in
  if valid_number lit then Some (JNum lit, rest) else None.

Definition read_scalar (s : string) : option (json * string) :=
  match s with
  | String a r =>
      if (code a =? 34)%N then '(x, rest) ← read_string r; Some (JStr x, rest)
      else if (code a =? 110)%N then literal "null" JNull s
      else if (code a =? 116)%N then literal "true" (JBool true) s
      else if (code a =? 102)%N then literal "false" (JBool false) s
      else read_number s
  | EmptyString => None
  end.

(** One value, its members or its elements after the opening bracket, and the text that
    follows.  [depth] is the nesting still allowed.  One byte of the text accounts for at
    most two calls. *)
Fixpoint read_value (fuel depth : nat) (s : string) : option (json * string) :=
  match fuel with
  | O => None
  | S fuel =>
      let s := drop_json_space s in
      match s with
      | EmptyString => None
      | String a r =>
          if (code a =? 123)%N then
            match depth with
            | O => None
            | S depth =>
                match drop_json_space r with
                | String b r' =>
                    if (code b =? 125)%N then Some (JObj [], r')
                    else '(ms, rest) ← read_members fuel depth (String b r'); Some (JObj ms, rest)
                | EmptyString => None
                end
            end
          else if (code a =? 91)%N then
            match depth with
            | O => None
            | S depth =>
                match drop_json_space r with
                | String b r' =>
                    if (code b =? 93)%N then Some (JArr [], r')
                    else '(vs, rest) ← read_elements fuel depth (String b r'); Some (JArr vs, rest)
                | EmptyString => None
                end
            end
          else read_scalar s
      end
  end
with read_members (fuel depth : nat) (s : string) : option (list (string * json) * string) :=
  match fuel with
  | O => None
  | S fuel =>
      match drop_json_space s with
      | EmptyString => None
      | String a r =>
          if negb (code a =? 34)%N then None else
          '(k, r1) ← read_string r;
          match drop_json_space r1 with
          | EmptyString => None
          | String b r2 =>
              if negb (code b =? 58)%N then None else
              '(v, r3) ← read_value fuel depth r2;
              match drop_json_space r3 with
              | EmptyString => None
              | String d r4 =>
                  if (code d =? 125)%N then Some ([(k, v)], r4)
                  else if (code d =? 44)%N then
                    '(ms, rest) ← read_members fuel depth r4; Some ((k, v) :: ms, rest)
                  else None
              end
          end
      end
  end
with read_elements (fuel depth : nat) (s : string) : option (list json * string) :=
  match fuel with
  | O => None
  | S fuel =>
      '(v, r1) ← read_value fuel depth s;
      match drop_json_space r1 with
      | EmptyString => None
      | String d r2 =>
          if (code d =? 93)%N then Some ([v], r2)
          else if (code d =? 44)%N then
            '(vs, rest) ← read_elements fuel depth r2; Some (v :: vs, rest)
          else None
      end
  end.

(** [maxNestingDepth] of encoding/json. *)
Definition maxNestingDepth : Z := 10000.

(** The first value of a text, as a [json.Decoder] takes it; what follows is not looked at. *)
Definition json_decode (s : string) : option (json * string) :=
  read_value (2 * String.length s + 2) (Z.to_nat maxNestingDepth) s.

(** The whole text is one value, as [json.Unmarshal] demands. *)
Definition json_read (s : string) : option json :=
  match json_decode s with
  | Some (v, rest) => if string_forall is_json_space rest then Some v else None
  | None => None
  end.

Example json_read_spaced :
  json_read (" { " +:+ json_Marshal "a" +:+ " : [ 1 , -2.5e3,true ] , " +:+ json_Marshal "b" +:+ ": null } ")
  = Some (JObj [("a", JArr [JNum "1"; JNum "-2.5e3"; JBool true]); ("b", JNull)]).
Proof. vm_compute. reflexivity. Qed.

Example json_read_rejects :
  map (fun s => bool_decide (json_read s = None)) ["{"; "01"; "[1,]"; "nul"; "1 2"; ""; "[1}"]
  = repeat true 7.
Proof. vm_compute. reflexivity. Qed.

(** ** What is written reads back *)

(** The first byte is no blank and closes no array. *)
Definition value_front (s : string) : bool :=
  match s with String a _ => negb (is_json_space a || (code a =? 93)%N) | EmptyString => false end.

Lemma drop_json_space_front s t : value_front s = true -> drop_json_space (s +:+ t) = s +:+ t.
Proof.
  destruct s as [|a s]; [done|]. cbn [value_front]. intros [Ha _]%negb_true_iff%orb_false_iff.
  rewrite app_cons_string. cbn. by rewrite Ha.
Qed.

(** The first byte of a number: it opens nothing else. *)
Lemma number_front lit : valid_number lit = true ->
  exists a r, lit = String a r /\ is_json_space a = false /\ (code a =? 34)%N = false /\
    (code a =? 110)%N = false /\ (code a =? 116)%N = false /\ (code a =? 102)%N = false /\
    (code a =? 123)%N = false /\ (code a =? 91)%N = false /\ (code a =? 93)%N = false.
Proof.
  destruct lit as [|a r]; [done|]. intros Hv. exists a, r. split; [done|].
  assert (code a = 45 \/ 48 <= code a <= 57)%N as Ha.
  { unfold valid_number in Hv. destruct (code a =? 45)%N eqn:E; [left; by apply N.eqb_eq in E|].
    cbn [drop_int some_digits] in Hv. destruct (code a =? 48)%N eqn:E48.
    { apply N.eqb_eq in E48. lia. }
    destruct (is_digit a) eqn:Ed; [|done]. unfold is_digit in Ed.
    apply andb_prop in Ed as [?%N.leb_le ?%N.leb_le]. lia. }
  unfold is_json_space. split_and!; rewrite ?orb_false_iff, ?N.eqb_neq; lia.
Qed.

Lemma json_text_front d v : json_ok d v = true -> value_front (json_text v) = true.
Proof.
  destruct v as [|[]|lit| |vs|ms]; try done. cbn. intros [Hv _]%andb_prop.
  destruct (number_front lit Hv) as (a & r & -> & Ha & _ & _ & _ & _ & _ & _ & H93).
  cbn. by rewrite Ha, H93.
Qed.

Lemma prefix_app p s : String.prefix p (p +:+ s) = true.
Proof.
  induction p as [|a p IH]; [by destruct s|]. rewrite app_cons_string. cbn.
  by destruct (ascii_dec a a).
Qed.

Lemma substring_app p s n : String.length s <= n -> String.substring (String.length p) n (p +:+ s) = s.
Proof.
  intros Hn. induction p as [|a p IH]; [by apply substring_all|]. done.
Qed.

Lemma read_literal lit v s : literal lit v (lit +:+ s) = Some (v, s).
Proof. unfold literal. rewrite prefix_app, substring_app; [done|]. rewrite length_app_string. lia. Qed.

Lemma read_scalar_text v rest :
  match v with JArr _ | JObj _ => False | JNum l => valid_number l && string_forall number_byte l = true | _ => True end ->
  number_ends rest = true ->
  read_scalar (json_text v +:+ rest) = Some (json_scrub v, rest).
Proof.
  intros Hv Hrest. destruct v as [|b|lit|s|vs|ms]; try done; cbn [json_text json_scrub].
  - apply (read_literal "null").
  - destruct b; [apply (read_literal "true")|apply (read_literal "false")].
  - apply andb_prop in Hv as [Hv Hb].
    destruct (number_front lit Hv) as (a & r & Hl & Hs & H34 & Hn & Ht & Hf & _).
    transitivity (read_number (lit +:+ rest)).
    { rewrite Hl at 1. rewrite app_cons_string. unfold read_scalar.
      by rewrite H34, Hn, Ht, Hf, <- app_cons_string, <- Hl. }
    unfold read_number. by rewrite span_number_app, Hv.
  - destruct (read_string_Marshal s rest) as (t & -> & Ht).
    change (quote +:+ t) with (String (chr 34) t). unfold read_scalar.
    change (code (chr 34) =? 34)%N with true. cbn iota. by rewrite Ht.
Qed.

(** The value readers on the text of a value; [Forall] carries the induction. *)
Definition reads_back (v : json) : Prop := forall d fuel rest,
  json_ok d v = true -> 2 * String.length (json_text v) < fuel -> number_ends rest = true ->
  read_value fuel d (json_text v +:+ rest) = Some (json_scrub v, rest).

Lemma comma_cons x xs : comma (x :: xs) = x +:+ match xs with [] => "" | _ => "," +:+ comma xs end.
Proof. unfold comma. destruct xs; [|done]. cbn. by rewrite app_nil_r_string. Qed.

Lemma read_elements_text vs d fuel rest :
  Forall reads_back vs -> forallb (json_ok d) vs = true -> vs <> [] ->
  2 * String.length (comma (map json_text vs)) + 1 < fuel ->
  read_elements fuel d (comma (map json_text vs) +:+ "]" +:+ rest) = Some (map json_scrub vs, rest).
Proof.
  intros Hall. revert fuel. induction Hall as [|v vs Hv Hall IH]; intros [|fuel] Hok Hne Hf; try done.
  { simpl in Hf. lia. }
  cbn [forallb] in Hok. apply andb_prop in Hok as [Hv' Hok].
  cbn [map] in *. rewrite comma_cons, <- app_assoc_string in *. rewrite length_app_string in Hf.
  cbn [read_elements]. rewrite Hv by (done || lia || by destruct vs). cbn [mbind option_bind].
  destruct vs as [|w vs]; [done|]. cbn [map] in *. rewrite <- app_assoc_string.
  change (drop_json_space ("," +:+ ?x)) with ("," +:+ x). rewrite app_cons_string, app_nil_l_string.
  change (code "," =? 93)%N with false. change (code "," =? 44)%N with true. cbn iota.
  rewrite app_cons_string, app_nil_l_string in Hf. cbn [String.length] in Hf.
  by rewrite IH by (done || (cbn [map]; lia)).
Qed.

Definition member_text (m : string * json) : string := json_Marshal m.1 +:+ ":" +:+ json_text m.2.

Lemma read_members_text ms d fuel rest :
  Forall (fun m => reads_back m.2) ms -> forallb (fun m => json_ok d m.2) ms = true -> ms <> [] ->
  2 * String.length (comma (map member_text ms)) + 1 < fuel ->
  read_members fuel d (comma (map member_text ms) +:+ "}" +:+ rest)
  = Some (map (fun m => (scrub m.1, json_scrub m.2)) ms, rest).
Proof.
  intros Hall. revert fuel. induction Hall as [|[k v] ms Hv Hall IH]; intros [|fuel] Hok Hne Hf; try done.
  { lia. }
  cbn [forallb] in Hok. apply andb_prop in Hok as [Hv' Hok]. cbn [snd] in Hv, Hv'.
  cbn [map] in *. rewrite comma_cons in *. unfold member_text at 1. unfold member_text at 1 in Hf.
  cbn [fst snd] in *. rewrite !length_app_string in Hf. rewrite <- !app_assoc_string.
  destruct (read_string_Marshal k (":" +:+ json_text v +:+
    match map member_text ms with [] => "" | _ => "," +:+ comma (map member_text ms) end
    +:+ "}" +:+ rest)) as (t & -> & Ht).
  cbn [read_members]. change (drop_json_space (quote +:+ t)) with (String (chr 34) t).
  change (code (chr 34) =? 34)%N with true. cbn [negb]. rewrite Ht. cbn [mbind option_bind].
  change (drop_json_space (":" +:+ ?x)) with (String ":" x). change (code ":" =? 58)%N with true.
  cbn [negb]. rewrite Hv by (done || lia || by destruct ms). cbn [mbind option_bind].
  destruct ms as [|w ms]; [done|]. cbn [map] in *. rewrite <- app_assoc_string.
  change (drop_json_space ("," +:+ ?x)) with (String "," x).
  change (code "," =? 125)%N with false. change (code "," =? 44)%N with true. cbn iota.
  rewrite app_cons_string, app_nil_l_string in Hf. cbn [String.length] in Hf.
  by rewrite IH by (done || lia).
Qed.

Lemma scalar_reads_back v :
  match v with JArr _ | JObj _ => False | _ => True end -> reads_back v.
Proof.
  intros Hv d [|fuel] rest Hok Hf Hrest; [lia|]. cbn [read_value].
  rewrite drop_json_space_front by by eapply json_text_front.
  assert (exists a r, json_text v +:+ rest = String a r /\ (code a =? 123)%N = false /\ (code a =? 91)%N = false)
    as (a & r & Heq & H1 & H2).
  { destruct v as [|[]|lit|s|vs|ms]; try done; try by eexists _, _.
    cbn in Hok. apply andb_prop in Hok as [Hl _].
    destruct (number_front lit Hl) as (a & r & -> & _ & _ & _ & _ & _ & ? & ? & _).
    by exists a, (r +:+ rest). }
  rewrite Heq, H1, H2, <- Heq. apply read_scalar_text; [|done]. by destruct v.
Qed.

Lemma reads_back_all v : reads_back v.
Proof.
  induction v as [|b|l|s|vs IH|ms IH] using json_ind'; try by apply scalar_reads_back.
  - intros [|d] [|fuel] rest Hok Hf Hrest; try done; [lia|]. cbn [json_ok] in Hok.
    cbn [json_text json_scrub] in *. rewrite !length_app_string in Hf. cbn [String.length] in Hf.
    rewrite <- !app_assoc_string. cbn [read_value].
    change (drop_json_space ("[" +:+ ?x)) with (String "[" x).
    change (code "[" =? 123)%N with false. change (code "[" =? 91)%N with true. cbn iota.
    destruct vs as [|v vs]; [done|].
    assert (value_front (comma (map json_text (v :: vs))) = true) as Hfront.
    { cbn [map]. rewrite comma_cons. cbn in Hok. apply andb_prop in Hok as [Hv _].
      apply json_text_front in Hv. by destruct (json_text v). }
    rewrite drop_json_space_front by done.
    destruct (comma (map json_text (v :: vs))) as [|a r] eqn:Hc; [done|].
    cbn [value_front] in Hfront. apply negb_true_iff, orb_false_iff in Hfront as [_ Hfront].
    rewrite app_cons_string, Hfront, <- app_cons_string. rewrite <- Hc in Hf |- *.
    rewrite read_elements_text by (done || lia). done.
  - intros [|d] [|fuel] rest Hok Hf Hrest; try done; [lia|]. cbn [json_ok] in Hok.
    cbn [json_text json_scrub] in *. rewrite !length_app_string in Hf. cbn [String.length] in Hf.
    rewrite <- !app_assoc_string. cbn [read_value].
    change (drop_json_space ("{" +:+ ?x)) with (String "{" x).
    change (code "{" =? 123)%N with true. cbn iota.
    destruct ms as [|m ms]; [done|].
    change (map (fun m => json_Marshal m.1 +:+ ":" +:+ json_text m.2) ?l) with (map member_text l) in *.
    assert (exists r, comma (map member_text (m :: ms)) +:+ "}" +:+ rest = String (chr 34) r) as [r Hr].
    { cbn [map]. rewrite comma_cons. by eexists. }
    rewrite Hr. change (drop_json_space (String (chr 34) r)) with (String (chr 34) r).
    change (code (chr 34) =? 125)%N with false. cbn iota. rewrite <- Hr.
    rewrite read_members_text by (done || lia). done.
Qed.

Lemma json_decode_text v rest :
  json_ok (Z.to_nat maxNestingDepth) v = true -> number_ends rest = true ->
  json_decode (json_text v +:+ rest) = Some (json_scrub v, rest).
Proof.
  intros Hok Hrest. apply reads_back_all; [done| |done]. rewrite length_app_string. lia.
Qed.

(** A value reads back from its text, every string with its invalid bytes replaced. *)
Lemma json_read_text v rest :
  json_ok (Z.to_nat maxNestingDepth) v = true -> string_forall is_json_space rest = true ->
  json_read (json_text v +:+ rest) = Some (json_scrub v).
Proof.
  intros Hok Hrest. unfold json_read. rewrite json_decode_text, Hrest; [done|done|].
  destruct rest as [|a r]; [done|]. cbn in Hrest. apply andb_prop in Hrest as [Ha _].
  cbn. apply negb_true_iff. unfold is_json_space in Ha. unfold number_byte, is_digit.
  rewrite !orb_true_iff, !N.eqb_eq in Ha.
  rewrite !orb_false_iff, !andb_false_iff, !N.eqb_neq, !N.leb_gt. lia.
Qed.

(** The text of a value is one line: no control character in it, whatever the strings are. *)
Lemma json_Marshal_line s : string_forall printable (json_Marshal s) = true.
Proof.
  unfold json_Marshal. rewrite !string_forall_app. by rewrite (written_line _ _ (escape_written s)).
Qed.

Lemma comma_line xs : Forall (fun x => string_forall printable x = true) xs ->
  string_forall printable (comma xs) = true.
Proof.
  induction 1 as [|x xs Hx Hxs IH]; [done|]. rewrite comma_cons, string_forall_app, Hx.
  destruct xs; [done|]. by rewrite string_forall_app, IH.
Qed.

Lemma json_text_one_line v d : json_ok d v = true -> string_forall printable (json_text v) = true.
Proof.
  revert d. induction v as [|b|l|s|vs IH|ms IH] using json_ind'; intros d Hok; try done.
  - by destruct b.
  - cbn in Hok |- *. apply andb_prop in Hok as [_ Hl]. eapply string_forall_impl, Hl.
    intros a. unfold number_byte, is_digit, printable.
    rewrite negb_true_iff, N.ltb_ge, !orb_true_iff, andb_true_iff, !N.leb_le, !N.eqb_eq. lia.
  - apply json_Marshal_line.
  - destruct d as [|d]; [done|]. cbn [json_ok json_text] in *. rewrite !string_forall_app.
    apply andb_true_intro. split; [done|]. rewrite andb_true_r. apply comma_line.
    apply Forall_map. rewrite Forall_forall in IH |- *.
    intros v Hv. apply (IH v Hv d). apply (proj1 (forallb_forall _ _) Hok). by apply list_elem_of_In.
  - destruct d as [|d]; [done|]. cbn [json_ok json_text] in *. rewrite !string_forall_app.
    apply andb_true_intro. split; [done|]. rewrite andb_true_r. apply comma_line.
    apply Forall_map. rewrite Forall_forall in IH |- *.
    intros m Hm. cbn. rewrite !string_forall_app, json_Marshal_line. cbn.
    apply (IH m Hm d). apply (proj1 (forallb_forall _ _) Hok m). by apply list_elem_of_In.
Qed.

#[global] Arguments json_decode : simpl never.
#[global] Arguments json_read : simpl never.
