(* ===== verification/GoTime.v ===== *)
(** The text of a [time.Time] in JSON: RFC 3339 with nanoseconds, in the zone it is shown
    in.  [time_MarshalJSON] is the method of the standard library, errors included;
    [time_read] reads such a text back ([time_read_text]).  Dates are those of the
    proleptic Gregorian calendar ([civil]). *)

From Stdlib Require Import Ascii String ZArith.
From stdpp Require Import base gmap strings list pretty.
From S2P Require Import Prelude GoStrings Records Json.

Open Scope string_scope.
#[local] Open Scope Z_scope.

(** * The calendar

    Days since 1970-01-01.  Years are counted from March, so that a leap day is the last
    of its year; 146097 days make 400 years. *)
Definition civil (days : Z) : Z * Z * Z :=
  let z := days + 719468 in
  let era := z / 146097 in
  let doe := z mod 146097 in
  let yoe := (doe - doe / 1460 + doe / 36524 - doe / 146096) / 365 in
  let doy := doe - (365 * yoe + yoe / 4 - yoe / 100) in
  let mp := (5 * doy + 2) / 153 in
  let d := doy - (153 * mp + 2) / 5 + 1 in
  let m := if mp <? 10 then mp + 3 else mp - 9 in
  (yoe + era * 400 + (if m <=? 2 then 1 else 0), m, d).

Definition days_of (y m d : Z) : Z :=
  let y := if m <=? 2 then y - 1 else y in
  let era := y / 400 in
  let yoe := y mod 400 in
  let doy := (153 * (if 2 <? m then m - 3 else m + 9) + 2) / 5 + d - 1 in
  era * 146097 + (yoe * 365 + yoe / 4 - yoe / 100 + doy) - 719468.

Example civil_epoch : civil 0 = (1970, 1, 1).
Proof. reflexivity. Qed.
Example civil_leap : map civil [11016; 11017; -719162; 47540; 47541] =
  [(2000, 2, 29); (2000, 3, 1); (1, 1, 1); (2100, 2, 28); (2100, 3, 1)].
Proof. reflexivity. Qed.

Lemma year_of_era doe : 0 <= doe < 146097 ->
  let yoe := (doe - doe / 1460 + doe / 36524 - doe / 146096) / 365 in
  0 <= yoe < 400 /\ 0 <= doe - (365 * yoe + yoe / 4 - yoe / 100) <= 365.
Proof. intros H yoe. subst yoe. Z.to_euclidean_division_equations. lia. Qed.

Lemma month_of_day doy : 0 <= doy <= 365 ->
  0 <= (5 * doy + 2) / 153 <= 11 /\ 1 <= doy - (153 * ((5 * doy + 2) / 153) + 2) / 5 + 1 <= 31.
Proof. intros H. Z.to_euclidean_division_equations. lia. Qed.

Lemma civil_spec days : let '(y, m, d) := civil days in
  days_of y m d = days /\ 1 <= m <= 12 /\ 1 <= d <= 31.
Proof.
  unfold civil. set (z := days + 719468).
  pose proof (Z.mod_pos_bound z 146097 ltac:(lia)) as Hdoe. pose proof (Z.div_mod z 146097 ltac:(lia)) as Hz.
  destruct (year_of_era (z mod 146097) Hdoe) as [Hy Hdoy]. set (doe := z mod 146097) in *.
  set (yoe := (doe - doe / 1460 + doe / 36524 - doe / 146096) / 365) in *.
  set (doy := doe - (365 * yoe + yoe / 4 - yoe / 100)) in *.
  destruct (month_of_day doy Hdoy) as [Hm Hd]. set (mp := (5 * doy + 2) / 153) in *.
  assert (forall k, days_of (yoe + z / 146097 * 400 + (if (if mp <? 10 then mp + 3 else mp - 9) <=? 2 then 1 else 0))
    (if mp <? 10 then mp + 3 else mp - 9) k
    = z / 146097 * 146097 + (yoe * 365 + yoe / 4 - yoe / 100 + ((153 * mp + 2) / 5 + k - 1)) - 719468) as Hdays.
  { intros k. unfold days_of.
    assert ((yoe + z / 146097 * 400) / 400 = z / 146097) as E1.
    { rewrite Z.div_add by lia. rewrite Z.div_small by lia. lia. }
    assert ((yoe + z / 146097 * 400) mod 400 = yoe) as E2.
    { rewrite Z_mod_plus_full, Z.mod_small by lia. lia. }
    destruct (Z.ltb_spec mp 10).
    - rewrite (proj2 (Z.leb_gt (mp + 3) 2)), (proj2 (Z.ltb_lt 2 (mp + 3))), Z.add_0_r, E1, E2 by lia.
      by replace (mp + 3 - 3) with mp by lia.
    - rewrite (proj2 (Z.leb_le (mp - 9) 2)), (proj2 (Z.ltb_ge 2 (mp - 9))) by lia.
      replace (yoe + z / 146097 * 400 + 1 - 1) with (yoe + z / 146097 * 400) by lia.
      rewrite E1, E2. by replace (mp - 9 + 9) with mp by lia. }
  split_and!; [rewrite Hdays; lia| | |lia|lia]; destruct (Z.ltb_spec mp 10); lia.
Qed.

(** * Digits *)

Definition digit (n : Z) : ascii := chr (48 + Z.to_N (n mod 10)).

(** The last [k] digits of [n]. *)
Fixpoint digits (k : nat) (n : Z) : string :=
  match k with O => "" | S k => digits k (n / 10) +:+ String (digit n) "" end.

Fixpoint read_digits (k : nat) (acc : Z) (s : string) : option (Z * string) :=
  match k with
  | O => Some (acc, s)
  | S k => match s with
           | String a r => match digit_val a with Some d => read_digits k (10 * acc + d) r | None => None end
           | EmptyString => None
           end
  end.

(** A fraction of [k] digits, trailing zeros left out. *)
Fixpoint fraction (k : nat) (n : Z) : string :=
  match k with
  | O => ""
  | S k => if n =? 0 then "" else String (digit (n / 10 ^ Z.of_nat k)) (fraction k (n mod 10 ^ Z.of_nat k))
  end.

Fixpoint read_fraction (k : nat) (s : string) : Z * string :=
  match k, s with
  | S k, String a r => match digit_val a with
                       | Some d => let '(n, rest) := read_fraction k r in (d * 10 ^ Z.of_nat k + n, rest)
                       | None => (0, s)
                       end
  | _, _ => (0, s)
  end.

Lemma digit_val_digit n : digit_val (digit n) = Some (n mod 10).
Proof.
  unfold digit. pose proof (Z.mod_pos_bound n 10 ltac:(lia)) as H.
  assert (n mod 10 = 0 \/ n mod 10 = 1 \/ n mod 10 = 2 \/ n mod 10 = 3 \/ n mod 10 = 4 \/
    n mod 10 = 5 \/ n mod 10 = 6 \/ n mod 10 = 7 \/ n mod 10 = 8 \/ n mod 10 = 9) as Hc by lia.
  repeat destruct Hc as [Hc|Hc]; by rewrite Hc.
Qed.

Lemma read_digits_digits k acc n x :
  0 <= n < 10 ^ Z.of_nat k -> read_digits k acc (digits k n +:+ x) = Some (acc * 10 ^ Z.of_nat k + n, x).
Proof.
  assert (forall k acc n m x, 0 <= n < 10 ^ Z.of_nat k ->
    read_digits (k + m) acc (digits k n +:+ x) = read_digits m (acc * 10 ^ Z.of_nat k + n) x) as H.
  { clear. induction k as [|k IH]; intros acc n m x Hn.
    - simpl in Hn |- *. f_equal. lia.
    - rewrite Nat2Z.inj_succ, Z.pow_succ_r in * by lia. cbn [digits].
      rewrite <- app_assoc_string, app_cons_string, app_nil_l_string.
      replace (S k + m)%nat with (k + S m)%nat by lia.
      rewrite IH by (pose proof (Z.div_mod n 10 ltac:(lia)); pose proof (Z.mod_pos_bound n 10 ltac:(lia)); lia).
      cbn [read_digits]. rewrite digit_val_digit. f_equal.
      pose proof (Z.div_mod n 10 ltac:(lia)). lia. }
  intros Hn. replace k with (k + 0)%nat at 1 by lia. by rewrite H.
Qed.

Definition no_digit (x : string) : bool :=
  match x with String a _ => bool_decide (digit_val a = None) | EmptyString => true end.

Lemma read_fraction_stop k x : no_digit x = true -> read_fraction k x = (0, x).
Proof.
  destruct k, x as [|a x]; try done. cbn. intros H%bool_decide_eq_true. by rewrite H.
Qed.

Lemma read_fraction_text k n x :
  0 <= n < 10 ^ Z.of_nat k -> no_digit x = true -> read_fraction k (fraction k n +:+ x) = (n, x).
Proof.
  revert n. induction k as [|k IH]; intros n Hn Hx; cbn [fraction].
  - simpl in Hn. rewrite app_nil_l_string, read_fraction_stop by done. f_equal. lia.
  - destruct (Z.eqb_spec n 0) as [->|Hne]; [by apply read_fraction_stop|].
    rewrite Nat2Z.inj_succ, Z.pow_succ_r in Hn by lia.
    assert (0 < 10 ^ Z.of_nat k) as Hp by (apply Z.pow_pos_nonneg; lia).
    rewrite app_cons_string. cbn [read_fraction]. rewrite digit_val_digit, IH by (done || by apply Z.mod_pos_bound).
    f_equal. rewrite Z.mod_small; [pose proof (Z.div_mod n (10 ^ Z.of_nat k) ltac:(lia)); lia|].
    split; [by apply Z.div_pos; lia|]. apply Z.div_lt_upper_bound; lia.
Qed.

(** * RFC 3339 *)

Definition day : Z := 86400.

(** A zone is shown as its offset in seconds: [Z] for none, else hours and minutes. *)
Definition zone_text (off : Z) : string :=
  if off =? 0 then "Z" else
  let minutes := Z.quot off 60 in
  let sign := if minutes <? 0 then "-" else "+" in
  sign +:+ digits 2 (Z.abs minutes / 60) +:+ ":" +:+ digits 2 (Z.abs minutes mod 60).

Definition frac_text (ns : Z) : string := if ns =? 0 then "" else "." +:+ fraction 9 ns.

(** [time.Time.MarshalJSON], without the quotes, for an instant shown at offset [off];
    [None] is its error: a year of more than four digits, a zone a day away. *)
Definition time_MarshalJSON (off : Z) (t : Time) : option string :=
  let local := t + off * Second in
  let secs := local / Second in
  let '(y, m, d) := civil (secs / day) in
  let sod := secs mod day in
  if (0 <=? y) && (y <=? 9999) && (Z.abs off <? day)
  then Some (digits 4 y +:+ "-" +:+ digits 2 m +:+ "-" +:+ digits 2 d +:+ "T" +:+
    digits 2 (sod / 3600) +:+ ":" +:+ digits 2 (sod / 60 mod 60) +:+ ":" +:+ digits 2 (sod mod 60) +:+
    frac_text (local mod Second) +:+ zone_text off)
  else None.

Definition expect (c : ascii) (s : string) : option string :=
  match s with String a r => if Ascii.eqb a c then Some r else None | EmptyString => None end.

Definition read_zone (s : string) : option Z :=
  match s with
  | String a r =>
      if Ascii.eqb a "Z" then match r with "" => Some 0 | _ => None end else
      '(h, r) ← read_digits 2 0 r; r ← expect ":" r; '(m, r) ← read_digits 2 0 r;
      match r with
      | "" => let off := (h * 60 + m) * 60 in
              if Ascii.eqb a "+" then Some off else if Ascii.eqb a "-" then Some (- off) else None
      | _ => None
      end
  | EmptyString => None
  end.

Definition read_frac (s : string) : Z * string :=
  match s with
  | String a r => if Ascii.eqb a "." then read_fraction 9 r else (0, s)
  | EmptyString => (0, s)
  end.

(** The instant a text stands for. *)
Definition time_read (s : string) : option Time :=
  '(y, s) ← read_digits 4 0 s; s ← expect "-" s; '(m, s) ← read_digits 2 0 s; s ← expect "-" s;
  '(d, s) ← read_digits 2 0 s; s ← expect "T" s; '(hh, s) ← read_digits 2 0 s; s ← expect ":" s;
  '(mm, s) ← read_digits 2 0 s; s ← expect ":" s; '(ss, s) ← read_digits 2 0 s;
  let '(ns, s) := read_frac s in
  off ← read_zone s;
  Some (((days_of y m d * day + hh * 3600 + mm * 60 + ss) * Second + ns) - off * Second).

Example time_text_example :
  time_MarshalJSON 0 (1709210096 * Second + 120000000) = Some "2024-02-29T12:34:56.12Z" /\
  time_MarshalJSON (-16200) (1709210096 * Second) = Some "2024-02-29T08:04:56-04:30" /\
  time_MarshalJSON 0 zero_time = Some "0001-01-01T00:00:00Z" /\
  time_MarshalJSON 0 (253402300800 * Second) = None.
Proof. vm_compute. done. Qed.

Lemma expect_app c x : expect c (String c "" +:+ x) = Some x.
Proof. rewrite app_cons_string, app_nil_l_string. unfold expect. by rewrite Ascii.eqb_refl. Qed.

Lemma zone_front off : no_digit (zone_text off) = true.
Proof. unfold zone_text. destruct (off =? 0); [done|]. by destruct (_ <? 0). Qed.

Lemma read_zone_text off :
  off mod 60 = 0 -> Z.abs off < day -> read_zone (zone_text off) = Some off.
Proof.
  intros Hmod Hoff. unfold day in Hoff. unfold zone_text. destruct (Z.eqb_spec off 0) as [->|Hne]; [done|].
  assert (exists q, off = 60 * q /\ Z.quot off 60 = q) as (q & Hq & ->).
  { exists (off / 60). pose proof (Z.div_mod off 60 ltac:(lia)). split; [lia|].
    replace off with ((off / 60) * 60) at 1 by lia. apply Z.quot_mul. lia. }
  assert (forall sign : ascii, (sign =? "Z")%char = false ->
    read_zone (String sign "" +:+ digits 2 (Z.abs q / 60) +:+ ":" +:+ digits 2 (Z.abs q mod 60))
    = if Ascii.eqb sign "+" then Some (Z.abs q * 60)
      else if Ascii.eqb sign "-" then Some (- (Z.abs q * 60)) else None) as Hread.
  { intros sign Hs. rewrite app_cons_string, app_nil_l_string.
    pose proof (Z.mod_pos_bound (Z.abs q) 60 ltac:(lia)). pose proof (Z.div_mod (Z.abs q) 60 ltac:(lia)).
    unfold read_zone. rewrite Hs.
    rewrite read_digits_digits by (split; [apply Z.div_pos; lia|apply Z.div_lt_upper_bound; lia]).
    cbn [mbind option_bind]. rewrite expect_app. cbn [mbind option_bind].
    rewrite <- (app_nil_r_string (digits 2 (Z.abs q mod 60))), read_digits_digits by (simpl; lia).
    cbn [mbind option_bind]. destruct (Ascii.eqb sign "+"); [f_equal; lia|].
    destruct (Ascii.eqb sign "-"); [f_equal; lia|done]. }
  destruct (Z.ltb_spec q 0); rewrite Hread by done; cbn; f_equal; lia.
Qed.

(** An instant reads back from its text, if its zone is whole minutes from UTC. *)
Lemma time_read_text off t s :
  off mod 60 = 0 -> time_MarshalJSON off t = Some s -> time_read s = Some t.
Proof.
  intros Hoff. unfold time_MarshalJSON. set (local := t + off * Second).
  pose proof (civil_spec (local / Second / day)) as Hcivil.
  destruct (civil (local / Second / day)) as [[y m] d]. destruct Hcivil as (Hdays & Hm & Hd).
  destruct (_ && _) eqn:Hc; [|done]. intros <-%(inj Some).
  apply andb_prop in Hc as [[Hy1%Z.leb_le Hy2%Z.leb_le]%andb_prop Ho%Z.ltb_lt].
  pose proof (Z.mod_pos_bound (local / Second) day ltac:(done)) as Hsod.
  pose proof (Z.mod_pos_bound local Second ltac:(done)) as Hns.
  set (sod := (local / Second) mod day) in *. unfold day in Hsod.
  assert (0 <= sod / 3600 < 24) by (split; [apply Z.div_pos; lia|apply Z.div_lt_upper_bound; lia]).
  pose proof (Z.mod_pos_bound (sod / 60) 60 ltac:(lia)). pose proof (Z.mod_pos_bound sod 60 ltac:(lia)).
  unfold time_read.
  repeat (rewrite read_digits_digits by (simpl; lia); cbn [mbind option_bind];
          rewrite ?expect_app; cbn [mbind option_bind]).
  assert (read_frac (frac_text (local mod Second) +:+ zone_text off) = (local mod Second, zone_text off)) as Hfrac.
  { unfold frac_text. destruct (Z.eqb_spec (local mod Second) 0) as [->|Hne].
    - rewrite app_nil_l_string. unfold zone_text. destruct (off =? 0); [done|]. by destruct (_ <? 0).
    - rewrite <- app_assoc_string, app_cons_string, app_nil_l_string.
      apply read_fraction_text; [exact Hns|apply zone_front]. }
  rewrite Hfrac, read_zone_text by done. cbn [mbind option_bind]. f_equal.
  rewrite !Z.mul_0_l, !Z.add_0_l, Hdays. pose proof (Z.div_mod local Second ltac:(done)) as Hl.
  pose proof (Z.div_mod (local / Second) day ltac:(done)) as Hs. fold sod in Hs. assert (sod = sod / 3600 * 3600 + sod / 60 mod 60 * 60 + sod mod 60).
  { clear. Z.to_euclidean_division_equations. lia. }
  subst local. unfold day in *. lia.
Qed.

(** The text of a time is ASCII: the encoder leaves it as it is. *)
Lemma digit_ascii n : is_ascii_byte (digit n) = true.
Proof.
  unfold digit. pose proof (Z.mod_pos_bound n 10 ltac:(lia)) as H.
  unfold is_ascii_byte, code, chr. rewrite N_ascii_embedding by lia. apply N.ltb_lt. lia.
Qed.

Lemma digit_text_ascii k n : isASCII (digits k n) = true.
Proof.
  revert n. induction k as [|k IH]; intros n; [done|]. unfold isASCII in *. cbn [digits].
  rewrite string_forall_app, IH. cbn. by rewrite digit_ascii.
Qed.

Lemma fraction_ascii k n : isASCII (fraction k n) = true.
Proof.
  revert n. induction k as [|k IH]; intros n; [done|]. unfold isASCII in *. cbn [fraction].
  destruct (n =? 0); [done|]. cbn. by rewrite digit_ascii, IH.
Qed.

Lemma time_text_ascii off t s : time_MarshalJSON off t = Some s -> isASCII s = true.
Proof.
  unfold time_MarshalJSON. destruct (civil _) as [[y m] d]. destruct (_ && _); [|done].
  intros <-%(inj Some). unfold isASCII, frac_text, zone_text.
  rewrite !string_forall_app. fold isASCII. 
  pose proof digit_text_ascii as Hd. unfold isASCII in Hd. rewrite !Hd. cbn [andb string_forall].
  destruct (_ =? 0), (off =? 0); try (destruct (_ <? 0)); rewrite ?string_forall_app, ?Hd; try done.
  all: pose proof fraction_ascii as Hf; unfold isASCII in Hf; by rewrite Hf.
Qed.
