(* ===== verification/Wire.v ===== *)
(** The wire format: what struct tags make of a value, and what the server and its clients
    read in a text.

    A [codec] is how encoding/json treats a Go type; [struct_codec] builds the codec of a
    struct from its tagged fields; [codec_laws] says that a value reads back from its text
    ([struct_laws] gives it for a struct from its fields).  Below are the codecs of the
    request and response types of src/internal/http/datatransfers, of the envelope
    (handler.base_response.go) and of the other bodies, and [ShouldBindJSON]. *)

From Stdlib Require Import Ascii String ZArith.
From stdpp Require Import base gmap strings list pretty sorting.
From S2P Require Import Prelude GoStrings AppError Records Services World Domain Repository Caches.
From S2P Require Import UsersUsecase Jwt OtpCode AuthUsecase Validators Middleware Http.
From S2P Require Import Config RateLimiter Router Json GoTime.

Open Scope string_scope.

(** * Codecs *)

(** [enc] fails when [json.Marshal] does; [dec v old] decodes [v] into a variable that
    holds [old]; [is_zero] is the test of [omitempty]; [norm] is what reading gives back. *)
Record codec (A : Type) := Codec {
  enc : A -> option json;
  dec : json -> A -> option A;
  zero : A;
  is_zero : A -> bool;
  norm : A -> A;
}.
Arguments Codec {A} enc dec zero is_zero norm.
Arguments enc {A} c a.
Arguments dec {A} c v old.
Arguments zero {A} c.
Arguments is_zero {A} c a.
Arguments norm {A} c a.

(** The text nests at most [d] deep and reads back into a fresh variable. *)
Class codec_laws {A} (d : nat) (c : codec A) : Prop := {
  enc_ok : forall a v, enc c a = Some v -> json_ok d v = true;
  enc_dec : forall a v, enc c a = Some v -> dec c (json_scrub v) (zero c) = Some (norm c a);
}.

(** What the variable held before does not matter to it. *)
Class overwrites {A} (c : codec A) : Prop :=
  dec_old : forall a v old, enc c a = Some v ->
    dec c (json_scrub v) old = dec c (json_scrub v) (zero c).

Definition string_codec : codec string := Codec
  (fun s => Some (JStr s))
  (fun v old => match v with JStr s => Some s | JNull => Some old | _ => None end)
  "" (fun s => bool_decide (s = "")) scrub.

Definition bool_codec : codec bool := Codec
  (fun b => Some (JBool b))
  (fun v old => match v with JBool b => Some b | JNull => Some old | _ => None end)
  false negb (fun b => b).

(** An [int] has 64 bits. *)
Definition int_codec : codec Z := Codec
  (fun z => if in_int64 z then Some (JInt z) else None)
  (fun v old => match v with JNum lit => ParseInt lit | JNull => Some old | _ => None end)
  0%Z (fun z => (z =? 0)%Z) (fun z => z).

(** A [time.Time]; [zone t] is the offset the value is shown at. *)
Definition time_codec (zone : Time -> Z) : codec Time := Codec
  (fun t => JStr <$> time_MarshalJSON (zone t) t)
  (fun v old => match v with JStr s => time_read s | JNull => Some old | _ => None end)
  zero_time (fun _ => false) (fun t => t).

(** A pointer: [null] sets it to nil, anything else is decoded into what it points to. *)
Definition ptr_codec {A} (c : codec A) : codec (option A) := Codec
  (fun o => match o with None => Some JNull | Some a => enc c a end)
  (fun v old => match v with JNull => Some None | _ => Some <$> dec c v (default (zero c) old) end)
  None (fun o => match o with None => true | Some _ => false end) (fmap (norm c)).

(** A slice, of at least one element where it is nil otherwise. *)
Definition slice_codec {A} (c : codec A) : codec (list A) := Codec
  (fun l => JArr <$> mapM (enc c) l)
  (fun v old => match v with JArr vs => mapM (fun v => dec c v (zero c)) vs | JNull => Some [] | _ => None end)
  [] (fun l => match l with [] => true | _ => false end) (map (norm c)).

(** ** Structs *)

(** An exported field with its tag: name and [omitempty]. *)
Record field (S : Type) := Field {
  f_T : Type; f_name : string; f_omit : bool; f_codec : codec f_T; f_lens : lens S f_T }.
Arguments Field {S f_T} f_name f_omit f_codec f_lens.
Arguments f_T {S} f.
Arguments f_name {S} f.
Arguments f_omit {S} f.
Arguments f_codec {S} f.
Arguments f_lens {S} f.

Definition upper_byte (a : ascii) : ascii :=
  let c := code a in if ((97 <=? c) && (c <=? 122))%N then chr (c - 32) else a.

(** [foldName] of encoding/json: letters in upper case, the long s and the Kelvin sign
    among them; other runes have no ASCII letter they fold to and stay as they are. *)
Fixpoint foldName (s : string) : string :=
  match s with
  | EmptyString => EmptyString
  | String a r =>
      match r with
      | EmptyString => String (upper_byte a) ""
      | String b r1 =>
          if ((code a =? 197) && (code b =? 191))%N then String "S" (foldName r1) else
          match r1 with
          | String d r2 =>
              if ((code a =? 226) && (code b =? 132) && (code d =? 170))%N then String "K" (foldName r2)
              else String (upper_byte a) (foldName r)
          | EmptyString => String (upper_byte a) (foldName r)
          end
      end
  end.

Section struct.
Context {S : Type}.
Implicit Types (fs : list (field S)) (s : S).

Definition omitted (f : field S) (s : S) : bool := f_omit f && is_zero (f_codec f) (lget (f_lens f) s).

Fixpoint enc_fields fs s : option (list (string * json)) :=
  match fs with
  | [] => Some []
  | f :: fs =>
      if omitted f s then enc_fields fs s else
      v ← enc (f_codec f) (lget (f_lens f) s); ms ← enc_fields fs s; Some ((f_name f, v) :: ms)
  end.

(** The field of a key: of that name, else of a name equal but for case. *)
Definition find_field fs (key : string) : option (field S) :=
  match list_find (fun f => f_name f = key) fs with
  | Some (_, f) => Some f
  | None => snd <$> list_find (fun f => foldName (f_name f) = foldName key) fs
  end.

Definition dec_member fs (m : string * json) s : option S :=
  match find_field fs m.1 with
  | None => Some s
  | Some f => a ← dec (f_codec f) m.2 (lget (f_lens f) s); Some (lset (f_lens f) a s)
  end.

Fixpoint dec_members fs (ms : list (string * json)) s : option S :=
  match ms with
  | [] => Some s
  | m :: ms => s ← dec_member fs m s; dec_members fs ms s
  end.

Fixpoint read_fields fs s (z : S) : S :=
  match fs with
  | [] => z
  | f :: fs =>
      read_fields fs s (if omitted f s then z else
        lset (f_lens f) (norm (f_codec f) (lget (f_lens f) s)) z)
  end.

Definition struct_codec fs (z : S) : codec S := Codec
  (fun s => JObj <$> enc_fields fs s)
  (fun v old => match v with JObj ms => dec_members fs ms old | JNull => Some old | _ => None end)
  z (fun _ => false) (fun s => read_fields fs s z).

(** The fields of a struct, each with its laws; names are ASCII and all different. *)
Class fields_ok (d : nat) fs : Prop := {
  fields_laws : Forall (fun f => codec_laws d (f_codec f)) fs;
  fields_old : Forall (fun f => overwrites (f_codec f)) fs;
  fields_names : bool_decide (NoDup (map f_name fs)) && forallb isASCII (map f_name fs) = true;
}.
End struct.

(** * Laws *)

Lemma scrub_ascii s : isASCII s = true -> scrub s = s.
Proof.
  intros Hs. unfold scrub. induction s as [|a s IH]; [done|]. unfold isASCII in *. cbn in Hs.
  apply andb_prop in Hs as [Ha Hs]. cbn [scrub_go].
  assert (rune_len (String a s) = 1) as ->.
  { unfold rune_len. unfold is_ascii_byte in Ha. by rewrite Ha. }
  by rewrite IH.
Qed.

#[export] Instance string_laws d : codec_laws d string_codec.
Proof. split; intros a v [= <-]; done. Qed.
#[export] Instance string_old : overwrites string_codec.
Proof. by intros a v old [= <-]. Qed.

#[export] Instance bool_laws d : codec_laws d bool_codec.
Proof. split; intros a v [= <-]; done. Qed.
#[export] Instance bool_old : overwrites bool_codec.
Proof. by intros a v old [= <-]. Qed.

#[export] Instance int_laws d : codec_laws d int_codec.
Proof.
  split; intros a v; cbn; destruct (in_int64 a) eqn:E; try done; intros [= <-]; cbn.
  - by rewrite valid_number_Itoa, Itoa_number_bytes.
  - by rewrite ParseInt_Itoa.
Qed.
#[export] Instance int_old : overwrites int_codec.
Proof. intros a v old. cbn. destruct (in_int64 a); [|done]. by intros [= <-]. Qed.

(** Zones are whole minutes from UTC. *)
Class whole_minutes (zone : Time -> Z) : Prop := minutes : forall t, (zone t mod 60 = 0)%Z.

#[export] Instance time_laws d zone `{!whole_minutes zone} : codec_laws d (time_codec zone).
Proof.
  split; intros t v (s & Hs & ->)%fmap_Some_1; [done|].
  cbn. rewrite scrub_ascii by by eapply time_text_ascii. eapply time_read_text, Hs. apply minutes.
Qed.
#[export] Instance time_old zone : overwrites (time_codec zone).
Proof. by intros t v old (s & Hs & ->)%fmap_Some_1. Qed.

(** What a pointer points to is no [null] itself. *)
Class not_null {A} (c : codec A) : Prop := enc_not_null : forall a, enc c a <> Some JNull.

#[export] Instance time_not_null zone : not_null (time_codec zone).
Proof. by intros t (s & Hs & Hn)%fmap_Some_1. Qed.

Lemma ptr_dec {A} (c : codec A) v old : v <> JNull ->
  dec (ptr_codec c) v old = Some <$> dec c v (default (zero c) old).
Proof. by destruct v. Qed.

Lemma json_scrub_null v : json_scrub v = JNull -> v = JNull.
Proof. by destruct v. Qed.

#[export] Instance ptr_laws {A} d (c : codec A) `{!codec_laws d c, !not_null c} : codec_laws d (ptr_codec c).
Proof.
  split; intros [a|] v; cbn [enc ptr_codec]; [apply enc_ok|by intros [= <-]| |by intros [= <-]].
  intros Hv. rewrite ptr_dec; [cbn [zero ptr_codec default]; by rewrite (enc_dec (d := d) a v Hv)|].
  intros ->%json_scrub_null. by apply enc_not_null in Hv.
Qed.
#[export] Instance ptr_old {A} (c : codec A) `{!overwrites c, !not_null c} : overwrites (ptr_codec c).
Proof.
  intros [a|] v old; cbn [enc ptr_codec]; [|by intros [= <-]]. intros Hv.
  assert (json_scrub v <> JNull) by (intros ->%json_scrub_null; by apply enc_not_null in Hv).
  rewrite !ptr_dec by done. cbn [zero ptr_codec default]. by rewrite (dec_old a v _ Hv).
Qed.

#[export] Instance slice_laws {A} d (c : codec A) `{!codec_laws d c} : codec_laws (S d) (slice_codec c).
Proof.
  split; intros l v (vs & E & ->)%fmap_Some_1.
  - cbn. apply forallb_forall. intros v Hv. apply list_elem_of_In in Hv.
    apply mapM_Some in E. apply list_elem_of_lookup in Hv as [i Hi].
    destruct (Forall2_lookup_r _ _ _ _ _ E Hi) as (a & _ & Ha). by eapply enc_ok.
  - cbn. apply mapM_Some in E. induction E as [|a v l vs Ha E IH]; [done|].
    cbn in *. rewrite (enc_dec (d := d) a v Ha). cbn. by rewrite IH.
Qed.
#[export] Instance slice_old {A} (c : codec A) : overwrites (slice_codec c).
Proof. by intros l v old (vs & E & ->)%fmap_Some_1. Qed.

Section struct_laws.
Context {S : Type} (d : nat) (fs : list (field S)) (z : S) `{!fields_ok d fs}.

Lemma enc_fields_ok (gs : list (field S)) s ms :
  Forall (fun f => codec_laws d (f_codec f)) gs -> enc_fields gs s = Some ms ->
  forallb (fun m => json_ok d m.2) ms = true.
Proof.
  intros Hgs. revert ms. induction Hgs as [|f gs Hf _ IH]; intros ms; cbn; [by intros [= <-]|].
  destruct (omitted f s); [apply IH|].
  destruct (enc _ _) as [v|] eqn:Ev; [|done]. destruct (enc_fields gs s) as [ms'|]; [|done].
  intros [= <-]. cbn. rewrite (IH ms') by done. by rewrite (enc_ok _ _ Ev).
Qed.

Lemma find_field_name (gs : list (field S)) f :
  NoDup (map f_name gs) -> f ∈ gs -> find_field gs (f_name f) = Some f.
Proof.
  intros Hnd Hf. unfold find_field.
  assert (exists i, list_find (fun g => f_name g = f_name f) gs = Some (i, f)) as [i ->]; [|done].
  induction gs as [|g gs IH]; [by apply not_elem_of_nil in Hf|]. cbn [map] in Hnd.
  apply NoDup_cons in Hnd as [Hg Hnd]. cbn [list_find].
  destruct (decide (f_name g = f_name f)) as [Heq|Hne].
  - apply elem_of_cons in Hf as [->|Hf]; [by exists 0|]. destruct Hg. rewrite Heq.
    by apply list_elem_of_fmap_2.
  - apply elem_of_cons in Hf as [->|Hf]; [done|]. destruct (IH Hnd Hf) as [i ->].
    by exists (Datatypes.S i).
Qed.

Lemma dec_enc_fields (gs : list (field S)) s t ms :
  Forall (.∈ fs) gs -> enc_fields gs s = Some ms ->
  dec_members fs (map (fun m => (scrub m.1, json_scrub m.2)) ms) t = Some (read_fields gs s t).
Proof.
  destruct fields_ok0 as [Hlaws Hold Hnames]. apply andb_prop in Hnames as [Hnd%bool_decide_eq_true Hascii].
  rewrite Forall_forall in Hlaws, Hold.
  intros Hgs. revert t ms. induction Hgs as [|f gs Hf _ IH]; intros t ms; cbn; [by intros [= <-]|].
  destruct (omitted f s) eqn:Eo; [apply IH|].
  destruct (enc _ _) as [v|] eqn:Ev; [|done]. destruct (enc_fields gs s) as [ms'|]; [|done].
  intros [= <-]. cbn [map dec_members fst snd]. unfold dec_member. cbn [fst snd].
  rewrite scrub_ascii, find_field_name; [|done|done|].
  - pose proof (Hold f Hf) as Hfo. rewrite (dec_old _ v _ Ev). pose proof (Hlaws f Hf) as Hfl.
    rewrite (enc_dec (d := d) _ v Ev). cbn. by apply IH.
  - apply (proj1 (forallb_forall _ _) Hascii). apply list_elem_of_In. by apply list_elem_of_fmap_2.
Qed.

#[export] Instance struct_laws : codec_laws (Datatypes.S d) (struct_codec fs z).
Proof.
  split; intros s v (ms & E & ->)%fmap_Some_1.
  - cbn [json_ok]. eapply enc_fields_ok, E. apply fields_laws.
  - cbn [json_scrub dec struct_codec zero norm]. eapply dec_enc_fields; [|done]. by apply Forall_forall.
Qed.
End struct_laws.

(** Nesting within a larger bound. *)
Lemma json_ok_le d d' v : d <= d' -> json_ok d v = true -> json_ok d' v = true.
Proof.
  revert d d'. induction v as [|b|l|s|vs IH|ms IH] using json_ind'; intros d d' Hd Hok; try done.
  - destruct d as [|d]; [done|]. destruct d' as [|d']; [lia|]. cbn in Hok |- *.
    rewrite forallb_forall in Hok |- *. intros v Hv. rewrite Forall_forall in IH.
    eapply IH; [by apply list_elem_of_In| |by apply Hok]. lia.
  - destruct d as [|d]; [done|]. destruct d' as [|d']; [lia|]. cbn in Hok |- *.
    rewrite forallb_forall in Hok |- *. intros m Hm. rewrite Forall_forall in IH.
    eapply (IH m); [by apply list_elem_of_In| |by apply Hok]. lia.
Qed.

(** * Texts *)

(** [json.Marshal], and [json.Unmarshal] into a fresh variable. *)
Definition Marshal {A} (c : codec A) (a : A) : option string := json_text <$> enc c a.
Definition Unmarshal {A} (c : codec A) (s : string) : option A :=
  v ← json_read s; dec c v (zero c).

(** [c.ShouldBindJSON(&req)]: a [json.Decoder] takes the first value of the body. *)
Definition ShouldBindJSON {A} (c : codec A) (body : string) : option A :=
  '(v, _) ← json_decode body; dec c v (zero c).

Lemma depth_enough d : d <= 100 -> d <= Z.to_nat maxNestingDepth.
Proof. unfold maxNestingDepth. lia. Qed.

Lemma Unmarshal_Marshal {A} d (c : codec A) `{!codec_laws d c} a s rest :
  d <= 100 -> Marshal c a = Some s -> string_forall is_json_space rest = true ->
  Unmarshal c (s +:+ rest) = Some (norm c a).
Proof.
  unfold Marshal, Unmarshal. intros Hd (v & E & ->)%fmap_Some_1 Hr.
  rewrite json_read_text; [by apply (enc_dec (d := d))| |done].
  eapply json_ok_le; [by apply depth_enough|]. by eapply enc_ok.
Qed.

Lemma ShouldBindJSON_Marshal {A} d (c : codec A) `{!codec_laws d c} a s rest :
  d <= 100 -> Marshal c a = Some s -> number_ends rest = true ->
  ShouldBindJSON c (s +:+ rest) = Some (norm c a).
Proof.
  unfold Marshal, ShouldBindJSON. intros Hd (v & E & ->)%fmap_Some_1 Hr.
  rewrite json_decode_text; [by apply (enc_dec (d := d))| |done].
  eapply json_ok_le; [by apply depth_enough|]. by eapply enc_ok.
Qed.

Lemma Marshal_one_line {A} d (c : codec A) `{!codec_laws d c} a s :
  Marshal c a = Some s -> string_forall printable s = true.
Proof.
  intros (v & E & ->)%fmap_Some_1.
  eapply (json_text_one_line v d). by eapply enc_ok.
Qed.

Ltac solve_fields :=
  split; [repeat (constructor; [apply _|]); constructor
         |repeat (constructor; [apply _|]); constructor
         |vm_compute; reflexivity].

(** * Request bodies (requests.auth.go) *)

Definition l_id {A} : lens A A := Lens (fun a => a) (fun a _ => a).

Definition RegisterRequest_fields : list (field RegisterRequest) :=
  [Field "username" false string_codec (Lens reg_Username (fun x r => MkRegisterReq x (reg_Email r) (reg_Password r)));
   Field "email" false string_codec (Lens reg_Email (fun x r => MkRegisterReq (reg_Username r) x (reg_Password r)));
   Field "password" false string_codec (Lens reg_Password (fun x r => MkRegisterReq (reg_Username r) (reg_Email r) x))].
Definition RegisterRequest_codec := struct_codec RegisterRequest_fields (MkRegisterReq "" "" "").

Definition LoginRequest_fields : list (field LoginRequest) :=
  [Field "email" false string_codec (Lens log_Email (fun x r => MkLoginReq x (log_Password r)));
   Field "password" false string_codec (Lens log_Password (fun x r => MkLoginReq (log_Email r) x))].
Definition LoginRequest_codec := struct_codec LoginRequest_fields (MkLoginReq "" "").

(** [SendOTPRequest] and [ForgotPasswordRequest]: one field, the email. *)
Definition SendOTPRequest_codec : codec string := struct_codec [Field "email" false string_codec l_id] "".
Definition ForgotPasswordRequest_codec : codec string := struct_codec [Field "email" false string_codec l_id] "".

Definition VerifyOTPRequest_fields : list (field VerifyOTPRequest) :=
  [Field "email" false string_codec (Lens ver_Email (fun x r => MkVerifyReq x (ver_Code r)));
   Field "code" false string_codec (Lens ver_Code (fun x r => MkVerifyReq (ver_Email r) x))].
Definition VerifyOTPRequest_codec := struct_codec VerifyOTPRequest_fields (MkVerifyReq "" "").

Definition RefreshRequest_codec : codec string := struct_codec [Field "refresh_token" false string_codec l_id] "".

Definition ChangePasswordRequest_fields : list (field ChangePasswordRequest) :=
  [Field "current_password" false string_codec
     (Lens chg_CurrentPassword (fun x r => MkChangeReq x (chg_NewPassword r)));
   Field "new_password" false string_codec
     (Lens chg_NewPassword (fun x r => MkChangeReq (chg_CurrentPassword r) x))].
Definition ChangePasswordRequest_codec := struct_codec ChangePasswordRequest_fields (MkChangeReq "" "").

Definition ResetPasswordRequest_fields : list (field ResetPasswordRequest) :=
  [Field "token" false string_codec (Lens rst_Token (fun x r => MkResetReq x (rst_NewPassword r)));
   Field "new_password" false string_codec (Lens rst_NewPassword (fun x r => MkResetReq (rst_Token r) x))].
Definition ResetPasswordRequest_codec := struct_codec ResetPasswordRequest_fields (MkResetReq "" "").

#[export] Instance RegisterRequest_ok d : fields_ok d RegisterRequest_fields.
Proof. solve_fields. Qed.
#[export] Instance LoginRequest_ok d : fields_ok d LoginRequest_fields.
Proof. solve_fields. Qed.
#[export] Instance VerifyOTPRequest_ok d : fields_ok d VerifyOTPRequest_fields.
Proof. solve_fields. Qed.
#[export] Instance ChangePasswordRequest_ok d : fields_ok d ChangePasswordRequest_fields.
Proof. solve_fields. Qed.
#[export] Instance ResetPasswordRequest_ok d : fields_ok d ResetPasswordRequest_fields.
Proof. solve_fields. Qed.
#[export] Instance email_only_ok d : fields_ok (S := string) d [Field "email" false string_codec l_id].
Proof. solve_fields. Qed.
#[export] Instance refresh_only_ok d : fields_ok (S := string) d [Field "refresh_token" false string_codec l_id].
Proof. solve_fields. Qed.

(** * Replies *)

Definition FieldError_fields : list (field FieldError) :=
  [Field "field" false string_codec (Lens fld_Field (fun x e => MkFieldError x (fld_Tag e) (fld_Message e)));
   Field "tag" false string_codec (Lens fld_Tag (fun x e => MkFieldError (fld_Field e) x (fld_Message e)));
   Field "message" false string_codec (Lens fld_Message (fun x e => MkFieldError (fld_Field e) (fld_Tag e) x))].
Definition FieldError_codec := struct_codec FieldError_fields (MkFieldError "" "" "").
#[export] Instance FieldError_ok d : fields_ok d FieldError_fields.
Proof. solve_fields. Qed.

Definition limited_fields : list (field RateLimiter.limited) :=
  let lim := RateLimiter.Limited in
  [Field "status" false bool_codec (Lens RateLimiter.Status
     (fun x b => lim x (RateLimiter.Message b) (RateLimiter.RequestID b)));
   Field "message" false string_codec (Lens RateLimiter.Message
     (fun x b => lim (RateLimiter.Status b) x (RateLimiter.RequestID b)));
   Field "request_id" true string_codec (Lens RateLimiter.RequestID
     (fun x b => lim (RateLimiter.Status b) (RateLimiter.Message b) x))].
Definition limited_codec := struct_codec limited_fields (RateLimiter.Limited false "" "").
#[export] Instance limited_ok d : fields_ok d limited_fields.
Proof. solve_fields. Qed.

Section replies.
Variable zone : Time -> Z.       (** the offset a time is shown at: the zone of the process *)

Definition UserResponse_fields : list (field UserResponse) :=
  let mk := MkUserResponse in
  [Field "id" false string_codec (Lens rsp_Id (fun x u => mk x (rsp_Username u) (rsp_Email u) (rsp_RoleId u)
     (rsp_Token u) (rsp_RefreshToken u) (rsp_CreatedAt u) (rsp_UpdatedAt u)));
   Field "username" false string_codec (Lens rsp_Username (fun x u => mk (rsp_Id u) x (rsp_Email u) (rsp_RoleId u)
     (rsp_Token u) (rsp_RefreshToken u) (rsp_CreatedAt u) (rsp_UpdatedAt u)));
   Field "email" false string_codec (Lens rsp_Email (fun x u => mk (rsp_Id u) (rsp_Username u) x (rsp_RoleId u)
     (rsp_Token u) (rsp_RefreshToken u) (rsp_CreatedAt u) (rsp_UpdatedAt u)));
   Field "role_id" false int_codec (Lens rsp_RoleId (fun x u => mk (rsp_Id u) (rsp_Username u) (rsp_Email u) x
     (rsp_Token u) (rsp_RefreshToken u) (rsp_CreatedAt u) (rsp_UpdatedAt u)));
   Field "token" true string_codec (Lens rsp_Token (fun x u => mk (rsp_Id u) (rsp_Username u) (rsp_Email u)
     (rsp_RoleId u) x (rsp_RefreshToken u) (rsp_CreatedAt u) (rsp_UpdatedAt u)));
   Field "refresh_token" true string_codec (Lens rsp_RefreshToken (fun x u => mk (rsp_Id u) (rsp_Username u)
     (rsp_Email u) (rsp_RoleId u) (rsp_Token u) x (rsp_CreatedAt u) (rsp_UpdatedAt u)));
   Field "created_at" false (time_codec zone) (Lens rsp_CreatedAt (fun x u => mk (rsp_Id u) (rsp_Username u)
     (rsp_Email u) (rsp_RoleId u) (rsp_Token u) (rsp_RefreshToken u) x (rsp_UpdatedAt u)));
   Field "updated_at" false (ptr_codec (time_codec zone)) (Lens rsp_UpdatedAt (fun x u => mk (rsp_Id u)
     (rsp_Username u) (rsp_Email u) (rsp_RoleId u) (rsp_Token u) (rsp_RefreshToken u) (rsp_CreatedAt u) x))].
Definition UserResponse_codec :=
  struct_codec UserResponse_fields (MkUserResponse "" "" "" 0 "" "" zero_time None).

#[export] Instance UserResponse_ok d `{!whole_minutes zone} : fields_ok d UserResponse_fields.
Proof. solve_fields. Qed.

(** The [Data] of the envelope, an [interface{}]: what the handlers put there, and how a
    client tells them apart. *)
Definition data_enc (x : data) : option json :=
  match x with
  | NoData => Some JNull
  | DUserEntry u => v ← enc UserResponse_codec u; Some (JObj [("user", v)])
  | DUserData u => enc UserResponse_codec u
  | DErrors errs => v ← enc (slice_codec FieldError_codec) errs; Some (JObj [("errors", v)])
  end.
Definition data_dec (v : json) (old : data) : option data :=
  match v with
  | JNull => Some NoData
  | JObj [("user", u)] => DUserEntry <$> dec UserResponse_codec u (zero UserResponse_codec)
  | JObj [("errors", l)] => DErrors <$> dec (slice_codec FieldError_codec) l []
  | _ => DUserData <$> dec UserResponse_codec v (zero UserResponse_codec)
  end.
Definition data_norm (x : data) : data :=
  match x with
  | NoData => NoData
  | DUserEntry u => DUserEntry (norm UserResponse_codec u)
  | DUserData u => DUserData (norm UserResponse_codec u)
  | DErrors errs => DErrors (norm (slice_codec FieldError_codec) errs)
  end.
Definition data_codec : codec data :=
  Codec data_enc data_dec NoData (fun x => match x with NoData => true | _ => false end) data_norm.

Definition BaseResponse_fields : list (field BaseResponse) :=
  [Field "status" false bool_codec (Lens Http.Status (fun x b => MkBaseResponse x (Http.Message b) (Data b) (Http.RequestID b)));
   Field "message" true string_codec (Lens Http.Message (fun x b => MkBaseResponse (Http.Status b) x (Data b) (Http.RequestID b)));
   Field "data" true data_codec (Lens Data (fun x b => MkBaseResponse (Http.Status b) (Http.Message b) x (Http.RequestID b)));
   Field "request_id" true string_codec
     (Lens Http.RequestID (fun x b => MkBaseResponse (Http.Status b) (Http.Message b) (Data b) x))].
Definition BaseResponse_codec := struct_codec BaseResponse_fields (MkBaseResponse false "" NoData "").

Context `{!whole_minutes zone}.

Lemma UserResponse_shape u v :
  enc UserResponse_codec u = Some v -> exists x m ms, v = JObj (("id", x) :: m :: ms).
Proof.
  intros (ms & E & ->)%fmap_Some_1. cbn [UserResponse_fields enc_fields] in E.
  apply bind_Some in E as (x & _ & (ms1 & E & [= <-])%bind_Some).
  apply bind_Some in E as (y & _ & (ms2 & _ & [= <-])%bind_Some). by eexists _, _, _.
Qed.

Lemma data_dec_user v old x m ms : v = JObj (("id", x) :: m :: ms) ->
  data_dec (json_scrub v) old = DUserData <$> dec UserResponse_codec (json_scrub v) (zero UserResponse_codec).
Proof. by intros ->. Qed.

Lemma data_enc_dec x v old : enc data_codec x = Some v -> data_dec (json_scrub v) old = Some (data_norm x).
Proof.
  destruct x as [|u|u|errs]; cbn [enc data_codec data_enc].
  - by intros [= <-].
  - intros (w & E & [= <-])%bind_Some. cbn [json_scrub map fst snd]. change (scrub "user") with "user".
    cbn [data_dec]. by rewrite (enc_dec (d := 1) u w E).
  - intros E. destruct (UserResponse_shape u v E) as (x & m & ms & Hv).
    rewrite (data_dec_user v old x m ms Hv). by rewrite (enc_dec (d := 1) u v E).
  - intros (w & E & [= <-])%bind_Some. cbn [json_scrub map fst snd]. change (scrub "errors") with "errors".
    cbn [data_dec]. pose proof (enc_dec (d := 2) (c := slice_codec FieldError_codec) errs w E) as Hd.
    cbn [zero slice_codec] in Hd. by rewrite Hd.
Qed.

#[export] Instance data_laws d : codec_laws (3 + d) data_codec.
Proof.
  split; [|intros x v; by apply data_enc_dec].
  intros [|u|u|errs] v; cbn [enc data_codec data_enc].
  - by intros [= <-].
  - intros (w & E & [= <-])%bind_Some. cbn. rewrite andb_true_r.
    eapply (json_ok_le 1); [|exact (enc_ok (d := 1) u w E)]. lia.
  - intros E. eapply (json_ok_le 1); [|exact (enc_ok (d := 1) u v E)]. lia.
  - intros (w & E & [= <-])%bind_Some. cbn. rewrite andb_true_r.
    eapply (json_ok_le 2); [|exact (enc_ok (d := 2) (c := slice_codec FieldError_codec) errs w E)]. lia.
Qed.
#[export] Instance data_old : overwrites data_codec.
Proof. intros x v old E. cbn [dec data_codec]. by rewrite !(data_enc_dec x v). Qed.

#[export] Instance BaseResponse_ok d : fields_ok (3 + d) BaseResponse_fields.
Proof. solve_fields. Qed.
End replies.

(** ** The bodies of Router.v *)

(** [gin.H] sorts its keys. *)
Definition health_json (status : bool) (message : string) : json :=
  JObj [("message", JStr message); ("status", JBool status)].

(** A [map[string]string], its keys in order. *)
Definition checks_json (checks : gmap string string) : json :=
  JObj (map (fun kv => (kv.1, JStr kv.2)) (merge_sort (fun a b => String.le a.1 b.1) (map_to_list checks))).
Definition ready_json (status : bool) (checks : gmap string string) : json :=
  JObj [("checks", checks_json checks); ("status", JBool status)].

(** The text [c.JSON] writes; [None] is an error of the encoder, or a body that is not ours. *)
Definition body_text (zone : Time -> Z) (b : rbody) : option string :=
  match b with
  | BApi b => Marshal (BaseResponse_codec zone) b
  | BLimited b => Marshal limited_codec b
  | BHealth status message => Some (json_text (health_json status message))
  | BReady status checks => Some (json_text (ready_json status checks))
  | BOther => None
  end.

(** [Root] of the v1 handlers, which no route is given. *)
Definition v1_Root (h : gmap string string) : reply := Reply 200 h (BHealth true "v1 online...").

(** What is left of a body when its strings are valid UTF-8. *)
Definition scrub_user (u : UserResponse) : UserResponse :=
  MkUserResponse (scrub (rsp_Id u)) (scrub (rsp_Username u)) (scrub (rsp_Email u)) (rsp_RoleId u)
    (scrub (rsp_Token u)) (scrub (rsp_RefreshToken u)) (rsp_CreatedAt u) (rsp_UpdatedAt u).
Definition scrub_data (x : data) : data :=
  match x with
  | NoData => NoData
  | DUserEntry u => DUserEntry (scrub_user u)
  | DUserData u => DUserData (scrub_user u)
  | DErrors errs => DErrors (map (fun e =>
      MkFieldError (scrub (fld_Field e)) (scrub (fld_Tag e)) (scrub (fld_Message e))) errs)
  end.
Definition scrub_response (b : BaseResponse) : BaseResponse :=
  MkBaseResponse (Http.Status b) (scrub (Http.Message b)) (scrub_data (Data b)) (scrub (Http.RequestID b)).

Lemma norm_user zone u : norm (UserResponse_codec zone) u = scrub_user u.
Proof. destruct u as [id name mail role [|tc tok] [|rc rtok] ca [ua|]]; reflexivity. Qed.

Lemma norm_data zone x : data_norm zone x = scrub_data x.
Proof. by destruct x as [|u|u|errs]; cbn [data_norm]; rewrite ?norm_user. Qed.

Lemma norm_response zone b : norm (BaseResponse_codec zone) b = scrub_response b.
Proof.
  unfold scrub_response. rewrite <- (norm_data zone).
  destruct b as [st [|mc m] [|u|u|errs] [|rc rid]]; reflexivity.
Qed.

Lemma norm_limited b : norm limited_codec b =
  RateLimiter.Limited (RateLimiter.Status b) (scrub (RateLimiter.Message b)) (scrub (RateLimiter.RequestID b)).
Proof. by destruct b as [st m [|c rid]]. Qed.

#[global] Arguments Marshal : simpl never.
#[global] Arguments Unmarshal : simpl never.
#[global] Arguments ShouldBindJSON : simpl never.
