(* ===== verification/WireProps.v ===== *)
(** What goes over the wire: the bytes of a request are the request its handler works on,
    and the bytes of a reply are the reply. *)

From Stdlib Require Import Ascii String ZArith.
From stdpp Require Import base gmap strings list pretty sorting.
From S2P Require Import Prelude GoStrings AppError Records Services World Domain Repository Caches.
From S2P Require Import UsersUsecase Jwt OtpCode AuthUsecase Validators Middleware Http HttpProps.
From S2P Require Import Config RateLimiter Router Json GoTime Wire.

Open Scope string_scope.

(** * Requests *)

(** The body a client posts to a route: the text of the struct the route takes. *)
Definition client_text (r : route) : option string :=
  match r with
  | PostRegister (Some b) => Marshal RegisterRequest_codec b
  | PostLogin (Some b) => Marshal LoginRequest_codec b
  | PostSendOTP _ (Some b) => Marshal SendOTPRequest_codec b
  | PostVerifyOTP (Some b) => Marshal VerifyOTPRequest_codec b
  | PostRefresh (Some b) | PostLogout (Some b) => Marshal RefreshRequest_codec b
  | PostForgot (Some b) => Marshal ForgotPasswordRequest_codec b
  | PostReset (Some b) => Marshal ResetPasswordRequest_codec b
  | PutChange _ (Some b) => Marshal ChangePasswordRequest_codec b
  | _ => None
  end.

(** [var req requests.X; ctx.ShouldBindJSON(&req)] at the head of every handler with a body. *)
Definition bind_body (text : string) (r : route) : route :=
  match r with
  | PostRegister _ => PostRegister (ShouldBindJSON RegisterRequest_codec text)
  | PostLogin _ => PostLogin (ShouldBindJSON LoginRequest_codec text)
  | PostSendOTP fuel _ => PostSendOTP fuel (ShouldBindJSON SendOTPRequest_codec text)
  | PostVerifyOTP _ => PostVerifyOTP (ShouldBindJSON VerifyOTPRequest_codec text)
  | PostRefresh _ => PostRefresh (ShouldBindJSON RefreshRequest_codec text)
  | PostLogout _ => PostLogout (ShouldBindJSON RefreshRequest_codec text)
  | PostForgot _ => PostForgot (ShouldBindJSON ForgotPasswordRequest_codec text)
  | PostReset _ => PostReset (ShouldBindJSON ResetPasswordRequest_codec text)
  | PutChange hdr _ => PutChange hdr (ShouldBindJSON ChangePasswordRequest_codec text)
  | GetMe hdr => GetMe hdr
  end.

(** The request with every byte that is no UTF-8 replaced; a token of the Authorization
    header does not travel in the body. *)
Definition scrub_route (r : route) : route :=
  match r with
  | PostRegister b => PostRegister ((fun b => MkRegisterReq (scrub (reg_Username b)) (scrub (reg_Email b))
      (scrub (reg_Password b))) <$> b)
  | PostLogin b => PostLogin ((fun b => MkLoginReq (scrub (log_Email b)) (scrub (log_Password b))) <$> b)
  | PostSendOTP fuel b => PostSendOTP fuel (scrub <$> b)
  | PostVerifyOTP b => PostVerifyOTP ((fun b => MkVerifyReq (scrub (ver_Email b)) (scrub (ver_Code b))) <$> b)
  | PostRefresh b => PostRefresh (scrub <$> b)
  | PostLogout b => PostLogout (scrub <$> b)
  | PostForgot b => PostForgot (scrub <$> b)
  | PostReset b => PostReset ((fun b => MkResetReq (scrub (rst_Token b)) (scrub (rst_NewPassword b))) <$> b)
  | PutChange hdr b => PutChange hdr ((fun b => MkChangeReq (scrub (chg_CurrentPassword b))
      (scrub (chg_NewPassword b))) <$> b)
  | GetMe hdr => GetMe hdr
  end.

Definition has_body (r : route) : Prop :=
  match r with GetMe _ => False | _ => True end.

(** An open brace is never closed: a prefix of a body is no body. *)
Example bind_truncated :
  ShouldBindJSON LoginRequest_codec ("{" +:+ json_Marshal "email" +:+ ":" +:+ json_Marshal "a@b.c") = None.
Proof. vm_compute. reflexivity. Qed.

(** Names are matched without regard to case, unknown ones are skipped, of two of a name the
    later one counts, [null] changes nothing, and a number is no string. *)
Example bind_lenient :
  let q := json_Marshal in
  ShouldBindJSON LoginRequest_codec ("{" +:+ q "EMAIL" +:+ ":" +:+ q "x" +:+ "," +:+ q "role_id" +:+ ":1," +:+
    q "password" +:+ ":null," +:+ q "email" +:+ ":" +:+ q "a@b.c" +:+ "} trailing")
  = Some (MkLoginReq "a@b.c" "") /\
  ShouldBindJSON LoginRequest_codec ("{" +:+ q "email" +:+ ":7}") = None /\
  ShouldBindJSON LoginRequest_codec "null" = Some (MkLoginReq "" "").
Proof. vm_compute. done. Qed.

Section theorems.
Context `{Platform} `{!OTPMailer} `{!UsersUsecase} `{!JWTService} `{!ValidatorLib}.


(** A body that is no JSON text is refused with 400 on every public route, and nothing
    changes: no account, no session, no mail, no audit event. *)
Theorem malformed_refused usecase guard c r text h :
  json_decode text = None -> has_body r -> (forall hdr b, r <> PutChange hdr b) ->
  serve usecase guard c (bind_body text r) h
  = (Some (NewErrorResponse c StatusBadRequest "invalid request body"), h).
Proof.
  intros Ht Hb Hp. assert (forall A (k : codec A), ShouldBindJSON k text = None) as Hnone.
  { intros A k. unfold ShouldBindJSON. by rewrite Ht. }
  destruct r; try done; cbn [bind_body serve]; rewrite ?Hnone; try reflexivity.
  by destruct (Hp authHeader b).
Qed.
End theorems.

(** * Replies *)

Lemma enc_fields_each {S} (fs : list (field S)) s :
  Forall (fun f => is_Some (enc (f_codec f) (lget (f_lens f) s))) fs -> is_Some (enc_fields fs s).
Proof.
  induction 1 as [|f fs Hf _ [ms IH]]; [by eexists|]. cbn [enc_fields].
  destruct (omitted f s); [by eexists|]. destruct Hf as [v Hv].
  rewrite Hv, IH. by eexists.
Qed.

Lemma FieldError_encodes e : is_Some (enc FieldError_codec e).
Proof.
  cbn [enc FieldError_codec struct_codec]. apply fmap_is_Some, enc_fields_each.
  repeat (constructor; [by eexists|]); constructor.
Qed.

(** A reply without an account in it is always written. *)
Lemma reply_encodes zone b :
  match Data b with NoData | DErrors _ => True | _ => False end -> is_Some (body_text zone (BApi b)).
Proof.
  intros Hd. unfold body_text, Marshal. apply fmap_is_Some.
  cbn [enc BaseResponse_codec struct_codec]. apply fmap_is_Some.
  assert (forall x, match x with NoData | DErrors _ => True | _ => False end -> is_Some (data_enc zone x)) as Hx.
  { intros [| | |errs] Hx; try done. cbn [data_enc enc slice_codec].
    assert (is_Some (mapM (enc FieldError_codec) errs)) as [vs ->]; [|by eexists].
    apply mapM_is_Some, Forall_true. intros. apply FieldError_encodes. }
  apply enc_fields_each. repeat (constructor; [first [by eexists|by apply Hx]|]). constructor.
Qed.


(** The limiter's reply, a type of its own, reads like the envelope. *)
Lemma limited_reads_as_envelope zone b s :
  whole_minutes zone -> RateLimiter.Message b <> "" -> body_text zone (BLimited b) = Some s ->
  body_text zone (BApi (MkBaseResponse (RateLimiter.Status b) (RateLimiter.Message b) NoData
                          (RateLimiter.RequestID b))) = Some s.
Proof.
  intros Hz Hm Hs. rewrite <- Hs. destruct b as [st [|mc m] [|rc rid]]; done.
Qed.

(** * Between DTOs and entities *)
Definition LoginRequest_ToV1Domain (r : LoginRequest) : User.t :=
  User.mk "" "" (log_Email r) (log_Password r) false 0 zero_time None None None.
Definition UserResponse_ToV1Domain (u : UserResponse) : User.t :=
  User.mk (rsp_Id u) (rsp_Username u) (rsp_Email u) "" false (rsp_RoleId u) (rsp_CreatedAt u) (rsp_UpdatedAt u)
    None None.

(** A reply never carries the password hash, and what it says of the account survives the
    way back; neither hash, activation nor stamps come back. *)
Lemma response_round_trip u resp :
  FromV1Domain (UserResponse_ToV1Domain (FromV1Domain u)) = FromV1Domain u /\
  User.Password (UserResponse_ToV1Domain resp) = "" /\ User.Active (UserResponse_ToV1Domain resp) = false /\
  UserResponse_ToV1Domain (FromV1Domain (UserResponse_ToV1Domain resp)) = UserResponse_ToV1Domain resp.
Proof. done. Qed.
