(* ===== verification/AuditLog.v ===== *)
(** pkg/audit down to the bytes: the line of an event, [Record] and [SetOutput] as
    goroutines with their two mutexes, and the encoder they share.

    Http.v says which events a request records; here a recorded event becomes one JSON
    line of the current sink.  [encode] is a step for every access to shared memory
    that matters: reading [enc], the encoder's sticky error, the write.  A write may
    fail after any part of the line. *)

From Stdlib Require Import Ascii String ZArith.
From stdpp Require Import base gmap strings list pretty.
From S2P Require Import Prelude GoStrings AppError Records Services World Domain Repository Caches.
From S2P Require Import UsersUsecase Jwt OtpCode AuthUsecase Validators Middleware Http.
From S2P Require Import Json GoTime Wire.

Open Scope string_scope.

(** * One event *)

Definition EventType_string (t : EventType) : string :=
  match t with
  | EventRegister => "register"
  | EventLoginSuccess => "login_success"
  | EventLoginFailure => "login_failure"
  | EventLogout => "logout"
  | EventRefreshOK => "refresh_success"
  | EventRefreshFail => "refresh_failure"
  | EventOTPSent => "otp_sent"
  | EventOTPVerifyOK => "otp_verify_success"
  | EventOTPVerifyFail => "otp_verify_failure"
  | EventOTPLockout => "otp_lockout"
  | EventPasswordChangeOK => "password_change_success"
  | EventPasswordChangeFail => "password_change_failure"
  | EventPasswordForgotOK => "password_forgot_success"
  | EventPasswordForgotFail => "password_forgot_failure"
  | EventPasswordResetOK => "password_reset_success"
  | EventPasswordResetFail => "password_reset_failure"
  end.

Definition event_types : list EventType :=
  [EventRegister; EventLoginSuccess; EventLoginFailure; EventLogout; EventRefreshOK; EventRefreshFail;
   EventOTPSent; EventOTPVerifyOK; EventOTPVerifyFail; EventOTPLockout; EventPasswordChangeOK;
   EventPasswordChangeFail; EventPasswordForgotOK; EventPasswordForgotFail; EventPasswordResetOK;
   EventPasswordResetFail].

(** Who reads the stream keys off these names. *)
Definition EventType_of (s : string) : option EventType :=
  snd <$> list_find (fun t => EventType_string t = s) event_types.

Definition EventType_codec : codec EventType := Codec
  (fun t => Some (JStr (EventType_string t)))
  (fun v old => match v with JStr s => EventType_of s | JNull => Some old | _ => None end)
  EventRegister (fun _ => false) (fun t => t).

#[export] Instance EventType_laws d : codec_laws d EventType_codec.
Proof. split; intros t v [= <-]; [done|]. by destruct t. Qed.
#[export] Instance EventType_old : overwrites EventType_codec.
Proof. by intros t v old [= <-]. Qed.

(** The time of an event is in UTC. *)
Definition UTC : Time -> Z := fun _ => 0%Z.
#[export] Instance UTC_minutes : whole_minutes UTC.
Proof. done. Qed.

Definition Event_fields : list (field Event) :=
  let mk := MkEvent in
  [Field "time" false (time_codec UTC) (Lens ev_Time (fun x e => mk x (ev_Type e) (ev_Success e) (ev_UserID e)
     (ev_Email e) (ev_IP e) (ev_UserAgent e) (ev_RequestID e) (ev_TraceID e) (ev_Reason e)));
   Field "event" false EventType_codec (Lens ev_Type (fun x e => mk (ev_Time e) x (ev_Success e) (ev_UserID e)
     (ev_Email e) (ev_IP e) (ev_UserAgent e) (ev_RequestID e) (ev_TraceID e) (ev_Reason e)));
   Field "success" false bool_codec (Lens ev_Success (fun x e => mk (ev_Time e) (ev_Type e) x (ev_UserID e)
     (ev_Email e) (ev_IP e) (ev_UserAgent e) (ev_RequestID e) (ev_TraceID e) (ev_Reason e)));
   Field "user_id" true string_codec (Lens ev_UserID (fun x e => mk (ev_Time e) (ev_Type e) (ev_Success e) x
     (ev_Email e) (ev_IP e) (ev_UserAgent e) (ev_RequestID e) (ev_TraceID e) (ev_Reason e)));
   Field "email" true string_codec (Lens ev_Email (fun x e => mk (ev_Time e) (ev_Type e) (ev_Success e)
     (ev_UserID e) x (ev_IP e) (ev_UserAgent e) (ev_RequestID e) (ev_TraceID e) (ev_Reason e)));
   Field "ip" true string_codec (Lens ev_IP (fun x e => mk (ev_Time e) (ev_Type e) (ev_Success e)
     (ev_UserID e) (ev_Email e) x (ev_UserAgent e) (ev_RequestID e) (ev_TraceID e) (ev_Reason e)));
   Field "user_agent" true string_codec (Lens ev_UserAgent (fun x e => mk (ev_Time e) (ev_Type e) (ev_Success e)
     (ev_UserID e) (ev_Email e) (ev_IP e) x (ev_RequestID e) (ev_TraceID e) (ev_Reason e)));
   Field "request_id" true string_codec (Lens ev_RequestID (fun x e => mk (ev_Time e) (ev_Type e) (ev_Success e)
     (ev_UserID e) (ev_Email e) (ev_IP e) (ev_UserAgent e) x (ev_TraceID e) (ev_Reason e)));
   Field "trace_id" true string_codec (Lens ev_TraceID (fun x e => mk (ev_Time e) (ev_Type e) (ev_Success e)
     (ev_UserID e) (ev_Email e) (ev_IP e) (ev_UserAgent e) (ev_RequestID e) x (ev_Reason e)));
   Field "reason" true string_codec (Lens ev_Reason (fun x e => mk (ev_Time e) (ev_Type e) (ev_Success e)
     (ev_UserID e) (ev_Email e) (ev_IP e) (ev_UserAgent e) (ev_RequestID e) (ev_TraceID e) x))].
Definition Event_codec : codec Event :=
  struct_codec Event_fields (MkEvent zero_time EventRegister false "" "" "" "" "" "" "").

#[export] Instance Event_ok d : fields_ok d Event_fields.
Proof. solve_fields. Qed.

(** The event with every byte that is no UTF-8 replaced. *)
Definition scrub_event (e : Event) : Event :=
  MkEvent (ev_Time e) (ev_Type e) (ev_Success e) (scrub (ev_UserID e)) (scrub (ev_Email e)) (scrub (ev_IP e))
    (scrub (ev_UserAgent e)) (scrub (ev_RequestID e)) (scrub (ev_TraceID e)) (scrub (ev_Reason e)).

Lemma norm_event e : norm Event_codec e = scrub_event e.
Proof.
  destruct e as [t ty ok [|] [|] [|] [|] [|] [|] [|]]; reflexivity.
Qed.

Definition newline : string := String (chr 10) "".

(** What [Encode] hands to the writer; [None] where the encoder fails. *)
Definition event_line (e : Event) : option string := (fun t => t +:+ newline) <$> Marshal Event_codec e.

(** ** Reading a stream *)

(** The lines that are complete, and what is left. *)
Fixpoint split_lines (s : string) : list string * string :=
  match s with
  | EmptyString => ([], "")
  | String a r =>
      let '(ls, tail) := split_lines r in
      if (code a =? 10)%N then ("" :: ls, tail) else
      match ls with
      | [] => ([], String a tail)
      | l :: ls => (String a l :: ls, tail)
      end
  end.

Definition read_events (s : string) : option (list Event) := mapM (Unmarshal Event_codec) (split_lines s).1.

Lemma split_lines_line l s :
  string_forall printable l = true ->
  split_lines (l +:+ newline +:+ s) = (l :: (split_lines s).1, (split_lines s).2).
Proof.
  induction l as [|a l IH]; intros Hl.
  - change ("" +:+ newline +:+ s) with (String (chr 10) s). cbn [split_lines].
    by destruct (split_lines s).
  - cbn in Hl. apply andb_prop in Hl as [Ha Hl]. rewrite app_cons_string. cbn [split_lines].
    rewrite IH by done. unfold printable in Ha. apply negb_true_iff, N.ltb_ge in Ha.
    by rewrite (proj2 (N.eqb_neq _ 10)) by lia.
Qed.

Definition lines (es : list Event) : string := String.concat "" (omap event_line es).
#[global] Arguments lines : simpl never.

Lemma event_line_spec e l s : event_line e = Some l ->
  split_lines (l +:+ s) = ((split_lines l).1 ++ (split_lines s).1, (split_lines s).2)%list /\
  mapM (Unmarshal Event_codec) (split_lines l).1 = Some [scrub_event e].
Proof.
  intros (t & Ht & ->)%fmap_Some_1.
  pose proof (Marshal_one_line 1 Event_codec e t Ht) as Hline.
  pose proof (split_lines_line t "" Hline) as H0. rewrite app_nil_r_string in H0.
  rewrite <- app_assoc_string, (split_lines_line t s Hline), H0. split; [done|].
  cbn. rewrite <- (app_nil_r_string t), (Unmarshal_Marshal 1 Event_codec e t ""), norm_event by (done || lia). done.
Qed.

#[local] Open Scope list_scope.

(** * The package *)

(** A [json.Encoder]: its writer, the error that makes it answer without writing ever after,
    what its writer has taken from it, and the events it took whole. *)
Record encoder := Enc { en_writer : N; en_err : bool; en_text : string; en_log : list Event }.

(** [mu], [encMu], [out], [enc], and the encoders made so far. *)
Record shared := Shared {
  mu : bool; encMu : bool; out : N; enc_ : nat; encoders : list encoder }.

(** Where a goroutine is in [Record] or [SetOutput]. *)
Inductive pc :=
| RStart (e : Event)
| RStamped (e : Event)                          (** [encMu.Lock()] next *)
| RLocked (e : Event)                           (** reads [enc] next *)
| REncode (e : Event) (k : nat)                 (** in [enc.Encode(e)] *)
| RWrite (e : Event) (k : nat) (line : string)  (** about to write *)
| RUnlock (e : Event) (took : bool)
| RDone (e : Event) (took : bool)
| SStart (w : N)
| SLocked (w : N)
| SOut (w : N)                                  (** [out] is set, [enc] is next *)
| SUnlock (w : N)
| SDone (w : N).

Definition stamp (now : Time) (e : Event) : Event :=
  if time_IsZero (ev_Time e)
  then MkEvent now (ev_Type e) (ev_Success e) (ev_UserID e) (ev_Email e) (ev_IP e) (ev_UserAgent e)
         (ev_RequestID e) (ev_TraceID e) (ev_Reason e)
  else e.

(** The writer takes the line, or answers an error after [p]. *)
Definition took_line (e : Event) (line : string) (en : encoder) : encoder :=
  Enc (en_writer en) (en_err en) (en_text en +:+ line) (en_log en ++ [e]).
Definition broke_line (p : string) (en : encoder) : encoder :=
  Enc (en_writer en) true (en_text en +:+ p) (en_log en).

Definition set_encMu (b : bool) (g : shared) : shared := Shared (mu g) b (out g) (enc_ g) (encoders g).
Definition set_mu (b : bool) (g : shared) : shared := Shared b (encMu g) (out g) (enc_ g) (encoders g).
Definition set_encoders (l : list encoder) (g : shared) : shared := Shared (mu g) (encMu g) (out g) (enc_ g) l.

Definition NewEncoder (w : N) : encoder := Enc w false "" [].

Inductive pc_step : shared -> pc -> shared -> pc -> Prop :=
| step_stamp g e now : pc_step g (RStart e) g (RStamped (stamp now e))
| step_lock g e : encMu g = false -> pc_step g (RStamped e) (set_encMu true g) (RLocked e)
| step_read g e : pc_step g (RLocked e) g (REncode e (enc_ g))
| step_sticky g e k en :
    encoders g !! k = Some en -> en_err en = true -> pc_step g (REncode e k) g (RUnlock e false)
| step_unencodable g e k en :
    encoders g !! k = Some en -> en_err en = false -> event_line e = None ->
    pc_step g (REncode e k) g (RUnlock e false)
| step_encode g e k en line :
    encoders g !! k = Some en -> en_err en = false -> event_line e = Some line ->
    pc_step g (REncode e k) g (RWrite e k line)
| step_write g e k line :
    pc_step g (RWrite e k line) (set_encoders (alter (took_line e line) k (encoders g)) g) (RUnlock e true)
| step_write_error g e k line p q :
    line = p +:+ q ->
    pc_step g (RWrite e k line) (set_encoders (alter (broke_line p) k (encoders g)) g) (RUnlock e false)
| step_unlock g e took : pc_step g (RUnlock e took) (set_encMu false g) (RDone e took)
| step_set_lock g w : mu g = false -> pc_step g (SStart w) (set_mu true g) (SLocked w)
| step_set_out g w : pc_step g (SLocked w) (Shared (mu g) (encMu g) w (enc_ g) (encoders g)) (SOut w)
| step_set_enc g w :
    pc_step g (SOut w)
      (Shared (mu g) (encMu g) (out g) (length (encoders g)) (encoders g ++ [NewEncoder w])) (SUnlock w)
| step_set_unlock g w : pc_step g (SUnlock w) (set_mu false g) (SDone w).

Definition system : Type := shared * list pc.

Inductive audit_step : system -> system -> Prop :=
| call_Record g pool e : audit_step (g, pool) (g, pool ++ [RStart e])
| call_SetOutput g pool w : audit_step (g, pool) (g, pool ++ [SStart w])
| run_step g pool i p g' p' :
    pool !! i = Some p -> pc_step g p g' p' -> audit_step (g, pool) (g', <[i:=p']> pool).

Definition stderr : N := 2.

(** [init]. *)
Definition init : system := (Shared false false stderr 0 [NewEncoder stderr], []).

Definition reachable (s : system) : Prop := rtc audit_step init s.

(** The event of a [Record] whose line was taken. *)
Definition recorded (p : pc) : option Event :=
  match p with RUnlock e true | RDone e true => Some e | _ => None end.

(** * Mutual exclusion *)

Definition holds_encMu (p : pc) : bool :=
  match p with RLocked _ | REncode _ _ | RWrite _ _ _ | RUnlock _ _ => true | _ => false end.
Definition holds_mu (p : pc) : bool :=
  match p with SLocked _ | SOut _ | SUnlock _ => true | _ => false end.

(** A lock is held by at most one goroutine, and taken while one holds it. *)
Definition excl (cs : pc -> bool) (lock : bool) (pool : list pc) : Prop :=
  (forall i p, pool !! i = Some p -> cs p = true -> lock = true) /\
  (forall i j p q, pool !! i = Some p -> pool !! j = Some q -> cs p = true -> cs q = true -> i = j).

Section excl.
Variables (cs : pc -> bool) (lock : bool) (pool : list pc).
Hypothesis Hex : excl cs lock pool.

Lemma excl_call p : cs p = false -> excl cs lock (pool ++ [p]).
Proof.
  destruct Hex as [H1 H2]. intros Hp.
  assert (forall i q, (pool ++ [p]) !! i = Some q -> cs q = true -> pool !! i = Some q) as Hin.
  { intros i q [Hi|[_ Hi]]%lookup_app_Some Hq; [done|].
    apply list_lookup_singleton_Some in Hi as [_ <-]. congruence. }
  split; [intros i q Hi Hq; eapply H1; eauto|]. intros i j q r Hi Hj Hq Hr. eapply H2; eauto.
Qed.

Lemma excl_update i p p' lock' :
  pool !! i = Some p ->
  (cs p = cs p' /\ lock' = lock) \/ (cs p = false /\ lock = false /\ lock' = true) \/ (cs p = true /\ cs p' = false) ->
  excl cs lock' (<[i:=p']> pool).
Proof.
  destruct Hex as [H1 H2]. intros Hi Hcase. split.
  - intros j q [[<- [-> _]]|[Hne Hj]]%list_lookup_insert_Some Hq.
    + destruct Hcase as [[Hcs ->]|[(_ & _ & ->)|[_ Hf]]]; [|done|congruence].
      eapply H1; [exact Hi|congruence].
    + destruct Hcase as [[_ ->]|[(_ & _ & ->)|[Hp _]]]; [by eapply H1|done|].
      destruct Hne. by eapply H2.
  - intros j k q r Hj Hk Hq Hr.
    apply list_lookup_insert_Some in Hj as [[<- [-> _]]|[Hj' Hj]];
      apply list_lookup_insert_Some in Hk as [[<- [-> _]]|[Hk' Hk]]; [done| | |by eapply H2].
    + destruct Hcase as [[Hcs _]|[(_ & Hl & _)|[_ Hf]]]; [|by rewrite (H1 k r) in Hl|congruence].
      eapply H2; [exact Hi|exact Hk|congruence|done].
    + destruct Hcase as [[Hcs _]|[(_ & Hl & _)|[_ Hf]]]; [|by rewrite (H1 j q) in Hl|congruence].
      eapply H2; [exact Hj|exact Hi|done|congruence].
Qed.
End excl.

Definition locked (s : system) : Prop :=
  excl holds_encMu (encMu s.1) s.2 /\ excl holds_mu (mu s.1) s.2.

Lemma locked_step s s' : audit_step s s' -> locked s -> locked s'.
Proof.
  intros Hstep [He Hm]. destruct Hstep as [g pool e|g pool w|g pool i p g' p' Hi Hpc]; cbn [fst snd] in *.
  - split; by apply excl_call.
  - split; by apply excl_call.
  - destruct Hpc; split; cbn [encMu mu set_encMu set_mu set_encoders];
      (eapply excl_update; [eassumption|exact Hi|cbn; auto]).
Qed.

(** * What the sinks hold *)

Definition whole (en : encoder) : Prop :=
  Forall (fun e => is_Some (event_line e)) (en_log en) /\
  exists tail, en_text en = lines (en_log en) +:+ tail /\ (en_err en = false -> tail = "").

Record stream_inv (s : system) : Prop := {
  si_current : enc_ s.1 < length (encoders s.1);
  si_read : forall i e k, s.2 !! i = Some (REncode e k) -> k < length (encoders s.1);
  si_write : forall i e k line, s.2 !! i = Some (RWrite e k line) ->
    event_line e = Some line /\ exists en, encoders s.1 !! k = Some en /\ en_err en = false;
  si_whole : Forall whole (encoders s.1);
  si_account : concat (map en_log (encoders s.1)) ≡ₚ omap recorded s.2;
}.

Lemma omap_recorded_same (pool : list pc) i p p' :
  pool !! i = Some p -> recorded p' = recorded p -> omap recorded (<[i:=p']> pool) = omap recorded pool.
Proof.
  intros Hi Hp. rewrite insert_take_drop by by eapply lookup_lt_Some.
  rewrite <- (take_drop_middle pool i p Hi) at 3. rewrite !omap_app. cbn. by rewrite Hp.
Qed.

Lemma omap_recorded_new (pool : list pc) i p p' e :
  pool !! i = Some p -> recorded p = None -> recorded p' = Some e ->
  omap recorded (<[i:=p']> pool) ≡ₚ e :: omap recorded pool.
Proof.
  intros Hi Hp Hp'. rewrite insert_take_drop by by eapply lookup_lt_Some.
  rewrite <- (take_drop_middle pool i p Hi) at 3. rewrite !omap_app. cbn. rewrite Hp, Hp'.
  symmetry. apply Permutation_middle.
Qed.

Lemma alter_split {A} (f : A -> A) (l : list A) k x : l !! k = Some x ->
  alter f k l = take k l ++ f x :: drop (S k) l.
Proof.
  intros Hk. rewrite <- insert_take_drop by by eapply lookup_lt_Some.
  apply list_eq. intros j. destruct (decide (j = k)) as [->|Hne].
  - rewrite list_lookup_alter_eq, list_lookup_insert_eq by by eapply lookup_lt_Some. by rewrite Hk.
  - by rewrite list_lookup_alter_ne, list_lookup_insert_ne by done.
Qed.

Lemma logs_took (l : list encoder) k en e line : l !! k = Some en ->
  concat (map en_log (alter (took_line e line) k l)) ≡ₚ e :: concat (map en_log l).
Proof.
  intros Hk. rewrite (alter_split _ _ _ _ Hk). rewrite <- (take_drop_middle l k en Hk) at 3.
  rewrite !map_app, !concat_app. cbn.
  rewrite <- (app_assoc (en_log en)). cbn [app]. by rewrite <- !Permutation_middle.
Qed.

Lemma logs_broke (l : list encoder) k en p : l !! k = Some en ->
  concat (map en_log (alter (broke_line p) k l)) = concat (map en_log l).
Proof.
  intros Hk. rewrite (alter_split _ _ _ _ Hk). rewrite <- (take_drop_middle l k en Hk) at 3.
  by rewrite !map_app, !concat_app.
Qed.

Lemma lines_app es fs : lines (es ++ fs) = (lines es +:+ lines fs)%string.
Proof.
  unfold lines. rewrite omap_app. induction (omap event_line es) as [|l ls IH]; [done|].
  assert (forall l ls, String.concat "" (l :: ls) = (l +:+ String.concat "" ls)%string) as Hc.
  { intros x [|y ys]; cbn; [by rewrite app_nil_r_string|done]. }
  cbn [app]. by rewrite !Hc, IH, app_assoc_string.
Qed.

Lemma whole_took en e line : whole en -> en_err en = false -> event_line e = Some line -> whole (took_line e line en).
Proof.
  intros (Hlog & tail & Ht & Hend) Herr Hl. split; cbn.
  - apply Forall_app. split; [done|]. constructor; [by rewrite Hl|done].
  - exists "". split; [|done]. rewrite Ht, Hend, lines_app, !app_nil_r_string by done.
    f_equal. unfold lines. cbn. by rewrite Hl.
Qed.

Lemma whole_broke en p : whole en -> en_err en = false -> whole (broke_line p en).
Proof.
  intros (Hlog & tail & Ht & Hend) Herr. split; cbn; [done|].
  exists p. split; [|done]. by rewrite Ht, Hend, app_nil_r_string by done.
Qed.

(** A step of a goroutine that leaves encoders and events alone. *)
Lemma quiet_step g g' pool i p p' :
  stream_inv (g, pool) -> pool !! i = Some p ->
  enc_ g' = enc_ g -> encoders g' = encoders g -> recorded p' = recorded p ->
  match p' with
  | REncode _ k => k < length (encoders g)
  | RWrite e k line => event_line e = Some line /\ exists en, encoders g !! k = Some en /\ en_err en = false
  | _ => True
  end ->
  stream_inv (g', <[i:=p']> pool).
Proof.
  intros [H1 H2 H3 H4 H5] Hi Henc Hencs Hrec Hp'. cbn [fst snd] in *.
  split; cbn [fst snd]; rewrite ?Henc, ?Hencs; try done.
  - intros j e k [[<- [-> _]]|[_ Hj]]%list_lookup_insert_Some; [done|by eapply H2].
  - intros j e k line [[<- [-> _]]|[_ Hj]]%list_lookup_insert_Some; [done|by eapply H3].
  - by rewrite (omap_recorded_same _ _ _ _ Hi Hrec).
Qed.

(** What a write does: nobody else is about to write. *)
Lemma write_step f g pool i e k line p' :
  locked (g, pool) -> stream_inv (g, pool) -> pool !! i = Some (RWrite e k line) ->
  (exists took, p' = RUnlock e took) -> (forall en, whole en -> en_err en = false -> whole (f en)) ->
  concat (map en_log (alter f k (encoders g))) ≡ₚ omap recorded (<[i:=p']> pool) ->
  stream_inv (set_encoders (alter f k (encoders g)) g, <[i:=p']> pool).
Proof.
  intros [[_ Huniq] _] [H1 H2 H3 H4 H5] Hi [took ->] Hf Hacc. cbn [fst snd] in *.
  destruct (H3 i e k line Hi) as (_ & en & Hk & Herr).
  split; cbn [fst snd set_encoders enc_ encoders]; rewrite ?length_alter; try done.
  - intros j e' k' [[_ [? _]]|[_ Hj]]%list_lookup_insert_Some; [done|by eapply H2].
  - intros j e' k' l' [[_ [? _]]|[Hne Hj]]%list_lookup_insert_Some; [done|].
    destruct Hne. by eapply Huniq.
  - rewrite Forall_lookup in H4 |- *. intros j x Hj. destruct (decide (j = k)) as [->|Hne].
    + rewrite list_lookup_alter_eq, Hk in Hj. injection Hj as <-. apply Hf; [by eapply H4|done].
    + rewrite list_lookup_alter_ne in Hj by done. by eapply H4.
Qed.

Lemma stream_step s s' : audit_step s s' -> locked s -> stream_inv s -> stream_inv s'.
Proof.
  intros Hstep Hl Hinv.
  assert (forall g pool p, (exists e, p = RStart e) \/ (exists w, p = SStart w) ->
    stream_inv (g, pool) -> stream_inv (g, pool ++ [p])) as Hcall.
  { clear. intros g pool p Hp [H1 H2 H3 H4 H5]. split; cbn [fst snd] in *; try done.
    - intros i e k [Hi|[_ Hi]]%lookup_app_Some; [by eapply H2|].
      apply list_lookup_singleton_Some in Hi as [_ Hi]. by destruct Hp as [[? ->]|[? ->]].
    - intros i e k line [Hi|[_ Hi]]%lookup_app_Some; [by eapply H3|].
      apply list_lookup_singleton_Some in Hi as [_ Hi]. by destruct Hp as [[? ->]|[? ->]].
    - rewrite omap_app. destruct Hp as [[? ->]|[? ->]]; cbn; by rewrite app_nil_r. }
  destruct Hstep as [g pool e|g pool w|g pool i p g' p' Hi Hpc]; [apply Hcall; eauto..|].
  pose proof Hinv as [H1 H2 H3 H4 H5]. cbn [fst snd] in *.
  destruct Hpc as [g e now|g e _|g e|g e k en Hk He|g e k en Hk He Hn|g e k en line Hk He Hline
    |g e k line|g e k line p q ->|g e took|g w _|g w|g w|g w].
  all: try by eapply quiet_step.
  - eapply quiet_step; eauto.
  - destruct (H3 i e k line Hi) as (Hline & en & Hk & Herr).
    eapply write_step; eauto using whole_took.
    rewrite (logs_took _ _ _ _ _ Hk), (omap_recorded_new _ _ _ _ e Hi) by done. by rewrite H5.
  - destruct (H3 i e k _ Hi) as (Hline & en & Hk & Herr).
    eapply write_step; eauto using whole_broke.
    by rewrite (logs_broke _ _ _ _ Hk), (omap_recorded_same _ _ _ _ Hi) by done.
  - split; cbn [fst snd enc_ encoders]; rewrite ?length_app; cbn [length]; try lia.
    + intros j e k [[_ [? _]]|[_ Hj]]%list_lookup_insert_Some; [done|]. apply H2 in Hj. lia.
    + intros j e k line [[_ [? _]]|[_ Hj]]%list_lookup_insert_Some; [done|].
      destruct (H3 j e k line Hj) as (Hline & en & Hk & Herr). split; [done|]. exists en.
      split; [by apply lookup_app_l_Some|done].
    + apply Forall_app. split; [done|]. constructor; [|constructor]. split; [by constructor|].
      by exists "".
    + rewrite map_app, concat_app. cbn. rewrite app_nil_r.
      by rewrite (omap_recorded_same _ _ _ _ Hi).
Qed.

Lemma audit_reachable_inv s : reachable s -> locked s /\ stream_inv s.
Proof.
  unfold reachable. intros Hr. remember init as s0 eqn:H0.
  assert (locked s0 /\ stream_inv s0) as Hinit.
  { subst. split.
    - split; split; intros ?; by intros.
    - split; cbn; try done; try lia. constructor; [|constructor]. split; [constructor|by exists ""]. }
  clear H0. induction Hr as [s|s s1 s2 Hs _ IH]; [done|]. apply IH. destruct Hinit.
  split; [by eapply locked_step|by eapply stream_step].
Qed.

Lemma read_lines es : Forall (fun e => is_Some (event_line e)) es ->
  read_events (lines es) = Some (map scrub_event es) /\ (split_lines (lines es)).2 = "".
Proof.
  unfold read_events. induction 1 as [|e es [l Hl] _ [IH1 IH2]]; [done|].
  assert (lines (e :: es) = (l +:+ lines es)%string) as ->.
  { change (e :: es) with ([e] ++ es). rewrite lines_app. f_equal. unfold lines. cbn. by rewrite Hl. }
  destruct (event_line_spec e l (lines es) Hl) as [-> H1]. split; [|done].
  cbn [fst map]. apply mapM_Some in H1, IH1. apply mapM_Some. apply (Forall2_app (l1' := [scrub_event e])); done.
Qed.

(** No step touches an encoder that has failed. *)
Lemma failed_step s s' k en : audit_step s s' -> stream_inv s ->
  encoders s.1 !! k = Some en -> en_err en = true -> encoders s'.1 !! k = Some en.
Proof.
  intros Hstep [_ _ H3 _ _] Hk Herr. destruct Hstep as [| |g pool i p g' p' Hi Hpc]; [done|done|].
  cbn [fst snd] in *.
  assert (forall e k' line, p = RWrite e k' line -> k' <> k) as Hother.
  { intros e k' line -> ->. destruct (H3 i e k line Hi) as (_ & en' & Hk' & Herr'). congruence. }
  destruct Hpc; try done; cbn [set_encoders encoders].
  - rewrite list_lookup_alter_ne; [done|]. by eapply Hother.
  - rewrite list_lookup_alter_ne; [done|]. by eapply Hother.
  - by apply lookup_app_l_Some.
Qed.

(** Outside of [SetOutput] the encoder writes to [out]. *)
Definition directed (s : system) : Prop :=
  (forall i w, s.2 !! i = Some (SOut w) -> out s.1 = w) /\
  ((exists i w, s.2 !! i = Some (SOut w)) \/
   exists en, encoders s.1 !! enc_ s.1 = Some en /\ en_writer en = out s.1).

Lemma directed_update g g' (pool : list pc) i p p' :
  directed (g, pool) -> pool !! i = Some p -> (forall w, p <> SOut w) -> (forall w, p' <> SOut w) ->
  out g' = out g -> enc_ g' = enc_ g ->
  (forall en, encoders g !! enc_ g = Some en ->
     exists en', encoders g' !! enc_ g = Some en' /\ en_writer en' = en_writer en) ->
  directed (g', <[i:=p']> pool).
Proof.
  intros [H1 H2] Hi Hp Hp' Ho He Hencs. unfold directed in *. cbn [fst snd] in *. split.
  - intros j w [[_ [Hj _]]|[_ Hj]]%list_lookup_insert_Some; [by destruct (Hp' w)|]. rewrite Ho. by eapply H1.
  - destruct H2 as [(j & w & Hj)|(en & Hen & Hw)].
    + left. exists j, w. rewrite list_lookup_insert_ne; [done|]. intros ->.
      rewrite Hi in Hj. injection Hj as ->. by destruct (Hp w).
    + right. rewrite Ho, He. destruct (Hencs en Hen) as (en' & ? & Hw'). exists en'. by rewrite Hw'.
Qed.

Lemma alter_writer f (l : list encoder) k j en :
  (forall en, en_writer (f en) = en_writer en) -> l !! j = Some en ->
  exists en', alter f k l !! j = Some en' /\ en_writer en' = en_writer en.
Proof.
  intros Hf Hj. destruct (decide (j = k)) as [->|Hne].
  - rewrite list_lookup_alter_eq, Hj. by eexists.
  - rewrite list_lookup_alter_ne by done. by eexists.
Qed.

Lemma directed_step s s' : audit_step s s' -> locked s -> directed s -> directed s'.
Proof.
  intros Hstep Hl Hd.
  assert (forall g pool p, (forall w, p <> SOut w) -> directed (g, pool) -> directed (g, pool ++ [p])) as Hcall.
  { clear. intros g pool p Hp [H1 H2]. split; cbn [fst snd] in *.
    - intros i w [Hi|[_ Hi]]%lookup_app_Some; [by eapply H1|].
      apply list_lookup_singleton_Some in Hi as [_ Hi]. by destruct (Hp w).
    - destruct H2 as [(i & w & Hi)|H2]; [left|by right]. exists i, w. by apply lookup_app_l_Some. }
  destruct Hstep as [g pool e|g pool w|g pool i p g' p' Hi Hpc]; [by apply Hcall..|].
  destruct Hpc.
  all: try by (eapply directed_update; [exact Hd|exact Hi|done|done|done|done|
    intros ? ?; first [by eexists|by apply alter_writer]]).
  - unfold directed. cbn [fst snd out]. assert (i < length pool) by by eapply lookup_lt_Some. split.
    + intros j w' [[_ [[= <-] _]]|[Hne Hj]]%list_lookup_insert_Some; [done|].
      destruct Hl as [_ [_ Hu]]. destruct Hne. by eapply (Hu i j).
    + left. exists i, w. by apply list_lookup_insert_eq.
  - destruct Hd as [H1 _]. unfold directed. cbn [fst snd out enc_ encoders] in *. split.
    + intros j w' [[_ [Hj _]]|[_ Hj]]%list_lookup_insert_Some; [done|by eapply H1].
    + right. exists (NewEncoder w). rewrite list_lookup_middle by done. split; [done|].
      symmetry. by eapply H1.
Qed.

Lemma reachable_directed s : reachable s -> directed s.
Proof.
  unfold reachable. intros Hr. remember init as s0 eqn:H0.
  assert (locked s0 /\ directed s0) as [Hl Hd].
  { subst. split; [split; split; intros ?; by intros|]. split; [by intros|]. right. by eexists. }
  clear H0. revert Hl Hd. induction Hr as [s|s s1 s2 Hs _ IH]; intros Hl Hd; [done|].
  apply IH; [by eapply locked_step|by eapply directed_step].
Qed.

(** * Theorems *)

Section theorems.


(** C39. One failed write ends a stream: an encoder whose writer has failed once never writes
    again, whatever is recorded later and even if the writer has recovered. *)
Theorem failed_encoder_silent s s' k en :
  reachable s -> encoders s.1 !! k = Some en -> en_err en = true -> rtc audit_step s s' ->
  encoders s'.1 !! k = Some en.
Proof.
  intros Hr Hk Herr Hs. revert Hr Hk. induction Hs as [|s s1 s2 Hs _ IH]; intros Hr Hk; [done|].
  apply IH; [by eapply rtc_r|]. eapply failed_step; [done|by apply audit_reachable_inv|done|done].
Qed.
End theorems.

(** The comment of [SetOutput] says that it is safe beside [Record]; it locks another mutex.
    Here one goroutine is about to read [enc] and one about to write it. *)
Definition races (s : system) : Prop :=
  exists i j e w, s.2 !! i = Some (RLocked e) /\ s.2 !! j = Some (SOut w).

Lemma SetOutput_races_Record (e : Event) (w : N) : exists s, reachable s /\ races s.
Proof.
  eexists (_, [RLocked (stamp 0%Z e); SOut w]). split; [|by exists 0, 1, (stamp 0%Z e), w].
  unfold reachable, init.
  eapply rtc_l; [apply (call_Record _ [] e)|].
  eapply rtc_l; [apply (call_SetOutput _ [RStart e] w)|].
  eapply rtc_l; [eapply (run_step _ _ 0); [done|apply (step_stamp _ _ 0%Z)]|].
  eapply rtc_l; [eapply (run_step _ _ 0); [done|by apply step_lock]|].
  eapply rtc_l; [eapply (run_step _ _ 1); [done|by apply step_set_lock]|].
  eapply rtc_l; [eapply (run_step _ _ 1); [done|apply step_set_out]|]. done.
Qed.
