(* ===== verification/HttpConcurrent.v ===== *)
(** Requests that are served at the same time: the handlers of Http.v and the
    authentication middleware as programs, cut at every Redis command, every call of a
    collaborator, every entry of the audit stream and of the log.  The use case inside is
    that of AuthConcurrent.v; [is_op_serve] says that a request nobody interrupts is
    served as in Http.v. *)

From Stdlib Require Import Ascii String ZArith.
From stdpp Require Import base gmap strings list pretty relations.
From S2P Require Import Prelude GoStrings AppError Records Services World Domain Repository Caches.
From S2P Require Import UsersUsecase Jwt OtpCode AuthUsecase AuthLemmas AuthSystem AuthEffects AuthProps.
From S2P Require Import Validators Middleware Http HttpProps.
From S2P Require Import Sessions SessionsProps Concurrent AuthConcurrent AuthAlone.

Open Scope string_scope.

(** * A program on a part of the state *)
Section lift.
Context {W C : Type} (l : lens W C).

Fixpoint plift {A} (p : prog C A) : prog W A :=
  match p with
  | Ret a => Ret a
  | Atom m k => Atom (zoom l m) (fun x => plift (k x))
  end.

Hypotheses (get_set : forall c w, lget l (lset l c w) = c) (set_get : forall w, lset l (lget l w) w = w)
  (set_set : forall c c' w, lset l c' (lset l c w) = lset l c' w).

Lemma is_op_lift {A} (p : prog C A) m : is_op p m -> is_op (plift p) (zoom l m).
Proof.
  intros Hp w. unfold zoom. rewrite <- Hp. clear m Hp. revert w.
  induction p as [a|X m k IH]; intros w; cbn.
  - unfold ret. by rewrite set_get.
  - unfold bind, zoom. destruct (m (lget l w)) as [x c]. cbn. rewrite IH, get_set.
    destruct (alone (k x) c). by rewrite set_set.
Qed.
End lift.

Module HttpProg.
Section http.
Context `{Platform} `{!OTPMailer} `{!UsersUsecase} `{!JWTService} `{!ValidatorLib}.
Variables (usecase : Auth.usecase) (guard : AuthMiddleware.t).
Open Scope prog_scope.

Definition world {A} (p : prog World A) : prog HState A := plift l_world p.

(** [audit.Record]: the clock, then the stream. *)
Definition Record_ (e : Event) : prog HState unit :=
  now <- (if time_IsZero (ev_Time e) then call (zoom l_world (zoom l_wbase Now)) else Ret (ev_Time e)) ;;
  call (modify (fun h => MkH (h_world h)
    (MkEvent now (ev_Type e) (ev_Success e) (ev_UserID e) (ev_Email e) (ev_IP e) (ev_UserAgent e)
       (ev_RequestID e) (ev_TraceID e) (ev_Reason e) :: h_audit h) (h_causes h))).

Definition RespondWithError (c : gin) (err : payload_error) : prog HState response :=
  match err with
  | EValidation errs =>
      Ret (Resp StatusUnprocessableEntity
             (MkBaseResponse false "validation failed" (DErrors errs) (g_request_id c)))
  | EPlain err =>
      let status := mapDomainErrorToHTTP err in
      if (StatusInternalServerError <=? status)%Z then
        call (log_cause (match errors_As_domain err with
                         | Some (_, _, Some cause) => Error cause
                         | _ => Error err
                         end)) ;;;
        Ret (NewErrorResponse c status "internal server error")
      else Ret (NewErrorResponse c status (Error err))
  end.

(** What the handlers have in common: bind and validate, one call of the use case, an event
    for the audit stream, the reply. *)
Definition endpoint {Req A} (c : gin) (bound : option Req) (fields : Req -> list field)
    (p : Req -> prog World (option (result error A)))
    (fail : Req -> error -> option Event) (succ : Req -> A -> Event) (reply : Req -> A -> response)
    : prog HState (option response) :=
  match bound with
  | None => Ret (Some (NewErrorResponse c StatusBadRequest "invalid request body"))
  | Some req =>
      match ValidatePayloads (fields req) with
      | Some err => r <- RespondWithError c err ;; Ret (Some r)
      | None =>
          res <- world (p req) ;;
          match res with
          | None => Ret None
          | Some (Ok a) => Record_ (succ req a) ;;; Ret (Some (reply req a))
          | Some (Err err) =>
              match fail req err with Some e => Record_ e | None => Ret tt end ;;;
              r <- RespondWithError c (EPlain err) ;; Ret (Some r)
          end
      end
  end.

Definition some {A} (p : prog World (result error A)) : prog World (option (result error A)) :=
  r <- p ;; Ret (Some r).

(** The handlers. *)
Definition Register (c : gin) (b : option RegisterRequest) :=
  endpoint c b register_fields
    (fun req => some (AuthProg.Register (RegisterRequest_ToV1Domain req)))
    (fun req err => Some (Http.event c EventRegister false "" (reg_Email req) (Error err)))
    (fun req user => Http.event c EventRegister true (User.ID user) (User.Email user) "")
    (fun req user => NewSuccessResponse c StatusCreated "registration user success"
       (DUserEntry (FromV1Domain user))).

Definition Login (c : gin) (b : option LoginRequest) :=
  endpoint c b login_fields
    (fun req => some (AuthProg.Login usecase (log_Email req) (log_Password req)))
    (fun req err => Some (Http.event c EventLoginFailure false "" (log_Email req) (Error err)))
    (fun req result => Http.event c EventLoginSuccess true (User.ID (Auth.User result)) (User.Email (Auth.User result)) "")
    (fun req result => NewSuccessResponse c StatusOK "login success" (DUserData (FromLoginResponse result))).

Definition SendOTP (fuel : nat) (c : gin) (b : option string) :=
  endpoint c b email_fields (fun req => AuthProg.SendOTP usecase fuel req)
    (fun req err => None)
    (fun req _ => Http.event c EventOTPSent true "" req "")
    (fun req _ => NewSuccessResponse c StatusOK ("otp code has been send to " +:+ req) NoData).

Definition VerifyOTP (c : gin) (b : option VerifyOTPRequest) :=
  endpoint c b verify_fields
    (fun req => some (AuthProg.VerifyOTP usecase (ver_Email req) (ver_Code req)))
    (fun req err => Some (Http.event c (if bool_decide (error_type err = Some ErrTypeForbidden)
       then EventOTPLockout else EventOTPVerifyFail) false "" (ver_Email req) (Error err)))
    (fun req _ => Http.event c EventOTPVerifyOK true "" (ver_Email req) "")
    (fun req _ => NewSuccessResponse c StatusOK "otp verification success" NoData).

Definition Refresh (c : gin) (b : option string) :=
  endpoint c b refresh_fields (fun req => some (AuthProg.Refresh usecase req))
    (fun req err => Some (Http.event c EventRefreshFail false "" "" (Error err)))
    (fun req result => Http.event c EventRefreshOK true (User.ID (Auth.User result)) (User.Email (Auth.User result)) "")
    (fun req result => NewSuccessResponse c StatusOK "token refreshed" (DUserData (FromLoginResponse result))).

Definition Logout (c : gin) (b : option string) :=
  endpoint c b refresh_fields (fun req => some (AuthProg.Logout req)) (fun req err => None)
    (fun req _ => Http.event c EventLogout true "" "" "")
    (fun req _ => NewSuccessResponse c StatusOK "logout success" NoData).

Definition ChangePassword (c : gin) (b : option ChangePasswordRequest) :=
  match CurrentUserFromContext c with
  | None => Ret (Some (NewErrorResponse c StatusUnauthorized "request is not authenticated"))
  | Some cu =>
      endpoint c b change_fields
        (fun req => some (AuthProg.ChangePassword usecase (cu_ID cu) (chg_CurrentPassword req) (chg_NewPassword req)))
        (fun req err => Some (Http.event c EventPasswordChangeFail false (cu_ID cu) (cu_Email cu) (Error err)))
        (fun req _ => Http.event c EventPasswordChangeOK true (cu_ID cu) (cu_Email cu) "")
        (fun req _ => NewSuccessResponse c StatusOK "password changed" NoData)
  end.

Definition ForgotPassword (c : gin) (b : option string) :=
  endpoint c b email_fields (fun req => some (AuthProg.ForgotPassword usecase req))
    (fun req err => Some (Http.event c EventPasswordForgotFail false "" req (Error err)))
    (fun req _ => Http.event c EventPasswordForgotOK true "" req "")
    (fun req _ => NewSuccessResponse c StatusOK "if the email is registered, a reset link has been sent" NoData).

Definition ResetPassword (c : gin) (b : option ResetPasswordRequest) :=
  endpoint c b reset_fields
    (fun req => some (AuthProg.ResetPassword usecase (rst_Token req) (rst_NewPassword req)))
    (fun req err => Some (Http.event c EventPasswordResetFail false "" "" (Error err)))
    (fun req _ => Http.event c EventPasswordResetOK true "" "" "")
    (fun req _ => NewSuccessResponse c StatusOK "password reset" NoData).

Definition GetUserData (c : gin) : prog HState (option response) :=
  match CurrentUserFromContext c with
  | None => Ret (Some (NewErrorResponse c StatusUnauthorized "request is not authenticated"))
  | Some user =>
      found <- world (AuthProg.users (users_GetByEmail (cu_Email user))) ;;
      match found with
      | Ok found => Ret (Some (NewSuccessResponse c StatusOK "user data fetched successfully"
                                 (DUserEntry (FromV1Domain found))))
      | Err err => r <- RespondWithError c (EPlain err) ;; Ret (Some r)
      end
  end.

(** The middleware of middleware.auth.go. *)
Definition revoked (user : Claims.t) : prog World bool :=
  match AuthMiddleware.redisCache guard, Claims.IssuedAt user with
  | true, Some issuedAt =>
      got <- AuthProg.cache_Get (TokenCutoffKey (Claims.UserID user)) ;;
      Ret (match got with
           | Ok cutoffStr =>
               if negb (cutoffStr =? "")%string then
                 match ParseInt cutoffStr with
                 | Some cutoff => (time_Unix issuedAt <? cutoff)%Z
                 | None => false
                 end
               else false
           | Err _ => false
           end)
  | _, _ => Ret false
  end.

Definition Handle (authHeader : string) : prog World AuthMiddleware.outcome :=
  if (authHeader =? "")%string then Ret (AuthMiddleware.Abort "missing authorization header") else
  match Split_space authHeader with
  | [scheme; token] =>
      if negb (scheme =? "Bearer")%string then Ret (AuthMiddleware.Abort "token must content bearer") else
      try user <- AuthProg.shared_base (jwt_ParseToken token) catch _err => Ret (AuthMiddleware.Abort "invalid token") ;;
      rev <- revoked user ;;
      if (rev : bool) then Ret (AuthMiddleware.Abort "token has been revoked") else
      if negb (Bool.eqb (Claims.IsAdmin user) (AuthMiddleware.isAdmin guard)) && negb (Claims.IsAdmin user)
      then Ret (AuthMiddleware.Abort "you don't have access for this action")
      else Ret (AuthMiddleware.Next user)
  | _ => Ret (AuthMiddleware.Abort "invalid header format")
  end.

Definition guarded (authHeader : string) (c : gin) (k : gin -> prog HState (option response))
    : prog HState (option response) :=
  o <- world (Handle authHeader) ;;
  match o with
  | AuthMiddleware.Abort message => Ret (Some (NewAbortResponse c message))
  | AuthMiddleware.Next user =>
      k (MkGin (g_request_id c) (g_client_ip c) (g_user_agent c) (g_trace_id c) (Some (VClaims user)))
  end.

Definition serve (c : gin) (r : route) : prog HState (option response) :=
  match r with
  | PostRegister b => Register c b
  | PostLogin b => Login c b
  | PostSendOTP fuel b => SendOTP fuel c b
  | PostVerifyOTP b => VerifyOTP c b
  | PostRefresh b => Refresh c b
  | PostLogout b => Logout c b
  | PostForgot b => ForgotPassword c b
  | PostReset b => ResetPassword c b
  | PutChange hdr b => guarded hdr c (fun c => ChangePassword c b)
  | GetMe hdr => guarded hdr c GetUserData
  end.
End http.
End HttpProg.

(** * A request that nobody interrupts *)
Section sequential.
Context `{Platform} `{!OTPMailer} `{!UsersUsecase} `{!JWTService} `{!ValidatorLib}.
Variables (uc : Auth.usecase) (guard : AuthMiddleware.t).

Lemma is_op_world {A} (p : prog World A) m : is_op p m -> is_op (HttpProg.world p) (zoom l_world m).
Proof. apply is_op_lift; [done|by intros []|done]. Qed.

Lemma is_op_Record e : is_op (HttpProg.Record_ e) (Record_ e).
Proof. unfold HttpProg.Record_, Record_. is_op. Qed.

Lemma is_op_Respond c e : is_op (HttpProg.RespondWithError c e) (RespondWithError c e).
Proof. unfold HttpProg.RespondWithError, RespondWithError. is_op. Qed.

Lemma is_op_some {A} (p : prog World (result error A)) m : is_op p m -> is_op (HttpProg.some p) (some m).
Proof. intros Hp. unfold HttpProg.some, some. is_op. exact Hp. Qed.

Lemma is_op_endpoint {Req A} c (b : option Req) fields p (m : Req -> io World (option (result error A))) fail succ reply :
  (forall req, is_op (p req) (m req)) ->
  is_op (HttpProg.endpoint c b fields p fail succ reply) (endpoint c b fields m fail succ reply).
Proof.
  intros Hp. unfold HttpProg.endpoint, endpoint, with_body, finish, record_opt.
  destruct b as [req|]; [|is_op]. destruct (ValidatePayloads (fields req)) as [err|].
  { apply is_op_bind; [apply is_op_Respond|is_op]. }
  apply is_op_bind; [by apply is_op_world|]. intros [[a|e]|]; [| |is_op].
  - intros w. rewrite alone_bind. unfold bind. rewrite is_op_Record. by destruct (Record_ _ w).
  - intros w. rewrite alone_bind. unfold bind.
    assert (is_op (match fail req e with Some ev => HttpProg.Record_ ev | None => Ret tt end)
      (match fail req e with Some ev => Record_ ev | None => ret tt end)) as Hrec.
    { destruct (fail req e); [apply is_op_Record|is_op]. }
    rewrite Hrec. destruct (match fail req e with Some ev => Record_ ev | None => ret tt end w) as [[] w1].
    rewrite alone_bind. unfold bind. rewrite is_op_Respond. by destruct (RespondWithError _ _ w1).
Qed.

Lemma is_op_Handle hdr : is_op (HttpProg.Handle guard hdr) (AuthMiddleware.Handle guard hdr).
Proof.
  unfold HttpProg.Handle, AuthMiddleware.Handle. destruct (hdr =? "")%string; [is_op|].
  destruct (Split_space hdr) as [|s [|t [|]]]; try is_op.
  unfold HttpProg.revoked, AuthMiddleware.revoked. is_op.
Qed.

Lemma is_op_guarded hdr c (k : gin -> prog HState (option response)) h :
  (forall c, is_op (k c) (Http.answered (h c))) ->
  is_op (HttpProg.guarded guard hdr c k) (Http.answered (guarded guard hdr c h)).
Proof.
  intros Hk. unfold HttpProg.guarded, guarded. intros w. rewrite alone_bind. unfold Http.answered, bind.
  rewrite (is_op_world _ _ (is_op_Handle hdr)). destruct (zoom l_world _ w) as [[m|u] w1]; [done|].
  rewrite Hk. unfold Http.answered, bind. done.
Qed.

(** A request nobody interrupts is served as by the handlers. *)
Lemma is_op_serve c r : is_op (HttpProg.serve uc guard c r) (serve uc guard c r).
Proof.
  intros h. destruct r; cbn [HttpProg.serve serve].
  - rewrite Register_endpoint. apply is_op_endpoint. intros req. apply is_op_some, is_op_Register.
  - rewrite Login_endpoint. apply is_op_endpoint. intros req. apply is_op_some, is_op_Login.
  - rewrite SendOTP_endpoint. apply is_op_endpoint. intros req. apply is_op_SendOTP.
  - rewrite VerifyOTP_endpoint. apply is_op_endpoint. intros req. apply is_op_some, is_op_VerifyOTP.
  - rewrite Refresh_endpoint. apply is_op_endpoint. intros req. apply is_op_some, is_op_Refresh.
  - rewrite Logout_endpoint. apply is_op_endpoint. intros req. apply is_op_some, is_op_Logout.
  - rewrite ForgotPassword_endpoint. apply is_op_endpoint. intros req. apply is_op_some, is_op_ForgotPassword.
  - rewrite ResetPassword_endpoint. apply is_op_endpoint. intros req. apply is_op_some, is_op_ResetPassword.
  - apply is_op_guarded. intros c1 w. unfold HttpProg.ChangePassword.
    destruct (CurrentUserFromContext c1) as [cu|] eqn:Hcu.
    + rewrite (ChangePassword_endpoint _ _ _ _ _ Hcu). apply is_op_endpoint. intros req.
      apply is_op_some, is_op_ChangePassword.
    + unfold Handler.ChangePassword. by rewrite Hcu.
  - apply is_op_guarded. intros c1 w. unfold HttpProg.GetUserData, Handler.GetUserData.
    destruct (CurrentUserFromContext c1) as [cu|]; [|done]. unfold Http.answered, try_catch, bind.
    rewrite alone_bind. unfold bind. rewrite (is_op_world (AuthProg.users _) _ (is_op_call _)).
    destruct (zoom l_world _ w) as [[u|e] w1]; [done|].
    rewrite alone_bind. unfold bind. rewrite is_op_Respond. by destruct (RespondWithError _ _ w1).
Qed.
End sequential.
