(* ===== verification/HttpConcurrentProps.v ===== *)
(** What a request relies on and owes while others are served: it changes an account only
    as a call that is entitled to it, and then leaves an event; its success was earned and
    is on record.  RouterConcurrentProps.v puts requests together.

    What AuthConcurrentProps.v shows of the calls of the auth use case is carried to the
    requests that make them ([hs_call], by [rg_lift]): a request is reasoned about on its
    own, between its commands the others and the environment move the state. *)

From Stdlib Require Import Ascii String ZArith.
From stdpp Require Import base gmap strings list pretty relations.
From S2P Require Import Prelude GoStrings AppError Records Services World Domain Repository Caches.
From S2P Require Import UsersUsecase Jwt OtpCode AuthUsecase AuthLemmas AuthEffects AuthSystem.
From S2P Require Import Validators Middleware Http HttpProps RedisTypes.
From S2P Require Import Sessions SessionsProps Concurrent AuthConcurrent AuthConcurrentProps HttpConcurrent.

Open Scope string_scope.
#[local] Open Scope list_scope.

#[export] Instance users_row_eq_dec : EqDecision Users.t.
Proof. solve_decision. Defined.

(** * More rules for programs *)
Section rules.
Context {W T : Type} (inv : W -> Prop) (R : W -> W -> Prop) (G : T -> (W -> Prop) -> W -> W -> T -> Prop).

Lemma rg_unret {A B} (Q : T -> (W -> Prop) -> B -> Prop) (p : prog W A) (g : A -> B) t V :
  rg inv R G Q t V (pbind p (fun a => Ret (g a))) -> rg inv R G (fun t V a => Q t V (g a)) t V p.
Proof.
  revert t V. induction p as [a|X m k IH]; intros t V; [done|]. cbn. intros Hp w Hi Hb.
  eapply wp_mono; [by apply Hp|]. intros x w' (Hi' & HR & t' & HG & Hk). split_and!; [done|done|].
  exists t'. auto.
Qed.

Lemma rg_ret {A B} (Q : T -> (W -> Prop) -> B -> Prop) (p : prog W A) (g : A -> B) t V :
  rg inv R G (fun t V a => Q t V (g a)) t V p -> rg inv R G Q t V (pbind p (fun a => Ret (g a))).
Proof.
  revert t V. induction p as [a|X m k IH]; intros t V; [done|]. cbn. intros Hp w Hi Hb.
  eapply wp_mono; [by apply Hp|]. intros x w' (Hi' & HR & t' & HG & Hk). split_and!; [done|done|].
  exists t'. auto.
Qed.

Lemma rg_mono {A} (Q Q' : T -> (W -> Prop) -> A -> Prop) (p : prog W A) t V :
  (forall t V a, Q t V a -> Q' t V a) -> rg inv R G Q t V p -> rg inv R G Q' t V p.
Proof.
  intros HQ. revert t V. induction p as [a|X m k IH]; intros t V; [apply HQ|]. cbn. intros Hp w Hi Hb.
  eapply wp_mono; [by apply Hp|]. intros x w' (Hi' & HR & t' & HG & Hk). split_and!; [done|done|].
  exists t'. auto.
Qed.
End rules.

(** A program on a part of the state, in a program on the whole.  [owns_as t' t]: what the
    whole owns and what the part owns are the same; [V0] has been seen before. *)
Section rg_lift.
Context {W C T T' : Type} (l : lens W C).
Context (inv : C -> Prop) (R : C -> C -> Prop) (G : T -> (C -> Prop) -> C -> C -> T -> Prop).
Context (inv' : W -> Prop) (R' : W -> W -> Prop) (G' : T' -> (W -> Prop) -> W -> W -> T' -> Prop).
Context (owns_as : T' -> T -> Prop) (V0 : W -> Prop).

Definition part (V : W -> Prop) : C -> Prop := fun c => exists w, V w /\ lget l w = c.

Lemma part_more (V V' : W -> Prop) : (forall w, V w -> V' w) -> forall c, part V c -> part V' c.
Proof. intros Hm c (w & Hw & <-). exists w. auto. Qed.

Hypotheses (get_set : forall c w, lget l (lset l c w) = c)
  (inv_part : forall w, inv' w -> inv (lget l w)) (R_part : forall w w', R' w w' -> R (lget l w) (lget l w'))
  (G_more : forall t (V V' : C -> Prop) c c' t', (forall v, V v -> V' v) -> G t V c c' t' -> G t V' c c' t').
Hypothesis lifted : forall t t1 V w c' t1', (forall w, V0 w -> V w) -> owns_as t t1 -> inv' w -> inv c' -> R (lget l w) c' ->
  G t1 (part V) (lget l w) c' t1' ->
  inv' (lset l c' w) /\ R' w (lset l c' w) /\ exists t', G' t V w (lset l c' w) t' /\ owns_as t' t1'.

Lemma rg_lift {A B} (Q : T -> (C -> Prop) -> A -> Prop) (Q' : T' -> (W -> Prop) -> B -> Prop) (p : prog C A) f
    t t1 (V1 : C -> Prop) V :
  (forall t V V' a, (forall v, V v -> V' v) -> Q t V a -> Q t V' a) ->
  rg inv R G Q t1 V1 p -> owns_as t t1 -> (forall w, V0 w -> V w) -> (forall c, V1 c -> part V c) ->
  (forall a t t1 V', (forall w, V w -> V' w) -> owns_as t t1 -> Q t1 (part V') a -> rg inv' R' G' Q' t V' (f a)) ->
  rg inv' R' G' Q' t V (pbind (plift l p) f).
Proof.
  intros HQ. revert t t1 V1 V. induction p as [a|X m k IH]; intros t t1 V1 V Hp Ho H0 HV Hf.
  { eapply Hf; [done|exact Ho|by eapply HQ]. }
  intros w Hi Hb. apply wp_zoom. cbn in Hp. eapply wp_mono; [apply Hp; [by apply inv_part|]|].
  { intros v (w0 & Hw0 & <-)%HV. by apply R_part, Hb. }
  intros x c' (Hi' & HR & t1' & HG & Hk).
  assert (forall v, seen_at V1 (lget l w) v -> part (seen_at V w) v) as Hm1.
  { intros v [(w0 & ? & <-)%HV| ->]; [exists w0; split; [by left|done]|exists w; split; [by right|done]]. }
  destruct (lifted t t1 (seen_at V w) w c' t1' (fun v Hv => or_introl (H0 v Hv)) Ho Hi Hi' HR (G_more _ _ _ _ _ _ Hm1 HG)) as (Hi2 & HR2 & t' & HG2 & Ho2).
  split_and!; [done|done|]. exists t'. split; [exact HG2|].
  eapply IH; [exact Hk|exact Ho2|by intros v Hv; left; left; apply H0| |].
  - intros v [Hv| ->]; [|exists (lset l c' w); split; [by right|done]].
    destruct (Hm1 v Hv) as (w0 & ? & <-). exists w0. split; [by left|done].
  - intros a t2 t12 V2 Hm2 Ho3 HQ3. eapply Hf; [|exact Ho3|exact HQ3]. intros w0 Hw0. apply Hm2. by left; left.
Qed.
End rg_lift.

Section props.
Context `{PlatformLaws} `{!OTPMailer} `{!UsersUsecase} `{!UsersContract}
  `{!JWTService} `{!JWTContract} `{!ValidatorLib}.
#[local] Existing Instances pl_text pl_redis pl_sql pl_rist pl_rng.
Variables (uc : Auth.usecase) (guard : AuthMiddleware.t).

(** * What a request may rely on and what it owes *)

Definition request : Type := gin * route.

(** The refresh identifiers a request has minted and not stored, and whether it has changed
    an account. *)
#[local] Notation owns := (gset string * bool)%type.

Definition worlds (V : HState -> Prop) : World -> Prop := fun w => exists h, V h /\ h_world h = w.
Definition hmore (V V' : HState -> Prop) : Prop := forall h, V h -> V' h.

Definition hsound_state (h : HState) : Prop := sound_state (h_world h).

(** The state moves on, and the audit stream only grows. *)
Record hlater (h h' : HState) : Prop := {
  hl_world : later (h_world h) (h_world h');
  hl_audit : exists l, h_audit h' = l ++ h_audit h;
}.

#[export] Instance hlater_preorder : PreOrder hlater.
Proof.
  split; [intros h; split; [done|by exists []]|]. intros h1 h2 h3 [L12 [l12 A12]] [L23 [l23 A23]].
  split; [by etransitivity|]. exists (l23 ++ l12). by rewrite A23, A12, app_assoc.
Qed.

Definition changed (h h' : HState) : Prop := rows (h_world h') <> rows (h_world h).

Record hguarantees (q : request) (t : owns) (V : HState -> Prop) (h h' : HState) (t' : owns) : Prop := {
  hg_call : exists call, guarantees call t.1 (worlds V) (h_world h) (h_world h') t'.1 /\
    (changed h h' -> route_call q.2 call);
  hg_kept : t.2 = true -> t'.2 = true;
  hg_changed : changed h h' -> t'.2 = true;
}.

(** While the request ran, an event with its ids was added to the stream. *)
Definition appended (c : gin) (success : bool) (V : HState -> Prop) : Prop :=
  exists h h' e, V h /\ V h' /\ h_audit h' = e :: h_audit h /\ event_of c success e.

Definition positive (a : answer) : Prop :=
  match a with ASession (Ok _) | APlain (Some (Ok _)) => True | _ => False end.

(** What a reply says of the moments between request and reply. *)
Record hentitled (q : request) (t : owns) (V : HState -> Prop) (a : option response) : Prop := {
  he_changed : t.2 = true -> exists success, appended q.1 success V;
  he_success : forall out, a = Some out -> (code_ out < 300)%Z ->
    (exists hdr, q.2 = GetMe hdr) \/
    appended q.1 true V /\ exists call ans, route_call q.2 call /\ positive ans /\ entitled call (worlds V) ans;
}.

Definition hsound (q : request) : owns -> (HState -> Prop) -> prog HState (option response) -> Prop :=
  rg hsound_state hlater (hguarantees q) (hentitled q).

Lemma hmore_refl V : hmore V V.
Proof. by intros h. Qed.
#[local] Hint Resolve hmore_refl : core.

Lemma worlds_more V V' : hmore V V' -> more (worlds V) (worlds V').
Proof. intros Hm w (h & Hh & <-). exists h. auto. Qed.

Lemma appended_more c b V V' : hmore V V' -> appended c b V -> appended c b V'.
Proof. intros Hm (h & h' & e & ? & ? & ?). exists h, h', e. auto. Qed.

Lemma guarantees_more c own V V' w w' own' : more V V' -> guarantees c own V w w' own' -> guarantees c own V' w w' own'.
Proof. intros Hm [? ? ?]. split; [by eapply authorised_more|done..]. Qed.

(** The calls that can change an account. *)
Definition changing (c : auth_call) : bool :=
  match c with CRegister _ | CVerifyOTP _ _ | CChangePassword _ _ _ | CResetPassword _ _ => true | _ => false end.

Lemma authorised_changing w V c T' : authorised w V c T' -> T' <> rows w -> changing c = true.
Proof. by destruct 1. Qed.

(** * A call of the use case inside a request *)
Lemma hs_call {A} q call (p : prog World A) (Qa : (World -> Prop) -> A -> Prop) f own b V VH :
  rg sound_state later (guarantees call) (fun _ => Qa) own V p ->
  (forall V V' a, more V V' -> Qa V a -> Qa V' a) ->
  more V (worlds VH) -> route_call q.2 call ->
  (forall a own' b' VH', hmore VH VH' -> (b' = true -> b = true \/ changing call = true) ->
     Qa (worlds VH') a -> hsound q (own', b') VH' (f a)) ->
  hsound q (own, b) VH (pbind (HttpProg.world p) f).
Proof.
  intros Hp HQ HV Hcall Hf.
  eapply (rg_lift l_world sound_state later (guarantees call) hsound_state hlater (hguarantees q)
    (fun t own => t.1 = own /\ (t.2 = true -> b = true \/ changing call = true)) (fun _ => False) _ _ _ _ _ (fun _ => Qa)
    (hentitled q) p f (own, b) own V VH); [|exact Hp|by split; [|left]|done|exact HV|].
  - intros t V1 V2 a Hm. by apply HQ.
  - intros a [own' b'] ? V' Hm [<- Hb'] HQa. by apply Hf.
  Unshelve.
  1-4: try done.
  + intros h h' Hl. apply (hl_world _ _ Hl).
  + intros t V1 V2 c c' t' Hm. by apply guarantees_more.
  + intros [own1 b1] ? V1 h w' own2 _ [<- Hb1] Hi Hi' HR HG. cbn [fst snd l_world lget lset] in *.
    set (h' := MkH w' (h_audit h) (h_causes h)).
    split_and!; [done|split; [exact HR|by exists []]|].
    exists (own2, b1 || bool_decide (changed h h')). split; [split; cbn [fst snd]|split; [done|]]; cbn [fst snd].
    * exists call. by split.
    * by intros ->.
    * intros Hc. rewrite bool_decide_eq_true_2 by done. by destruct b1.
    * intros [Hb|Hc%bool_decide_eq_true]%orb_true_iff; [by apply Hb1|]. right.
      eapply authorised_changing, Hc. apply HG.
Qed.

(** * The other commands of a request *)

(** A command that changes no account and opens no session. *)
Lemma hs_quiet {X} q (m : io HState X) k t V (P : X -> HState -> HState -> Prop) :
  (forall h, hsound_state h -> wp m (fun x h' => users_inv (w_u (h_world h')) /\
     rows (h_world h') = rows (h_world h) /\ keys (h_world h') ⊆ keys (h_world h) /\
     issued (h_world h) ⊆ issued (h_world h') /\ (exists l, h_audit h' = l ++ h_audit h) /\ P x h h') h) ->
  (forall x V' h h', hmore V V' -> V' h -> V' h' -> P x h h' -> hsound q t V' (k x)) ->
  hsound q t V (Atom m k).
Proof.
  intros Hm Hk h Hs Hb. eapply wp_mono; [by apply Hm|]. intros x h' (Hi & Hr & Hkeys & Hu & Hl & HP).
  split_and!; [split; [done|exact (typed_subset _ _ _ Hkeys (so_typed _ Hs))]|split; [split; [by rewrite Hr|done]|done]|].
  exists t. split.
  - split; [|done|by intros Hc; destruct Hc].
    exists (CLogout ""). split; [|by intros Hc; destruct Hc].
    split; [by apply au_same|set_solver|by apply opens_subset].
  - apply (Hk x _ h h'); [by intros v Hv; left; left|by left; right|by right|done].
Qed.

Lemma hs_world {X} q (m : io World X) k t V (P : X -> World -> Prop) :
  (forall w, sound_state w -> wp m (fun x w' => users_inv (w_u w') /\ rows w' = rows w /\ keys w' ⊆ keys w /\
     issued w ⊆ issued w' /\ P x w) w) ->
  (forall x V' h, hmore V V' -> V' h -> P x (h_world h) -> hsound q t V' (k x)) ->
  hsound q t V (Atom (zoom l_world m) k).
Proof.
  intros Hm Hk. eapply (hs_quiet _ _ _ _ _ (fun x h _ => P x (h_world h))).
  - intros h Hs. apply wp_zoom. eapply wp_mono; [by apply Hm|]. intros x w' (? & ? & ? & ? & ?).
    split_and!; [done..|by exists []|done].
  - intros x V' h h' HV Hh _ HP. by eapply Hk.
Qed.

Lemma hs_base {X} q (m : io Base X) k t V (P : X -> Prop) :
  grows m -> (forall b, wp m (fun x _ => P x) b) ->
  (forall x V', hmore V V' -> P x -> hsound q t V' (k x)) -> hsound q t V (Atom (zoom l_world (zoom l_wbase m)) k).
Proof.
  intros Hg Hp Hk. eapply (hs_world _ _ _ _ _ (fun x _ => P x)); [|by intros; apply Hk].
  intros w Hs. wp_step. apply wp_intro. intros x b Hrun.
  split_and!; [by apply users_inv_base, Hs|done|done| |by eapply (wp_run _ _ _ _ _ (Hp _) Hrun)].
  exact (wp_run _ _ _ _ _ (Hg _) Hrun).
Qed.

(** [audit.Record]: afterwards the event has been added. *)
Lemma hs_Record q e f t V :
  (forall V', hmore V V' -> (forall b, event_of q.1 b e -> appended q.1 b V') -> hsound q t V' (f tt)) ->
  hsound q t V (pbind (HttpProg.Record_ e) f).
Proof.
  intros Hf. unfold HttpProg.Record_.
  assert (forall now V1, hmore V V1 -> hsound q t V1 (pbind (call (modify (fun h => MkH (h_world h)
    (MkEvent now (ev_Type e) (ev_Success e) (ev_UserID e) (ev_Email e) (ev_IP e) (ev_UserAgent e)
       (ev_RequestID e) (ev_TraceID e) (ev_Reason e) :: h_audit h) (h_causes h)))) f)) as Hend.
  { intros now V1 Hm1. cbn [call pbind].
    eapply (hs_quiet _ _ _ _ _ (fun _ h h' => exists e', h_audit h' = e' :: h_audit h /\
      forall b, event_of q.1 b e -> event_of q.1 b e')).
    - intros h Hs. apply wp_modify. split_and!; [apply Hs|done|done|done|by eexists [_]|].
      eexists. split; [done|]. by intros b He.
    - intros [] V2 h h' Hm2 Hh Hh' (e' & He' & Hev). apply Hf; [by intros v Hv; apply Hm2, Hm1|].
      intros b Hb. exists h, h', e'. auto. }
  destruct (time_IsZero (ev_Time e)).
  - cbn [call pbind]. apply (hs_base _ _ _ _ _ (fun _ => True)); [apply grows_Now|done|].
    intros now V1 Hm1 _. by apply Hend.
  - by apply Hend.
Qed.

(** A refusal: at most a line in the log. *)
Lemma hs_Respond q c err f t V :
  (forall out V', hmore V V' -> (300 <= code_ out)%Z -> hsound q t V' (f out)) ->
  hsound q t V (pbind (HttpProg.RespondWithError c err) f).
Proof.
  intros Hf. destruct err as [errs|e]; cbn [HttpProg.RespondWithError pbind].
  { by apply (Hf (Resp _ _)); [intros h|]. }
  assert (300 <= mapDomainErrorToHTTP e)%Z as Hge by (pose proof (mapDomainErrorToHTTP_spec e); lia).
  cbv zeta. destruct (_ <=? _)%Z; [|apply Hf; [by intros h|exact Hge]]. cbn [call pbind].
  eapply (hs_quiet _ _ _ _ _ (fun _ _ _ => True)); [|intros _ V' h h' Hm _ _ _; by apply Hf].
  intros h Hs. unfold log_cause. apply wp_modify. split_and!; [apply Hs|done..|by exists []|done].
Qed.

(** Refusals say nothing. *)
Lemma hs_refused q own V out : (300 <= code_ out)%Z -> hsound q (own, false) V (Ret (Some out)).
Proof. intros Hc. split; [done|]. intros out' [= <-] Hlt. lia. Qed.

(** A handler: what its call of the use case promises, its event, its reply. *)
Lemma hs_endpoint {Req A} q c (b : option Req) fields (p : Req -> prog World (option (result error A)))
    fail succ reply (ans : result error A -> answer) (callof : Req -> auth_call) V :
  (forall req, b = Some req -> ValidatePayloads (fields req) = None -> route_call q.2 (callof req)) ->
  (forall req, rg sound_state later (guarantees (callof req)) (fun _ V a => match a with
     | Some r => entitled (callof req) V (ans r) | None => changing (callof req) = false end)
     ∅ (fun _ => False) (p req)) ->
  (forall a, positive (ans (Ok a))) ->
  (forall req a, event_of q.1 true (succ req a)) ->
  (forall req e, match fail req e with Some ev => event_of q.1 false ev | None => changing (callof req) = false end) ->
  hsound q (∅, false) V (HttpProg.endpoint c b fields p fail succ reply).
Proof.
  intros Hcall Hp Hans Hsucc Hfail. unfold HttpProg.endpoint. destruct b as [req|]; [|by apply hs_refused].
  destruct (ValidatePayloads (fields req)) as [err|] eqn:Ev.
  { apply hs_Respond. intros out V' _ Hge. by apply hs_refused. }
  eapply (hs_call q (callof req)); [apply Hp| |by intros v []|by apply Hcall|].
  { intros V1 V2 [r|] Hm; [by apply entitled_more|done]. }
  intros [[a|e]|] own1 b1 V1 _ Hb1 HQ.
  - apply hs_Record. intros V2 Hm2 Happ. specialize (Happ true (Hsucc req a)). split; cbn [fst snd].
    + intros _. by exists true.
    + intros out _ _. right. split; [done|]. exists (callof req), (ans (Ok a)). split_and!; [by apply Hcall|apply Hans|].
      eapply entitled_more, HQ. by apply worlds_more.
  - assert (forall V2, hmore V1 V2 -> (b1 = true -> exists s, appended q.1 s V2) ->
      hsound q (own1, b1) V2 (pbind (HttpProg.RespondWithError c (EPlain e)) (fun r => Ret (Some r)))) as Hend.
    { intros V2 Hm2 Hb2. apply hs_Respond. intros out V3 Hm3 Hge. split; cbn [fst snd].
      - intros Htrue. destruct (Hb2 Htrue) as [s Hs]. exists s. by eapply appended_more.
      - intros out' [= <-] Hlt. lia. }
    specialize (Hfail req e). destruct (fail req e) as [ev|].
    + apply hs_Record. intros V2 Hm2 Happ. apply Hend; [done|]. intros _. exists false. by apply Happ.
    + apply Hend; [by intros h|]. intros [|]%Hb1; congruence.
  - split; [|done]. cbn [fst snd]. intros [|]%Hb1; congruence.
Qed.

(** Behind the authentication middleware. *)
Lemma hs_guard q hdr f t V :
  (forall o V', hmore V V' -> match o with
     | AuthMiddleware.Next cl => exists tok, hdr = "Bearer " +:+ tok /\ token_claims tok = Some cl /\ Claims.Kind cl <> KindRefresh
     | AuthMiddleware.Abort _ => True end -> hsound q t V' (f o)) ->
  hsound q t V (pbind (HttpProg.world (HttpProg.Handle guard hdr)) f).
Proof.
  intros Hf. unfold HttpProg.Handle.
  destruct (hdr =? "")%string; [by apply Hf|].
  destruct (Split_space hdr) as [|scheme [|tok [|]]] eqn:Es; try by apply Hf.
  destruct (String.eqb_spec scheme "Bearer") as [->|Hne]; [|by apply Hf]. cbn [negb].
  apply Split_space_two in Es as (Hhdr & _ & _).
  unfold ptry, AuthProg.shared_base. cbn [HttpProg.world plift pbind call].
  apply (hs_base _ _ _ _ _ (fun x => match x with
    | Ok cl => token_claims tok = Some cl /\ (Claims.Kind cl = "" \/ Claims.Kind cl = KindAccess) | Err _ => True end)).
  { intros b. eapply wp_mono; [apply jwt_access_spec|]. by intros res b' [-> _]. }
  { intros b. eapply wp_mono; [apply jwt_access_spec|]. by intros res b' [_ Hres]. }
  intros [cl|e] V1 Hm1 Hcl; [|by apply Hf]. destruct Hcl as [Hcl Hk].
  assert (Claims.Kind cl <> KindRefresh) as Hkind by (destruct Hk as [-> | ->]; done).
  assert (forall (rev : bool) V2, hmore V V2 -> hsound q t V2 (pbind (HttpProg.world
    (if rev then Ret (AuthMiddleware.Abort "token has been revoked") else
      if negb (Bool.eqb (Claims.IsAdmin cl) (AuthMiddleware.isAdmin guard)) && negb (Claims.IsAdmin cl)
      then Ret (AuthMiddleware.Abort "you don't have access for this action")
      else Ret (AuthMiddleware.Next cl))) f)) as Hend.
  { intros rev V2 Hm2. destruct rev; [by apply Hf|]. destruct (_ && _); [by apply Hf|].
    apply Hf; [done|]. by exists tok. }
  unfold HttpProg.revoked. destruct (AuthMiddleware.redisCache guard); [|by apply (Hend false)].
  destruct (Claims.IssuedAt cl) as [iat|]; [|by apply (Hend false)].
  cbn [HttpProg.world plift pbind call AuthProg.cache_Get].
  eapply (hs_world _ _ _ _ _ (fun _ _ => True)).
  - intros w Hs. unfold Auth.cache_Get. wp_step. apply wp_Get. intros res r' Hsub _.
    split_and!; [apply Hs|done|done|done|done].
  - intros got V2 h Hm2 _ _. apply Hend. intros v Hv. by apply Hm2, Hm1.
Qed.

(** * The routes *)

Definition plainly {A} (r : result error A) : answer :=
  APlain (Some (match r with Ok _ => Ok tt | Err e => Err e end)).

Definition promised {A} (call : auth_call) (ans : result error A -> answer) (_ : gset string)
    (V : World -> Prop) (a : option (result error A)) : Prop :=
  match a with Some r => entitled call V (ans r) | None => changing call = false end.

Lemma promise_some {A} call (p : prog World (result error A)) ans :
  AuthProg.code uc call = pbind p (fun r => Ret (ans r)) ->
  rg sound_state later (guarantees call) (promised call ans) ∅ (fun _ => False) (HttpProg.some p).
Proof.
  intros Hcode. pose proof (sound_code uc call) as Hs. unfold sound in Hs. rewrite Hcode in Hs.
  apply rg_unret in Hs. apply rg_ret. exact Hs.
Qed.

Lemma promise_SendOTP fuel email :
  rg sound_state later (guarantees (CSendOTP fuel email)) (promised (CSendOTP fuel email) plainly) ∅ (fun _ => False)
    (AuthProg.SendOTP uc fuel email).
Proof.
  pose proof (sound_code uc (CSendOTP fuel email)) as Hs. unfold sound in Hs. cbn [AuthProg.code] in Hs.
  apply rg_unret in Hs. eapply rg_mono, Hs. by intros t V [[[]|e]|].
Qed.

Lemma hs_GetUserData q c V : (exists hdr, q.2 = GetMe hdr) -> hsound q (∅, false) V (HttpProg.GetUserData c).
Proof.
  intros Hq. unfold HttpProg.GetUserData. destruct (CurrentUserFromContext c) as [cu|]; [|by apply hs_refused].
  cbn [HttpProg.world AuthProg.users call plift pbind].
  eapply (hs_world _ _ _ _ _ (fun _ _ => True)).
  - intros w Hs. apply wp_zoom. eapply wp_mono; [apply users_GetByEmail_spec, Hs|].
    intros x u' (Hi & Ht & Hu & _). split_and!; [done|done|done|unfold issued; cbn; by rewrite Hu|done].
  - intros [u|e] V1 h _ _ _.
    + split; [done|]. intros out _ _. by left.
    + apply hs_Respond. intros out V2 _ Hge. by apply hs_refused.
Qed.

Lemma hs_serve q : hsound q (∅, false) (fun _ => False) (HttpProg.serve uc guard q.1 q.2).
Proof.
  destruct q as [c r]. cbn [fst snd].
  assert (forall (q : request) t s u m rsn, q.1 = c -> event_of q.1 s (Http.event c t s u m rsn)) as Hev.
  { by intros q t s u m rsn ->. }
  destruct r as [b|b|fuel b|b|b|b|b|b|hdr b|hdr]; cbn [HttpProg.serve].
  - apply (hs_endpoint _ _ _ _ _ _ _ _ plainly (fun req => CRegister (RegisterRequest_ToV1Domain req)));
      [by intros req ->; constructor|intros req; by apply promise_some|done|by intros; apply Hev|by intros; apply Hev].
  - apply (hs_endpoint _ _ _ _ _ _ _ _ ASession (fun req => CLogin (log_Email req) (log_Password req)));
      [by intros req ->; constructor|intros req; by apply promise_some|done|by intros; apply Hev|by intros; apply Hev].
  - apply (hs_endpoint _ _ _ _ _ _ _ _ plainly (fun req => CSendOTP fuel req));
      [by intros req ->; constructor|intros req; apply promise_SendOTP|done|by intros; apply Hev|done].
  - apply (hs_endpoint _ _ _ _ _ _ _ _ plainly (fun req => CVerifyOTP (ver_Email req) (ver_Code req)));
      [by intros req ->; constructor|intros req; by apply promise_some|done|by intros; apply Hev|by intros; apply Hev].
  - apply (hs_endpoint _ _ _ _ _ _ _ _ ASession CRefresh);
      [by intros req ->; constructor|intros req; by apply promise_some|done|by intros; apply Hev|by intros; apply Hev].
  - apply (hs_endpoint _ _ _ _ _ _ _ _ plainly CLogout);
      [by intros req ->; constructor|intros req; by apply promise_some|done|by intros; apply Hev|done].
  - apply (hs_endpoint _ _ _ _ _ _ _ _ plainly CForgotPassword);
      [by intros req ->; constructor|intros req; by apply promise_some|done|by intros; apply Hev|by intros; apply Hev].
  - apply (hs_endpoint _ _ _ _ _ _ _ _ plainly (fun req => CResetPassword (rst_Token req) (rst_NewPassword req)));
      [by intros req -> ?; constructor|intros req; by apply promise_some|done|by intros; apply Hev|by intros; apply Hev].
  - apply hs_guard. intros [m|cl] V' _ Ho; [by apply hs_refused|]. destruct Ho as (tok & -> & Htok & Hkind).
    apply (hs_endpoint _ _ _ _ _ _ _ _ plainly
      (fun req => CChangePassword (Claims.UserID cl) (chg_CurrentPassword req) (chg_NewPassword req)));
      [by intros req -> ?; econstructor|intros req; by apply promise_some|done|done|done].
  - apply hs_guard. intros [m|cl] V' _ Ho; [by apply hs_refused|]. apply hs_GetUserData. by exists hdr.
Qed.

(** * The environment, and what requests own together *)

(** Between commands of the requests time passes, keys run out and the mailer works. *)
Inductive henv : HState -> HState -> Prop :=
| henv_moves h w : env (h_world h) w -> henv h (MkH w (h_audit h) (h_causes h)).

Definition any_change (h h' : HState) : Prop := True.

Lemma henv_sound h h' : hsound_state h -> henv h h' -> hsound_state h' /\ hlater h h'.
Proof.
  intros Hs He. destruct He as [h w He]. destruct (env_sound _ _ Hs He) as [Hs' HR].
  split; [done|]. split; [done|by exists []].
Qed.

Definition howned (h : HState) (ts : list owns) : Prop := owned (h_world h) (map fst ts).

#[local] Notation consistent := (consistent henv any_change hsound_state hlater hguarantees (∅, false)).

Lemma consistent_howned : consistent howned.
Proof.
  destruct consistent_owned as [Hst Hen Hmv]. split.
  - intros h ts Ho. unfold howned. rewrite map_app. by apply Hst.
  - intros h h' ts Hs Ho He _. destruct He as [h w He]. by eapply Hen.
  - intros h h' ts i q t V t' Hs Ho HR _ Ht HG. destruct (hg_call _ _ _ _ _ _ HG) as (call & Hg & _).
    unfold howned. change (map fst (<[i:=t']> ts)) with (fst <$> <[i:=t']> ts). rewrite list_fmap_insert.
    eapply (Hmv _ _ _ i call t.1); [exact Hs|exact Ho|apply HR|done| |exact Hg].
    change (map fst ts) with (fst <$> ts). rewrite list_lookup_fmap. apply fmap_Some. by exists t.
Qed.

Lemma hentitled_more q t V V' a : hmore V V' -> hentitled q t V a -> hentitled q t V' a.
Proof.
  intros Hm [H1' H2']. split.
  - intros Ht. destruct (H1' Ht) as [b Hb]. exists b. by eapply appended_more.
  - intros out Ho Hlt. destruct (H2' out Ho Hlt) as [Hme|(Ha & call & ans & Hc & Hg & He)]; [by left|right].
    split; [by eapply appended_more|]. exists call, ans. split_and!; [done|done|].
    eapply entitled_more, He. by apply worlds_more.
Qed.
End props.
