(* ===== verification/RouterConcurrent.v ===== *)
(** The whole chain of Router.v as a program: the request id, the limiter, the handlers of
    HttpConcurrent.v, the access log and the counters, so that requests interleave from
    their arrival to their reply.  The limiter's part of a request is one command; its
    sweeper and whatever else touches it may move in between. *)

From Stdlib Require Import Ascii String ZArith.
From stdpp Require Import base gmap strings list pretty relations.
From S2P Require Import Prelude GoStrings AppError Records Services World Domain Repository Caches.
From S2P Require Import UsersUsecase Jwt OtpCode AuthUsecase AuthLemmas AuthSystem AuthEffects.
From S2P Require Import Validators Middleware Http HttpProps Concurrent HttpConcurrent Config RateLimiter Router.

Open Scope string_scope.

Module RouterProg.
Section router.
Context `{Platform} `{!OTPMailer} `{!UsersUsecase} `{!JWTService} `{!ValidatorLib}.
Context `{RateLib} `{GinLib}.
Variables (cfg : Config) (usecase : Auth.usecase) (guard : AuthMiddleware.t) (rl : RateLimiter.t).
Open Scope prog_scope.

Definition http {A} (p : prog HState A) : prog Server A := plift l_http p.

Definition RequestID (q : request) : prog Server string :=
  if (q_request_id q =? "")%string
  then call (zoom l_http (zoom l_world (zoom l_wbase uuid)))
  else Ret (q_request_id q).

Definition auth_group (c : gin) (q : request) (r : route) (caps : list Z) (h : gmap string string)
    : prog Server (option reply) :=
  o <- call (zoom l_limiter (RateLimiter.Middleware rl (q_ip q) (g_request_id c))) ;;
  let h := limit_headers o h in
  match RateLimiter.o_verdict o with
  | RateLimiter.TooMany retryAfter b =>
      Ret (Some (Reply 429 (<["Retry-After" := retryAfter]> h) (BLimited b)))
  | RateLimiter.Next =>
      let caps := BodySizeLimit AuthBodyMaxBytes caps q in
      out <- http (HttpProg.serve usecase guard c (bind_under caps q r)) ;;
      Ret (api_reply h out)
  end.

Definition users_group (c : gin) (q : request) (r : route) (caps : list Z) (h : gmap string string)
    : prog Server (option reply) :=
  out <- http (HttpProg.serve usecase guard c (bind_under caps q r)) ;;
  Ret (api_reply h out).

Definition dispatch (c : gin) (q : request) (db_ping : option error) (redis_ping : option (option error))
    (caps : list Z) (h : gmap string string) : prog Server (option reply) :=
  match q_target q with
  | Api (GetMe hdr) => users_group c q (GetMe hdr) caps h
  | Api r => auth_group c q r caps h
  | Health => Ret (Some (Reply 200 h (BHealth true "service is healthy")))
  | Ready => Ret (Some (Ready_reply db_ping redis_ping h))
  | Root => Ret (Some (Reply 200 h (BHealth true "welcome to an amazing api")))
  | Metrics | Swagger => Ret (Some (Reply (other_status (q_target q)) h BOther))
  | Unmatched => Ret (Some (Reply 404 h BOther))
  end.

(** After the handlers: the access log, then the counters. *)
Definition finished (q : request) (rid : string) (a : surroundings) (out : reply) : prog Server (option reply) :=
  call (access_line q rid (r_status out) (a_stamp a) (a_latency a) (a_error a)) ;;;
  call (observe_request q (r_status out)) ;;;
  Ret (Some out).

Definition ServeHTTP (q : request) (a : surroundings) : prog Server (option reply) :=
  rid <- RequestID q ;;
  let h := SecurityHeaders cfg {[RequestIDHeader := rid]} in
  let '(abort, cors) := cors_handle (CORSMiddleware_config cfg) q in
  let h := cors ∪ h in
  match abort with
  | Some status =>
      call (observe_request q status) ;;;
      Ret (Some (Reply status h BOther))
  | None =>
      let caps := BodySizeLimit DefaultBodyMaxBytes [] q in
      let c := fresh_ctx rid (q_ip q) (q_user_agent q) (q_trace_id q) in
      out <- dispatch c q (a_db_ping a) (a_redis_ping a) caps h ;;
      match out with
      | None => Ret None
      | Some out => finished q rid a out
      end
  end.
End router.
End RouterProg.

(** * A request that nobody interrupts *)
Section sequential.
Context `{Platform} `{!OTPMailer} `{!UsersUsecase} `{!JWTService} `{!ValidatorLib}.
Context `{RateLib} `{GinLib}.
Variables (cfg : Config) (uc : Auth.usecase) (guard : AuthMiddleware.t) (rl : RateLimiter.t).

Lemma is_op_http {A} (p : prog HState A) m : is_op p m -> is_op (RouterProg.http p) (zoom l_http m).
Proof. apply is_op_lift; [done|by intros []|done]. Qed.

End sequential.
