(* ===== verification/RouterConcurrentProps.v ===== *)
(** The whole server with any number of requests on their way: whoever changes an account
    was let pass by CORS, admitted by the limiter, within the body cap, entitled to the
    change and is on record; a success of an /auth route was earned.

    The handlers' part of a request is that of HttpConcurrentProps.v, lifted to the state of
    the server ([rg_lift]). *)

From Stdlib Require Import Ascii String ZArith.
From stdpp Require Import base gmap strings list pretty relations.
From S2P Require Import Prelude GoStrings AppError Records Services World Domain Repository Caches.
From S2P Require Import UsersUsecase Jwt OtpCode AuthUsecase AuthLemmas AuthEffects AuthSystem.
From S2P Require Import Validators Middleware Http HttpProps RedisTypes.
From S2P Require Import Sessions SessionsProps Concurrent AuthConcurrent AuthConcurrentProps HttpConcurrent HttpConcurrentProps.
From S2P Require Import Config RateLimiter Router RouterProps RouterConcurrent.

Open Scope string_scope.
#[local] Open Scope list_scope.

Section props.
Context `{PlatformLaws} `{!OTPMailer} `{!UsersUsecase} `{!UsersContract}
  `{!JWTService} `{!JWTContract} `{!ValidatorLib} `{RateLib} `{GinLib}.
#[local] Existing Instances pl_text pl_redis pl_sql pl_rist pl_rng.
Variables (cfg : Config) (uc : Auth.usecase) (guard : AuthMiddleware.t) (rl : RateLimiter.t).

(** * What a request may rely on and what it owes *)

(** What it owns of the handlers' part, and the id under which the limiter admitted it. *)
#[local] Notation owns := ((gset string * bool) * option string)%type.

Definition https (V : Server -> Prop) : HState -> Prop := part l_http V.
Definition world_of (s : Server) : World := h_world (sv_http s).
Definition server_sound (s : Server) : Prop := hsound_state (sv_http s).
Definition server_later (s s' : Server) : Prop := hlater (sv_http s) (sv_http s').
Definition server_changed (s s' : Server) : Prop := rows (world_of s') <> rows (world_of s).

#[export] Instance server_later_preorder : PreOrder server_later.
Proof. split; [intros s; unfold server_later; reflexivity|]. intros s1 s2 s3. unfold server_later. by intros ? ?; etransitivity. Qed.

(** The context the handlers of a request work with. *)
Definition ctx_of (q : request) (rid : string) : gin := fresh_ctx rid (q_ip q) (q_user_agent q) (q_trace_id q).

(** What the middlewares in front of an /auth route have checked. *)
Record admitted (q : request) (rid : string) (V : Server -> Prop) : Prop := {
  ad_cors : (cors_handle (CORSMiddleware_config cfg) q).1 = None;
  ad_id : q_request_id q <> "" -> rid = q_request_id q;
  ad_limiter : exists s, V s /\
    RateLimiter.o_verdict (RateLimiter.Middleware rl (q_ip q) rid (sv_limiter s)).1 = RateLimiter.Next;
}.

(** The route of a request and the call its body makes, under the caps. *)
Definition makes_call (q : request) (call : auth_call) : Prop :=
  exists r, q_target q = Api r /\ (forall hdr, r <> GetMe hdr) /\ route_call r call /\
    exists n, q_body q = Some n /\ (n <= AuthBodyMaxBytes)%Z.

Record server_guarantees (q : request) (t : owns) (V : Server -> Prop) (s s' : Server) (t' : owns) : Prop := {
  sg_http : exists cr, hguarantees cr t.1 (https V) (sv_http s) (sv_http s') t'.1;
  sg_id : is_Some t.2 -> t'.2 = t.2;
  sg_changed : server_changed s s' -> exists rid call, t'.2 = Some rid /\ admitted q rid V /\ makes_call q call /\
    authorised (world_of s) (worlds (https V)) call (rows (world_of s'));
}.

Record server_entitled (q : request) (t : owns) (V : Server -> Prop) (a : option reply) : Prop := {
  se_changed : t.1.2 = true -> exists rid success, (is_Some t.2 -> t.2 = Some rid) /\ appended (ctx_of q rid) success (https V);
  se_success : forall out b, a = Some out -> r_body out = BApi b -> (r_status out < 300)%Z ->
    (exists hdr, q_target q = Api (GetMe hdr)) \/
    exists rid call ans, admitted q rid V /\ makes_call q call /\ appended (ctx_of q rid) true (https V) /\
      positive ans /\ entitled call (worlds (https V)) ans;
}.

Definition server_rg (q : request) : owns -> (Server -> Prop) -> prog Server (option reply) -> Prop :=
  rg server_sound server_later (server_guarantees q) (server_entitled q).

Definition smore (V V' : Server -> Prop) : Prop := forall s, V s -> V' s.

Lemma https_more V V' : smore V V' -> hmore (https V) (https V').
Proof. intros Hm. exact (part_more l_http V V' Hm). Qed.

Lemma admitted_more q rid V V' : smore V V' -> admitted q rid V -> admitted q rid V'.
Proof. intros Hm [? ? (s & ? & ?)]. split; [done..|]. exists s. auto. Qed.

Lemma hguarantees_more cr t V V' h h' t' : hmore V V' -> hguarantees cr t V h h' t' -> hguarantees cr t V' h h' t'.
Proof.
  intros Hm [(call & Hg & Hc) ? ?]. split; [|done..]. exists call. split; [|done].
  eapply guarantees_more, Hg. by apply worlds_more.
Qed.

(** * Rules *)

(** A command that changes no account and opens no session; it may be where the request
    gets its id. *)
Lemma ss_quiet {X} q (m : io Server X) k t t' V (P : X -> Server -> Server -> Prop) :
  t'.1 = t.1 -> (is_Some t.2 -> t'.2 = t.2) ->
  (forall s, server_sound s -> wp m (fun x s' => users_inv (w_u (world_of s')) /\
     rows (world_of s') = rows (world_of s) /\ keys (world_of s') ⊆ keys (world_of s) /\
     issued (world_of s) ⊆ issued (world_of s') /\ (exists l, h_audit (sv_http s') = l ++ h_audit (sv_http s)) /\ P x s s') s) ->
  (forall x V' s s', smore V V' -> V' s -> P x s s' -> server_rg q t' V' (k x)) ->
  server_rg q t V (Atom m k).
Proof.
  intros Ht Hid Hm Hk s Hs Hb. eapply wp_mono; [by apply Hm|]. intros x s' (Hi & Hr & Hkeys & Hu & Hl & HP).
  unfold world_of in *. split_and!; [split; [done|exact (typed_subset _ _ _ Hkeys (so_typed _ Hs))]|split; [split; [by rewrite Hr|done]|done]|].
  exists t'. split.
  - split; [|done|by intros Hc; destruct Hc]. exists (ctx_of q "", GetMe ""). rewrite Ht.
    split; [|done|by intros Hc; destruct Hc].
    exists (CLogout ""). split; [|by intros Hc; destruct Hc].
    split; [by apply au_same|set_solver|by apply opens_subset].
  - apply (Hk x _ s s'); [by intros v Hv; left; left|by left; right|done].
Qed.

(** A command that leaves the handlers' state alone. *)
Lemma ss_side {X} q (m : io Server X) k t t' V (P : X -> Server -> Prop) :
  t'.1 = t.1 -> (is_Some t.2 -> t'.2 = t.2) ->
  (forall s, wp m (fun x s' => sv_http s' = sv_http s /\ P x s) s) ->
  (forall x V' s, smore V V' -> V' s -> P x s -> server_rg q t' V' (k x)) ->
  server_rg q t V (Atom m k).
Proof.
  intros Ht Hid Hm Hk. eapply (ss_quiet _ _ _ _ t' _ (fun x s _ => P x s)); [done|done| |].
  - intros s Hs. eapply wp_mono; [apply Hm|]. intros x s' [Hh HP]. unfold world_of. rewrite Hh.
    split_and!; [apply Hs|done|done|done|by exists []|done].
  - intros x V' s s' Hm' Hv HP. by eapply Hk.
Qed.

(** A reply that is no success of a route. *)
Lemma ss_ret q own id V out :
  (forall b, r_body out = BApi b -> (300 <= r_status out)%Z) -> server_rg q ((own, false), id) V (Ret (Some out)).
Proof. intros Hs. split; [done|]. intros out' b [= <-] Hb Hlt. specialize (Hs b Hb). lia. Qed.

(** The handlers: the calls they can make are those of an admitted request. *)
Lemma ss_serve q rid r caps id V f :
  (forall call, route_call (bind_under caps q r) call -> id = Some rid /\ admitted q rid V /\ makes_call q call) ->
  (forall a own V', smore V V' -> hentitled (ctx_of q rid, bind_under caps q r) own (https V') a ->
     server_rg q (own, id) V' (f a)) ->
  server_rg q ((∅, false), id) V (pbind (RouterProg.http (HttpProg.serve uc guard (ctx_of q rid) (bind_under caps q r))) f).
Proof.
  intros Had Hf.
  eapply (rg_lift l_http hsound_state hlater (hguarantees (ctx_of q rid, bind_under caps q r)) server_sound server_later
    (server_guarantees q) (fun t t1 => t = (t1, id)) V _ _ _ _ _
    (hentitled (ctx_of q rid, bind_under caps q r)) _ _ _ _ (∅, false) (fun _ => False) V);
    [|apply hs_serve|done|done|done|].
  - intros t1 V1 V2 a Hm. by apply hentitled_more.
  - intros a ? own V' Hm -> HQ. by apply Hf.
  Unshelve.
  1-3: done.
  + intros t1 V1 V2 h h' t2 Hm. by apply hguarantees_more.
  + intros ? own V1 s h' own' H0' -> Hi Hi' HR HG. cbn [fst snd] in *.
    split_and!; [exact Hi'|exact HR|]. exists (own', id). split; [|done]. split; cbn [fst snd]; [by eexists|done|].
    intros Hc. destruct (hg_call _ _ _ _ _ _ HG) as (call & Hg & Hcall). specialize (Hcall Hc).
    destruct (Had call Hcall) as (Hid & Ha & Hm).
    exists rid, call. split_and!; [done|by eapply admitted_more|done|apply (gu_table _ _ _ _ _ _ Hg)].
Qed.

Lemma server_entitled_more q t V V' a : smore V V' -> server_entitled q t V a -> server_entitled q t V' a.
Proof.
  intros Hm [H1' H2']. split.
  - intros Ht. destruct (H1' Ht) as (rid & success & Hid & Ha). exists rid, success. split; [done|].
    eapply appended_more, Ha. by apply https_more.
  - intros out b Ho Hb Hlt. destruct (H2' out b Ho Hb Hlt) as [?|(rid & call & ans & Had & Hc & Ha & Hp & He)]; [by left|right].
    exists rid, call, ans. split_and!; [by eapply admitted_more|done| |done|].
    + eapply appended_more, Ha. by apply https_more.
    + eapply entitled_more, He. by apply worlds_more, https_more.
Qed.

(** The access log and the counters change nothing that was earned. *)
Lemma ss_finish q t V rid a o :
  server_entitled q t V o ->
  server_rg q t V (match o with None => Ret None | Some out => RouterProg.finished q rid a out end).
Proof.
  intros He. destruct o as [out|]; [|exact He]. unfold RouterProg.finished. cbn [call pbind].
  apply (ss_side _ _ _ _ t _ (fun _ _ => True)); [done|done|intros s; by apply wp_modify|].
  intros _ V1 _ Hm1 _ _. apply (ss_side _ _ _ _ t _ (fun _ _ => True)); [done|done|intros s; by apply wp_modify|].
  intros _ V2 _ Hm2 _ _. eapply server_entitled_more, He. intros s Hs. by apply Hm2, Hm1.
Qed.

(** What the answer of a handler makes of the reply. *)
Lemma api_entitled q rid r caps id own V h a :
  q_target q = Api r -> (is_Some id -> id = Some rid) ->
  (forall call, route_call (bind_under caps q r) call -> admitted q rid V /\ makes_call q call) ->
  hentitled (ctx_of q rid, bind_under caps q r) own (https V) a ->
  server_entitled q (own, id) V (api_reply h a).
Proof.
  intros Hq Hid Had [H1' H2']. split; cbn [fst snd].
  - intros Ht. destruct (H1' Ht) as [success Ha]. by exists rid, success.
  - intros out b Ho Hb Hlt. destruct a as [res|]; [|done]. injection Ho as <-.
    destruct (H2' res eq_refl Hlt) as [[hdr Hr]|(Ha & call & ans & Hc & Hp & He)].
    + left. exists hdr. cbn [snd] in Hr. rewrite Hq. unfold bind_under in Hr.
      destruct (within caps q); [by rewrite Hr|]. destruct r; try done. by rewrite Hr.
    + right. destruct (Had call Hc). exists rid, call, ans. done.
Qed.

(** The routes. *)
Lemma ss_api q rid r caps id V h a :
  q_target q = Api r -> (is_Some id -> id = Some rid) ->
  (forall call, route_call (bind_under caps q r) call -> id = Some rid /\ admitted q rid V /\ makes_call q call) ->
  server_rg q ((∅, false), id) V
    (pbind (pbind (RouterProg.http (HttpProg.serve uc guard (ctx_of q rid) (bind_under caps q r)))
              (fun out => Ret (api_reply h out)))
       (fun o => match o with None => Ret None | Some out => RouterProg.finished q rid a out end)).
Proof.
  intros Hq Hid Had. apply rg_assoc. apply ss_serve; [done|]. intros out own V' Hm He. cbn [pbind].
  apply ss_finish. eapply api_entitled; [done|done| |exact He].
  intros call Hc. destruct (Had call Hc) as (_ & Ha & Hcall). split; [by eapply admitted_more|done].
Qed.

Lemma ss_auth_group q rid r V h a :
  q_target q = Api r -> (forall hdr, r <> GetMe hdr) -> (cors_handle (CORSMiddleware_config cfg) q).1 = None ->
  (q_request_id q <> "" -> rid = q_request_id q) ->
  server_rg q ((∅, false), None) V
    (pbind (RouterProg.auth_group uc guard rl (ctx_of q rid) q r (BodySizeLimit DefaultBodyMaxBytes [] q) h)
       (fun o => match o with None => Ret None | Some out => RouterProg.finished q rid a out end)).
Proof.
  intros Hq Hme Hc Hid. unfold RouterProg.auth_group. cbn [call pbind].
  apply (ss_side _ _ _ _ ((∅, false), Some rid) _
    (fun o s => o = (RateLimiter.Middleware rl (q_ip q) rid (sv_limiter s)).1)); [done|by intros []| |].
  { intros s. apply wp_zoom. apply wp_intro. intros o l Ho. split; [done|]. exact (eq_sym (f_equal fst Ho)). }
  intros o V1 s Hm Hs Ho. cbv zeta. destruct (RateLimiter.o_verdict o) eqn:Hv.
  - apply ss_api; [done|done|]. intros call Hcall. destruct (bind_under_cut _ _ _ _ Hcall) as (Hw & Heq & _).
    rewrite Heq in Hcall. split_and!; [done| |].
    + split; [done|done|]. exists s. by rewrite <- Ho.
    + exists r. split_and!; [done..|by apply within_caps].
  - cbn [pbind]. apply (ss_finish _ _ _ _ _ (Some _)). apply ss_ret. done.
Qed.

Lemma ss_ServeHTTP q a :
  server_rg q ((∅, false), None) (fun _ => False) (RouterProg.ServeHTTP cfg uc guard rl q a).
Proof.
  unfold RouterProg.ServeHTTP.
  set (rest := fun rid : string => _).
  assert (forall rid V, (q_request_id q <> "" -> rid = q_request_id q) -> server_rg q ((∅, false), None) V (rest rid)) as Hrest.
  { intros rid V Hid. unfold rest. pose proof (ss_auth_group q rid) as Hauth.
    destruct (cors_handle (CORSMiddleware_config cfg) q) as [[st|] hs].
    { cbn [call pbind]. apply (ss_side _ _ _ _ ((∅, false), None) _ (fun _ _ => True)); [done|done|intros s; by apply wp_modify|].
      intros _ V1 _ _ _ _. by apply ss_ret. }
    cbv zeta. unfold RouterProg.dispatch.
    destruct (q_target q) as [r| | | | | |] eqn:Hq;
      try (apply (ss_finish _ _ _ _ _ (Some _)); apply ss_ret; by destruct (a_db_ping a), (a_redis_ping a) as [[|]|]).
    destruct r as [b|b|fuel b|b|b|b|b|b|hdr b|hdr]; try (by apply Hauth).
    unfold RouterProg.users_group. apply ss_api; [done|by intros []|].
    intros call Hc. unfold bind_under in Hc. destruct (within _ q); inversion Hc. }
  unfold RouterProg.RequestID. destruct (String.eqb_spec (q_request_id q) "") as [He|Hne]; [|by apply Hrest].
  cbn [call pbind]. apply (ss_quiet _ _ _ _ ((∅, false), None) _ (fun _ _ _ => True)); [done|done| |].
  - intros s Hs. apply wp_zoom, wp_zoom, wp_zoom, wp_uuid. intros i g _ _ Hu.
    split_and!; [by apply users_inv_base, Hs|done|done| |by exists []|done].
    unfold issued, used. cbn. rewrite Hu. set_solver.
  - intros rid V' s s' Hm _ _. by apply Hrest.
Qed.

(** * Together *)

(** Between commands of the requests time passes, keys run out, the mailer works, and the
    limiter sweeps. *)
Inductive server_env : Server -> Server -> Prop :=
| server_env_moves s w l : env (world_of s) w ->
    server_env s (MkServer (MkH w (h_audit (sv_http s)) (h_causes (sv_http s))) l (sv_requests s) (sv_access s)).

Definition arrival : Type := request * surroundings.
Definition server_system := pool Server arrival (option reply).
Implicit Types s : server_system.

Definition any_move (x y : Server) : Prop := True.

#[local] Notation code := (fun q : arrival => RouterProg.ServeHTTP cfg uc guard rl q.1 q.2).

(** Requests arrive, their commands run, in any order. *)
Definition server_step : server_system -> server_system -> Prop := pstep code server_env any_move.

Lemma server_env_sound x y : server_sound x -> server_env x y -> server_sound y /\ server_later x y.
Proof.
  intros Hs He. destruct He as [x w l He]. apply (henv_sound _ _ Hs (henv_moves _ _ He)).
Qed.

Lemma server_env_rows x y : server_env x y -> rows (world_of y) = rows (world_of x).
Proof. by intros [s0 w l []]. Qed.

Definition server_owned (x : Server) (ts : list owns) : Prop := howned (sv_http x) (map fst ts).

#[local] Notation guarantees_of := (fun q : arrival => server_guarantees q.1).
#[local] Notation entitled_of := (fun q : arrival => server_entitled q.1).
#[local] Notation consistent :=
  (consistent server_env any_move server_sound server_later guarantees_of ((∅, false), None)).
#[local] Notation ok_since ok := (pool_ok code server_env any_move server_sound server_later guarantees_of entitled_of ok).

Lemma consistent_server_owned : consistent server_owned.
Proof.
  destruct consistent_howned as [Hst Hen Hmv]. split.
  - intros x ts Ho. unfold server_owned. rewrite map_app. by apply Hst.
  - intros x y ts Hs Ho He _. destruct He as [x w l He]. eapply Hen; [exact Hs|exact Ho|by constructor|done].
  - intros x y ts i q t V t' Hs Ho HR _ Ht HG. destruct (sg_http _ _ _ _ _ _ HG) as (cr & Hg).
    unfold server_owned. change (map fst (<[i:=t']> ts)) with (fst <$> <[i:=t']> ts). rewrite list_fmap_insert.
    eapply (Hmv _ _ _ i cr t.1); [exact Hs|exact Ho|apply HR|done| |exact Hg].
    change (map fst ts) with (fst <$> ts). rewrite list_lookup_fmap. apply fmap_Some. by exists t.
Qed.

(** Request [i], admitted as [rid], has changed an account. *)
Definition changed_as (i : nat) (rid : string) (x : Server) (ts : list owns) : Prop :=
  server_owned x ts /\ exists t, ts !! i = Some t /\ t.1.2 = true /\ t.2 = Some rid.

Lemma consistent_changed_as i rid : consistent (changed_as i rid).
Proof.
  apply (consistent_and _ _ _ _ _ _ server_owned (fun _ ts => exists t, ts !! i = Some t /\ t.1.2 = true /\ t.2 = Some rid)).
  - apply consistent_server_owned.
  - intros _ ts (t & Ht & Hf). exists t. split; [by apply lookup_app_l_Some|done].
  - done.
  - intros x y ts j q t V t' (u & Hu & Hf & Hid) _ _ Ht HG. destruct (decide (j = i)) as [->|Hne].
    + exists t'. rewrite list_lookup_insert_eq by by eapply lookup_lt_Some. rewrite Hu in Ht. injection Ht as <-.
      destruct (sg_http _ _ _ _ _ _ HG) as (cr & Hg). split_and!; [done|by apply (hg_kept _ _ _ _ _ _ Hg)|].
      rewrite (sg_id _ _ _ _ _ _ HG); [done|by exists rid].
    + exists u. by rewrite list_lookup_insert_ne.
Qed.

(** Nobody is served; what Redis would accept was handed out. *)
Record server_at_rest s : Prop := {
  sr_calls : calls s = [];
  sr_sound : server_sound (shared s);
  sr_live : forall j, live_id (world_of (shared s)) j -> j ∈ issued (world_of (shared s));
}.

Lemma server_running s0 s : server_at_rest s0 -> rtc server_step s0 s -> ok_since server_owned s0 s.
Proof.
  intros [Hc Hs Hl] Hst. eapply (pool_ok_steps _ _ _ _ _ _ _ ((∅, false), None));
    [intros q; apply ss_ServeHTTP|apply server_env_sound|apply consistent_server_owned| |exact Hst].
  apply pool_ok_start; [done|done|]. split; [done|done|]. intros j Hj. split; [by apply Hl|done].
Qed.

(** The moments of a request: from its arrival, if that was after [s1], until [s2]. *)
Definition server_moment s1 (i : nat) s2 (x : Server) : Prop :=
  exists s, shared s = x /\ i < length (calls s) /\ rtc server_step s1 s /\ rtc server_step s s2.

Lemma server_occurred s1 i s2 x :
  occurred code server_env any_move s1 i s2 x -> length (calls s1) <= i -> server_moment s1 i s2 x.
Proof. intros (s & Hv & Hi & H2' & H1') Hle. exists s. auto. Qed.

(** * Theorems *)



End props.
