(* ===== verification/ErrorKinds.v ===== *)
(** Which kinds of errors the operations can answer with: what mapDomainErrorToHTTP makes
    statuses of (handler.base_response.go).

    [answers m P] says that whatever the state, the answer of [m] meets [P].  The users
    use case promises its kinds to its clients ([UsersErrors]); the auth use case is
    proved against that promise. *)

From Stdlib Require Import Ascii String ZArith.
From stdpp Require Import base gmap strings list.
From S2P Require Import Prelude GoStrings AppError Records Services World Domain Repository Caches.
From S2P Require Import UsersUsecase Jwt OtpCode AuthUsecase.

Open Scope string_scope.

(** * Answers *)
Definition answers {S A} (m : io S A) (P : A -> Prop) : Prop := forall s, P (m s).1.

Section rules.
Context {S : Type}.

Lemma answers_ret {A} (a : A) (P : A -> Prop) : P a -> answers (S := S) (ret a) P.
Proof. by intros ? s. Qed.

Lemma answers_bind {A B} (m : io S A) (k : A -> io S B) (P : A -> Prop) Q :
  answers m P -> (forall a, P a -> answers (k a) Q) -> answers (bind m k) Q.
Proof.
  intros Hm Hk s. unfold bind. specialize (Hm s). destruct (m s) as [a s']. by apply Hk.
Qed.

Lemma answers_try {E A B} (m : io S (result E A)) (h : E -> io S B) (k : A -> io S B) P Q :
  answers m P -> (forall e, P (Err e) -> answers (h e) Q) -> (forall a, answers (k a) Q) ->
  answers (try_catch m h k) Q.
Proof. intros Hm Hh Hk. eapply answers_bind; [exact Hm|]. intros [a|e] Ha; auto. Qed.

Lemma answers_any {A} (m : io S A) : answers m (fun _ => True).
Proof. by intros s. Qed.

Lemma answers_mono {A} (m : io S A) (P Q : A -> Prop) : answers m P -> (forall a, P a -> Q a) -> answers m Q.
Proof. intros Hm HPQ s. apply HPQ, Hm. Qed.
End rules.

Lemma answers_zoom {W C A} (l : lens W C) (m : io C A) P : answers m P -> answers (zoom l m) P.
Proof. intros Hm w. unfold zoom. specialize (Hm (lget l w)). by destruct (m (lget l w)). Qed.

(** * Kinds *)
Definition kind_in (l : list ErrorType) (e : error) : Prop := exists t, error_type e = Some t /\ t ∈ l.
Definition kinds {A} (l : list ErrorType) (r : result error A) : Prop :=
  match r with Ok _ => True | Err e => kind_in l e end.

(** The error is the one named, or none of the application's own. *)
Definition raw_or {A} (e : error) (r : result error A) : Prop :=
  match r with Ok _ => True | Err e' => typed_or_raw e' e end.

Lemma kind_in_new l t msg c : t ∈ l -> kind_in l (EDomain t msg c).
Proof. intros Ht. by exists t. Qed.

Lemma kind_in_weaken l l' e : l ⊆ l' -> kind_in l e -> kind_in l' e.
Proof. intros Hl (t & Ht & Hin). exists t. split; [done|by apply Hl]. Qed.

Lemma kinds_mapRepoError {A} e op t msg : typed_or_raw e (New t msg) ->
  kinds (A := A) [t; ErrTypeInternal] (UsersImpl.mapRepoError (Err e) op).
Proof.
  intros He. destruct (mapRepoError_domain (A := A) e op _ He eq_refl) as (e' & -> & _ & Hraw & Hdom). cbn.
  destruct He as [->|He].
  - rewrite (Hdom ltac:(done)). apply kind_in_new. left.
  - exists ErrTypeInternal. split; [by apply Hraw|]. right. left.
Qed.

(** Membership in a list of kinds that is written out. *)
Ltac in_list := repeat first [left; reflexivity | right].

Create HintDb kinds.

(** Follows a program to its answers; calls with a promise of their own come from [kinds]. *)
Ltac kinds :=
  cbv beta zeta;
  lazymatch goal with
  | |- answers (ret _) _ =>
      apply answers_ret; cbn beta iota; first
        [ exact I | assumption
        | (apply kind_in_new; in_list)
        | (eapply kind_in_weaken; [|eassumption]; set_solver)
        | cbn; done | idtac ]
  | |- answers (try_catch ?m _ _) _ =>
      eapply answers_try; [known_kinds|intros ? ?; kinds|intros ?; kinds]
  | |- answers (bind ?m _) _ => eapply answers_bind; [known_kinds|intros ? ?; kinds]
  | |- answers (match ?x with _ => _ end) _ => destruct x eqn:?; kinds
  | |- answers _ _ => first [solve [auto with kinds] | eapply answers_mono; [solve [auto with kinds]|]; idtac]
  | |- _ => idtac
  end
with known_kinds := first [solve [auto with kinds] | apply answers_any].

(** * The repository *)
Class RepositoryErrors `{UserRepository} : Prop := {
  repo_Store_errors : forall u, answers (repo_Store u) (raw_or (Conflict "username or email already exists"));
  repo_GetByEmail_errors : forall u, answers (repo_GetByEmail u) (raw_or (NotFound "user not found"));
  repo_GetByID_errors : forall id, answers (repo_GetByID id) (raw_or (NotFound "user not found"));
  repo_UpdatePassword_errors : forall u, answers (repo_UpdatePassword u) (raw_or (NotFound "user not found"));
}.

Section postgres.
Context `{Platform} `{!SqlLaws}.

Lemma answers_wp {S A} (m : io S A) (P : A -> Prop) : (forall s, wp m (fun a _ => P a) s) -> answers m P.
Proof. intros Hm s. apply (Hm s). Qed.

#[export] Instance postgres_errors : @RepositoryErrors _ Postgres.repository.
Proof.
  split; intros x; apply answers_wp; intros d; cbn.
  - unfold Postgres.Store. wp_step. wp_step. apply wp_intro. intros res d' Hi.
    pose proof (sql_insert_law (FromUsersV1Domain x) (d_db d)) as Hlaw. cbn [lget l_db] in Hi. rewrite Hi in Hlaw.
    destruct res as [out|e]; cbn in Hlaw.
    + destruct Hlaw as (id & _ & _ & _ & _ & Hout). wp_step. unfold wp, open_rows, modify, bind, ret. cbn.
      destruct out as [[r|e]|]; cbn; [done| |by right]. right. unfold error_type in *. cbn. by rewrite Hout.
    + destruct Hlaw as [He _]. case_bool_decide; wp_step; [by left|by right].
  - unfold Postgres.GetByEmail. wp_step. apply wp_sql_get. intros res d' _ _ Hres.
    destruct res as [r|e]; [by wp_step|]. destruct Hres as [He _]. destruct (errors_Is _ _); wp_step; [by left|by right].
  - unfold Postgres.GetByID. wp_step. apply wp_sql_get. intros res d' _ _ Hres.
    destruct res as [r|e]; [by wp_step|]. destruct Hres as [He _]. destruct (errors_Is _ _); wp_step; [by left|by right].
  - unfold Postgres.UpdatePassword. wp_step. apply wp_sql_update. intros res d' _ Hres.
    destruct res as [r|e]; [|wp_step; right; apply Hres]. destruct Hres as (now & _ & ->).
    destruct (Z.eqb _ _); wp_step; [by left|done].
Qed.
End postgres.

(** * The users use case *)
Class UsersErrors `{UsersUsecase} : Prop := {
  users_Store_kinds : forall u, answers (users_Store u) (kinds [ErrTypeBadRequest; ErrTypeConflict; ErrTypeInternal]);
  users_GetByEmail_kinds : forall e, answers (users_GetByEmail e) (kinds [ErrTypeNotFound; ErrTypeInternal]);
  users_GetByID_kinds : forall id, answers (users_GetByID id) (kinds [ErrTypeNotFound; ErrTypeInternal]);
  users_Activate_kinds : forall id, answers (users_Activate id) (kinds [ErrTypeInternal]);
  users_UpdatePassword_kinds : forall u,
    answers (users_UpdatePassword u) (kinds [ErrTypeBadRequest; ErrTypeNotFound; ErrTypeInternal]);
}.

Section users.
Context `{UserRepository} `{!RepositoryErrors}.

(** An error of the repository, mapped. *)
Lemma mapped {S A} (e : error) op t msg l : raw_or (A := A) (New t msg) (Err e) -> [t; ErrTypeInternal] ⊆ l ->
  answers (S := S) (ret (UsersImpl.mapRepoError (A := A) (Err e) op)) (kinds l).
Proof.
  intros He Hl. apply answers_ret. pose proof (kinds_mapRepoError (A := A) e op t msg He) as Hk.
  destruct (UsersImpl.mapRepoError _ _); [done|]. by eapply kind_in_weaken.
Qed.

Lemma load_kinds e : answers (UsersImpl.GetByEmail_load e) (kinds [ErrTypeNotFound; ErrTypeInternal]).
Proof.
  unfold UsersImpl.GetByEmail_load. eapply answers_try; [apply answers_zoom, repo_GetByEmail_errors| |intros u; kinds].
  intros x Hx. by eapply mapped.
Qed.
#[local] Hint Resolve load_kinds : kinds.

#[export] Instance users_errors cfg : @UsersErrors _ (UsersImpl.NewUsecase cfg).
Proof.
  split; cbn.
  - intros u. unfold UsersImpl.Store. eapply answers_try; [apply answers_any|intros e _; kinds|].
    intros x. eapply answers_try; [apply answers_zoom, repo_Store_errors| |intros y; kinds].
    intros e He. eapply mapped; [exact He|set_solver].
  - intros e. unfold UsersImpl.GetByEmail. kinds.
  - intros id. unfold UsersImpl.GetByID. eapply answers_try; [apply answers_zoom, repo_GetByID_errors| |intros u; kinds].
    intros e He. by eapply mapped.
  - intros id. unfold UsersImpl.Activate. kinds.
  - intros [u|]; unfold UsersImpl.UpdatePassword; [|kinds]. destruct (String.eqb _ _); [kinds|].
    eapply answers_try; [apply answers_zoom, repo_UpdatePassword_errors| |intros x; kinds].
    intros e He. eapply mapped; [exact He|set_solver].
Qed.
End users.

(** * The auth use case *)
Section auth.
Context `{Platform} `{!OTPMailer} `{!UsersUsecase} `{!JWTService} `{!UsersErrors}.
Variable uc : Auth.usecase.

Lemma on_users {A} (m : io UState (result error A)) l : answers m (kinds l) -> answers (zoom l_u m) (kinds l).
Proof. apply answers_zoom. Qed.
#[local] Hint Resolve on_users users_Store_kinds users_GetByEmail_kinds users_GetByID_kinds users_Activate_kinds
  users_UpdatePassword_kinds : kinds.

Lemma Register_kinds u : answers (Auth.Register u) (kinds [ErrTypeBadRequest; ErrTypeConflict; ErrTypeInternal]).
Proof. unfold Auth.Register. kinds. Qed.

Lemma Login_kinds e p : answers (Auth.Login uc e p) (kinds [ErrTypeUnauthorized; ErrTypeForbidden; ErrTypeInternal]).
Proof. unfold Auth.Login, Auth.Login_checked. kinds. Qed.

Lemma VerifyOTP_kinds e c :
  answers (Auth.VerifyOTP uc e c) (kinds [ErrTypeBadRequest; ErrTypeForbidden; ErrTypeNotFound; ErrTypeInternal]).
Proof. unfold Auth.VerifyOTP. kinds. Qed.

Lemma Refresh_kinds t : answers (Auth.Refresh uc t) (kinds [ErrTypeUnauthorized; ErrTypeForbidden; ErrTypeInternal]).
Proof. unfold Auth.Refresh. kinds. Qed.

Lemma Logout_kinds t : answers (Auth.Logout t) (kinds [ErrTypeUnauthorized; ErrTypeInternal]).
Proof. unfold Auth.Logout. kinds. Qed.

Lemma ChangePassword_kinds id cur new : answers (Auth.ChangePassword uc id cur new)
  (kinds [ErrTypeBadRequest; ErrTypeUnauthorized; ErrTypeNotFound; ErrTypeInternal]).
Proof. unfold Auth.ChangePassword. kinds. Qed.

Lemma ResetPassword_kinds t new : answers (Auth.ResetPassword uc t new)
  (kinds [ErrTypeBadRequest; ErrTypeUnauthorized; ErrTypeNotFound; ErrTypeInternal]).
Proof. unfold Auth.ResetPassword. kinds. Qed.

(** The lookup's "not found" is not passed on. *)
Lemma ForgotPassword_kinds e : answers (Auth.ForgotPassword uc e) (kinds [ErrTypeForbidden; ErrTypeInternal]).
Proof.
  assert (forall e : error, kind_in [ErrTypeNotFound; ErrTypeInternal] e ->
    bool_decide (error_type e = Some ErrTypeNotFound) = false -> kind_in [ErrTypeForbidden; ErrTypeInternal] e) as Hother.
  { intros x (t & Ht & Hin) Hne%bool_decide_eq_false. exists t. split; [done|]. rewrite Ht in Hne. set_solver. }
  unfold Auth.ForgotPassword, Auth.ForgotPassword_limited. kinds; by apply Hother.
Qed.

(** SendOTP may have no answer yet. *)
Lemma SendOTP_kinds fuel e : answers (Auth.SendOTP uc fuel e)
  (fun o => match o with Some r => kinds [ErrTypeBadRequest; ErrTypeNotFound; ErrTypeInternal] r | None => True end).
Proof. unfold Auth.SendOTP. kinds. Qed.
End auth.
