(* ===== verification/Docs.v ===== *)
(** The OpenAPI document the server publishes under /swagger: src/docs/docs.go.  swag has
    generated it from the comments of the handlers; it is kept in the repository as text.
    Here it is data: the operations with their parameters and responses, and the
    definitions, named without the prefix of their package. *)

From Stdlib Require Import Ascii String ZArith.
From stdpp Require Import base strings list.

Open Scope string_scope.

(** A schema is a reference, or a definition whose property "data" is another. *)
Inductive schema := Ref (name : string) | WithData (name data : string).
Record parameter := Param {
  pa_description : string; pa_name : string; pa_in : string; pa_required : bool; pa_schema : schema }.
Record doc_response := Resp_ { re_code : Z; re_description : string; re_schema : schema }.

(** [op_bearer]: the operation lists BearerAuth under "security". *)
Record operation := Operation {
  op_path : string; op_method : string; op_bearer : bool; op_description : string;
  op_consumes : list string; op_produces : list string; op_tags : list string; op_summary : string;
  op_parameters : list parameter; op_responses : list doc_response }.

(** A property without a type has the empty one. *)
Record property := Prop_ { pr_name : string; pr_type : string; pr_min : option nat; pr_max : option nat }.
Record definition := Definition_ { df_name : string; df_required : list string; df_properties : list property }.

(** * The paths *)

Definition doc_login : operation := {|
  op_path := "/auth/login";
  op_method := "post";
  op_bearer := false;
  op_description := "Returns an access token (short TTL) and a refresh token (longer TTL). Wrong password and unknown email take the same wall time to prevent user enumeration.";
  op_consumes := ["application/json"];
  op_produces := ["application/json"];
  op_tags := ["auth"];
  op_summary := "Authenticate and issue a token pair";
  op_parameters := [Param "Login credentials" "request" "body" true (Ref "LoginRequest")];
  op_responses :=
    [Resp_ 200 "Tokens issued" (WithData "BaseResponse" "UserResponse");
     Resp_ 400 "Malformed JSON body" (Ref "BaseResponse");
     Resp_ 401 "Invalid email or password" (Ref "BaseResponse");
     Resp_ 403 "Account not yet activated" (Ref "BaseResponse");
     Resp_ 422 "Validation error" (Ref "BaseResponse")]
|}.

Definition doc_logout : operation := {|
  op_path := "/auth/logout";
  op_method := "post";
  op_bearer := false;
  op_description := "Deletes the refresh-token jti from Redis so /auth/refresh rejects it. Access tokens remain valid until their natural expiry — clients should discard them on logout.";
  op_consumes := ["application/json"];
  op_produces := ["application/json"];
  op_tags := ["auth"];
  op_summary := "Revoke the refresh token";
  op_parameters := [Param "Refresh token to revoke" "request" "body" true (Ref "RefreshRequest")];
  op_responses :=
    [Resp_ 200 "Logged out" (Ref "BaseResponse");
     Resp_ 401 "Refresh token invalid" (Ref "BaseResponse");
     Resp_ 422 "Validation error" (Ref "BaseResponse")]
|}.

Definition doc_change : operation := {|
  op_path := "/auth/password/change";
  op_method := "put";
  op_bearer := true;
  op_description := "Verifies the current password, swaps it for the new one, and stamps the revocation cutoff so refresh tokens issued before now are rejected.";
  op_consumes := ["application/json"];
  op_produces := ["application/json"];
  op_tags := ["auth"];
  op_summary := "Change the authenticated user's password";
  op_parameters := [Param "Current + new password" "request" "body" true (Ref "ChangePasswordRequest")];
  op_responses :=
    [Resp_ 200 "Password changed" (Ref "BaseResponse");
     Resp_ 400 "Malformed JSON body" (Ref "BaseResponse");
     Resp_ 401 "Current password incorrect" (Ref "BaseResponse");
     Resp_ 422 "Validation error" (Ref "BaseResponse")]
|}.

Definition doc_forgot : operation := {|
  op_path := "/auth/password/forgot";
  op_method := "post";
  op_bearer := false;
  op_description := "Emails an opaque reset token to the address. Always returns 200 even if the email isn't registered, to defeat user enumeration.";
  op_consumes := ["application/json"];
  op_produces := ["application/json"];
  op_tags := ["auth"];
  op_summary := "Issue a password-reset token";
  op_parameters := [Param "Email address" "request" "body" true (Ref "ForgotPasswordRequest")];
  op_responses :=
    [Resp_ 200 "Reset email queued (or email not registered — same response either way)" (Ref "BaseResponse");
     Resp_ 400 "Malformed JSON body" (Ref "BaseResponse");
     Resp_ 422 "Validation error" (Ref "BaseResponse")]
|}.

Definition doc_reset : operation := {|
  op_path := "/auth/password/reset";
  op_method := "post";
  op_bearer := false;
  op_description := "Validates the token issued by ForgotPassword, sets the new password, and advances the revocation cutoff.";
  op_consumes := ["application/json"];
  op_produces := ["application/json"];
  op_tags := ["auth"];
  op_summary := "Consume a reset token and set a new password";
  op_parameters := [Param "Reset token + new password" "request" "body" true (Ref "ResetPasswordRequest")];
  op_responses :=
    [Resp_ 200 "Password reset" (Ref "BaseResponse");
     Resp_ 400 "Malformed JSON body" (Ref "BaseResponse");
     Resp_ 401 "Reset token invalid or expired" (Ref "BaseResponse");
     Resp_ 422 "Validation error" (Ref "BaseResponse")]
|}.

Definition doc_refresh : operation := {|
  op_path := "/auth/refresh";
  op_method := "post";
  op_bearer := false;
  op_description := "Verifies the supplied refresh token, mints a new access+refresh pair, and revokes the old jti in Redis. Replaying an already-rotated token returns 401.";
  op_consumes := ["application/json"];
  op_produces := ["application/json"];
  op_tags := ["auth"];
  op_summary := "Rotate the refresh token, return a new pair";
  op_parameters := [Param "Refresh token" "request" "body" true (Ref "RefreshRequest")];
  op_responses :=
    [Resp_ 200 "New token pair" (WithData "BaseResponse" "UserResponse");
     Resp_ 401 "Refresh token invalid, expired, or already revoked" (Ref "BaseResponse");
     Resp_ 403 "Account no longer active" (Ref "BaseResponse");
     Resp_ 422 "Validation error" (Ref "BaseResponse")]
|}.

Definition doc_register : operation := {|
  op_path := "/auth/register";
  op_method := "post";
  op_bearer := false;
  op_description := "Creates a user account in inactive state. The caller must follow up with /auth/send-otp + /auth/verify-otp to activate the account before /auth/login will succeed.";
  op_consumes := ["application/json"];
  op_produces := ["application/json"];
  op_tags := ["auth"];
  op_summary := "Register a new user";
  op_parameters := [Param "Registration payload" "request" "body" true (Ref "RegisterRequest")];
  op_responses :=
    [Resp_ 201 "User created" (WithData "BaseResponse" "UserResponse");
     Resp_ 400 "Malformed JSON body" (Ref "BaseResponse");
     Resp_ 409 "Email or username already in use" (Ref "BaseResponse");
     Resp_ 422 "Validation error (per-field detail in data.errors)" (Ref "BaseResponse");
     Resp_ 500 "Internal error" (Ref "BaseResponse")]
|}.

Definition doc_send_otp : operation := {|
  op_path := "/auth/send-otp";
  op_method := "post";
  op_bearer := false;
  op_description := "Generates a 6-digit OTP, stores it in Redis with a TTL, and enqueues the email via the async mailer. The HTTP response returns on enqueue, not on actual SMTP delivery.";
  op_consumes := ["application/json"];
  op_produces := ["application/json"];
  op_tags := ["auth"];
  op_summary := "Send an OTP code to the user's email";
  op_parameters := [Param "Email to send OTP to" "request" "body" true (Ref "SendOTPRequest")];
  op_responses :=
    [Resp_ 200 "OTP enqueued" (Ref "BaseResponse");
     Resp_ 400 "Account already activated" (Ref "BaseResponse");
     Resp_ 404 "Email not registered" (Ref "BaseResponse");
     Resp_ 422 "Validation error" (Ref "BaseResponse");
     Resp_ 500 "Failed to enqueue mail" (Ref "BaseResponse")]
|}.

Definition doc_verify_otp : operation := {|
  op_path := "/auth/verify-otp";
  op_method := "post";
  op_bearer := false;
  op_description := "Validates the supplied code against Redis and flips the user's active flag to true on success. Brute-force-guarded — after OTP_MAX_ATTEMPTS failures (default 5) the email is locked out for the OTP TTL window even with the correct code.";
  op_consumes := ["application/json"];
  op_produces := ["application/json"];
  op_tags := ["auth"];
  op_summary := "Verify an OTP code and activate the account";
  op_parameters := [Param "Email + OTP code" "request" "body" true (Ref "VerifyOTPRequest")];
  op_responses :=
    [Resp_ 200 "Account activated" (Ref "BaseResponse");
     Resp_ 400 "Invalid OTP code" (Ref "BaseResponse");
     Resp_ 403 "Locked out — too many invalid attempts" (Ref "BaseResponse");
     Resp_ 404 "Email not registered" (Ref "BaseResponse");
     Resp_ 422 "Validation error" (Ref "BaseResponse")]
|}.

Definition doc_me : operation := {|
  op_path := "/users/me";
  op_method := "get";
  op_bearer := true;
  op_description := "Reads the authenticated user from the JWT in the Authorization header and returns the matching record (in-memory cache first, Postgres on miss).";
  op_consumes := [];
  op_produces := ["application/json"];
  op_tags := ["users"];
  op_summary := "Return the current user's profile";
  op_parameters := [];
  op_responses :=
    [Resp_ 200 "User profile" (WithData "BaseResponse" "UserResponse");
     Resp_ 401 "Missing or invalid token" (Ref "BaseResponse");
     Resp_ 404 "User no longer exists" (Ref "BaseResponse")]
|}.

Definition paths : list operation :=
  [doc_login; doc_logout; doc_change; doc_forgot; doc_reset; doc_refresh; doc_register; doc_send_otp; doc_verify_otp; doc_me].

(** * The definitions *)

Definition def_ChangePasswordRequest : definition := {|
  df_name := "ChangePasswordRequest";
  df_required := ["current_password"; "new_password"];
  df_properties :=
    [Prop_ "current_password" "string" (Some 1) (Some 72);
     Prop_ "new_password" "string" (Some 12) (Some 72)]
|}.

Definition def_ForgotPasswordRequest : definition := {|
  df_name := "ForgotPasswordRequest";
  df_required := ["email"];
  df_properties :=
    [Prop_ "email" "string" None (Some 50)]
|}.

Definition def_LoginRequest : definition := {|
  df_name := "LoginRequest";
  df_required := ["email"; "password"];
  df_properties :=
    [Prop_ "email" "string" None (Some 50);
     Prop_ "password" "string" (Some 1) (Some 72)]
|}.

Definition def_RefreshRequest : definition := {|
  df_name := "RefreshRequest";
  df_required := ["refresh_token"];
  df_properties :=
    [Prop_ "refresh_token" "string" None None]
|}.

Definition def_RegisterRequest : definition := {|
  df_name := "RegisterRequest";
  df_required := ["email"; "password"; "username"];
  df_properties :=
    [Prop_ "email" "string" None (Some 50);
     Prop_ "password" "string" (Some 12) (Some 72);
     Prop_ "username" "string" (Some 3) (Some 25)]
|}.

Definition def_ResetPasswordRequest : definition := {|
  df_name := "ResetPasswordRequest";
  df_required := ["new_password"; "token"];
  df_properties :=
    [Prop_ "new_password" "string" (Some 12) (Some 72);
     Prop_ "token" "string" None None]
|}.

Definition def_SendOTPRequest : definition := {|
  df_name := "SendOTPRequest";
  df_required := ["email"];
  df_properties :=
    [Prop_ "email" "string" None (Some 50)]
|}.

Definition def_VerifyOTPRequest : definition := {|
  df_name := "VerifyOTPRequest";
  df_required := ["code"; "email"];
  df_properties :=
    [Prop_ "code" "string" None None;
     Prop_ "email" "string" None (Some 50)]
|}.

Definition def_UserResponse : definition := {|
  df_name := "UserResponse";
  df_required := [];
  df_properties :=
    [Prop_ "created_at" "string" None None;
     Prop_ "email" "string" None None;
     Prop_ "id" "string" None None;
     Prop_ "refresh_token" "string" None None;
     Prop_ "role_id" "integer" None None;
     Prop_ "token" "string" None None;
     Prop_ "updated_at" "string" None None;
     Prop_ "username" "string" None None]
|}.

Definition def_BaseResponse : definition := {|
  df_name := "BaseResponse";
  df_required := [];
  df_properties :=
    [Prop_ "data" "" None None;
     Prop_ "message" "string" None None;
     Prop_ "request_id" "string" None None;
     Prop_ "status" "boolean" None None]
|}.

Definition definitions : list definition :=
  [def_ChangePasswordRequest; def_ForgotPasswordRequest; def_LoginRequest; def_RefreshRequest; def_RegisterRequest; def_ResetPasswordRequest; def_SendOTPRequest; def_VerifyOTPRequest; def_UserResponse; def_BaseResponse].

(** * The rest *)
Record security := Security { se_name : string; se_type : string; se_in : string; se_description : string }.
Definition BearerAuth : security := Security "Authorization" "apiKey" "header"
  "Bearer access token issued by /auth/login or /auth/refresh.".

Record Spec := MkSpec {
  Version : string; Host : string; BasePath : string; Schemes : list string; Title : string }.
Definition SwaggerInfo : Spec := MkSpec "1.0" "localhost:8080" "/api/v1" ["http"; "https"] "Go REST Boilerplate API".
