(* ===== verification/DocsProps.v ===== *)
(** The published document (Docs.v) against the server: the routes of route.auth.go and
    route.users.go, the tags of requests.auth.go, and what the handlers answer. *)

From Stdlib Require Import Ascii String ZArith.
From stdpp Require Import base gmap strings list.
From S2P Require Import Prelude GoStrings AppError Records Services World Domain Repository Caches.
From S2P Require Import UsersUsecase Jwt OtpCode AuthUsecase Validators Middleware Http HttpProps.
From S2P Require Import Config RateLimiter Router ErrorKinds Docs.

Open Scope string_scope.

(** * Routes *)

(** The verb a route is registered with. *)
Definition route_method (r : route) : string :=
  match r with
  | PutChange _ _ => "put"
  | GetMe _ => "get"
  | _ => "post"
  end.

(** The operation that documents a route. *)
Definition doc_of (r : route) : operation :=
  match r with
  | PostRegister _ => doc_register
  | PostLogin _ => doc_login
  | PostSendOTP _ _ => doc_send_otp
  | PostVerifyOTP _ => doc_verify_otp
  | PostRefresh _ => doc_refresh
  | PostLogout _ => doc_logout
  | PostForgot _ => doc_forgot
  | PostReset _ => doc_reset
  | PutChange _ _ => doc_change
  | GetMe _ => doc_me
  end.

(** Path and verb are those of the route. *)
Definition documents (op : operation) (r : route) : Prop :=
  BasePath SwaggerInfo +:+ op_path op = FullPath (Api r) /\ op_method op = route_method r.

Lemma doc_of_documents r : doc_of r ∈ paths /\ documents (doc_of r) r.
Proof. destruct r; (split; [unfold paths; in_list|done]). Qed.

Lemma documents_unique op r : op ∈ paths -> documents op r -> op = doc_of r.
Proof.
  intros Hin [Hp _]. unfold paths in Hin.
  repeat (apply elem_of_cons in Hin as [->|Hin]; [by destruct r; first [reflexivity|vm_compute in Hp; discriminate Hp]|]).
  by apply not_elem_of_nil in Hin.
Qed.

Lemma documented_routed op : op ∈ paths -> exists r, documents op r.
Proof.
  intros Hin. unfold paths in Hin.
  repeat (apply elem_of_cons in Hin as [->|Hin]; [first
    [ by exists (PostLogin None) | by exists (PostLogout None) | by exists (PutChange "" None) | by exists (PostForgot None)
    | by exists (PostReset None) | by exists (PostRefresh None) | by exists (PostRegister None)
    | by exists (PostSendOTP 0 None) | by exists (PostVerifyOTP None) | by exists (GetMe "") ]|]).
  by apply not_elem_of_nil in Hin.
Qed.

(** * Bodies *)

(** The json tag of a field. *)
Definition json_name (field : string) : string :=
  match field with
  | "Username" => "username"
  | "Email" => "email"
  | "Password" => "password"
  | "Code" => "code"
  | "RefreshToken" => "refresh_token"
  | "CurrentPassword" => "current_password"
  | "NewPassword" => "new_password"
  | "Token" => "token"
  | _ => field
  end.

Fixpoint bound_of (pick : rule -> option nat) (rules : list rule) : option nat :=
  match rules with
  | [] => None
  | r :: rules => match pick r with Some n => Some n | None => bound_of pick rules end
  end.
Definition min_of : list rule -> option nat := bound_of (fun r => match r with min n => Some n | _ => None end).
Definition max_of : list rule -> option nat := bound_of (fun r => match r with max n => Some n | _ => None end).
Definition is_required (rules : list rule) : bool :=
  existsb (fun r => match r with required => true | _ => false end) rules.

(** What a document can say of a field's tag; of email, numeric and strongpassword
    it says nothing. *)
Definition described (f : field) : property :=
  Prop_ (json_name (f_name f)) "string" (min_of (f_tag f)) (max_of (f_tag f)).

Definition describes (df : definition) (fs : list field) : Prop :=
  df_properties df ≡ₚ described <$> fs /\
  df_required df ≡ₚ json_name ∘ f_name <$> List.filter (fun f => is_required (f_tag f)) fs.

(** The fields of a body that was bound. *)
Definition body_fields (r : route) : option (list field) :=
  match r with
  | PostRegister b => register_fields <$> b
  | PostLogin b => login_fields <$> b
  | PostSendOTP _ b => email_fields <$> b
  | PostVerifyOTP b => verify_fields <$> b
  | PostRefresh b => refresh_fields <$> b
  | PostLogout b => refresh_fields <$> b
  | PostForgot b => email_fields <$> b
  | PostReset b => reset_fields <$> b
  | PutChange _ b => change_fields <$> b
  | GetMe _ => None
  end.

(** The one parameter of the operation is the body, of that definition. *)
Definition body_documented (op : operation) (fs : list field) : Prop :=
  exists d df, op_parameters op = [Param d "request" "body" true (Ref (df_name df))] /\
    df ∈ definitions /\ describes df fs.

Ltac body df := eexists _, df; split; [reflexivity|]; split; [unfold definitions; in_list|];
  split; cbn; solve_Permutation.

Lemma body_of_route r fs : body_fields r = Some fs -> body_documented (doc_of r) fs.
Proof.
  destruct r as [[req|]|[req|]|n [req|]|[req|]|[req|]|[req|]|[req|]|[req|]|h [req|]|h]; cbn; intros [= <-].
  - body def_RegisterRequest.
  - body def_LoginRequest.
  - body def_SendOTPRequest.
  - body def_VerifyOTPRequest.
  - body def_RefreshRequest.
  - body def_RefreshRequest.
  - body def_ForgotPasswordRequest.
  - body def_ResetPasswordRequest.
  - body def_ChangePasswordRequest.
Qed.

(** * Statuses *)

(** The statuses a document lists for a route, and those it leaves out. *)
Definition documented (r : route) : list Z := re_code <$> op_responses (doc_of r).
Definition undocumented (r : route) : list Z :=
  match r with
  | PostRegister _ | PostSendOTP _ _ => []
  | PostLogin _ | PostVerifyOTP _ | GetMe _ => [500]
  | PostRefresh _ | PostLogout _ => [400; 500]
  | PostForgot _ => [403; 500]
  | PostReset _ | PutChange _ _ => [404; 500]
  end%Z.

(** The schema a document gives for the data of a success, and the data itself: register
    and /users/me put the user one level deeper than it says. *)
Definition success_schema (r : route) : option schema := re_schema <$> head (op_responses (doc_of r)).
Definition nested (r : route) : bool := match r with PostRegister _ | GetMe _ => true | _ => false end.
Definition data_documented (r : route) (d : data) : Prop :=
  match success_schema r with
  | Some (WithData "BaseResponse" "UserResponse") =>
      exists u, d = if nested r then DUserEntry u else DUserData u
  | Some (Ref "BaseResponse") => d = NoData
  | _ => False
  end.

(** A reply the document covers, up to the statuses it leaves out. *)
Definition covered (r : route) (out : response) : Prop :=
  code_ out ∈ (documented r ++ undocumented r)%list /\ ((code_ out < 300)%Z -> data_documented r (Data (body out))).

Definition status_of (t : ErrorType) : Z := mapDomainErrorToHTTP (EDomain t "" None).

Lemma mapDomainError_kind l e : kind_in l e -> mapDomainErrorToHTTP e ∈ status_of <$> l.
Proof.
  intros (t & Ht & Hin). apply list_elem_of_fmap. exists t. split; [|done].
  unfold status_of, mapDomainErrorToHTTP. rewrite Ht. by destruct t.
Qed.

Lemma mapDomainError_fails e : (400 <= mapDomainErrorToHTTP e)%Z.
Proof. unfold mapDomainErrorToHTTP. by destruct (error_type e) as [[]|]. Qed.

Section statuses.
Context `{Platform} `{!OTPMailer} `{!UsersUsecase} `{!JWTService} `{!ValidatorLib} `{!UsersErrors} `{!ValidatorErrors}.
Variables (uc : Auth.usecase) (guard : AuthMiddleware.t).

Lemma RespondWithError_code c err : answers (RespondWithError c err)
  (fun out => code_ out = match err with EValidation _ => 422%Z | EPlain e => mapDomainErrorToHTTP e end).
Proof.
  unfold RespondWithError. destruct err as [errs|e]; [by apply answers_ret|].
  destruct (_ <=? _)%Z; [|by apply answers_ret]. eapply answers_bind; [apply answers_any|]. intros _ _. by apply answers_ret.
Qed.

(** An endpoint answers with 400, 422 or 500 before the use case, and after it with the
    status of an error's kind or its own reply. *)
Definition endpoint_out {Req A} (l : list ErrorType) (reply : Req -> A -> response) (out : response) : Prop :=
  ((400 <= code_ out)%Z /\ code_ out ∈ ([400; 422; 500]%Z ++ (status_of <$> l))%list) \/ exists req a, out = reply req a.

Lemma payload_code p err : ValidatePayloads p = Some err ->
  match err with EValidation _ => 422%Z | EPlain e => mapDomainErrorToHTTP e end ∈ [422; 500]%Z.
Proof.
  unfold ValidatePayloads. destruct (validator_Struct _ p) as [[ve|e]|] eqn:Hv; [..|done]; intros [= <-]; [in_list|].
  unfold mapDomainErrorToHTTP. rewrite (struct_other _ _ _ Hv). in_list.
Qed.

Lemma answers_endpoint {Req A} c (b : option Req) fields (m : Req -> io World (option (result error A))) fail succ reply l :
  (forall req, answers (m req) (fun o => match o with Some r => kinds l r | None => True end)) ->
  answers (endpoint c b fields m fail succ reply) (fun o => forall out, o = Some out -> endpoint_out l reply out).
Proof.
  intros Hm. unfold endpoint, with_body. destruct b as [req|].
  2: { apply answers_ret. intros out [= <-]. left. split; [done|]. cbn. in_list. }
  destruct (ValidatePayloads (fields req)) as [err|] eqn:Hv.
  { eapply answers_bind; [apply RespondWithError_code|]. intros out Ho. apply answers_ret. intros ? [= <-]. left.
    pose proof (payload_code _ _ Hv) as Hc. rewrite Ho. split; [|set_solver].
    destruct err as [errs|e]; [done|]. apply mapDomainError_fails. }
  eapply answers_bind; [apply answers_zoom, Hm|]. intros [res|] Hk; [|by apply answers_ret].
  eapply (answers_bind _ _ (endpoint_out l reply)); [|intros out Ho; apply answers_ret; by intros ? [= <-]].
  unfold finish. destruct res as [a|e].
  - eapply answers_bind; [apply answers_any|]. intros _ _. apply answers_ret. right. by exists req, a.
  - eapply answers_bind; [apply answers_any|]. intros _ _. eapply answers_mono; [apply RespondWithError_code|].
    intros out Ho. left. cbn in Ho. rewrite Ho. split; [apply mapDomainError_fails|].
    apply elem_of_app. right. by apply mapDomainError_kind.
Qed.

Lemma answers_some {A} (m : io World (result error A)) l : answers m (kinds l) ->
  answers (HttpProps.some m) (fun o => match o with Some r => kinds l r | None => True end).
Proof. intros Hm. eapply answers_bind; [exact Hm|]. intros r Hr. by apply answers_ret. Qed.

(** From an endpoint to what its document covers. *)
Lemma endpoint_covered {Req A} r l (reply : Req -> A -> response) out :
  forallb (fun z => bool_decide (z ∈ (documented r ++ undocumented r)%list)) ([400; 422; 500]%Z ++ (status_of <$> l))%list = true ->
  (forall req a, covered r (reply req a)) -> endpoint_out l reply out -> covered r out.
Proof.
  intros Hl Hrep [[Hge Hin]|(req & a & ->)]; [|done]. split; [|lia].
  rewrite forallb_forall in Hl. apply list_elem_of_In, Hl in Hin. by apply bool_decide_eq_true in Hin.
Qed.

Ltac success := intros; split; [cbn; in_list|intros _; cbn; first [done | by eexists]].

Lemma answered_inv (m : io HState response) (P : response -> Prop) :
  answers (answered m) (fun o => forall out, o = Some out -> P out) -> answers m P.
Proof.
  intros Hm h. specialize (Hm h). unfold answered, bind, ret in Hm. destruct (m h) as [out h']. by apply Hm.
Qed.

Lemma answers_answered (m : io HState response) (P : response -> Prop) :
  answers m P -> answers (answered m) (fun o => forall out, o = Some out -> P out).
Proof. intros Hm. eapply answers_bind; [exact Hm|]. intros out Ho. apply answers_ret. by intros ? [= <-]. Qed.

Lemma answers_eq {S A} (m m' : io S A) P : (forall s, m s = m' s) -> answers m' P -> answers m P.
Proof. intros Heq Hm s. rewrite Heq. apply Hm. Qed.

Ltac by_endpoint eq lem :=
  eapply answers_eq; [intros ?; apply eq|];
  eapply answers_mono; [apply answers_endpoint; intros req; first [apply answers_some, lem | apply lem]|];
  let o := fresh in let Ho := fresh in let Heq := fresh in
  intros o Ho out Heq; eapply endpoint_covered; cycle 2; [exact (Ho out Heq)|reflexivity|success].

Lemma guarded_covered r hdr c (handler : gin -> io HState response) :
  401%Z ∈ documented r ->
  (forall c, g_user c <> None -> (exists cl, g_user c = Some (VClaims cl)) -> answers (handler c) (covered r)) ->
  answers (answered (guarded guard hdr c handler)) (fun o => forall out, o = Some out -> covered r out).
Proof.
  intros H401 Hh. apply answers_answered. unfold guarded. eapply answers_bind; [apply answers_any|].
  intros [msg|user] _; [|apply Hh; [done|by eexists]]. apply answers_ret. split; [|by intros ?].
  apply elem_of_app. by left.
Qed.

(** Whatever the state: the reply of a route is one its document covers. *)
Lemma serve_covered c r : answers (serve uc guard c r) (fun o => forall out, o = Some out -> covered r out).
Proof.
  destruct r as [b|b|fuel b|b|b|b|b|b|hdr b|hdr]; cbn [serve].
  - by_endpoint Register_endpoint Register_kinds.
  - by_endpoint Login_endpoint Login_kinds.
  - by_endpoint SendOTP_endpoint SendOTP_kinds.
  - by_endpoint VerifyOTP_endpoint VerifyOTP_kinds.
  - by_endpoint Refresh_endpoint Refresh_kinds.
  - by_endpoint Logout_endpoint Logout_kinds.
  - by_endpoint ForgotPassword_endpoint ForgotPassword_kinds.
  - by_endpoint ResetPassword_endpoint ResetPassword_kinds.
  - apply guarded_covered; [in_list|]. intros c' _ [cl Hcl]. apply answered_inv.
    assert (CurrentUserFromContext c' = Some (MkCurrent (Claims.UserID cl) (Claims.Email cl) (Claims.IsAdmin cl) (Claims.ID cl)))
      as Hcu by (unfold CurrentUserFromContext; by rewrite Hcl).
    by_endpoint (fun h => ChangePassword_endpoint uc c' _ b h Hcu) ChangePassword_kinds.
  - apply guarded_covered; [in_list|]. intros c' _ [cl Hcl]. unfold Handler.GetUserData, CurrentUserFromContext. rewrite Hcl.
    eapply answers_try; [apply answers_zoom, answers_zoom, users_GetByEmail_kinds| |].
    + intros e He. eapply answers_mono; [apply RespondWithError_code|]. intros out Ho. cbn in Ho.
      split; [|pose proof (mapDomainError_fails e); lia]. apply mapDomainError_kind in He. rewrite <- Ho in He.
      apply elem_of_app. cbn in *. set_solver.
    + intros u. apply answers_ret. success.
Qed.
End statuses.

(** * The server *)

(** A body that is cut is a body that does not bind. *)
Lemma covered_bind caps q r out : covered (bind_under caps q r) out -> covered r out.
Proof. unfold bind_under. destruct (within caps q); [done|]. by destruct r. Qed.

(** A body that does not bind is answered 400, whether the document says so or not. *)
Definition unbound (r : route) : Prop :=
  match r with
  | PostRegister None | PostLogin None | PostSendOTP _ None | PostVerifyOTP None | PostRefresh None | PostLogout None
  | PostForgot None | PostReset None => True
  | _ => False
  end.

Section server.
Context `{Platform} `{!OTPMailer} `{!UsersUsecase} `{!JWTService} `{!ValidatorLib} `{!UsersErrors} `{!ValidatorErrors}.
Context `{RateLib} `{GinLib}.
Variables (cfg : Config) (uc : Auth.usecase) (guard : AuthMiddleware.t) (rl : RateLimiter.t).

Lemma unbound_400 c r h : unbound r -> exists out, (serve uc guard c r h).1 = Some out /\ code_ out = 400%Z.
Proof. destruct r as [[]|[]|? []|[]|[]|[]|[]|[]|? []|]; try done; by eexists. Qed.

(** The reply to a request of a route. *)
Definition replied (q : request) (r : route) (out : reply) : Prop :=
  (exists b, r_body out = BApi b /\ covered r (Resp (r_status out) b)) \/
  (r_status out = 429%Z /\ exists b, r_body out = BLimited b) \/
  (r_body out = BOther /\ (cors_handle (CORSMiddleware_config cfg) q).1 = Some (r_status out)).

Lemma group_replied q r caps (c : gin) h :
  answers (out <- zoom l_http (serve uc guard c (bind_under caps q r)) ;; ret (api_reply h out))
    (fun o => forall out, o = Some out -> replied q r out).
Proof.
  eapply answers_bind; [apply answers_zoom, serve_covered|]. intros [res|] Hres; apply answers_ret; [|done].
  intros out [= <-]. left. exists (body res). split; [done|]. apply (covered_bind caps q).
  cbn. destruct res as [code b]. by apply Hres.
Qed.

Lemma ServeHTTP_replied q a r : q_target q = Api r ->
  answers (ServeHTTP cfg uc guard rl q a) (fun o => forall out, o = Some out -> replied q r out).
Proof.
  intros Hq. unfold ServeHTTP. eapply answers_bind; [apply answers_any|]. intros rid _.
  destruct (cors_handle (CORSMiddleware_config cfg) q) as [[status|] hs] eqn:Hc.
  - eapply answers_bind; [apply answers_any|]. intros _ _. apply answers_ret. intros out [= <-].
    right. right. by rewrite Hc.
  - eapply (answers_bind _ _ (fun o => forall out, o = Some out -> replied q r out)).
    + unfold dispatch. rewrite Hq. assert (forall c h caps, answers (auth_group uc guard rl c q r caps h)
        (fun o => forall out, o = Some out -> replied q r out)) as Hauth.
      { intros c h caps. unfold auth_group. eapply answers_bind; [apply answers_any|]. intros o _.
        destruct (RateLimiter.o_verdict o) as [|retry b]; [apply group_replied|]. apply answers_ret.
        intros out [= <-]. right. left. split; [done|by eexists]. }
      destruct r; try apply Hauth. apply group_replied.
    + intros [out|] Ho; [|by apply answers_ret]. do 2 (eapply answers_bind; [apply answers_any|]; intros _ _).
      by apply answers_ret.
Qed.

End server.
