(* ===== verification/Application.v ===== *)
(** The application put together as the composition root does
    (src/cmd/api/server/server.go): the postgres repository and the ristretto cache
    under the users use case, the token service, the auth use case on top.  What
    holds of every state it can reach. *)

From Stdlib Require Import Ascii String ZArith.
From stdpp Require Import base gmap strings list pretty relations.
From S2P Require Import Prelude GoStrings AppError Records Services World Domain Repository Caches.
From S2P Require Import UsersUsecase Jwt OtpCode AuthUsecase AuthLemmas AuthEffects AuthSystem.

Open Scope string_scope.

Section application.
Context `{PlatformLaws} `{JwtLaws} `{!OTPMailer}.
#[local] Existing Instances pl_text pl_redis pl_sql pl_rist pl_rng.
Variables (ucfg : UsersImpl.Config) (jcfg : Jwt.jwtService) (uc : Auth.usecase).

#[local] Instance app_users : UsersUsecase :=
  @UsersImpl.NewUsecase _ Postgres.repository ucfg.
#[local] Instance app_jwt : JWTService := Jwt.service jcfg.

(** A table without rows, an empty cache. *)
Definition empty_state (w : World) : Prop :=
  rows w = ∅ /\ rist_view (u_cache (w_u w)) = ∅.

Lemma empty_inv w : empty_state w -> @impl_inv _ (w_u w).
Proof.
  intros [Hr Hc]. unfold impl_inv. change (table (w_u w)) with (rows w). rewrite Hr. split_and!.
  - split; intros *; by rewrite !lookup_empty.
  - intros id r. by rewrite lookup_empty.
  - intros e c. by rewrite Hc, lookup_empty.
Qed.

#[local] Instance app_contract : @UsersContract _ app_users := users_contract ucfg.

Lemma app_since w w' :
  empty_state w -> rtc (auth_step uc) w w' -> since w w'.
Proof. intros He Htr. apply (since_trace uc); [by apply empty_inv|done]. Qed.

(** The cache tells no lies: in every state the service reaches from an empty
    table and cache, whatever the services do (faults, expiry, evictions), a user
    found in the cache is the live row of that email, with its current password
    hash, role and password stamp, and is not active unless the row is. *)
Theorem cache_coherent w w' e c :
  empty_state w -> rtc (auth_step uc) w w' ->
  rist_view (u_cache (w_u w')) !! UsersImpl.cacheKey e = Some (VUser c) ->
  exists r, rows w' !! User.ID c = Some r /\ live r = true /\ Users.Email r = e /\
    User.Password c = Users.Password r /\ User.RoleID c = Users.RoleId r /\
    User.PasswordChangedAt c = Users.PasswordChangedAt r /\
    (User.Active c = true -> Users.Active r = true).
Proof.
  intros He Htr Hc. destruct (sn_inv _ _ (app_since _ _ He Htr)) as (_ & _ & Hsafe).
  destruct (Hsafe e c Hc) as [(r & Hr & Hl & Ha) Hem]. exists r. destruct Ha.
  split_and!; try done. congruence.
Qed.

(** In every reachable state no two live accounts share an email, and every
    stored email is non-empty and in normal form, so looking an account up by
    whatever spelling the user types finds it. *)
Theorem emails_unique_normal w w' id1 id2 r1 r2 :
  empty_state w -> rtc (auth_step uc) w w' ->
  rows w' !! id1 = Some r1 -> rows w' !! id2 = Some r2 -> live r1 = true -> live r2 = true ->
  Users.Email r1 <> "" /\ NormalizeEmail (Users.Email r1) = Users.Email r1 /\
  (NormalizeEmail (Users.Email r1) = NormalizeEmail (Users.Email r2) -> id1 = id2).
Proof.
  intros He Htr Hr1 Hr2 Hl1 Hl2. destruct (sn_inv _ _ (app_since _ _ He Htr)) as (Hok & Hem & _).
  destruct (Hem _ _ Hr1) as [Hne Hn1], (Hem _ _ Hr2) as [_ Hn2]. split_and!; [done|done|].
  rewrite Hn1, Hn2. by apply (tbl_email _ Hok id1 id2 r1 r2).
Qed.
End application.
