(* ===== verification/Server.v ===== *)
(** The composition root: src/cmd/api/server/server.go, the logger configuration of main.go
    (its processes are in Startup.v), and the opening of the database
    (src/internal/datasources/drivers).  What the configuration turns into, what is closed
    at the end, and what holds of the whole program in every state its requests lead to. *)

From Stdlib Require Import Ascii String ZArith.
From stdpp Require Import base gmap strings list pretty relations.
From S2P Require Import Prelude GoStrings AppError Records Services World Domain Repository Caches.
From S2P Require Import UsersUsecase Jwt OtpCode AuthUsecase AuthLemmas AuthEffects AuthSystem AuthProps.
From S2P Require Import Validators Middleware Http HttpProps Logger AsyncMailer AsyncMailerProps Mailer.
From S2P Require Import Config Tracing RateLimiter RateLimiterProps Router RouterProps Application.

Open Scope string_scope.

(** * The database (driver.sqlx.go) *)
Class SqlxLib := {
  otelsqlx_Open : string -> string -> option error;
  db_Ping : option error;
}.

(** An opened [*sqlx.DB] with its pool. *)
Record pool := Pool {
  p_driver : string; p_source : string; p_maxOpen : Z; p_maxIdle : Z;
  p_maxLifetime : Duration; p_maxIdleTime : Duration }.

Definition InitializeSQLXDatabase `{SqlxLib} (c : SQLXConfig) : result error pool :=
  match otelsqlx_Open (DriverName c) (DataSourceName c) with
  | Some err => Err (EText ("error opening database: " +:+ Error err))
  | None =>
      let db := Pool (DriverName c) (DataSourceName c) (MaxOpenConns c) (MaxIdleConns c)
                  (MaxLifetime c) (5 * Minute)%Z in
      match db_Ping with
      | Some err => Err (EText ("error pinging database: " +:+ Error err))
      | None => Ok db
      end
  end.

Definition SetupSQLXPostgres `{SqlxLib} (c : Config) : result error pool :=
  InitializeSQLXDatabase (SetupSQLXPostgres_config c).

(** * The HTTP server *)
Record http_Server := MkServer_ {
  Addr : string; ReadHeaderTimeout : Duration; ReadTimeout : Duration; WriteTimeout : Duration;
  IdleTimeout : Duration; MaxHeaderBytes : Z }.

(** [App], and what its handlers close over. *)
Record App := MkApp {
  HttpServer : http_Server;
  app_db : pool;
  app_redis : Redis.redisCache;
  app_smtp : otpMailer;
  app_mailer : AsyncMailer.config;
  app_tracer : shutdown;
  app_limiter : RateLimiter.t;
  app_jwt : Jwt.jwtService;
  app_guard : AuthMiddleware.t;
  app_users : UsersImpl.Config;
  app_auth : Auth.usecase;
}.

(** What NewApp changes globally: OpenTelemetry's state and the provider of the gauges. *)
Record globals := MkGlobals { g_otel : otel; g_stats : option pool }.
Definition l_otel : lens globals otel := Lens g_otel (fun o g => MkGlobals o (g_stats g)).
Definition RegisterDBStatsProvider (db : pool) : io globals unit :=
  modify (fun g => MkGlobals (g_otel g) (Some db)).

Definition NewApp `{OtelLib} `{SqlxLib} (ristretto_error : option error) (c : Config) : io globals (result error App) :=
  try shutdownTracer <- zoom l_otel (SetupTracing (tracing_of c))
  catch err => ret (Err (EWrapped "setup tracing" err)) ;;
  match SetupSQLXPostgres c with
  | Err err => ret (Err err)
  | Ok conn =>
      RegisterDBStatsProvider conn ;;;
      let jwtService := Jwt.NewJWTServiceWithRefresh (JWTSecret c) (JWTIssuer c) (JWTExpired c) (JWTRefreshExpired c) in
      let redisCache := Redis.NewRedisCache (REDISExpired c) in
      match ristretto_error with
      | Some err => ret (Err (EWrapped "failed to create ristretto cache" err))
      | None =>
          let syncMailer := NewOTPMailer (OTPEmail c) (OTPPassword c) in
          let asyncMailer := NewAsyncOTPMailer (MailerWorkers c) (MailerQueueSize c) (MailerRetries c) Second in
          let authMiddleware := AuthMiddleware.NewAuthMiddleware true false in
          let usersUC := UsersImpl.MkConfig (BcryptCost c) in
          let authUC := Auth.NewUsecase redisCache
            (Auth.MkConfig (OTPMaxAttempts c) (mul64 (REDISExpired c) Minute) (30 * Minute)%Z (BcryptCost c)
               10 (15 * Minute)%Z 3 (15 * Minute)%Z) in
          let authRateLimiter := Limits.server_limiter in
          let server := MkServer_ (":" +:+ Itoa (Port c)) (5 * Second)%Z (10 * Second)%Z (10 * Second)%Z
                          (60 * Second)%Z (Z.shiftl 1 20) in
          ret (Ok (MkApp server conn redisCache syncMailer asyncMailer shutdownTracer authRateLimiter
                 jwtService authMiddleware usersUC authUC))
      end
  end.

(** ** main.go: the logger of an environment *)
Definition loggerConfig (c : Config) : Logger.Config :=
  let level := if negb (Environment c =? EnvironmentProduction)%string && Debug c then LevelDebug else LevelInfo in
  Logger.MkConfig level true (Environment c =? EnvironmentProduction)%string false false "" "go-rest-boilerplate" false.

(** * Run *)

(** What is closed, in order; an error of all but the first is only logged. *)
Inductive action :=
| HttpShutdown | LimiterStop | MailerShutdown | DBClose | RedisClose | TracerShutdown
| Logged (message : string).

(** What each answers. *)
Record closing := Closing {
  on_http : option error; on_mailer : option error; on_db : option error;
  on_redis : option error; on_tracer : option error }.

Definition act (a : action) : io (list action) unit := modify (fun l => l ++ [a])%list.
Definition log_error (message : string) (e : option error) : io (list action) unit :=
  match e with Some err => act (Logged (message +:+ ": " +:+ Error err)) | None => ret tt end.

(** From the signal on. *)
Definition Run (r : closing) : io (list action) (option error) :=
  act (Logged "shutdown server ...") ;;;
  act HttpShutdown ;;;
  match on_http r with
  | Some err => ret (Some (EText ("error when shutdown server: " +:+ Error err)))
  | None =>
      act LimiterStop ;;;
      act MailerShutdown ;;;
      log_error "mailer shutdown incomplete" (on_mailer r) ;;;
      act DBClose ;;;
      log_error "error closing database" (on_db r) ;;;
      act RedisClose ;;;
      log_error "error closing redis" (on_redis r) ;;;
      act TracerShutdown ;;;
      log_error "tracer shutdown incomplete" (on_tracer r) ;;;
      act (Logged "server exiting") ;;;
      ret None
  end.

(** * What NewApp makes of an accepted configuration *)
Section configured.
Context `{OtelLib} `{SqlxLib}.

Lemma NewApp_inv rist c g app g' : NewApp rist c g = (Ok app, g') ->
  SetupSQLXPostgres c = Ok (app_db app) /\ g_stats g' = Some (app_db app) /\
  app_redis app = Redis.NewRedisCache (REDISExpired c) /\
  app_mailer app = NewAsyncOTPMailer (MailerWorkers c) (MailerQueueSize c) (MailerRetries c) Second /\
  app_jwt app = Jwt.NewJWTServiceWithRefresh (JWTSecret c) (JWTIssuer c) (JWTExpired c) (JWTRefreshExpired c) /\
  app_users app = UsersImpl.MkConfig (BcryptCost c) /\
  app_auth app = Auth.NewUsecase (app_redis app)
    (Auth.MkConfig (OTPMaxAttempts c) (mul64 (REDISExpired c) Minute) (30 * Minute)%Z (BcryptCost c)
       10 (15 * Minute)%Z 3 (15 * Minute)%Z).
Proof.
  unfold NewApp, try_catch, bind, ret. destruct (zoom l_otel _ g) as [[sd|e] g1]; [|done].
  destruct (SetupSQLXPostgres c) as [conn|e]; [|done]. unfold RegisterDBStatsProvider, modify.
  destruct rist; [done|]. by intros [= <- <-].
Qed.
End configured.

Lemma mul64_exact n d : (0 <= n)%Z -> (0 <= d)%Z -> (n * d <= int64_max)%Z -> mul64 n d = (n * d)%Z.
Proof.
  intros Hn Hd Hm. unfold mul64. apply wrap64_id. unfold in_int64, int64_min, int64_max in *. lia.
Qed.

(** What an accepted configuration comes to: every parameter the components get is in the
    range they need.  The pool has a size, bcrypt a cost it accepts, tokens a key of
    256 bits, lifetimes of at most thirty days and a year that no Duration overflows,
    the mail queue has workers and room, the codes an attempt and, up to a REDIS_EXPIRED of
    153722867 minutes, exactly the configured lifetime. *)
Theorem NewApp_configured `{OtelLib} `{SqlxLib} rist c g app g' :
  valid_config c -> NewApp rist c g = (Ok app, g') ->
  (1 <= p_maxOpen (app_db app) /\ 0 <= p_maxIdle (app_db app) <= p_maxOpen (app_db app))%Z /\
  p_source (app_db app) <> "" /\
  (10 <= UsersImpl.BcryptCost (app_users app) <= 31)%Z /\
  Auth.BcryptCost (Auth.cfg (app_auth app)) = UsersImpl.BcryptCost (app_users app) /\
  32 <= String.length (Jwt.secretKey (app_jwt app)) /\ Jwt.clock (app_jwt app) = RealClock /\
  mul64 Hour (Jwt.expired (app_jwt app)) = (Jwt.expired (app_jwt app) * Hour)%Z /\
  (0 < Jwt.expired (app_jwt app) * Hour <= 30 * (24 * Hour))%Z /\
  mul64 (24 * Hour) (Jwt.refreshExpired (app_jwt app)) = (Jwt.refreshExpired (app_jwt app) * (24 * Hour))%Z /\
  (0 < Jwt.refreshExpired (app_jwt app) * (24 * Hour) <= 365 * (24 * Hour))%Z /\
  AsyncMailerProps.config_ok (app_mailer app) /\
  (1 <= Auth.OTPMaxAttempts (Auth.cfg (app_auth app)))%Z /\
  ((REDISExpired c <= 153722867)%Z ->
     Auth.OTPTTL (Auth.cfg (app_auth app)) = (REDISExpired c * Minute)%Z /\
     (Minute <= Auth.OTPTTL (Auth.cfg (app_auth app)))%Z).
Proof.
  intros Hv Hrun. destruct (NewApp_inv _ _ _ _ _ Hrun) as (Hdb & _ & Hr & Hm & Hj & Hu & Ha).
  unfold SetupSQLXPostgres, InitializeSQLXDatabase in Hdb.
  destruct (otelsqlx_Open _ _); [done|]. destruct db_Ping; [done|]. injection Hdb as Hdb.
  rewrite <- Hdb, Hj, Hm, Hu, Ha. destruct Hv.
  cbn [p_maxOpen p_maxIdle p_source UsersImpl.BcryptCost Auth.cfg Auth.BcryptCost Auth.OTPMaxAttempts Auth.OTPTTL
    Jwt.NewJWTServiceWithRefresh Jwt.secretKey Jwt.clock Jwt.expired Jwt.refreshExpired
    MaxOpenConns MaxIdleConns SetupSQLXPostgres_config].
  assert (Minute = 60000000000%Z /\ Hour = 3600000000000%Z) as [Hmin Hhour] by done.
  assert (int64_max = 9223372036854775807%Z) as Hmax by done.
  split_and!; try done; try lia.
  - rewrite mul64_exact by lia. lia.
  - rewrite mul64_exact by lia. lia.
  - apply NewAsyncOTPMailer_ok.
  - intros Hle. rewrite mul64_exact by lia. split; [done|]. lia.
Qed.

(** One minute more and the lifetime is negative: Redis then keeps the codes without an
    expiry. *)
Lemma OTPTTL_overflow : (mul64 153722868 Minute < 0)%Z.
Proof. reflexivity. Qed.

(** ** The end *)

Definition is_close (a : action) : bool := match a with Logged _ => false | _ => true end.

(** When the HTTP server has stopped, everything else is closed, each once and in this
    order, whatever the others answer; when it has not, nothing is. *)
Lemma Run_closes r : let '(err, l) := Run r [] in
  List.filter is_close l =
    match on_http r with
    | None => [HttpShutdown; LimiterStop; MailerShutdown; DBClose; RedisClose; TracerShutdown]
    | Some _ => [HttpShutdown]
    end /\
  (err = None <-> on_http r = None).
Proof. by destruct r as [[|] [|] [|] [|] [|]]. Qed.

(** * The whole program

    The application of a configuration: the handlers of [App] over the postgres
    repository, the ristretto cache and golang-jwt, behind the middlewares. *)
Section program.
Context `{PlatformLaws} `{JwtLaws} `{!OTPMailer} `{!ValidatorLib} `{RateLib} `{GinLib}.
#[local] Existing Instances pl_text pl_redis pl_sql pl_rist pl_rng.
Variables (cfg : Config) (app : App).

#[local] Instance program_users : UsersUsecase := @UsersImpl.NewUsecase _ Postgres.repository (app_users app).
#[local] Instance program_jwt : JWTService := Jwt.service (app_jwt app).
#[local] Instance program_contract : @UsersContract _ program_users := users_contract (app_users app).
#[local] Instance program_tokens : @JWTContract _ program_jwt := jwt_contract (app_jwt app).

Definition handle (q : request) (a : surroundings) : io Server (option reply) :=
  ServeHTTP cfg (app_auth app) (app_guard app) (app_limiter app) q a.

(** Requests one after the other, and between them what others do: time passes, Redis
    loses keys, the mailer works, the limiter sweeps. *)
Inductive program_step : Server -> Server -> Prop :=
| ps_request q a s : program_step s (handle q a s).2
| ps_env s b r m l :
    used b = issued (h_world (sv_http s)) -> redis_view r ⊆ keys (h_world (sv_http s)) ->
    program_step s (MkServer
      (MkH (MkW (MkU b (u_d (w_u (h_world (sv_http s)))) (u_cache (w_u (h_world (sv_http s))))) r m)
         (h_audit (sv_http s)) (h_causes (sv_http s)))
      l (sv_requests s) (sv_access s)).

Lemma request_keeps q a s : sv_inv s ->
  sv_inv (handle q a s).2 /\ no_new_admin (sv_rows s) (sv_rows (handle q a s).2).
Proof.
  intros Hi. unfold handle. destruct (ServeHTTP_served cfg (app_auth app) (app_guard app) (app_limiter app) q a s Hi)
    as (rid & _ & _ & [Hi' _ _ _ Hd]). split; [exact Hi'|].
  destruct Hd as [[Hu _]|(_ & s1 & s2 & Hu & _ & Hh & _ & Hd)].
  - rewrite (untouched_rows _ _ Hu). reflexivity.
  - destruct (handled_effect _ _ _ _ _ _ _ _ _ (untouched_inv _ _ Hu Hi) Hd) as (r & o & caps & _ & Hef & _).
    apply effect_no_new_admin in Hef. rewrite <- (untouched_rows _ _ Hu). unfold sv_rows. by rewrite <- Hh.
Qed.

Lemma program_keeps s s' : sv_inv s -> rtc program_step s s' -> sv_inv s' /\ no_new_admin (sv_rows s) (sv_rows s').
Proof.
  intros Hi Htr. induction Htr as [s|s1 s2 s3 H12 _ IH]; [by split|].
  assert (sv_inv s2 /\ no_new_admin (sv_rows s1) (sv_rows s2)) as [Hi2 Hna].
  { destruct H12 as [q a s|s b r m l Hu Hr]; [by apply request_keeps|]. split; [|reflexivity].
    by apply users_inv_base. }
  destruct (IH Hi2) as [Hi3 H23]. split; [done|]. by etransitivity.
Qed.

Definition fresh_server (s : Server) : Prop :=
  sv_rows s = ∅ /\ rist_view (u_cache (w_u (h_world (sv_http s)))) = ∅.

End program.
