(* ===== verification/Metrics.v ===== *)
(** The collectors of src/pkg/observability/metrics.go and
    src/internal/http/middlewares/middleware.metrics.go, and the series the whole program
    can make of them: finitely many, but for the label a client chooses. *)

From Stdlib Require Import Ascii String ZArith.
From stdpp Require Import base gmap strings list pretty relations.
From S2P Require Import Prelude GoStrings AppError Records Services World Domain Repository Caches.
From S2P Require Import UsersUsecase Jwt OtpCode AuthUsecase.
From S2P Require Import Validators Middleware Http HttpProps AsyncMailer Config Tracing RateLimiter Router Server.

Open Scope string_scope.

(** * The collectors *)
Inductive collector_kind := Counter | Gauge | Histogram.

Record collector := Collector { c_kind : collector_kind; c_name : string; c_labels : list string }.

Definition cacheOpsTotal := Collector Counter "cache_operations_total" ["layer"; "op"; "result"].
Definition mailerOpsTotal := Collector Counter "mailer_operations_total" ["result"].
Definition dbPoolOpen := Collector Gauge "db_pool_open_connections" [].
Definition dbPoolInUse := Collector Gauge "db_pool_in_use_connections" [].
Definition dbPoolWait := Collector Gauge "db_pool_wait_count_total" [].
Definition httpRequestsTotal := Collector Counter "http_requests_total" ["method"; "path"; "status"].
Definition httpRequestDuration := Collector Histogram "http_request_duration_seconds" ["method"; "path"].

(** What the two [init]s give to [prometheus.MustRegister]. *)
Definition observability_init : list collector := [cacheOpsTotal; mailerOpsTotal; dbPoolOpen; dbPoolInUse; dbPoolWait].
Definition middlewares_init : list collector := [httpRequestsTotal; httpRequestDuration].

(** The functions of the three gauges, before the conversion to a float64. *)
Definition gauge (s : dbStatsSnapshot) (c : collector) : option Z :=
  if (c_name c =? c_name dbPoolOpen)%string then Some (OpenConnections s) else
  if (c_name c =? c_name dbPoolInUse)%string then Some (InUse s) else
  if (c_name c =? c_name dbPoolWait)%string then Some (WaitCount s) else None.

(** What [WithLabelValues] is called with. *)
Definition sample (m : metric) : collector * list string :=
  match m with
  | CacheOp layer op result => (cacheOpsTotal, [layer; op; result])
  | MailerOp result => (mailerOpsTotal, [result])
  end.
Definition http_samples (s : string * string * string) : list (collector * list string) :=
  let '(method, path, status) := s in
  [(httpRequestsTotal, [method; path; status]); (httpRequestDuration, [method; path])].

(** [MustRegister] panics on a malformed or duplicate name, [WithLabelValues] on another
    number of values than there are labels.  It also refuses a value that is no UTF-8: the
    method is an ASCII token when net/http hands the request on, the other values are texts
    of the program. *)
Definition name_char (first : bool) (a : ascii) : bool :=
  let n := code a in
  ((97 <=? n) && (n <=? 122) || (65 <=? n) && (n <=? 90) || (n =? 95) || (n =? 58)
   || negb first && (48 <=? n) && (n <=? 57))%N.
Definition valid_name (s : string) : bool :=
  match s with EmptyString => false | String a r => name_char true a && string_forall (name_char false) r end.
Definition registrable (cs : list collector) : Prop :=
  NoDup (map c_name cs) /\ Forall (fun c => valid_name (c_name c) = true /\ NoDup (c_labels c) /\
    forallb valid_name (c_labels c) = true) cs.
Definition fits (s : collector * list string) : Prop := length s.2 = length (c_labels s.1).

Lemma collectors_registrable : registrable (observability_init ++ middlewares_init).
Proof. split; [by apply (bool_decide_unpack _); vm_compute|]. repeat constructor; by apply (bool_decide_unpack _); vm_compute. Qed.

Lemma samples_fit m s : fits (sample m) /\ Forall fits (http_samples s).
Proof. split; [by destruct m|]. destruct s as [[me p] st]. by repeat constructor. Qed.

(** * The series *)

(** Every [ObserveCacheOp] and [ObserveMailerOp] of the program. *)
Definition series : list metric :=
  [CacheOp "ristretto" "get" "hit"; CacheOp "ristretto" "get" "miss"; CacheOp "ristretto" "get" "error";
   CacheOp "ristretto" "set" "ok"; CacheOp "redis" "get" "hit"; CacheOp "redis" "get" "miss";
   CacheOp "redis" "set" "ok"; CacheOp "redis" "set" "error";
   MailerOp "sent"; MailerOp "failed"; MailerOp "queue_full"].

(** The values the comments of metrics.go list. *)
Definition commented (m : metric) : Prop :=
  match m with
  | CacheOp layer op result => layer ∈ ["ristretto"; "redis"] /\ op ∈ ["get"; "set"; "del"] /\
      result ∈ ["hit"; "miss"; "ok"; "error"]
  | MailerOp result => result ∈ ["sent"; "failed"; "queue_full"]
  end.

Lemma series_documented : Forall commented series.
Proof. repeat constructor; by apply (bool_decide_unpack _); vm_compute. Qed.

(** ** Programs that only count what they may *)

(** [obs] only grows, by what [P] allows. *)
Definition counting {W X A} (obs : W -> list X) (P : X -> Prop) (m : io W A) : Prop :=
  forall w, exists l, obs (m w).2 = (l ++ obs w)%list /\ Forall P l.

Section counting.
Context {W X : Type} (obs : W -> list X) (P : X -> Prop).

Lemma counting_ret {A} (a : A) : counting obs P (ret a).
Proof. intros w. by exists []. Qed.

Lemma counting_bind {A B} (m : io W A) (k : A -> io W B) :
  counting obs P m -> (forall a, counting obs P (k a)) -> counting obs P (bind m k).
Proof.
  intros Hm Hk w. unfold bind. destruct (Hm w) as (l & Hl & HP). destruct (m w) as [a w']. cbn in Hl.
  destruct (Hk a w') as (l' & -> & HP'). exists (l' ++ l)%list. rewrite Hl, app_assoc.
  split; [done|by apply Forall_app].
Qed.

Lemma counting_try {E A B} (m : io W (result E A)) (h : E -> io W B) (k : A -> io W B) :
  counting obs P m -> (forall e, counting obs P (h e)) -> (forall a, counting obs P (k a)) ->
  counting obs P (try_catch m h k).
Proof. intros. apply counting_bind; [done|]. intros []; auto. Qed.

(** Another part of the state, the part that counts, and a change that does not. *)
Lemma quiet_zoom {C A} (l : lens W C) (m : io C A) :
  (forall c w, obs (lset l c w) = obs w) -> counting obs P (zoom l m).
Proof. intros H w. exists []. unfold zoom. destruct (m (lget l w)). by rewrite <- (H c w). Qed.

Lemma counting_zoom {C A} (obs' : C -> list X) (l : lens W C) (m : io C A) :
  (forall c w, obs (lset l c w) = obs' c) -> (forall w, obs' (lget l w) = obs w) ->
  counting obs' P m -> counting obs P (zoom l m).
Proof.
  intros H1 H2 Hm w. destruct (Hm (lget l w)) as (ms & Hms & HP). exists ms. unfold zoom.
  destruct (m (lget l w)). cbn in *. by rewrite H1, Hms, H2.
Qed.

Lemma quiet_modify (f : W -> W) : (forall w, obs (f w) = obs w) -> counting obs P (modify f).
Proof. intros H w. exists []. split; [apply H|done]. Qed.
End counting.

(** ** The parts of the state *)
Section parts.
Context `{Platform} `{!OTPMailer}.

Definition obs_u (u : UState) : list metric := b_obs (u_base u).
Definition obs_w (w : World) : list metric := obs_u (w_u w).
Definition obs_h (h : HState) : list metric := obs_w (h_world h).

Lemma counting_base {A} P (m : io Base A) : counting b_obs P m -> counting obs_u P (zoom l_base m).
Proof. by apply counting_zoom. Qed.
Lemma counting_u {A} P (m : io UState A) : counting obs_u P m -> counting obs_w P (zoom l_u m).
Proof. by apply counting_zoom. Qed.
Lemma counting_wbase {A} P (m : io Base A) : counting b_obs P m -> counting obs_w P (zoom l_wbase m).
Proof. by apply counting_zoom. Qed.
Lemma counting_world {A} P (m : io World A) : counting obs_w P m -> counting obs_h P (zoom l_world m).
Proof. by apply counting_zoom. Qed.

Definition listed (m : metric) : Prop := m ∈ series.

Lemma counting_cache b o r : listed (CacheOp b o r) -> counting b_obs listed (ObserveCacheOp b o r).
Proof. intros Hl w. exists [CacheOp b o r]. split; [done|by constructor]. Qed.
Lemma counting_mailer r : listed (MailerOp r) -> counting b_obs listed (ObserveMailerOp r).
Proof. intros Hl w. exists [MailerOp r]. split; [done|by constructor]. Qed.
End parts.

Create HintDb metrics.
#[export] Hint Resolve counting_ret : metrics.

(** Follows the program; what is left are the calls of other programs. *)
Ltac count_step :=
  first
    [ solve [auto with metrics nocore]
    | lazymatch goal with |- counting _ _ (match ?x with _ => _ end) => destruct x end
    | apply counting_bind; [|intros ?]
    | apply counting_try; [|intros ?|intros ?]
    | apply counting_base | apply counting_wbase | apply counting_u | apply counting_world
    | apply counting_cache; solve [repeat constructor|case_match; repeat constructor]
    | apply counting_mailer; by repeat constructor
    | apply quiet_zoom; reflexivity
    | apply quiet_modify; reflexivity ].
Ltac count := cbv zeta beta; repeat (count_step; cbv zeta beta).

(** * Who counts what *)

(** The users use case and the token service as the auth use case sees them. *)
Class CountingUsers `{UsersUsecase} : Prop := {
  cu_Store u : counting obs_u listed (users_Store u);
  cu_GetByEmail e : counting obs_u listed (users_GetByEmail e);
  cu_GetByID i : counting obs_u listed (users_GetByID i);
  cu_Activate i : counting obs_u listed (users_Activate i);
  cu_UpdatePassword u : counting obs_u listed (users_UpdatePassword u);
}.
Class CountingTokens `{JWTService} : Prop := {
  ct_pair i a e : counting b_obs listed (jwt_GenerateTokenPair i a e);
  ct_ParseToken t : counting b_obs listed (jwt_ParseToken t);
  ct_ParseRefreshToken t : counting b_obs listed (jwt_ParseRefreshToken t);
}.
#[export] Hint Resolve cu_Store cu_GetByEmail cu_GetByID cu_Activate cu_UpdatePassword
  ct_pair ct_ParseToken ct_ParseRefreshToken : metrics.

Section leaves.
Context `{Platform}.

Lemma count_NewUser n e p r c : counting b_obs listed (NewUser n e p r c).
Proof. unfold NewUser. count. Qed.
Lemma count_Domain_Activate u : counting b_obs listed (Domain.Activate u).
Proof. unfold Domain.Activate. count. Qed.
Lemma count_Domain_ChangePassword u p c : counting b_obs listed (Domain.ChangePassword u p c).
Proof. unfold Domain.ChangePassword. count. Qed.

Lemma count_clock_Now c : counting b_obs listed (clock_Now c).
Proof. unfold clock_Now. count. Qed.
Lemma count_otp_loop fuel n s : counting b_obs listed (otp_loop fuel n s).
Proof. revert s. induction fuel as [|fuel IH]; intros s; cbn [otp_loop]; count. Qed.
Lemma count_GenerateOTPCode fuel n : counting b_obs listed (GenerateOTPCode fuel n).
Proof. unfold GenerateOTPCode. count. apply count_otp_loop. Qed.
Lemma count_generateResetToken : counting b_obs listed generateResetToken.
Proof. unfold generateResetToken. count. Qed.
End leaves.
#[export] Hint Resolve count_clock_Now count_NewUser count_Domain_Activate count_Domain_ChangePassword
  count_GenerateOTPCode count_generateResetToken : metrics.

#[export] Instance counting_users_impl `{UserRepository} cfg : @CountingUsers _ (UsersImpl.NewUsecase cfg).
Proof.
  assert (forall e, counting obs_u listed (UsersImpl.GetByEmail_load e)) as Hload.
  { intros e. unfold UsersImpl.GetByEmail_load. count. }
  split; cbn; intros ?; [unfold UsersImpl.Store|unfold UsersImpl.GetByEmail|unfold UsersImpl.GetByID
    |unfold UsersImpl.Activate|unfold UsersImpl.UpdatePassword]; count.
Qed.

#[export] Instance counting_jwt `{Platform} `{JwtLib} j : @CountingTokens _ (Jwt.service j).
Proof.
  assert (forall t, counting b_obs listed (Jwt.parse j t)) as Hparse.
  { intros t. unfold Jwt.parse. count. }
  split; cbn; intros; [unfold Jwt.GenerateTokenPair|unfold Jwt.ParseToken|unfold Jwt.ParseRefreshToken]; count.
Qed.

(** ** The auth use case, the middleware, the handlers *)
Section auth.
Context `{Platform} `{!OTPMailer} `{!UsersUsecase} `{!CountingUsers} `{!JWTService} `{!CountingTokens} `{!ValidatorLib}.
Variables (uc : Auth.usecase) (guard : AuthMiddleware.t).

Lemma count_cutoff i t : counting obs_w listed (Auth.recordTokenCutoff uc i t).
Proof. unfold Auth.recordTokenCutoff. count. Qed.
Lemma count_remember p : counting obs_w listed (Auth.rememberRefresh uc p).
Proof. unfold Auth.rememberRefresh. count. Qed.
Lemma count_attempts k t : counting obs_w listed (Auth.count_attempt k t).
Proof. unfold Auth.count_attempt. count. Qed.
#[local] Hint Resolve count_cutoff count_remember count_attempts : metrics.

Lemma count_Register u : counting obs_w listed (Auth.Register u).
Proof. unfold Auth.Register. count. Qed.
Lemma count_Login e p : counting obs_w listed (Auth.Login uc e p).
Proof. unfold Auth.Login, Auth.Login_checked. count. Qed.
Lemma count_SendOTP fuel e : counting obs_w listed (Auth.SendOTP uc fuel e).
Proof. unfold Auth.SendOTP. count. Qed.
Lemma count_VerifyOTP e o : counting obs_w listed (Auth.VerifyOTP uc e o).
Proof. unfold Auth.VerifyOTP. count. Qed.
Lemma count_Refresh t : counting obs_w listed (Auth.Refresh uc t).
Proof. unfold Auth.Refresh. count. Qed.
Lemma count_Logout t : counting obs_w listed (Auth.Logout t).
Proof. unfold Auth.Logout. count. Qed.
Lemma count_ChangePassword i p n : counting obs_w listed (Auth.ChangePassword uc i p n).
Proof. unfold Auth.ChangePassword. count. Qed.
Lemma count_ForgotPassword e : counting obs_w listed (Auth.ForgotPassword uc e).
Proof. unfold Auth.ForgotPassword, Auth.ForgotPassword_limited. count. Qed.
Lemma count_ResetPassword t n : counting obs_w listed (Auth.ResetPassword uc t n).
Proof. unfold Auth.ResetPassword. count. Qed.
Lemma count_Handle hdr : counting obs_w listed (AuthMiddleware.Handle guard hdr).
Proof. unfold AuthMiddleware.Handle, AuthMiddleware.revoked. count. Qed.
#[local] Hint Resolve count_Register count_Login count_SendOTP count_VerifyOTP count_Refresh count_Logout
  count_ChangePassword count_ForgotPassword count_ResetPassword count_Handle : metrics.

Lemma count_Record e : counting obs_h listed (Record_ e).
Proof. unfold Record_. count. Qed.
Lemma count_Respond c e : counting obs_h listed (RespondWithError c e).
Proof. unfold RespondWithError, log_cause. count. Qed.
#[local] Hint Resolve count_Record count_Respond : metrics.

(** Whatever a route does. *)
Lemma count_serve c r : counting obs_h listed (serve uc guard c r).
Proof.
  assert (forall hdr k, (forall c, counting obs_h listed (k c)) ->
    counting obs_h listed (guarded guard hdr c k)) as Hg.
  { intros hdr k Hk. unfold guarded. count. }
  destruct r; cbn [serve]; unfold Http.answered; try (apply counting_bind; [|intros; count]).
  1-8: unfold Handler.Register, Handler.Login, Handler.SendOTP, Handler.VerifyOTP, Handler.Refresh, Handler.Logout,
    Handler.ForgotPassword, Handler.ResetPassword, with_body; count.
  all: apply Hg; intros ?; unfold Handler.ChangePassword, Handler.GetUserData, with_body; count.
Qed.
End auth.

(** * The server *)
Definition counters `{Platform} `{!OTPMailer} `{RateLib} (s : Server) : list metric := obs_h (sv_http s).

Lemma counting_http `{Platform} `{!OTPMailer} `{RateLib} {A} P (m : io HState A) :
  counting obs_h P m -> counting counters P (zoom l_http m).
Proof. by apply counting_zoom. Qed.

(** What the path of a request is counted under: the pattern of its route. *)
Definition path_label (q : request) : string :=
  let path := FullPath (q_target q) in if (path =? "")%string then "unknown" else path.
Definition path_labels : list string :=
  ["/api/v1/auth/register"; "/api/v1/auth/login"; "/api/v1/auth/send-otp"; "/api/v1/auth/verify-otp";
   "/api/v1/auth/refresh"; "/api/v1/auth/logout"; "/api/v1/auth/password/forgot"; "/api/v1/auth/password/reset";
   "/api/v1/auth/password/change"; "/api/v1/users/me"; "/health"; "/ready"; "/metrics"; "/swagger/*any"; "/api/";
   "unknown"].

Lemma path_label_listed q : path_label q ∈ path_labels.
Proof.
  unfold path_label. apply (bool_decide_unpack _). destruct (q_target q) as [r| | | | | |]; [destruct r|..]; by vm_compute.
Qed.

Section server.
Context `{Platform} `{JwtLib} `{!OTPMailer} `{!ValidatorLib} `{RateLib} `{GinLib}.
Variables (cfg : Config) (app : App).
#[local] Instance users_of_app : UsersUsecase := @UsersImpl.NewUsecase _ Postgres.repository (app_users app).
#[local] Instance jwt_of_app : JWTService := Jwt.service (app_jwt app).

#[local] Notation handle := (handle cfg app).

Lemma count_dispatch c q d r caps h :
  counting counters listed (dispatch (app_auth app) (app_guard app) (app_limiter app) c q d r caps h).
Proof.
  assert (forall r caps, counting counters listed
    (zoom l_http (serve (app_auth app) (app_guard app) c (bind_under caps q r)))) as Hs.
  { intros. apply counting_http, count_serve. }
  assert (forall A (m : io _ A), counting counters listed (zoom l_limiter m)) as Hl by (intros; by apply quiet_zoom).
  unfold dispatch, auth_group, users_group. destruct (q_target q) as [[]| | | | | |]; count.
Qed.

Lemma count_handle q a : counting counters listed (handle q a).
Proof.
  unfold handle, ServeHTTP.
  assert (counting counters listed (RequestID q)) as Hr.
  { unfold RequestID. destruct (_ =? _)%string; [|count]. apply counting_http. unfold uuid. count. }
  apply counting_bind; [done|intros rid]. destruct (cors_handle _ q) as [[st|] hs].
  - unfold observe_request. count.
  - cbv zeta. apply counting_bind; [apply count_dispatch|]. intros [out|]; unfold access_line, observe_request; count.
Qed.

(** Only MetricsMiddleware counts requests, once each. *)
Definition uncounted {A} (m : io Server A) : Prop := forall s, sv_requests (m s).2 = sv_requests s.
Lemma uncounted_of {A} (m : io Server A) : counting sv_requests (fun _ => False) m -> uncounted m.
Proof. intros Hc s. destruct (Hc s) as (l & -> & Hl). by destruct Hl. Qed.

Lemma uncounted_dispatch c q d r caps h :
  uncounted (dispatch (app_auth app) (app_guard app) (app_limiter app) c q d r caps h).
Proof.
  assert (counting sv_requests (fun _ => False) (dispatch (app_auth app) (app_guard app) (app_limiter app) c q d r caps h))
    as Hc.
  { assert (forall A (m : io _ A), counting sv_requests (fun _ => False) (zoom l_http m)) as Hh by (intros; by apply quiet_zoom).
    assert (forall A (m : io _ A), counting sv_requests (fun _ => False) (zoom l_limiter m)) as Hl by (intros; by apply quiet_zoom).
    unfold dispatch, auth_group, users_group. destruct (q_target q) as [[]| | | | | |]; count. }
  by apply uncounted_of.
Qed.

Lemma handle_counted q a s :
  sv_requests (handle q a s).2 =
  match (handle q a s).1 with
  | Some out => (q_method q, path_label q, Itoa (r_status out)) :: sv_requests s
  | None => sv_requests s
  end.
Proof.
  unfold handle, ServeHTTP, bind. assert (uncounted (RequestID q)) as Hr.
  { apply uncounted_of. unfold RequestID. destruct (_ =? _)%string; [by apply quiet_zoom|count]. }
  specialize (Hr s). destruct (RequestID q s) as [rid s1]. cbn in Hr.
  destruct (cors_handle _ q) as [[st|] hs]; cbn.
  - by rewrite Hr.
  - match goal with |- context [dispatch ?u ?g ?l ?c q ?d ?r ?caps ?h ?x] =>
      pose proof (uncounted_dispatch c q d r caps h x) as Hd; destruct (dispatch u g l c q d r caps h x) as [[out|] s2] end;
      cbn in *; by rewrite Hd, Hr.
Qed.

(** Requests one after the other; in between the others do what they like to everything
    but the counters, which only the requests have. *)
Inductive metrics_step : Server -> Server -> Prop :=
| ms_request q a s : metrics_step s (handle q a s).2
| ms_others s s' : counters s' = counters s -> sv_requests s' = sv_requests s -> metrics_step s s'.

Definition fresh_registry (s : Server) : Prop := counters s = [] /\ sv_requests s = [].

Lemma metrics_run s s' : rtc metrics_step s s' ->
  Forall listed (counters s) -> Forall (fun x => x.1.2 ∈ path_labels) (sv_requests s) ->
  Forall listed (counters s') /\ Forall (fun x => x.1.2 ∈ path_labels) (sv_requests s').
Proof.
  induction 1 as [s|s s1 s2 Hs _ IH]; [done|]. intros Hc Hr. apply IH; destruct Hs as [q a s|s s1 Hc1 Hr1]; rewrite ?Hc1, ?Hr1; try done.
  - destruct (count_handle q a s) as (l & -> & Hl). by apply Forall_app.
  - rewrite handle_counted. destruct (handle q a s).1; [|done]. constructor; [apply path_label_listed|done].
Qed.

(** What a client puts into the method of a request is the value of a label. *)
Lemma methods_unbounded q (a : surroundings) (ms : list string) s : q_target q = Unmatched ->
  exists s', rtc metrics_step s s' /\ map (fun x => x.1.1) (sv_requests s') = (ms ++ map (fun x => x.1.1) (sv_requests s))%list.
Proof.
  intros Hq. induction ms as [|me ms (s1 & Hs & Hms)]; [by exists s|].
  set (q' := Req me (q_path q) (q_request_id q) (q_user_agent q) (q_origin q) (q_ip q) (q_trace_id q) (q_body q) Unmatched).
  exists (handle q' a s1).2. split; [eapply rtc_r; [exact Hs|constructor]|].
  rewrite handle_counted. assert (is_Some (handle q' a s1).1) as [out ->].
  { unfold handle, ServeHTTP, bind. destruct (RequestID q' s1) as [rid s2].
    destruct (cors_handle _ q') as [[st|] hs]; cbn; by eexists. }
  cbn. by rewrite Hms.
Qed.
End server.

(** The workers of the mail queue count what they send and what they give up. *)
Lemma queue_counts `{OTPMailer} c s ls s' : steps c s ls s' ->
  Forall listed (obs s) -> Forall listed (obs s').
Proof.
  induction 1 as [|l ls s1 s2 s3 Hs _ IH]; [done|]. intros Ho. apply IH.
  destruct Hs as [j a s s' He|stop i s s' Hw| | | |]; try done.
  - unfold enqueue in He. repeat case_match; injection He as _ <-; done.
  - unfold worker_step in Hw. destruct (ws s !! i) as [[|n j k|n j k due|]|]; [| | |done..].
    + repeat case_match; try done; by injection Hw as <-.
    + destruct (inner_send _ _) as [res m]. injection Hw as <-. unfold after_attempt.
      destruct res; [|case_match]; cbn; repeat constructor; done.
    + repeat case_match; try done; by injection Hw as <-.
Qed.

Section theorem.
Context `{Platform} `{JwtLib} `{!OTPMailer} `{!ValidatorLib} `{RateLib} `{GinLib}.
Variables (cfg : Config) (app : App).

(** C8. The metrics of the program.  No registration and no [WithLabelValues] panics.  However
    many requests are served and whatever is done meanwhile, the cache and mailer counters
    have at most the eleven documented series, those of the mail queue included, and requests
    are counted under one of sixteen paths, each answered request once under its route and
    status.  The third label is whatever method the client sent: for every list of words
    there is a run that counts requests under them. *)
Theorem metrics_bounded s s' c t m ls w :
  fresh_registry s -> rtc (metrics_step cfg app) s s' -> steps c (started c t m) ls w ->
  (registrable (observability_init ++ middlewares_init) /\
   Forall (fun x => fits (sample x)) (counters s' ++ obs w)%list /\
   Forall (fun x => Forall fits (http_samples x)) (sv_requests s')) /\
  (Forall (fun x => x ∈ series /\ commented x) (counters s' ++ obs w)%list /\
   Forall (fun x => x.1.2 ∈ path_labels) (sv_requests s')) /\
  (forall q a, sv_requests (handle cfg app q a s').2 =
     match (handle cfg app q a s').1 with
     | Some out => (q_method q, path_label q, Itoa (r_status out)) :: sv_requests s'
     | None => sv_requests s'
     end) /\
  forall (a : surroundings) methods, exists s2, rtc (metrics_step cfg app) s' s2 /\
    map (fun x => x.1.1) (sv_requests s2) = (methods ++ map (fun x => x.1.1) (sv_requests s'))%list.
Proof.
  intros [Hc Hr] Hrun Hq. destruct (metrics_run cfg app s s' Hrun) as [Hcs Hrs]; [by rewrite Hc|by rewrite Hr|].
  pose proof (queue_counts _ _ _ _ Hq (Forall_nil_2 _)) as Hw.
  assert (forall x, x ∈ series -> commented x) as Hd by apply Forall_forall, series_documented.
  assert (forall l, Forall listed l -> Forall (fun x => x ∈ series /\ commented x) l) as Hl.
  { intros l Hx. eapply Forall_impl; [exact Hx|]. intros x Hx1. split; [exact Hx1|by apply Hd]. }
  split; [split; [apply collectors_registrable|split; apply Forall_true; intros x]|
          split; [split; [apply Forall_app; split; by apply Hl|done]|split; [intros q a; apply (handle_counted cfg app q a s')|]]].
  - by apply (samples_fit x ("", "", "")).
  - by apply (samples_fit (MailerOp "") x).
  - intros a methods. by apply (methods_unbounded cfg app (Req "" "" "" "" "" "" "" None Unmatched)).
Qed.
End theorem.
