(* ===== verification/Startup.v ===== *)
(** The three programs from their first line to their exit status: src/cmd/api/main.go,
    src/cmd/migration/main.go and src/cmd/seed/main.go, with the package initialisation
    of src/pkg/logger/init.go and src/cmd/seed/seeders.

    A process ends by returning from main, by [os.Exit(1)] (logger.Fatal, log.Fatalf) or
    by a panic; deferred calls run when it returns or panics, and do not when it exits.
    Log lines are kept as level and message. *)

From Stdlib Require Import Ascii String ZArith.
From stdpp Require Import base gmap strings list pretty.
From S2P Require Import Prelude GoStrings AppError Records Services World Domain Logger.
From S2P Require Import Migration Seeder Tracing RateLimiter Config Server.

Open Scope string_scope.

(** * Processes *)
Inductive ending (A : Type) := Goes (a : A) | Exit1 | Panicking.
Arguments Goes {A} a.
Arguments Exit1 {A}.
Arguments Panicking {A}.

(** [p_own] is the program's database, [p_closed] whether its handle was closed. *)
Record proc (D : Type) := Proc {
  p_config : Config.Config;                 (** config.AppConfig *)
  p_logging : Logger.Config;                (** that of the default logger *)
  p_log : list (zapLevel * string);
  p_stderr : list string;                   (** the standard library's logger *)
  p_maxprocs : option Z;
  p_globals : globals;
  p_serving : option App;
  p_actions : list action;
  p_own : D;
  p_closed : bool }.
Arguments Proc {D}.
Arguments p_config {D}. Arguments p_logging {D}. Arguments p_log {D}. Arguments p_stderr {D}.
Arguments p_maxprocs {D}. Arguments p_globals {D}. Arguments p_serving {D}. Arguments p_actions {D}.
Arguments p_own {D}. Arguments p_closed {D}.

Section processes.
Context {D : Type}.
Notation run A := (io (proc D) (ending A)).

Definition l_config : lens (proc D) Config.Config := Lens p_config (fun c p =>
  Proc c (p_logging p) (p_log p) (p_stderr p) (p_maxprocs p) (p_globals p) (p_serving p) (p_actions p) (p_own p) (p_closed p)).
Definition l_globals : lens (proc D) globals := Lens p_globals (fun g p =>
  Proc (p_config p) (p_logging p) (p_log p) (p_stderr p) (p_maxprocs p) g (p_serving p) (p_actions p) (p_own p) (p_closed p)).
Definition l_actions : lens (proc D) (list action) := Lens p_actions (fun l p =>
  Proc (p_config p) (p_logging p) (p_log p) (p_stderr p) (p_maxprocs p) (p_globals p) (p_serving p) l (p_own p) (p_closed p)).
Definition l_own : lens (proc D) D := Lens p_own (fun d p =>
  Proc (p_config p) (p_logging p) (p_log p) (p_stderr p) (p_maxprocs p) (p_globals p) (p_serving p) (p_actions p) d (p_closed p)).

Definition set_logging (c : Logger.Config) (p : proc D) : proc D :=
  Proc (p_config p) c (p_log p) (p_stderr p) (p_maxprocs p) (p_globals p) (p_serving p) (p_actions p) (p_own p) (p_closed p).
Definition add_log (level : zapLevel) (msg : string) (p : proc D) : proc D :=
  Proc (p_config p) (p_logging p) (p_log p ++ [(level, msg)])%list (p_stderr p) (p_maxprocs p) (p_globals p)
    (p_serving p) (p_actions p) (p_own p) (p_closed p).
Definition add_stderr (msg : string) (p : proc D) : proc D :=
  Proc (p_config p) (p_logging p) (p_log p) (p_stderr p ++ [msg])%list (p_maxprocs p) (p_globals p)
    (p_serving p) (p_actions p) (p_own p) (p_closed p).
Definition GOMAXPROCS (n : Z) (p : proc D) : proc D :=
  Proc (p_config p) (p_logging p) (p_log p) (p_stderr p) (Some n) (p_globals p) (p_serving p) (p_actions p) (p_own p) (p_closed p).
Definition set_serving (app : App) (p : proc D) : proc D :=
  Proc (p_config p) (p_logging p) (p_log p) (p_stderr p) (p_maxprocs p) (p_globals p) (Some app) (p_actions p) (p_own p) (p_closed p).
Definition set_closed (p : proc D) : proc D :=
  Proc (p_config p) (p_logging p) (p_log p) (p_stderr p) (p_maxprocs p) (p_globals p) (p_serving p) (p_actions p) (p_own p) true.

Definition next {A B} (m : run A) (k : A -> run B) : run B :=
  bind m (fun e => match e with Goes a => k a | Exit1 => ret Exit1 | Panicking => ret Panicking end).

(** A call that cannot end the process. *)
Definition does {A} (m : io (proc D) A) : run A := bind m (fun a => ret (Goes a)).

(** The package functions of the logger: [flow_of] is what zap does after writing. *)
Definition say (level : zapLevel) (msg : string) : run unit := fun p =>
  (match flow_of level with Returns => Goes tt | Exits => Exit1 | Panics => Panicking end, add_log level msg p).

(** [defer func() { _ = db.Close() }()] *)
Definition closing_db {A} (m : run A) : run A :=
  bind m (fun e => match e with Exit1 => ret Exit1 | _ => bind (modify set_closed) (fun _ => ret e) end).

(** [if err != nil { logger.Fatal / Panic }] *)
Definition or_else {A} (level : zapLevel) (m : io (proc D) (result error A)) (k : A -> run unit) : run unit :=
  next (does m) (fun r => match r with Err err => say level (Error err) | Ok a => k a end).
Definition as_result (m : io (proc D) (option error)) : io (proc D) (result error unit) :=
  bind m (fun e => ret (match e with Some err => Err err | None => Ok tt end)).

(** What the package init of the logger leaves. *)
Definition bootstrap : Logger.Config := Logger.MkConfig LevelInfo true false false false "" "" false.
Definition booted (c : Config.Config) (g : globals) (d : D) : proc D := Proc c bootstrap [] [] None g None [] d false.

(** ** What the mains share *)
Definition load_config `{ConfigLib} : run unit :=
  or_else FatalLevel (as_result (zoom l_config InitializeAppConfig)) (fun _ => ret (Goes tt)).
End processes.

(** ** cmd/api

    What happens first to the process that serves: the listener fails, or a signal arrives;
    [r] is what the parts answer when they are closed. *)
Inductive occurrence := ListenFails (err : error) | Signalled.

Section api.
Context `{ConfigLib} `{OtelLib} `{SqlxLib} {D : Type}.
Notation run A := (io (proc D) (ending A)).

Definition api_init : run unit :=
  next load_config (fun _ =>
  next (does (modify (fun p => set_logging (loggerConfig (p_config p)) p))) (fun _ =>
  say InfoLevel "configuration loaded")).

(** [App.Run] with its listener. *)
Definition api_serve (o : occurrence) (r : closing) (app : App) : run unit :=
  next (does (modify (set_serving app))) (fun _ =>
  match o with
  | ListenFails err =>
      next (does (modify (add_stderr ("Failed to listen and serve: " +:+ Error err)))) (fun _ => ret Exit1)
  | Signalled => or_else FatalLevel (as_result (zoom l_actions (Run r))) (fun _ => ret (Goes tt))
  end).

Definition api_main (numCPU : Z) (ristretto_error : option error) (o : occurrence) (r : closing) : run unit :=
  next (say InfoLevel ("The project is running on " +:+ Itoa numCPU +:+ " CPU(s)")) (fun _ =>
  next (if (2 <? numCPU)%Z then does (modify (GOMAXPROCS (numCPU / 2)%Z)) else ret (Goes tt)) (fun _ =>
  next (does get_state) (fun p =>
  or_else PanicLevel (zoom l_globals (NewApp ristretto_error (p_config p))) (api_serve o r)))).

Definition api (numCPU : Z) (ristretto_error : option error) (o : occurrence) (r : closing) : run unit :=
  next api_init (fun _ => api_main numCPU ristretto_error o r).
End api.

(** ** cmd/migration; the flags are [up] and [down] *)
Section migrate.
Context `{ConfigLib} `{SqlxLib} `{MigrationDB} `{MigrationDir}.
Notation run A := (io (proc pgdb) (ending A)).

Definition migration_init : run unit := next load_config (fun _ => say InfoLevel "configuration loaded").

Definition migration_main (up down : bool) : run unit :=
  next (does get_state) (fun p =>
  or_else PanicLevel (ret (SetupSQLXPostgres (p_config p))) (fun _db =>
  closing_db (
    next (if up then or_else FatalLevel (zoom l_own Up) (fun _ => ret (Goes tt)) else ret (Goes tt)) (fun _ =>
    if down then or_else FatalLevel (zoom l_own Down) (fun _ => ret (Goes tt)) else ret (Goes tt))))).

Definition migrate (up down : bool) : run unit := next migration_init (fun _ => migration_main up down).
End migrate.

(** ** cmd/seed; the package seeders has made its data before main starts *)
Section seed.
Context `{ConfigLib} `{SqlxLib} `{ClockSrv} `{SeedDB}.
Notation run A := (io (proc Seeder.state) (ending A)).

Definition seeders_init (data : result error (list Users.t)) : run (list Users.t) :=
  match data with
  | Err err => next (say PanicLevel (Error err)) (fun _ => ret (Goes []))
  | Ok users => ret (Goes users)
  end.

Definition seed_main (users : list Users.t) : run unit :=
  next (does get_state) (fun p =>
  or_else PanicLevel (ret (SetupSQLXPostgres (p_config p))) (fun _db =>
  closing_db (
    next (say InfoLevel "seeding...") (fun _ =>
    or_else PanicLevel (zoom l_own (UserSeeder users)) (fun _ =>
    say InfoLevel "seeding success!"))))).

Definition seed (data : result error (list Users.t)) : run unit :=
  next (seeders_init data) (fun users =>
  next load_config (fun _ =>
  next (say InfoLevel "configuration loaded") (fun _ => seed_main users))).
End seed.

(** * How they end *)
Section ends.
Context {D : Type}.
Implicit Type p : proc D.

(** The configuration is loaded, or the process ends and the log says why. *)
Lemma load_config_spec `{ConfigLib} p :
  let '(err, c) := InitializeAppConfig (p_config p) in
  load_config p = (match err with Some _ => Exit1 | None => Goes tt end,
    match err with Some e => add_log FatalLevel (Error e) (lset l_config c p) | None => lset l_config c p end).
Proof.
  unfold load_config, or_else, next, does, as_result, zoom, bind, ret. cbn [lget l_config].
  destruct (InitializeAppConfig (p_config p)) as [[e|] c]; reflexivity.
Qed.

(** The last line of a log. *)
Definition last_line p : option (zapLevel * string) := last (p_log p).
Lemma last_add_log level msg p : last_line (add_log level msg p) = Some (level, msg).
Proof. unfold last_line. cbn. apply last_snoc. Qed.

(** A process that has ended badly has said why. *)
Definition explained (e : ending unit) p : Prop := exists err : error,
  (e = Exit1 /\ (last_line p = Some (FatalLevel, Error err) \/
     last (p_stderr p) = Some ("Failed to listen and serve: " +:+ Error err))) \/
  (e = Panicking /\ last_line p = Some (PanicLevel, Error err)).

Lemma explained_exit err p : explained Exit1 (add_log FatalLevel (Error err) p).
Proof. exists err. left. split; [done|]. left. apply last_add_log. Qed.
Lemma explained_panic err p : explained Panicking (add_log PanicLevel (Error err) p).
Proof. exists err. right. split; [done|]. apply last_add_log. Qed.
End ends.
#[export] Hint Resolve explained_exit explained_panic : core.

Section api_ends.
Context `{ConfigLib} `{OtelLib} `{SqlxLib} {D : Type}.
Implicit Type p : proc D.

(** What is closed at the end. *)
Definition closed_parts p : list action := List.filter is_close (p_actions p).

(** How [api] ended from [p0]. *)
Record api_end (numCPU : Z) (rist : option error) (o : occurrence) (r : closing) p0 (e : ending unit) p : Prop := {
  ae_success : e = Goes tt <-> p_serving p <> None /\ o = Signalled /\ on_http r = None;
  ae_starts : forall cfg app g, InitializeAppConfig (p_config p0) = (None, cfg) ->
    NewApp rist cfg (p_globals p0) = (Ok app, g) -> p_serving p = Some app;
  ae_serving : forall app, p_serving p = Some app ->
    valid_config (p_config p) /\ NewApp rist (p_config p) (p_globals p0) = (Ok app, p_globals p) /\
    p_logging p = loggerConfig (p_config p) /\
    p_maxprocs p = if (2 <? numCPU)%Z then Some (numCPU / 2)%Z else None;
  ae_closed : closed_parts p =
    match p_serving p, o, on_http r with
    | Some _, Signalled, None => [HttpShutdown; LimiterStop; MailerShutdown; DBClose; RedisClose; TracerShutdown]
    | Some _, Signalled, Some _ => [HttpShutdown]
    | _, _, _ => []
    end;
  ae_explained : e <> Goes tt -> explained e p;
}.

(** Before it serves. *)
Lemma api_end_early numCPU rist o r p0 e p :
  p_serving p = None -> p_actions p = [] -> e <> Goes tt -> explained e p ->
  (forall cfg app g, InitializeAppConfig (p_config p0) = (None, cfg) -> NewApp rist cfg (p_globals p0) <> (Ok app, g)) ->
  api_end numCPU rist o r p0 e p.
Proof.
  intros Hs Ha He Hx Hno. split; [|by intros * ? ?%Hno|by rewrite Hs|by unfold closed_parts; rewrite Hs, Ha|done].
  split; [done|]. by intros [? _].
Qed.

Lemma api_serve_spec o r app p e p' : p_actions p = [] -> api_serve o r app p = (e, p') ->
  p_serving p' = Some app /\ p_config p' = p_config p /\ p_globals p' = p_globals p /\
  p_logging p' = p_logging p /\ p_maxprocs p' = p_maxprocs p /\
  (e = Goes tt <-> o = Signalled /\ on_http r = None) /\
  closed_parts p' = match o, on_http r with
    | Signalled, None => [HttpShutdown; LimiterStop; MailerShutdown; DBClose; RedisClose; TracerShutdown]
    | Signalled, Some _ => [HttpShutdown]
    | _, _ => []
    end /\
  (e <> Goes tt -> explained e p').
Proof.
  intros Ha. unfold api_serve, next, does, modify, bind, ret. destruct o as [err|].
  - intros [= <- <-]. cbn. unfold closed_parts. cbn. rewrite Ha. split_and!; try done.
    + split; [done|]. by intros [? _].
    + intros _. exists err. left. split; [done|]. right. cbn. apply last_snoc.
  - unfold or_else, as_result, zoom, next, does, bind, ret. cbn [lget l_actions set_serving p_actions]. rewrite Ha.
    pose proof (Run_closes r) as Hc. destruct (Run r []) as [[err|] l]; destruct Hc as [Hl Hr]; cbn;
      intros [= <- <-]; cbn; unfold closed_parts; cbn; rewrite Hl;
      destruct (on_http r) as [he|]; destruct Hr as [Hr1 Hr2]; split_and!; try done;
      try (intros _; apply explained_exit); naive_solver.
Qed.

(** The configuration that was accepted. *)
Lemma api_main_spec numCPU rist o r p0 p e p' :
  p_serving p = None -> p_actions p = [] -> p_maxprocs p = None -> p_globals p = p_globals p0 ->
  InitializeAppConfig (p_config p0) = (None, p_config p) -> p_logging p = loggerConfig (p_config p) ->
  api_main numCPU rist o r p = (e, p') -> api_end numCPU rist o r p0 e p'.
Proof.
  intros Hs Ha Hm Hg Hcfg Hl. pose proof Hcfg as (_ & raw & _ & _ & Hv & _)%InitializeAppConfig_None.
  set (p1 := if (2 <? numCPU)%Z then GOMAXPROCS (numCPU / 2) (add_log InfoLevel ("The project is running on " +:+ Itoa numCPU +:+ " CPU(s)") p)
    else add_log InfoLevel ("The project is running on " +:+ Itoa numCPU +:+ " CPU(s)") p).
  assert (p_serving p1 = None /\ p_actions p1 = [] /\ p_globals p1 = p_globals p0 /\ p_config p1 = p_config p /\
    p_logging p1 = p_logging p /\ p_maxprocs p1 = if (2 <? numCPU)%Z then Some (numCPU / 2)%Z else None)
    as (Hs1 & Ha1 & Hg1 & Hc1 & Hl1 & Hm1) by (subst p1; by destruct (2 <? numCPU)%Z).
  assert (api_main numCPU rist o r p =
    or_else PanicLevel (zoom l_globals (NewApp rist (p_config p1))) (api_serve o r) p1) as Hmain.
  { unfold api_main. subst p1. destruct (2 <? numCPU)%Z; reflexivity. }
  rewrite Hmain. clearbody p1. clear Hmain. unfold or_else, next, does, zoom, bind, ret. cbn [lget l_globals].
  destruct (NewApp rist (p_config p1) (p_globals p1)) as [[app|err] g'] eqn:Hn; cbn [lset l_globals].
  - intros Hr. apply api_serve_spec in Hr as (Hs' & Hc' & Hg' & Hl' & Hm' & Hok & Hcl & Hx); [|done].
    cbn in Hc', Hg', Hl', Hm'. split.
    + rewrite Hs', Hok. naive_solver.
    + intros cfg app' g. rewrite Hcfg, Hs', <- Hg1. intros [= <-]. rewrite <- Hc1, Hn. by intros [= <- <-].
    + rewrite Hs', Hc', Hg', Hl', Hm', Hc1, Hl1, <- Hg1. intros ? [= <-]. rewrite <- Hc1 at 2. by split_and!.
    + by rewrite Hs', Hcl; destruct o, (on_http r).
    + done.
  - intros [= <- <-]. apply api_end_early; cbn; auto. intros cfg app g. rewrite Hcfg, <- Hg1. intros [= <-].
    by rewrite <- Hc1, Hn.
Qed.

(** C35. The API process, from a start with any configuration, to its end, whatever fails on
    the way.  It serves exactly if the configuration is accepted and everything opens, with
    the logger of its environment and half the processors; it ends with status 0 exactly if
    it has served until a signal came and the HTTP server has stopped in time; then all
    parts have been closed, each once and in order, and none before; any other end is
    explained by the last line of its log. *)
Theorem api_ends numCPU rist o r c g (d : D) e p :
  api numCPU rist o r (booted c g d) = (e, p) -> api_end numCPU rist o r (booted c g d) e p.
Proof.
  unfold api, api_init. intros Hrun. unfold next at 1 2 in Hrun. unfold bind at 1 2 in Hrun.
  pose proof (load_config_spec (booted c g d)) as Hl. cbn [p_config booted] in Hl.
  destruct (InitializeAppConfig c) as [[err|] cfg] eqn:Hcfg; rewrite Hl in Hrun; clear Hl.
  { injection Hrun as <- <-. apply api_end_early; cbn; auto. rewrite Hcfg. by intros cfg' app g' [=]. }
  by eapply api_main_spec; [..|exact Hrun].
Qed.
End api_ends.

(** ** The tools *)
Section tools_end.
Context `{ConfigLib} `{SqlxLib}.

(** How a tool ended that does [work] on its database: not started, or with the status of
    the work. *)
Definition tool_end {D} (c : Config.Config) (d : D) (work : result error unit * D)
    (failed : error -> ending unit -> proc D -> Prop) (e : ending unit) (p : proc D) : Prop :=
  match InitializeAppConfig c with
  | (Some err, _) => e = Exit1 /\ last_line p = Some (FatalLevel, Error err) /\ p_own p = d /\ p_closed p = false
  | (None, cfg) =>
      match SetupSQLXPostgres cfg with
      | Err err => e = Panicking /\ last_line p = Some (PanicLevel, Error err) /\ p_own p = d /\ p_closed p = false
      | Ok _ => p_own p = work.2 /\
          match work.1 with
          | Ok _ => e = Goes tt /\ p_closed p = true
          | Err err => failed err e p
          end
      end
  end.

(** cmd/migration does [Migration.main]; when that fails it exits with status 1 and says why,
    without closing the database. *)
Theorem migrate_ends `{MigrationDB} `{MigrationDir} up down c g d e p :
  migrate up down (booted c g d) = (e, p) ->
  tool_end c d (Migration.main up down d)
    (fun err e p => e = Exit1 /\ last_line p = Some (FatalLevel, Error err) /\ p_closed p = false) e p.
Proof.
  unfold migrate, migration_init, tool_end. intros Hrun. unfold next at 1 2 in Hrun. unfold bind at 1 2 in Hrun.
  pose proof (load_config_spec (booted c g d)) as Hl. cbn [p_config booted] in Hl.
  destruct (InitializeAppConfig c) as [[err|] cfg]; rewrite Hl in Hrun; clear Hl.
  { injection Hrun as <- <-. split_and!; try done; apply last_add_log. }
  unfold migration_main, or_else, next, does, get_state, bind, ret in Hrun. cbn in Hrun.
  destruct (SetupSQLXPostgres cfg) as [db|err]; [|injection Hrun as <- <-; split_and!; try done; apply last_add_log].
  unfold closing_db, zoom, bind, ret, Migration.main, try_catch, bind, ret in *. cbn in *.
  destruct up; cbn in *; [destruct (Up d) as [[[]|err] d1]; cbn in *|];
    (destruct down; cbn in *; [try match type of Hrun with context [Down ?x] => destruct (Down x) as [[[]|err2] d2] end|]);
    cbn in *; injection Hrun as <- <-; split_and!; try done; try apply last_add_log.
Qed.

(** cmd/seed: seeding that fails panics, and the database is closed all the same.  Data
    that could not be made panics before anything else. *)
Theorem seed_ends `{ClockSrv} `{SeedDB} data c g s e p :
  seed data (booted c g s) = (e, p) ->
  match data with
  | Err err => e = Panicking /\ last_line p = Some (PanicLevel, Error err) /\ p_own p = s
  | Ok users => tool_end c s (UserSeeder users s)
      (fun err e p => e = Panicking /\ last_line p = Some (PanicLevel, Error err) /\ p_closed p = true) e p
  end.
Proof.
  unfold seed, tool_end. intros Hrun. destruct data as [users|err].
  2: { injection Hrun as <- <-. split_and!; try done. }
  cbn [seeders_init] in Hrun. unfold next at 1 2, ret at 1 in Hrun. unfold bind at 1 2 in Hrun.
  pose proof (load_config_spec (booted c g s)) as Hl. cbn [p_config booted] in Hl.
  destruct (InitializeAppConfig c) as [[err|] cfg]; rewrite Hl in Hrun; clear Hl.
  { injection Hrun as <- <-. split_and!; try done; apply last_add_log. }
  unfold seed_main, or_else, next, does, get_state, bind, ret in Hrun. cbn in Hrun.
  destruct (SetupSQLXPostgres cfg) as [db|err]; [|injection Hrun as <- <-; split_and!; try done; apply last_add_log].
  unfold closing_db, zoom, bind, ret in *. cbn in *.
  destruct (UserSeeder users s) as [[[]|err] s']; cbn in *; injection Hrun as <- <-;
    split_and!; try done; unfold last_line; cbn; apply last_snoc.
Qed.
End tools_end.
