(* ===== verification/Reference.v ===== *)
(** Reference implementations of the services: a Redis server, a users table, a
    cache, random sources, a clock, a token library and a mailer that are plain
    functions on finite maps and satisfy the laws.  They show that the laws can
    hold together, and the witnesses run the program on them. *)

From Stdlib Require Import Ascii String ZArith Sorted.
From stdpp Require Import base gmap strings list pretty sorting countable fin_maps.
From S2P Require Import Prelude GoStrings AppError Records Services World Domain Jwt Validators.
From S2P Require Import UserLoads.

Open Scope string_scope.

Module Ref.

(** * Redis: answers always, no key runs out *)
Definition r_get (k : string) : io (gmap string rentry) (result error string) :=
  fun m => (match m !! k with Some e => Ok (re_val e) | None => Err (ESent RedisNil) end, m).

Definition r_set (k s : string) (d : Duration) : io (gmap string rentry) (result error unit) :=
  fun m => (Ok tt, <[k := entry_set s d]> m).

Definition r_del (k : string) : io (gmap string rentry) (result error unit) :=
  fun m => (Ok tt, delete k m).

Definition r_incr (k : string) : io (gmap string rentry) (result error Z) :=
  fun m =>
    match m !! k with
    | None => (Ok 1%Z, <[k := REntry (Itoa 1) None]> m)
    | Some e =>
        match ParseInt (re_val e) with
        | Some n =>
            if String.eqb (re_val e) (Itoa n) && in_int64 (n + 1)
            then (Ok (n + 1)%Z, <[k := REntry (Itoa (n + 1)) (re_ttl e)]> m)
            else (Err (EText "ERR value is not an integer or out of range"), m)
        | None => (Err (EText "ERR value is not an integer or out of range"), m)
        end
    end.

Definition r_expire (k : string) (d : Duration) : io (gmap string rentry) (result error unit) :=
  fun m => (Ok tt, if (d <=? 0)%Z then delete k m else alter (entry_expire d) k m).

Definition redis_srv : RedisSrv := {|
  redis := gmap string rentry;
  redis_get := r_get; redis_set := r_set; redis_del := r_del;
  redis_incr := r_incr; redis_expire := r_expire;
  redis_view := fun m => m;
|}.

Lemma redis_laws : @RedisLaws redis_srv.
Proof.
  split.
  - intros k r. simpl in r. exists r. split; [done|]. split; [done|]. simpl. unfold r_get.
    destruct (r !! k) as [e|] eqn:E; simpl; [by exists e|done].
  - intros k s d r. by exists r.
  - intros k r. by exists r.
  - intros k r. simpl in r. exists r. split; [done|]. simpl. unfold r_incr.
    destruct (r !! k) as [e|] eqn:E; [|done].
    destruct (ParseInt (re_val e)) as [n|] eqn:En; [|by left].
    destruct (String.eqb _ _ && in_int64 (n + 1)) eqn:Hb; [|by left].
    apply andb_true_iff in Hb as [_ Hb]. simpl. split; [split; [done|by exists n]|done].
  - intros k d r. exists r. split; [done|]. simpl.
    destruct (Z.leb_spec d 0); [by right|by left].
Qed.

Definition redis_always : @RedisHealthy redis_srv.
Proof.
  refine (@Build_RedisHealthy redis_srv (fun _ => True) _ _ _ _ _ _); try done.
  - intros k r _. simpl in r. split; [done|]. simpl. unfold r_incr.
    destruct (r !! k) as [e|] eqn:E; [|done].
    intros n He Hn. rewrite He, ParseInt_Itoa, String.eqb_refl by done. simpl.
    by destruct (in_int64 (n + 1)).
  - intros k r e _ E Hno. simpl in *. unfold r_incr. rewrite E.
    destruct (ParseInt (re_val e)) as [n|] eqn:En; [|done].
    destruct (String.eqb_spec (re_val e) (Itoa n)) as [He|]; [|done].
    destruct (Hno n); [by eapply ParseInt_range|done].
  - intros k d r _ Hd. simpl. destruct (Z.leb_spec d 0); [lia|done].
Defined.

(** * The users table; NOW() is the [d_now] of the state *)
Record tbl := Tbl { d_rows : gmap string Users.t; d_now : Time }.

Definition ref_pred (p : sql_pred) (r : Users.t) : bool :=
  match p with
  | PIdEq id => bool_decide (Some id = Some (Users.Id r))
  | PEmailEq e => bool_decide (Users.Email r = e)
  | PRoleEq z => (Users.RoleId r =? z)%Z
  | PActive => Users.Active r
  | PNotDeleted => match Users.DeletedAt r with None => true | Some _ => false end
  end.

Definition matching (ps : list sql_pred) (m : gmap string Users.t) : list Users.t :=
  filter (fun r => forallb (fun p => ref_pred p r) ps = true) (map_to_list m).*2.

Definition s_get (ps : list sql_pred) : io tbl (result error Users.t) :=
  fun t => (match matching ps (d_rows t) with r :: _ => Ok r | [] => Err (ESent ErrNoRows) end, t).

#[export] Instance created_desc_dec : RelDecision created_desc.
Proof. intros r1 r2. unfold created_desc. apply _. Defined.

#[export] Instance created_desc_total : Total created_desc.
Proof. intros r1 r2. unfold created_desc. lia. Qed.

#[export] Instance created_desc_trans : Transitive created_desc.
Proof. intros r1 r2 r3. unfold created_desc. lia. Qed.

Definition s_select (ps : list sql_pred) (lim off : Z) : io tbl (result error (list Users.t)) :=
  fun t => (Ok (take (Z.to_nat lim) (drop (Z.to_nat off)
                 (merge_sort created_desc (matching ps (d_rows t))))), t).

Definition lower (s : string) : string := string_map lower_byte s.
Definition micro (t : Time) : Time := (t / 1000 * 1000)%Z.

Definition ref_row (id : string) (u : Users.t) : Users.t :=
  Users.mk id (Users.Username u) (Users.Email u) (Users.Password u) false
    (Users.RoleId u) (micro (Users.CreatedAt u)) None None None.

Definition clashes (m : gmap string Users.t) (u : Users.t) : bool :=
  existsb (fun r => ref_pred PNotDeleted r &&
    (String.eqb (Users.Email r) (Users.Email u)
     || String.eqb (lower (Users.Username r)) (lower (Users.Username u)))) (map_to_list m).*2.

Definition s_insert (u : Users.t)
    : io tbl (result error (option (result error Users.t))) :=
  fun t =>
    if clashes (d_rows t) u
    then (Err (EPq "23505" "duplicate key value violates unique constraint"), t)
    else let id := fresh (dom (d_rows t)) in
         (Ok (Some (Ok (ref_row id u))), Tbl (<[id := ref_row id u]> (d_rows t)) (d_now t)).

Definition ref_assign (now : Time) (a : sql_assign) (r : Users.t) : Users.t :=
  let '(Users.mk id un em pw ac ro cr up de pc) := r in
  match a with
  | SetActive b => Users.mk id un em pw b ro cr up de pc
  | SetPassword s => Users.mk id un em s ac ro cr up de pc
  | SetPasswordChangedAt t => Users.mk id un em pw ac ro cr up de (micro <$> t)
  | SetUpdatedAt t => Users.mk id un em pw ac ro cr (micro <$> t) de pc
  | SetUpdatedNow => Users.mk id un em pw ac ro cr (Some now) de pc
  | SetDeletedNow => Users.mk id un em pw ac ro cr up (Some now) pc
  end.

Definition s_update (set : list sql_assign) (ps : list sql_pred)
    : io tbl (result error (result error Z)) :=
  fun t =>
    let hit r := forallb (fun p => ref_pred p r) ps in
    (Ok (Ok (Z.of_nat (size (filter (fun kr => hit kr.2 = true) (d_rows t))))),
     Tbl ((fun r => if hit r then fold_left (fun r a => ref_assign (d_now t) a r) set r else r)
            <$> d_rows t) (d_now t)).

Definition sql_srv : SqlSrv := {|
  db := tbl;
  sql_get := s_get; sql_select := s_select; sql_insert := s_insert; sql_update := s_update;
  sql_rows := d_rows;
  sql_uuid := fun id => Some id;
  sql_lower := lower;
  pg_time := micro;
|}.

Lemma ref_pred_eval p r : ref_pred p r = @eval_pred sql_srv p r.
Proof. by destruct p. Qed.

Lemma ref_where ps r : forallb (fun p => ref_pred p r) ps = @eval_where sql_srv ps r.
Proof. induction ps as [|p ps IH]; [done|]. simpl. by rewrite ref_pred_eval, IH. Qed.

Lemma elem_of_matching ps m r :
  r ∈ matching ps m <-> exists id, m !! id = Some r /\ @eval_where sql_srv ps r = true.
Proof.
  unfold matching. rewrite list_elem_of_filter, list_elem_of_fmap, ref_where. split.
  - intros [Hp ([id r'] & -> & Hin)]. exists id. split; [|done]. by apply elem_of_map_to_list.
  - intros (id & Hid & Hp). split; [done|]. exists (id, r). split; [done|].
    by apply elem_of_map_to_list.
Qed.

Lemma clashes_spec m u : clashes m u = true <-> @clash sql_srv m u.
Proof.
  unfold clashes, clash. rewrite existsb_exists. split.
  - intros (r & Hin & [Hl Hor]%andb_prop). apply list_elem_of_In, list_elem_of_fmap in Hin.
    destruct Hin as ([id r'] & -> & Hin%elem_of_map_to_list). exists id, r'.
    split_and!; [done|done|]. apply orb_prop in Hor as [Ho|Ho]; apply String.eqb_eq in Ho; auto.
  - intros (id & r & Hr & Hl & Hor). exists r. split.
    + apply list_elem_of_In, list_elem_of_fmap. exists (id, r). split; [done|].
      by apply elem_of_map_to_list.
    + apply andb_true_intro. split; [done|]. apply orb_true_intro.
      destruct Hor as [Ho|Ho]; [left|right]; by apply String.eqb_eq.
Qed.

Lemma sql_laws : @SqlLaws sql_srv.
Proof.
  split.
  - intros ps d. split; [done|]. simpl.
    pose proof (elem_of_matching ps (d_rows d)) as Hm. unfold s_get.
    destruct (matching ps (d_rows d)) as [|r rs]; simpl.
    + split; [done|]. intros _ id r Hr. destruct (eval_where ps r) eqn:E; [|done].
      assert (r ∈ @nil Users.t) as Hin by (apply Hm; by exists id). by apply not_elem_of_nil in Hin.
    + apply Hm. by left.
  - intros ps lim off d. split; [done|]. simpl. eexists. split; [done|]. split.
    + apply (StronglySorted_merge_sort created_desc).
    + rewrite merge_sort_Permutation. unfold matching. apply reflexive_eq.
      apply list_filter_iff. intros r. by rewrite ref_where.
  - intros u d. simpl. unfold s_insert. destruct (clashes (d_rows d) u) eqn:E; simpl.
    + split; [done|]. split; [done|]. intros _. by apply clashes_spec.
    + exists (fresh (dom (d_rows d))). split_and!; try done.
      * apply not_elem_of_dom, is_fresh.
      * intros Hc%clashes_spec. congruence.
  - intros set ps d. exists (d_now d). split.
    + simpl. apply map_fmap_ext. intros i r _. unfold apply_update. by rewrite ref_where.
    + by do 4 f_equal.
Qed.

(** * ristretto, without evictions *)
Definition rist_srv : RistrettoSrv := {|
  ristretto := gmap string iface;
  rist_get := fun k c => (c !! k, c);
  rist_set := fun k x _ c => (tt, <[k := x]> c);
  rist_del := fun k c => (tt, delete k c);
  rist_view := fun c => c;
|}.

Lemma rist_laws : @RistrettoLaws rist_srv.
Proof. by split. Qed.

(** * Randomness: a counter for identifiers, a counter for bytes *)
Definition ident (n : nat) : string := pretty (N.of_nat n).
Definition uuids (n : nat) : gset string := list_to_set (ident <$> seq 0 n).

Definition rng_srv : RngSrv := {|
  rng := nat * N;
  rand_read := fun n g =>
    (Ok (map (fun i => ((g.2 + N.of_nat i * 7) mod 256)%N) (seq 0 n)), (g.1, (g.2 + 1)%N));
  uuid_NewString := fun g => (ident g.1, (S g.1, g.2));
  bcrypt_GenerateFromPassword := fun p cost g =>
    (if (String.length p <=? 72)%nat && (cost <=? 31)%Z then Ok ("$2a$" +:+ p)
     else Err (EText "bcrypt: refused"), g);
  bcrypt_CompareHashAndPassword := fun h p =>
    if String.eqb h ("$2a$" +:+ p) then None else Some (EText "bcrypt: mismatch");
  bcrypt_MinCost := 4;
  bcrypt_MaxCost := 31;
  bcrypt_DefaultCost := 10;
  rng_used := fun g => uuids g.1;
|}.

Lemma rng_laws : @RngLaws rng_srv.
Proof.
  split.
  - intros n g. split; [done|]. intros bs [= <-]. split; [by rewrite length_map, length_seq|].
    apply Forall_forall. intros b (i & -> & _)%list_elem_of_fmap. by apply N.mod_lt.
  - intros [c s]. simpl. unfold uuids. split_and!.
    + rewrite elem_of_list_to_set, list_elem_of_fmap. intros (n & Hn & Hin%elem_of_seq).
      unfold ident in Hn. apply (inj pretty), (inj N.of_nat) in Hn. lia.
    + unfold ident. destruct (pretty_N_digits (N.of_nat c)) as (a & r & -> & Hd & Hr).
      apply isASCII_cons. split; [|done].
      unfold is_ascii_byte. apply andb_prop in Hd as [_ Hd%N.leb_le]. apply N.ltb_lt. lia.
    + apply set_eq. intros x. rewrite elem_of_union, elem_of_singleton, !elem_of_list_to_set,
        !list_elem_of_fmap. setoid_rewrite elem_of_seq. split.
      * intros (n & -> & Hn). destruct (decide (n = c)) as [->|]; [by left|right].
        exists n. split; [done|lia].
      * intros [->|(n & -> & Hn)]; [exists c|exists n]; (split; [done|lia]).
  - intros p c g. split; [done|]. intros h. simpl.
    destruct (Nat.leb_spec (String.length p) 72), (Z.leb_spec c 31); try done.
    intros [= <-]. split_and!; [done|done|]. by rewrite String.eqb_refl.
  - simpl. lia.
Qed.

(** * Clock and text: one second per reading; the identity on non-ASCII text *)
Definition clock_srv : ClockSrv := {|
  clk := Time;
  time_Now := fun t => (t, (t + Second)%Z);
|}.

Definition text : GoText := {|
  unicode_lower := fun s => s;
  rune_IsUpper := fun n => ((65 <=? n) && (n <=? 90))%N;
  rune_IsLower := fun n => ((97 <=? n) && (n <=? 122))%N;
  rune_IsDigit := fun n => ((48 <=? n) && (n <=? 57))%N;
  rune_IsPunct := fun n => ((33 <=? n) && (n <=? 35))%N;
  rune_IsSymbol := fun n => (n =? 36)%N;
  mail_ParseAddress := fun s => match String.index 0 "@" s with Some (S _) => true | _ => false end;
|}.

Lemma text_laws : @GoTextLaws text.
Proof. split; [|done]. intros s Hs. unfold ToLower. simpl. by rewrite Hs. Qed.

Definition platform : Platform := {|
  pf_text := text; pf_redis := redis_srv; pf_sql := sql_srv; pf_rist := rist_srv;
  pf_rng := rng_srv; pf_clk := clock_srv;
|}.

Lemma platform_laws : @PlatformLaws platform.
Proof.
  split; [exact text_laws|exact redis_laws|exact sql_laws|exact rist_laws|exact rng_laws].
Qed.

(** * Tokens: the text is the binary code of method, algorithm, key and claims.
    The reference library only knows HS256 ([true]) and "none" ([false]). *)
Definition claims_tuple (c : Claims.t) :=
  (Claims.UserID c, Claims.IsAdmin c, Claims.Email c, Claims.Kind c, Claims.ID c,
   (Claims.ExpiresAt c, Claims.NotBefore c, Claims.Issuer c, Claims.IssuedAt c)).

Definition tuple_claims (t : string * bool * string * string * string *
    (option Z * option Z * string * option Z)) : Claims.t :=
  let '(u, a, e, k, i, (x, n, s, t)) := t in Claims.mk u a e k i x n s t.

Fixpoint pos_text (p : positive) : string :=
  match p with
  | xH => ""
  | xO p => String "0" (pos_text p)
  | xI p => String "1" (pos_text p)
  end.

Fixpoint text_pos (s : string) : positive :=
  match s with
  | EmptyString => xH
  | String a s => if Ascii.eqb a "0" then xO (text_pos s) else xI (text_pos s)
  end.

Lemma text_pos_text p : text_pos (pos_text p) = p.
Proof. induction p as [p IH|p IH|]; simpl; by rewrite ?IH. Qed.

Definition tok_encode (m : bool) (key : string) (c : Claims.t) : string :=
  pos_text (encode (m, key, claims_tuple c)).

Definition tok_decode (s : string) : option (bool * string * Claims.t) :=
  (fun x => (x.1, tuple_claims x.2)) <$> decode (text_pos s).

Lemma tok_decode_encode m key c : tok_decode (tok_encode m key c) = Some (m, key, c).
Proof.
  unfold tok_decode, tok_encode. rewrite text_pos_text, decode_encode. simpl. by destruct c.
Qed.

Definition tok_live (now : Time) (c : Claims.t) : bool :=
  match Claims.ExpiresAt c with Some e => (now <? e)%Z | None => true end
  && match Claims.NotBefore c with Some n => (n <=? now)%Z | None => true end.

Definition jwt_lib : JwtLib := {|
  jwt_method := bool;
  SigningMethodHS256 := true;
  is_SigningMethodHMAC := fun m => m;
  NewNumericDate := fun t => (t / Second * Second)%Z;
  jwt_SignedString := fun m c key => Ok (tok_encode m key c);
  jwt_ParseWithClaims := fun now tok kf =>
    match tok_decode tok with
    | None => Err (EText "token is malformed")
    | Some (m, key, c) =>
        match kf m (if m then "HS256" else "none") with
        | Err e => Err (EWrapped "token is unverifiable" e)
        | Ok k => if String.eqb k key
                  then if tok_live now c then Ok (true, c) else Err (EText "token is expired")
                  else Err (EText "signature is invalid")
        end
    end;
  jwt_header := fun tok =>
    match tok_decode tok with
    | Some (m, _, _) => (m, if m then "HS256" else "none")
    | None => (false, "")
    end;
  jwt_payload := fun tok => (fun x => x.2) <$> tok_decode tok;
  jwt_verifies := fun m key tok =>
    match tok_decode tok with Some (m', key', _) => Bool.eqb m m' && String.eqb key key' | None => false end;
|}.

Lemma jwt_laws : @JwtLaws jwt_lib.
Proof.
  split; simpl.
  - done.
  - done.
  - intros m c key tok [= <-] _. rewrite tok_decode_encode. simpl.
    by rewrite Bool.eqb_reflx, String.eqb_refl.
  - intros now tok kf c. destruct (tok_decode tok) as [[[m key] c']|]; [|done].
    destruct (kf m _) as [k|] eqn:Ek; [|done]. destruct (String.eqb_spec k key); [|done].
    destruct (tok_live now c') eqn:El; [|done]. intros [= ->]. split; [done|]. split.
    + exists k. split; [done|]. subst. by rewrite Bool.eqb_reflx, String.eqb_refl.
    + intros x Hx. unfold tok_live in El. rewrite Hx in El. lia.
  - intros now tok kf c key Hp Hk Hv He Hn. destruct (tok_decode tok) as [[[m key'] c']|]; [|done].
    simpl in *. injection Hp as ->. rewrite Hk. apply andb_prop in Hv as [_ Hv]. rewrite Hv.
    unfold tok_live. rewrite Hn. destruct (Claims.ExpiresAt c) as [e|] eqn:Ee; [|done].
    specialize (He e eq_refl). by rewrite (proj2 (Z.ltb_lt _ _) He).
Qed.

(** * The mailer: accepts every message; latest first *)
Definition mailer : OTPMailer := {|
  mail := list (string * string);
  mailer_SendOTP := fun code to m => (Ok tt, (to, code) :: m);
  mailer_SendPasswordReset := fun token to m => (Ok tt, (to, token) :: m);
|}.

(** * Validation: the rules as they are documented, one error for each field *)
Definition simple_email (s : string) : bool :=
  match String.index 0 "@" s with Some (S _) => true | _ => false end.

Definition all_digits (s : string) : bool :=
  negb (s =? "")%string && string_forall (fun a => (48 <=? code a) && (code a <=? 57))%N s.

Definition passes_rule (strong : string -> bool) (v : string) (r : rule) : bool :=
  match r with
  | required => negb (v =? "")%string
  | email => simple_email v
  | min n => (n <=? rune_count v)%nat
  | max n => (rune_count v <=? n)%nat
  | numeric => all_digits v
  | strongpassword => strong v
  end.

Definition rule_text (r : rule) : string * string :=
  match r with
  | required => ("required", "")
  | email => ("email", "")
  | min n => ("min", pretty n)
  | max n => ("max", pretty n)
  | numeric => ("numeric", "")
  | strongpassword => ("strongpassword", "")
  end.

Definition field_errors (strong : string -> bool) (f : field) : list fielderr :=
  match List.filter (fun r => negb (passes_rule strong (f_value f) r)) (f_tag f) with
  | [] => []
  | r :: _ => [FieldErr (f_name f) (rule_text r).1 (rule_text r).2 (Some (f_value f))]
  end.

Definition struct_errors (strong : string -> bool) (p : list field) : option struct_error :=
  match flat_map (field_errors strong) p with [] => None | errs => Some (SFields errs) end.

Definition validator : ValidatorLib := {|
  is_email := simple_email;
  is_numeric := all_digits;
  validator_Struct := struct_errors;
  strconv_Quote := fun s => quote +:+ s +:+ quote;
|}.

Lemma passes_rule_ok strong v r : passes_rule strong v r = true <-> @rule_ok validator strong v r.
Proof.
  destruct r; simpl; try done; [|by rewrite Nat.leb_le..].
  by rewrite negb_true_iff, String.eqb_neq.
Qed.

Lemma field_errors_ok strong f :
  field_errors strong f = [] <-> Forall (@rule_ok validator strong (f_value f)) (f_tag f).
Proof.
  unfold field_errors. induction (f_tag f) as [|r rs IH]; simpl; [by split|].
  rewrite Forall_cons, <- passes_rule_ok. destruct (passes_rule strong (f_value f) r); simpl.
  - rewrite IH. naive_solver.
  - naive_solver.
Qed.

Lemma validator_laws : @ValidatorLaws validator.
Proof.
  split. intros strong p. simpl. unfold struct_errors, fields_ok.
  induction p as [|f p IH]; simpl; [by split|].
  rewrite Forall_cons, <- field_errors_ok, <- IH.
  destruct (field_errors strong f); simpl; [|naive_solver].
  destruct (flat_map (field_errors strong) p); naive_solver.
Qed.

Lemma validator_errors : @ValidatorErrors validator.
Proof. split. intros strong p e. simpl. unfold struct_errors. by destruct (flat_map _ p). Qed.

(** * singleflight: the keys in flight *)
#[export] Instance singleflight : SingleflightLib := {
  group := gset string;
  sf_enter := fun k g => (bool_decide (k ∉ g), {[k]} ∪ g);
  sf_leave := fun k g => g ∖ {[k]};
  in_flight := fun g => g;
}.
#[export] Instance singleflight_laws : SingleflightLaws.
Proof. by split. Qed.
End Ref.
