(* ===== verification/InfraReference.v ===== *)
(** Reference implementations of what surrounds the core: the database of the migration
    runner and of the seeder, a token bucket and a clock, the runtime of the logger, the
    CORS middleware, OpenTelemetry, sqlx, gomail.  They satisfy the laws of their classes;
    the witnesses of InfraWitnesses.v run the program on them. *)

From Stdlib Require Import Ascii String ZArith QArith Qminmax Qround SpecFloat Lqa.
From stdpp Require Import base gmap strings list pretty fin_maps.
From S2P Require Import Prelude GoStrings AppError Records Services World Domain.
From S2P Require Import Migration MigrationRunners Logger Mailer Config Tracing Seeder RateLimiter Router RouterProps Server Reference.

Open Scope string_scope.

Module RefInfra.

(** * A database that never fails: the recorded names and the executed texts *)
Definition mdb : Type := gset string * list string.

Definition migration_db : MigrationDB := {|
  pgdb := mdb;
  pgtx := mdb;
  exec_ensure := fun d => (Ok tt, d);
  exec_lock := fun d => (Ok tt, d);
  exec_unlock := fun d => (Ok tt, d);
  select_names := fun d => (Ok (Ok (elements d.1)), d);
  begin_tx := fun d => (Ok d, d);
  tx_exec := fun sql t => (Ok tt, (t.1, t.2 ++ [sql])%list);
  tx_insert := fun n t => (Ok tt, ({[n]} ∪ t.1, t.2));
  tx_delete := fun n t => (Ok tt, (t.1 ∖ {[n]}, t.2));
  tx_commit := fun t d => (Ok tt, t);
  tx_rollback := fun t d => (tt, d);
  db_applied := fst;
  db_history := snd;
  tx_applied := fst;
  tx_history := snd;
|}.

Lemma migration_laws : @MigrationDBLaws migration_db.
Proof.
  split; try done.
  - intros d. split; [done|]. split; [done|]. intros ns [= <-]. apply list_to_set_elements_L.
  - intros d. split; [done|]. split; [done|]. by intros t [= <-].
  - intros t d. by left.
Qed.

(** The same database with the lock of the sessions: session [n] of runner [i] is [(i, n)]. *)
Definition lifted {A} (m : io mdb A) : io (mdb * option (nat * nat)) A := fun d => let '(a, x) := m d.1 in (a, (x, d.2)).

Definition lock_of (s : nat * nat) (d : mdb * option (nat * nat)) : option (result error unit * (mdb * option (nat * nat))) :=
  match d.2 with
  | Some t => if decide (t = s) then Some (Ok tt, d) else None
  | None => Some (Ok tt, (d.1, Some s))
  end.
Definition release (s : nat * nat) (d : mdb * option (nat * nat)) : mdb * option (nat * nat) :=
  (d.1, if decide (d.2 = Some s) then None else d.2).

Definition locked_db : MigrationDB := {|
  pgdb := mdb * option (nat * nat);
  pgtx := mdb;
  exec_ensure := fun d => (Ok tt, d);
  exec_lock := fun d => (Ok tt, d);
  exec_unlock := fun d => (Ok tt, d);
  select_names := lifted (@select_names migration_db);
  begin_tx := lifted (@begin_tx migration_db);
  tx_exec := @tx_exec migration_db;
  tx_insert := @tx_insert migration_db;
  tx_delete := @tx_delete migration_db;
  tx_commit := fun t d => (Ok tt, (t, d.2));
  tx_rollback := fun t d => (tt, d);
  db_applied := fun d => d.1.1;
  db_history := fun d => d.1.2;
  tx_applied := fst;
  tx_history := snd;
|}.

Definition locked_sessions : @PgSessions locked_db := {|
  session := nat * nat;
  owner := fst;
  holder := snd : @pgdb locked_db -> option (nat * nat);
  lock_on := lock_of;
  unlock_on := fun s d => (Ok tt, release s d);
  close_session := release;
|}.

Lemma locked_laws : @MigrationDBLaws locked_db.
Proof.
  split; try done.
  - intros [d o]. split; [done|]. split; [done|]. intros ns [= <-]. apply list_to_set_elements_L.
  - intros [d o]. split; [done|]. split; [done|]. by intros t [= <-].
  - intros t d. by left.
Qed.

Lemma locked_sessions_laws : @PgSessionsLaws locked_db locked_sessions.
Proof.
  split; try done.
  - intros s [x [t|]] r d' Hl; cbn in Hl; unfold lock_of in Hl; cbn in Hl.
    + destruct (decide (t = s)) as [->|]; [|done]. injection Hl as <- <-. split; [done|]. cbn. auto.
    + injection Hl as <- <-. split; [done|]. cbn. auto.
  - intros s [x o]. split; [done|]. cbn. unfold release. cbn. case_decide; [right|left]; done.
Qed.

(** The repository's own files; the text of a file is its name here. *)
Definition up_names : list string :=
  ["1_create_tables_users.up.sql"; "2_create_extensions_uuid.up.sql"; "3_partial_unique_users.up.sql";
   "4_normalize_email_username.up.sql"; "5_users_password_changed_at.up.sql"].
Definition down_names : list string :=
  ["1_drop_tables_users.down.sql"; "2_drop_extensions_uuid.down.sql"; "3_partial_unique_users.down.sql";
   "4_normalize_email_username.down.sql"; "5_users_password_changed_at.down.sql"].

Definition migration_dir : MigrationDir := {|
  glob := fun pattern => Ok (if (pattern =? "*.up.sql")%string then up_names else down_names);
  read_file := fun name => Ok name;
|}.

(** * The seeder's database *)
Definition seed_database : SeedDB := {|
  seed_db := list Users.t;
  seed_tx := list Users.t;
  seed_Beginx := fun d => (Ok d, d);
  seed_NamedQuery := fun u t => (Ok tt, t ++ [u])%list;
  seed_Commit := fun t d => (Ok tt, t);
  seed_Rollback := fun t d => (tt, d);
  seed_rows := fun d => d;
  seed_tx_rows := fun t => t;
|}.

Lemma seed_laws : @SeedDBLaws seed_database.
Proof.
  split; try done.
  - intros d. split; [done|]. by intros t [= <-].
  - intros t d. by left.
Qed.

(** * A clock that starts at the zero time and moves a second at each reading *)
Definition steady_clock : ClockSrv := {|
  clk := N;
  time_Now := fun n => ((zero_time + Z.of_N n * Second)%Z, N.succ n);
|}.

Definition steady_monotone : @MonotoneClock steady_clock.
Proof.
  refine (@Build_MonotoneClock steady_clock (fun n : N => (zero_time + Z.of_N (N.pred n) * Second)%Z) _ _).
  - intros n. simpl in n. cbn [time_Now steady_clock fst snd]. unfold Second. rewrite N.pred_succ. split; [lia|done].
  - intros n. unfold Second. lia.
Defined.

(** * A token bucket: filled continuously, up to its burst *)
Record bucket := Bucket { bk_rate : float64; bk_burst : Z; bk_level : Q; bk_last : Time }.

Definition level_at (b : bucket) (t : Time) : Q :=
  Qmin (inject_Z (bk_burst b))
    (bk_level b + Qmax 0 (per_ns (bk_rate b) * inject_Z (t - bk_last b)))%Q.

Definition bucket_lib : RateLib := {|
  limiter := bucket;
  rate_NewLimiter := fun r b => Bucket r b (inject_Z b) zero_time;
  lim_Limit := bk_rate;
  lim_TokensAt := fun b t => of_int (Qfloor (level_at b t));
  lim_AllowAt := fun b t =>
    let level := level_at b t in
    if Qle_bool 1 level then (true, Bucket (bk_rate b) (bk_burst b) (Qred (level - 1)) t)
    else (false, Bucket (bk_rate b) (bk_burst b) (Qred level) t);
  lim_burst := bk_burst;
  lim_level := level_at;
  lim_last := bk_last;
|}.

Lemma level_now b t : bk_last b = t -> (bk_level b <= inject_Z (bk_burst b))%Q ->
  (level_at b t == bk_level b)%Q.
Proof.
  intros <- Hle. unfold level_at. rewrite Z.sub_diag, Qmult_0_r, Q.max_id, Qplus_0_r.
  by apply Q.min_r.
Qed.

Lemma level_cap_ok b t : (level_at b t <= inject_Z (bk_burst b))%Q.
Proof. unfold level_at. apply Q.le_min_l. Qed.

Lemma bucket_laws : @RateLaws bucket_lib.
Proof.
  split.
  - intros r b t Hb. split; [done|]. split; [done|]. split; [|done]. unfold lim_level, rate_NewLimiter, bucket_lib, level_at.
    cbn [bk_burst bk_level bk_rate bk_last]. apply Q.min_l.
    pose proof (Q.le_max_l 0 (per_ns r * inject_Z (t - zero_time))). lra.
  - intros l t _. apply level_cap_ok.
  - intros l t t' Hl Ht Hp. cbn in Hl, Hp |- *. unfold level_at.
    set (p := per_ns (bk_rate l)) in *.
    assert (0 <= inject_Z (t - bk_last l))%Q as H1 by (change 0%Q with (inject_Z 0); rewrite <- Zle_Qle; lia).
    assert (0 <= inject_Z (t' - t))%Q as H2 by (change 0%Q with (inject_Z 0); rewrite <- Zle_Qle; lia).
    assert (inject_Z (t' - bk_last l) == inject_Z (t - bk_last l) + inject_Z (t' - t))%Q as H3.
    { rewrite <- inject_Z_plus. replace (t' - bk_last l)%Z with (t - bk_last l + (t' - t))%Z by lia. reflexivity. }
    assert (0 <= p * inject_Z (t - bk_last l))%Q as H4 by by apply Qmult_le_0_compat.
    assert (0 <= p * inject_Z (t' - t))%Q as H5 by by apply Qmult_le_0_compat.
    rewrite (Q.max_r 0 (p * inject_Z (t - bk_last l))) by done.
    rewrite H3, Qmult_plus_distr_r.
    rewrite (Q.max_r 0 (_ + _)) by lra.
    generalize dependent (p * inject_Z (t - bk_last l))%Q. intros x Hx.
    generalize dependent (p * inject_Z (t' - t))%Q. intros y Hy.
    set (b := inject_Z (bk_burst l)). set (v := bk_level l).
    destruct (Q.min_spec b (v + x)) as [[? ->]|[? ->]], (Q.min_spec b (v + (x + y))) as [[? ->]|[? ->]];
      split; first [lra|left; lra|right; lra].
  - intros l t Hl. unfold lim_AllowAt, bucket_lib. pose proof (level_cap_ok l t) as Hcap.
    destruct (Qle_bool 1 (level_at l t)) eqn:Hq; cbn [lim_burst lim_Limit lim_last lim_level bk_burst bk_rate bk_last].
    + apply Qle_bool_iff in Hq. split_and!; try done. rewrite level_now; cbn; rewrite ?Qred_correct; [reflexivity|done|lra].
    + assert (~ (1 <= level_at l t)%Q) as Hn by (intros Hn; apply Qle_bool_iff in Hn; congruence).
      split_and!; try done. rewrite level_now; cbn; rewrite ?Qred_correct; [lra|done|lra].
Qed.

(** * The logger: arrays grow by four cells; a map is visited in the order of its keys *)
Definition runtime : @Runtime string := {|
  zero_field := FString "" "";
  grow := fun n => n + 4;
  grow_law := fun n => Nat.le_add_r n 4;
|}.

Definition map_range : @MapRange string := {|
  range_order := fun _ m => map_to_list m;
  range_law := fun _ _ => Permutation_refl _;
|}.

(** * gin, cors, OpenTelemetry, sqlx, gomail *)
Definition gin_lib : GinLib := {|
  cors_handle := fun _ q => (None, if (q_origin q =? "")%string then ∅ else {["Vary" := "Origin"]});
  other_status := fun _ => 200%Z;
  Latency := N;
  Latency_String := fun n => pretty n;
  Time_Format := fun t => Itoa t;
|}.

Lemma cors_laws : @CorsLaws gin_lib.
Proof.
  split. intros c q k [v Hv]. left. cbn in Hv. destruct (_ =? _)%string; [by rewrite lookup_empty in Hv|].
  by apply lookup_singleton_Some in Hv as [<- _].
Qed.

Definition otel_lib : OtelLib := {|
  stdouttrace_New := None; otlptracegrpc_New := None; resource_New := fun _ _ => None;
  Sprintf_q := fun s => s |}.

Definition sqlx_lib : SqlxLib := {| otelsqlx_Open := fun _ _ => None; db_Ping := None |}.

Definition gomail : Gomail := {|
  smtp := list message;
  DialAndSend := fun _ msg s => (Ok tt, msg :: s);
  smtp_Year := fun _ => 2025%Z;
|}.
End RefInfra.
