(* ===== verification/Scenario.v ===== *)
(** One run of the whole application on the reference services: the states a user
    goes through from registration to a password reset, for the witnesses. *)

From Stdlib Require Import Ascii String ZArith.
From stdpp Require Import base gmap strings list pretty relations.
From S2P Require Import Prelude GoStrings AppError Records Services World Domain Repository Caches.
From S2P Require Import UsersUsecase Jwt OtpCode AuthUsecase AuthLemmas AuthEffects AuthSystem.
From S2P Require Import Validators Middleware Http Application Reference.

Open Scope string_scope.
#[local] Open Scope Z_scope.

#[export] Existing Instances Ref.platform Ref.platform_laws Ref.redis_always Ref.jwt_lib
  Ref.jwt_laws Ref.mailer Ref.validator Ref.validator_laws.

Module Scenario.

Definition ucfg : UsersImpl.Config := UsersImpl.MkConfig 10%Z.
Definition jcfg : Jwt.jwtService := Jwt.NewJWTServiceWithRefresh "s3cret-s3cret" "boilerplate" 5 7.
Definition uc : Auth.usecase :=
  Auth.NewUsecase (Redis.NewRedisCache 15)
    (Auth.MkConfig 3 (5 * Minute) (15 * Minute) 10 3 (15 * Minute) 3 (15 * Minute)).

#[export] Instance users : UsersUsecase := @UsersImpl.NewUsecase _ Postgres.repository ucfg.
#[export] Instance contract : @UsersContract _ users := users_contract ucfg.
#[export] Instance tokens : JWTService := Jwt.service jcfg.
#[export] Instance tokens_contract : @JWTContract _ tokens := jwt_contract jcfg.

Definition start_time : Time := (1700000000 * Second)%Z.

Definition w0 : World :=
  MkW (MkU (MkBase (0%nat, 3%N) start_time []) (MkD (Ref.Tbl ∅ start_time) 0) ∅) ∅ [].

Definition after (c : auth_call) (w : World) : World := (run uc c w).2.

Definition email := "alice@example.com".
Definition typed := " Alice@Example.COM".   (** what the user types *)
Definition pw := "correct horse".
Definition pw2 := "battery staple".

Definition input : User.t := User.mk "" "alice" typed pw false RoleUser zero_time None None None.

(** The payload of the last message sent. *)
Definition last_mail (w : World) : string := match w_mail w with (_, s) :: _ => s | [] => "" end.

Definition w_registered := after (CRegister input) w0.
Definition w_coded := after (CSendOTP 10%nat typed) w_registered.
Definition code : string := last_mail w_coded.
Definition w_active := after (CVerifyOTP typed code) w_coded.

Definition answer (m : result error Auth.LoginResponse * World) : Auth.LoginResponse :=
  match m.1 with
  | Ok r => r
  | Err _ => Auth.MkLogin zero_User "" ""
  end.

Definition login := Auth.Login uc typed pw w_active.
Definition session : Auth.LoginResponse := answer login.
Definition w_session := after (CLogin typed pw) w_active.
Definition refresh_tok : string := Auth.RefreshToken session.
Definition id : string := User.ID (Auth.User session).

Definition w_forgot := after (CForgotPassword typed) w_session.
Definition reset_token : string := last_mail w_forgot.

(** The same account over HTTP. *)
Definition guard : AuthMiddleware.t := AuthMiddleware.NewAuthMiddleware true false.
Definition bearer : string := "Bearer " +:+ Auth.AccessToken session.
Definition ctx : gin := MkGin "req-1" "192.0.2.1" "curl" "trace-1" None.
Definition h_session : HState := MkH w_session [] [].
Definition strong_pw := "Battery-Staple#9".
Definition change_req : ChangePasswordRequest := MkChangeReq pw strong_pw.
Definition change_route : route := PutChange bearer (Some change_req).
End Scenario.
