(* ===== verification/Witnesses.v ===== *)
(** The theorems' hypotheses hold: each theorem applied to a state and an input of the
    run of Scenario, with the reference services. *)

From Stdlib Require Import Ascii String ZArith Sorted.
From stdpp Require Import base gmap strings list pretty relations.
From S2P Require Import Prelude GoStrings AppError Records Services World Domain Repository Caches.
From S2P Require Import UsersUsecase Jwt OtpCode AuthUsecase AuthLemmas AuthEffects AuthSystem.
From S2P Require Import AuthProps AuthHealthy Validators Middleware Http HttpProps.
From S2P Require Import ComponentProps CodeProps RepositoryProps RedisTypes Sessions SessionsProps.
From S2P Require Import UserLoads UserLoadsProps.
From S2P Require Import Application Reference Scenario.

Open Scope string_scope.
Import Scenario.

(** * The invariant along the run *)

Lemma inv_w0 : users_inv (w_u w0).
Proof. by apply empty_inv. Qed.

Lemma inv_after c w : users_inv (w_u w) -> users_inv (w_u (after c w)).
Proof. intros Hi. exact (ce_inv _ _ _ _ (run_effect uc c w Hi)). Qed.

Lemma inv_registered : users_inv (w_u w_registered).
Proof. apply inv_after, inv_w0. Qed.

Lemma inv_coded : users_inv (w_u w_coded).
Proof. apply inv_after, inv_registered. Qed.

Lemma inv_active : users_inv (w_u w_active).
Proof. apply inv_after, inv_coded. Qed.

Lemma inv_session : users_inv (w_u w_session).
Proof. apply inv_after, inv_active. Qed.

Lemma inv_forgot : users_inv (w_u w_forgot).
Proof. apply inv_after, inv_session. Qed.

(** A run that answers. *)
Lemma answered_unit {S E} (m : result E unit * S) : is_Ok m.1 = true -> m = (Ok tt, m.2).
Proof. by destruct m as [[[]|e] s]. Qed.

Lemma ends {S E A} (m : result E A * S) : is_Ok m.1 = true -> exists a s, m = (Ok a, s).
Proof. destruct m as [[a|e] s]; [by exists a, s|done]. Qed.

Lemma ends_unit {S E} (m : result E unit * S) : is_Ok m.1 = true -> exists s, m = (Ok tt, s).
Proof. destruct m as [[[]|e] s]; [by exists s|done]. Qed.

Ltac run_ok := vm_compute; reflexivity.

(** * The auth service *)

Lemma Login_sound_witness :
  exists resp w', Auth.Login uc typed pw w_active = (Ok resp, w') /\ rows w' = rows w_active.
Proof.
  destruct (ends (Auth.Login uc typed pw w_active)) as (resp & w' & Hrun); [run_ok|].
  exists resp, w'. split; [exact Hrun|].
  exact (proj1 (Login_sound uc typed pw w_active resp _ inv_active Hrun)).
Defined.

Lemma Refresh_sound_witness :
  exists resp w', Auth.Refresh uc refresh_tok w_session = (Ok resp, w') /\
    rows w' = rows w_session.
Proof.
  destruct (ends (Auth.Refresh uc refresh_tok w_session)) as (resp & w' & Hrun); [run_ok|].
  exists resp, w'. split; [exact Hrun|].
  exact (proj1 (Refresh_sound uc _ w_session resp _ inv_session Hrun)).
Defined.

(** The claims of the session's refresh token, and the states after logging out and
    after exchanging the token. *)
Definition session_claims : Claims.t :=
  default (Claims.mk "" false "" "" "" None None "" None) (jwt_payload refresh_tok).
Definition w_logged_out : World := after (CLogout refresh_tok) w_session.
Definition w_refreshed : World := after (CRefresh refresh_tok) w_session.
Definition w_changed : World := (Auth.ChangePassword uc id pw pw2 w_session).2.
Definition w_reset : World := (Auth.ResetPassword uc reset_token pw2 w_forgot).2.

Lemma session_token : token_claims refresh_tok = Some session_claims.
Proof. run_ok. Qed.

Lemma session_issued : Claims.ID session_claims ∈ issued w_session.
Proof. apply (bool_decide_unpack _). vm_compute. exact I. Qed.

Lemma one_call c w : rtc (auth_step uc) w (after c w).
Proof. apply rtc_once, step_call. Qed.

Lemma trace_to_session : rtc (auth_step uc) w0 w_session.
Proof.
  do 4 (eapply rtc_r; [|apply step_call]). apply rtc_refl.
Qed.

Lemma revoked_stays_revoked_witness :
  keys w_logged_out !! RefreshKey (Claims.ID session_claims) = None /\
  exists e, (Auth.Refresh uc refresh_tok (after (CLogin typed pw) w_logged_out)).1 = Err e /\
    error_type e = Some ErrTypeUnauthorized.
Proof.
  assert (keys w_logged_out !! RefreshKey (Claims.ID session_claims) = None) as Hk by run_ok.
  split; [exact Hk|].
  refine (revoked_stays_revoked uc refresh_tok session_claims w_logged_out _ _ session_token _ Hk _).
  - apply inv_after, inv_session.
  - apply (bool_decide_unpack _). vm_compute. exact I.
  - apply one_call.
Defined.

Lemma Logout_closes_session_witness :
  exists w1, Auth.Logout refresh_tok w_session = (Ok tt, w1) /\
  exists e, (Auth.Refresh uc refresh_tok (after (CLogin typed pw) w1)).1 = Err e /\
    error_type e = Some ErrTypeUnauthorized.
Proof.
  destruct (ends_unit (Auth.Logout refresh_tok w_session)) as [w1 Hrun]; [run_ok|].
  exists w1. split; [exact Hrun|].
  exact (Logout_closes_session uc refresh_tok session_claims w_session _ _ inv_session session_token
    session_issued Hrun (one_call _ _)).
Defined.

Lemma changed_run : Auth.ChangePassword uc id pw pw2 w_session = (Ok tt, w_changed).
Proof. unfold w_changed. apply answered_unit. run_ok. Qed.

Lemma ChangePassword_closes_sessions_witness :
  is_Ok (Auth.ChangePassword uc id pw pw2 w_session).1 = true /\
  exists uid r t, sql_uuid id = Some uid /\ rows w_changed !! uid = Some r /\
    Users.PasswordChangedAt r = Some t.
Proof.
  split; [run_ok|].
  destruct (ChangePassword_closes_sessions uc id pw pw2 w_session w_changed inv_session changed_run)
    as (uid & r & t & Hu & Hr & Ht & _). exists uid, r, t. exact (conj Hu (conj Hr Ht)).
Defined.

Lemma reset_run : Auth.ResetPassword uc reset_token pw2 w_forgot = (Ok tt, w_reset).
Proof. unfold w_reset. apply answered_unit. run_ok. Qed.

Lemma ResetPassword_closes_sessions_witness :
  is_Ok (Auth.ResetPassword uc reset_token pw2 w_forgot).1 = true /\
  exists userID uid r t, reset_stored w_forgot reset_token userID /\ sql_uuid userID = Some uid /\
    rows w_reset !! uid = Some r /\ Users.PasswordChangedAt r = Some t.
Proof.
  split; [run_ok|].
  destruct (ResetPassword_closes_sessions uc reset_token pw2 w_forgot w_reset inv_forgot reset_run)
    as (userID & uid & r & t & Hs & Hu & Hr & Ht & _). exists userID, uid, r, t. exact (conj Hs (conj Hu (conj Hr Ht))).
Defined.

(** The row of the account in a state. *)
Definition zero_row : Users.t := FromUsersV1Domain zero_User.
Definition row (w : World) : Users.t := default zero_row (rows w !! id).

Lemma activation_authorised_witness :
  Users.Active (row w_coded) = false /\ Users.Active (row w_active) = true /\
  exists email otpCode, CVerifyOTP typed code = CVerifyOTP email otpCode /\
    Users.Email (row w_coded) = NormalizeEmail email /\ otp_stored w_coded email otpCode.
Proof.
  assert (Users.Active (row w_coded) = false) as Ha by run_ok.
  assert (Users.Active (row w_active) = true) as Ha' by run_ok.
  split; [exact Ha|]. split; [exact Ha'|].
  refine (activation_authorised uc (CVerifyOTP typed code) w_coded _ w_active id (row w_coded)
    (row w_active) inv_coded (surjective_pairing _) _ _ Ha Ha'); run_ok.
Defined.

Lemma password_change_authorised_witness :
  Users.Password (row w_session) <> Users.Password (row (after (CChangePassword id pw pw2) w_session)) /\
  ((exists userID cur new, CChangePassword id pw pw2 = CChangePassword userID cur new /\
      sql_uuid userID = Some id /\
      bcrypt_CompareHashAndPassword (Users.Password (row w_session)) cur = None) \/
   exists token new, CChangePassword id pw pw2 = CResetPassword token new).
Proof.
  assert (Users.Password (row w_session)
    <> Users.Password (row (after (CChangePassword id pw pw2) w_session))) as Hne
    by (vm_compute; intros [=]).
  split; [exact Hne|].
  destruct (password_change_authorised uc (CChangePassword id pw pw2) w_session _
    (after (CChangePassword id pw pw2) w_session) id (row w_session)
    (row (after (CChangePassword id pw pw2) w_session)) inv_session (surjective_pairing _))
    as [(u & cur & new & Hc & Hu & Hb & _)|(token & new & u & Hc & _)].
  - run_ok.
  - run_ok.
  - exact Hne.
  - left. exists u, cur, new. exact (conj Hc (conj Hu Hb)).
  - right. exists token, new. exact Hc.
Defined.

Lemma accounts_evolve_witness :
  size (rows w_session) = 1%nat /\ evolves (rows w0) (rows w_session) /\ table_ok (rows w_session).
Proof.
  split; [run_ok|].
  destruct (accounts_evolve uc w0 w_session inv_w0 trace_to_session) as (He & _ & Hok).
  exact (conj He Hok).
Defined.

Lemma errors_typed_witness :
  exists e, (run uc (CLogin typed "wrong") w_active).1 = Some (Err e) /\ is_DomainError e = true.
Proof.
  destruct (run uc (CLogin typed "wrong") w_active).1 as [[?|e]|] eqn:Hr;
    [exfalso; revert Hr; vm_compute; intros [=]| |exfalso; revert Hr; vm_compute; intros [=]].
  exists e. split; [reflexivity|].
  refine (proj1 (errors_typed uc (CLogin typed "wrong") w_active e
    (run uc (CLogin typed "wrong") w_active).2 inv_active _)).
  rewrite <- Hr. apply surjective_pairing.
Defined.

Lemma VerifyOTP_sound_witness :
  exists w', Auth.VerifyOTP uc typed code w_coded = (Ok tt, w') /\ otp_stored w_coded typed code.
Proof.
  destruct (ends_unit (Auth.VerifyOTP uc typed code w_coded)) as [w' Hrun]; [run_ok|].
  exists w'. split; [exact Hrun|].
  exact (proj1 (VerifyOTP_sound uc typed code w_coded _ inv_coded Hrun)).
Defined.

Lemma Register_sound_witness :
  exists s w', Auth.Register input w0 = (Ok s, w') /\
  exists id r, rows w' = <[id := r]> (rows w0) /\ Users.Active r = false /\
    Users.Email r = NormalizeEmail typed.
Proof.
  destruct (ends (Auth.Register input w0)) as (s & w' & Hrun); [run_ok|].
  exists s, w'. split; [exact Hrun|].
  destruct (Register_sound input w0 s _ inv_w0 Hrun) as (i & r & _ & Hr & _ & _ & _ & Ha & _ & He & _).
  exists i, r. exact (conj Hr (conj Ha He)).
Defined.

(** * With a healthy Redis *)

Lemma healthy (w : World) : redis_healthy (w_redis w).
Proof. exact I. Qed.

Definition wrong : list string := ["a"; "b"; "c"; pw].

Lemma Login_lockout_witness :
  (logins uc typed wrong w_active).1 !! 3%nat = Some (Err locked_out).
Proof.
  destruct ((logins uc typed wrong w_active).1 !! 3%nat) as [r|] eqn:Hr;
    [|exfalso; revert Hr; vm_compute; intros [=]].
  f_equal.
  refine (Login_lockout uc typed wrong w_active (logins uc typed wrong w_active).1
    (logins uc typed wrong w_active).2 _ _ I _ _ (surjective_pairing _) _ 3%nat r Hr _).
  - reflexivity.
  - reflexivity.
  - run_ok.
  - reflexivity.
  - intros i s Hs Hi. clear r Hr. destruct i as [|[|[|i]]]; [| | |exfalso; change (Z.of_nat (3 + i) < 3)%Z in Hi; lia];
      revert Hs; vm_compute; intros [= <-]; reflexivity.
  - vm_compute. intros [=].
Defined.

(** Three wrong codes, then the right one. *)
Definition guess : auth_call := CVerifyOTP typed "000000".
Definition w_guessed : World := after guess (after guess (after guess w_coded)).

Lemma inv_guessed : users_inv (w_u w_guessed).
Proof. do 3 apply inv_after. exact inv_coded. Qed.

Lemma VerifyOTP_lockout_witness :
  is_Ok (Auth.VerifyOTP uc typed code w_guessed).1 = false /\
  rows (Auth.VerifyOTP uc typed code w_guessed).2 = rows w_guessed.
Proof.
  destruct (Auth.VerifyOTP uc typed code w_guessed) as [res w'] eqn:Hrun. cbn [fst snd].
  assert (counter (keys w_guessed) (OTPAttemptsKey (NormalizeEmail typed)) 3) as Hc.
  { right. split; [reflexivity|].
    destruct (keys w_guessed !! OTPAttemptsKey (NormalizeEmail typed)) as [e|] eqn:He.
    - exists e. split; [reflexivity|]. revert He. vm_compute. intros [= <-]. reflexivity.
    - exfalso. revert He. vm_compute. intros [=]. }
  assert (holds (keys w_guessed) w_guessed) as Hh by (split; [exact I|reflexivity]).
  destruct (VerifyOTP_lockout uc typed code (keys w_guessed) 3 w_guessed res w' inv_guessed eq_refl
    Hh Hc) as (Hok & Hrows & _).
  - vm_compute. split; [intros [=]|reflexivity].
  - vm_compute. intros [=].
  - exact Hrun.
  - exact (conj Hok Hrows).
Defined.

Lemma Refresh_rotates_witness :
  is_Ok (Auth.Refresh uc refresh_tok w_session).1 = true /\
  exists w1 e, (Auth.Refresh uc refresh_tok (after (CLogin typed pw) w1)).1 = Err e /\
    error_type e = Some ErrTypeUnauthorized.
Proof.
  split; [run_ok|].
  destruct (ends (Auth.Refresh uc refresh_tok w_session)) as (resp & w1 & Hrun); [run_ok|].
  exists w1.
  exact (Refresh_rotates uc refresh_tok session_claims w_session resp w1 _ inv_session I session_token
    session_issued Hrun (one_call _ _)).
Defined.

Lemma ResetPassword_once_witness :
  is_Ok (Auth.ResetPassword uc reset_token pw2 w_forgot).1 = true /\
  is_Ok (Auth.ResetPassword uc reset_token pw w_reset).1 = false.
Proof.
  split; [run_ok|].
  exact (proj1 (ResetPassword_once uc reset_token pw2 pw w_forgot w_reset I reset_run)).
Defined.

Definition index_entry : rentry :=
  default (REntry "" None) (keys w_forgot !! UserResetIndexKey id).

Lemma ForgotPassword_single_token_witness :
  exists w', Auth.ForgotPassword uc typed w_forgot = (Ok tt, w') /\ one_token w' id reset_token.
Proof.
  destruct (ends_unit (Auth.ForgotPassword uc typed w_forgot)) as [w' Hrun]; [run_ok|].
  exists w'. split; [exact Hrun|].
  refine (ForgotPassword_single_token uc typed id (row w_forgot) index_entry reset_token w_forgot w'
    inv_forgot I _ _ _ _ _ _ _ _ Hrun).
  - reflexivity.
  - reflexivity.
  - run_ok.
  - run_ok.
  - run_ok.
  - run_ok.
  - run_ok.
  - vm_compute. intros [=].
Defined.

Lemma ForgotPassword_hides_witness :
  w_mail (Auth.ForgotPassword uc "nobody@example.com" w_session).2 = w_mail w_session.
Proof.
  destruct (Auth.ForgotPassword uc "nobody@example.com" w_session) as [res w'] eqn:Hrun.
  apply (proj2 (ForgotPassword_hides uc "nobody@example.com" w_session res w' inv_session Hrun)).
  intros i r Hr _. apply elem_of_map_to_list in Hr.
  assert (map_to_list (rows w_session) = [(id, row w_session)]) as Hone by run_ok.
  rewrite Hone in Hr. apply list_elem_of_singleton in Hr.
  assert (r = row w_session) as -> by exact (f_equal snd Hr).
  vm_compute. intros [=].
Defined.

(** * The application *)

Lemma cache_coherent_witness :
  exists c r, rist_view (u_cache (w_u w_session)) !! UsersImpl.cacheKey email = Some (VUser c) /\
    rows w_session !! User.ID c = Some r /\ User.Password c = Users.Password r.
Proof.
  destruct (rist_view (u_cache (w_u w_session)) !! UsersImpl.cacheKey email) as [[c|n]|] eqn:Hc;
    [|exfalso; revert Hc; vm_compute; intros [=]..].
  destruct (cache_coherent ucfg jcfg uc w0 w_session email c (conj eq_refl eq_refl)
    trace_to_session Hc) as (r & Hr & _ & _ & Hp & _).
  exists c, r. exact (conj eq_refl (conj Hr Hp)).
Defined.

Lemma emails_unique_normal_witness :
  live (row w_session) = true /\
  NormalizeEmail (Users.Email (row w_session)) = Users.Email (row w_session).
Proof.
  assert (live (row w_session) = true) as Hl by run_ok.
  assert (rows w_session !! id = Some (row w_session)) as Hr by run_ok.
  split; [exact Hl|].
  exact (proj1 (proj2 (emails_unique_normal ucfg jcfg uc w0 w_session id id _ _ (conj eq_refl eq_refl)
    trace_to_session Hr Hr Hl Hl))).
Defined.

(** * The middleware *)


Lemma ChangePassword_revokes_access_witness :
  is_Ok (Auth.ChangePassword uc id pw pw2 w_session).1 = true /\
  exists uid r t, sql_uuid id = Some uid /\ rows w_changed !! uid = Some r /\
    Users.PasswordChangedAt r = Some (pg_time t).
Proof.
  split; [run_ok|].
  destruct (ChangePassword_revokes_access uc id pw pw2 w_session w_changed inv_session (healthy w_session) changed_run)
    as (uid & r & t & Hu & Hr & Ht & _). exists uid, r, t. exact (conj Hu (conj Hr Ht)).
Defined.

(** * The HTTP layer *)

Lemma session_row : rows (h_world h_session) !! id = Some (row w_session).
Proof. run_ok. Qed.



Lemma no_admin_by_api_witness :
  no_new_admin (rows (h_world h_session))
    (rows (h_world (serve uc guard ctx change_route h_session).2)).
Proof.
  refine (proj1 (no_admin_by_api uc guard h_session _ inv_session _)). apply rtc_once, hs_serve.
Defined.

Lemma password_routes_witness :
  exists s', rows (h_world (serve uc guard ctx change_route h_session).2) !! id = Some s' /\
    Users.Password (row w_session) <> Users.Password s' /\
    ((exists tok cl req, change_route = PutChange ("Bearer " +:+ tok) (Some req) /\
        token_claims tok = Some cl /\ sql_uuid (Claims.UserID cl) = Some id /\
        strong_password (chg_NewPassword req)) \/
     exists req, change_route = PostReset (Some req)).
Proof.
  set (h' := (serve uc guard ctx change_route h_session).2).
  assert (rows (h_world h') !! id = Some (default zero_row (rows (h_world h') !! id))) as Hs' by run_ok.
  assert (Users.Password (row w_session)
    <> Users.Password (default zero_row (rows (h_world h') !! id))) as Hne by (vm_compute; intros [=]).
  eexists. split; [exact Hs'|]. split; [exact Hne|].
  destruct (password_routes uc guard ctx change_route h_session
    (serve uc guard ctx change_route h_session).1 h' id _ _ inv_session (surjective_pairing _)
    session_row Hs' Hne)
    as [(tok & cl & req & Hr & Ht & _ & Hu & _ & _ & Hst)|(req & u & Hr & _)].
  - left. exists tok, cl, req. exact (conj Hr (conj Ht (conj Hu Hst))).
  - right. exists req. exact Hr.
Defined.

(** * Components *)

Definition base : Base := u_base (w_u w0).

Lemma NewUser_spec_witness :
  exists u, (NewUser " bob " "Bob@Example.com" pw RoleUser 10 base).1 = Ok u /\
    registered " bob " "Bob@Example.com" pw RoleUser u.
Proof.
  destruct (ends (NewUser " bob " "Bob@Example.com" pw RoleUser 10 base)) as (u & b & Hrun); [run_ok|].
  pose proof (f_equal fst Hrun : (NewUser " bob " "Bob@Example.com" pw RoleUser 10 base).1 = Ok u) as Hu.
  exists u. split; [exact Hu|].
  exact (proj2 (proj2 (proj2 (proj2 (NewUser_spec " bob " "Bob@Example.com" pw RoleUser 10 base)))) u Hu).
Defined.

(** A pair made with the clock stopped at [start_time]; it is parsed right away. *)
Definition stopped : Jwt.jwtService := Jwt.WithClock jcfg (Frozen start_time).

Definition minted_tokens : TokenPair :=
  match (Jwt.GenerateTokenPair stopped "7" false email base).1 with
  | Ok p => p
  | Err _ => MkPair "" "" 0%Z 0%Z "" ""
  end.

Lemma pair_round_trip_witness :
  exists b1 c, Jwt.GenerateTokenPair stopped "7" false email base = (Ok minted_tokens, b1) /\
    (Jwt.ParseToken stopped (AccessToken minted_tokens) base).1 = Ok c /\ Claims.UserID c = "7".
Proof.
  destruct (Jwt.GenerateTokenPair stopped "7" false email base) as [r b1] eqn:Hrun.
  assert (r = Ok minted_tokens) as Hr.
  { transitivity ((Jwt.GenerateTokenPair stopped "7" false email base).1).
    - exact (eq_sym (f_equal fst Hrun)).
    - run_ok. }
  rewrite Hr in Hrun |- *.
  destruct (pair_round_trip stopped "7" false email base minted_tokens b1 base Hrun) as [Hacc _]; [run_ok..|].
  destruct Hacc as (c & Hc & Hid & _).
  { vm_compute. reflexivity. }
  exists b1, c. exact (conj eq_refl (conj Hc Hid)).
Defined.

Lemma pair_kinds_distinct_witness :
  exists p b1, Jwt.GenerateTokenPair stopped "7" false email base = (Ok p, b1) /\
    is_Ok (Jwt.ParseToken stopped (RefreshToken p) base).1 = false /\
    is_Ok (Jwt.ParseRefreshToken stopped (AccessToken p) base).1 = false.
Proof.
  destruct (ends (Jwt.GenerateTokenPair stopped "7" false email base)) as (p & b1 & Hrun); [run_ok|].
  exists p, b1. split; [exact Hrun|].
  refine (pair_kinds_distinct stopped "7" false email base p b1 base Hrun _ _ _); run_ok.
Defined.

(** A token signed with the method "none". *)
Definition unsigned : string :=
  Ref.tok_encode false "s3cret-s3cret" (access_claims jcfg "7" true email "1" 0%Z start_time).

Lemma only_hmac_accepted_witness :
  is_SigningMethodHMAC (jwt_header unsigned).1 = false /\
  match (Jwt.ParseToken jcfg unsigned base).1 with
  | Ok c => is_SigningMethodHMAC (jwt_header unsigned).1 = true
  | Err e => errors_Is e ErrInvalidToken = true \/ errors_Is e ErrWrongTokenKind = true
  end.
Proof.
  split; [run_ok|]. pose proof (only_hmac_accepted jcfg unsigned base) as Hh.
  destruct (Jwt.ParseToken jcfg unsigned base).1; [exact (proj1 Hh)|exact Hh].
Defined.

Lemma lifetime_exact_witness :
  exists p b1, Jwt.GenerateTokenPair stopped "7" false email base = (Ok p, b1) /\
    AccessExpiresAt p = (start_time + 5 * Hour)%Z.
Proof.
  destruct (ends (Jwt.GenerateTokenPair stopped "7" false email base)) as (p & b1 & Hrun); [run_ok|].
  exists p, b1. split; [exact Hrun|].
  refine (proj1 (lifetime_exact stopped "7" false email base p b1 start_time eq_refl Hrun _ _ _) _);
    [run_ok..|]. vm_compute. split; intros [=].
Defined.

(** * Random codes *)

Lemma GenerateOTPCode_shape_witness :
  exists c b', GenerateOTPCode 10 6 base = (Some (Ok c), b') /\ String.length c = 6%nat.
Proof.
  destruct (GenerateOTPCode 10 6 base) as [[[c|e]|] b'] eqn:Hrun;
    [|exfalso; apply (f_equal fst) in Hrun; revert Hrun; vm_compute; intros [=]..].
  exists c, b'. split; [reflexivity|]. exact (proj1 (GenerateOTPCode_shape 10 6 base c b' Hrun)).
Defined.

(** The reference bytes go up by 7, so of two in a row one is below 250. *)
Lemma ref_productive n : productive n.
Proof.
  intros g buf. simpl. intros [= <-]. replace (n + 10)%nat with (S (S (n + 8))) by lia.
  cbn [seq map]. unfold accepted. rewrite filter_cons.
  destruct (decide (((snd g + N.of_nat 0 * 7) mod 256 < maxValid)%N)) as [|Hge]; simpl; [lia|].
  rewrite filter_cons, decide_True; [simpl; lia|].
  change maxValid with 250%N in *. change (N.of_nat 0 * 7)%N with 0%N in Hge.
  change (N.of_nat 1 * 7)%N with 7%N. rewrite N.add_0_r in Hge.
  pose proof (N.mod_lt (snd g) 256 ltac:(lia)).
  assert (((snd g + 7) mod 256)%N = (snd g mod 256 - 249)%N) as ->; [|lia].
  symmetry. apply (N.mod_unique _ _ (snd g / 256 + 1)); [lia|].
  pose proof (N.div_mod (snd g) 256 ltac:(lia)). lia.
Qed.

Lemma GenerateOTPCode_terminates_witness :
  is_Some (GenerateOTPCode 40 6 base).1 /\ GenerateOTPCode 40 6 base = GenerateOTPCode 6 6 base.
Proof.
  refine (GenerateOTPCode_terminates 6 40 base (ref_productive 6) _). lia.
Defined.

Lemma generateResetToken_spec_witness :
  exists tok b', generateResetToken base = (Ok tok, b') /\ String.length tok = 43%nat.
Proof.
  destruct (ends (generateResetToken base)) as (tok & b' & Hrun); [run_ok|].
  exists tok, b'. split; [exact Hrun|]. exact (proj1 (generateResetToken_spec base tok b' Hrun)).
Defined.

(** * The repository *)

Definition database : DBState := u_d (w_u w_session).
Definition everyone : UserListFilter := MkFilter 0 false false.

Lemma List_sound_witness :
  exists us d', Postgres.List everyone 0 10 database = (Ok us, d') /\ (length us <= 200)%nat.
Proof.
  destruct (ends (Postgres.List everyone 0 10 database)) as (us & d' & Hrun); [run_ok|].
  exists us, d'. split; [exact Hrun|].
  exact (proj1 (proj2 (@List_sound _ pl_sql everyone 0 10 database us d' Hrun))).
Defined.

Lemma SoftDelete_spec_witness :
  exists d', Postgres.SoftDelete id database = (Ok tt, d') /\ no_live_id (dtable d') id.
Proof.
  destruct (ends_unit (Postgres.SoftDelete id database)) as [d' Hrun]; [run_ok|].
  exists d'. split; [exact Hrun|].
  destruct (@SoftDelete_spec _ pl_sql id database d' (proj1 (users_inv_table _ inv_session)) Hrun)
    as (uid & r & now & _ & _ & _ & _ & Hno & _). exact Hno.
Defined.

(** * Sessions *)

(** Registration, activation, login, then an exchange of the refresh token. *)
Definition before : list event * World :=
  play uc [CRegister input; CSendOTP 10%nat typed; CVerifyOTP typed code; CLogin typed pw] w0.
Definition played : list event * World := perform uc before (CRefresh refresh_tok).

Lemma played_events : events uc w0 played.1 played.2.
Proof. apply events_perform, events_play. Qed.

Lemma auth_refines_sessions_witness :
  length (played.1) = 5%nat /\ size (keys played.2) = 1%nat /\
  exists s, spec_run empty_spec played.1 s /\ refines played.2 s.
Proof.
  split; [run_ok|]. split; [run_ok|].
  exact (auth_refines_sessions uc w0 played.1 played.2 inv_w0 eq_refl eq_refl played_events).
Defined.

(** The answers of the run to Login and to Refresh. *)
Definition granted (ev : event) : option Auth.LoginResponse :=
  match ev with Called _ (ASession (Ok resp)) => Some resp | _ => None end.
Definition first_pair : Auth.LoginResponse :=
  default (Auth.MkLogin zero_User "" "") ((played.1 !! 3%nat) ≫= granted).
Definition second_pair : Auth.LoginResponse :=
  default (Auth.MkLogin zero_User "" "") ((played.1 !! 4%nat) ≫= granted).

Lemma played_refresh : played.1 !! 4%nat = Some (Called (CRefresh refresh_tok) (ASession (Ok second_pair))).
Proof. run_ok. Qed.

Lemma before_login : before.1 !! 3%nat = Some (Called (CLogin typed pw) (ASession (Ok first_pair))).
Proof. run_ok. Qed.

Lemma CRefresh_inj a b : CRefresh a = CRefresh b -> b = a.
Proof. by intros [= ->]. Qed.

Lemma played_unforged : unforged played.1.
Proof.
  apply unforged_perform.
  - apply unforged_play. repeat (apply Forall_cons; split; [done|]). by apply Forall_nil.
  - intros tok Heq. rewrite (CRefresh_inj _ _ Heq). right. exists (CLogin typed pw), first_pair.
    split; [eapply list_elem_of_lookup_2; exact before_login|]. split; [run_ok|]. vm_compute. auto.
Qed.

Lemma session_provenance_witness :
  Called (CRefresh refresh_tok) (ASession (Ok second_pair)) ∈ played.1 /\
  logged_in uc w0 played.1 (User.Email (Auth.User second_pair)).
Proof.
  assert (Called (CRefresh refresh_tok) (ASession (Ok second_pair)) ∈ played.1) as Hin.
  { eapply list_elem_of_lookup_2. exact played_refresh. }
  split; [exact Hin|].
  exact (session_provenance uc w0 played.1 played.2 _ _ inv_w0 eq_refl eq_refl played_events
           played_unforged Hin).
Defined.

(** * Concurrent calls of the users use case *)

#[local] Existing Instances Ref.singleflight Ref.singleflight_laws Postgres.repository postgres_laws.

(** Before anybody calls; then two lookups of the same email and a password change. *)
Definition quiet_sys : sys := Sys (w_u w_active) (∅ : gset string) [].
Definition stored_user : User.t :=
  match (UsersImpl.GetByEmail typed (w_u w_active)).1 with Ok u => u | Err _ => zero_User end.
Definition changed_user : User.t := with_Password stored_user "$another$hash" start_time.
Definition busy : sys :=
  Sys (w_u w_active) (∅ : gset string) [GetStart typed; GetStart typed; UpdStart (Some changed_user)].

Lemma quiet_idle : idle quiet_sys.
Proof. by split. Qed.

Lemma busy_reached may : rtc (step ucfg may) quiet_sys busy.
Proof.
  eapply rtc_l; [by apply (st_start ucfg may (GetStart typed))|].
  eapply rtc_l; [by apply (st_start ucfg may (GetStart typed))|].
  eapply rtc_l; [by apply (st_start ucfg may (UpdStart (Some changed_user)))|]. apply rtc_refl.
Qed.

Definition after_schedule (l : list nat) : sys := default quiet_sys (schedule ucfg l busy).

Lemma scheduled l :
  (if schedule ucfg l busy then true else false) = true -> schedule ucfg l busy = Some (after_schedule l).
Proof. unfold after_schedule. by destruct (schedule ucfg l busy). Qed.

(** Both lookups miss, the first enters, the second has to wait. *)
Definition waiting_sys : sys := after_schedule [0; 1; 0; 1]%nat.

Lemma waiting_reached : rtc (step ucfg anything) quiet_sys waiting_sys.
Proof.
  etransitivity; [apply busy_reached|]. apply (schedule_steps ucfg [0; 1; 0; 1]%nat), scheduled. run_ok.
Qed.

Lemma single_flight_witness :
  procs waiting_sys !! 1%nat = Some (GetWait email) /\
  exists j p, procs waiting_sys !! j = Some p /\ executing p = Some email.
Proof.
  assert (procs waiting_sys !! 1%nat = Some (GetWait email)) as Hw by run_ok. split; [exact Hw|].
  exact (proj2 (single_flight ucfg anything quiet_sys waiting_sys quiet_idle waiting_reached) _ _ Hw).
Defined.

Lemma everyone_answered_witness :
  work waiting_sys = 8%nat /\ exists j, is_Some (advance ucfg j waiting_sys).
Proof.
  assert (procs waiting_sys !! 1%nat = Some (GetWait email)) as Hw by run_ok. split; [run_ok|].
  exact (proj2 (everyone_answered ucfg anything quiet_sys waiting_sys quiet_idle waiting_reached) _ _ Hw eq_refl).
Defined.

(** The lookups run to their end, nothing is written. *)
Definition cached_sys : sys := after_schedule [0; 1; 0; 1; 0; 0; 0]%nat.

Lemma cached_reached : rtc (step ucfg undisturbed) quiet_sys cached_sys.
Proof.
  etransitivity; [apply busy_reached|]. apply (schedule_undisturbed ucfg [0; 1; 0; 1; 0; 0; 0]%nat); [apply scheduled|]; run_ok.
Qed.

Lemma cache_coherent_concurrent_witness :
  rist_view (u_cache (st cached_sys)) !! UsersImpl.cacheKey email = Some (VUser stored_user) /\
  exists r, table (st cached_sys) !! User.ID stored_user = Some r /\
    Users.Password r = User.Password stored_user.
Proof.
  assert (rist_view (u_cache (st cached_sys)) !! UsersImpl.cacheKey email = Some (VUser stored_user)) as Hc by run_ok.
  split; [exact Hc|].
  destruct (cache_coherent_concurrent ucfg quiet_sys cached_sys email stored_user quiet_idle inv_active
    cached_reached Hc) as (r & Hr & _ & _ & Hp & _).
  { intros [j Hj]%list_elem_of_lookup. destruct j as [|[|[|j]]]; vm_compute in Hj; discriminate Hj. }
  exists r. exact (conj Hr Hp).
Defined.

(** The race: a lookup has read the row, the password is changed and the cache entry
    dropped, then the lookup writes what it read.  Everybody is answered, and the cache
    keeps the old hash: for as long as the entry lives Login takes the old password. *)
Definition raced : sys := after_schedule [0; 0; 0; 2; 2; 0; 0; 1]%nat.

Lemma stale_cache_race :
  work raced = 0%nat /\ rist_view (u_cache (st raced)) !! UsersImpl.cacheKey email = Some (VUser stored_user) /\
  (exists r, table (st raced) !! User.ID stored_user = Some r /\ Users.Password r = "$another$hash") /\
  is_Ok (Auth.Login uc typed pw (MkW (st raced) (w_redis w_active) (w_mail w_active))).1 = true.
Proof. split_and!; [run_ok|run_ok|eexists; split; run_ok|run_ok]. Qed.
