(* ===== verification/ConcurrentWitnesses.v ===== *)
(** Requests that interleave, on the reference services: the theorems on concurrent calls
    applied to concrete schedules, and the races the code leaves open. *)

From Stdlib Require Import Ascii String ZArith.
From stdpp Require Import base gmap strings list pretty relations.
From S2P Require Import Prelude GoStrings AppError Records Services World Domain Repository Caches.
From S2P Require Import UsersUsecase Jwt OtpCode AuthUsecase AuthLemmas AuthEffects AuthSystem AuthHealthy RedisTypes.
From S2P Require Import Sessions SessionsProps Concurrent AuthConcurrent AuthConcurrentProps Attempts.
From S2P Require Import Application Reference Scenario Witnesses.

Open Scope string_scope.
Import Scenario.

#[local] Abbreviation system := (@system Ref.platform Ref.mailer).
#[local] Abbreviation cstep := (cstep uc).
#[local] Abbreviation run_turns := (schedule (AuthProg.code uc)).

(** Nobody has called yet, Redis and the table are empty. *)
Definition s_idle : system := Pool w0 [].

Lemma idle_at_rest : at_rest s_idle.
Proof.
  split; [done| |by intros j [e He]]. split; [exact inv_w0|]. by intros k e He.
Qed.

(** Registration and activation, then a login, one after the other. *)
Definition coming_in : list turn :=
  [Start (CRegister input); Go 0 9; Start (CSendOTP 10 typed); Go 1 20; Start (CVerifyOTP typed code); Go 2 20]%nat.
Definition logging_in : list turn := [Start (CLogin typed pw); Go 3 20]%nat.
Definition s_active : system := run_turns coming_in s_idle.
Definition s_session : system := run_turns logging_in s_active.

Lemma reached l (s : system) : rtc cstep s (run_turns l s).
Proof. apply (turns_reach _ _ _ untested); [done|apply turns_untested]. Qed.

Definition the_answer (i : nat) (s : system) : option Sessions.answer :=
  '(_, p) ← calls s !! i; match p with Ret a => Some a | Atom _ _ => None end.
Lemma answered_intro i (s : system) c a :
  fst <$> calls s !! i = Some c -> the_answer i s = Some a -> answered s i c a.
Proof.
  unfold the_answer, answered. destruct (calls s !! i) as [[c' [b|X m k]]|]; cbn; [|done|done].
  by intros [= ->] [= ->].
Qed.

Definition gets_session (i : nat) (s : system) : bool :=
  match the_answer i s with Some (ASession (Ok _)) => true | _ => false end.
Definition gets_ok (i : nat) (s : system) : bool :=
  match the_answer i s with Some (APlain (Some (Ok _))) => true | _ => false end.

(** ** The theorems *)

(** VerifyOTP is about to activate the account; it does. *)
Definition almost_in : list turn :=
  [Start (CRegister input); Go 0 9; Start (CSendOTP 10 typed); Go 1 20; Start (CVerifyOTP typed code); Go 2 5]%nat.
Definition s_checked : system := run_turns almost_in s_idle.
Definition s_activated : system := moves 1 2 s_checked.
Definition is_active (s : system) : bool :=
  match rows (shared s) !! id with Some r => Users.Active r | None => false end.

Definition can_move (i : nat) (s : system) : bool := match move i s with Some _ => true | None => false end.

Lemma moves1_step i (s : system) : can_move i s = true -> cstep s (moves 1 i s).
Proof.
  unfold can_move. cbn. destruct (move i s) as [s'|] eqn:Hm; [intros _|done]. by apply (move_step _ _ _ i).
Qed.

Lemma is_active_same s s' : rows (shared s') = rows (shared s) -> is_active s' = is_active s.
Proof. unfold is_active. by intros ->. Qed.

Lemma now_active : rows (shared s_activated) <> rows (shared s_checked).
Proof.
  intros Heq%is_active_same. assert (is_active s_checked = false) as Hb by run_ok.
  assert (is_active s_activated = true) as Ha by run_ok. congruence.
Qed.

Lemma changes_authorised_witness :
  (is_active s_checked = false /\ is_active s_activated = true) /\
  exists i c p, calls s_checked !! i = Some (c, p) /\
    authorised (shared s_checked) (moment uc s_idle i s_checked) c (rows (shared s_activated)).
Proof.
  split; [split; run_ok|].
  assert (can_move 2 s_checked = true) as Hm by run_ok.
  exact (changes_authorised uc s_idle s_checked s_activated idle_at_rest (reached almost_in s_idle)
    (moves1_step 2 s_checked Hm) now_active).
Defined.

Definition going_on : list turn := [Go 2 20; Start (CLogin typed pw); Go 3 20]%nat.

Lemma interleaving_safe_witness :
  size (rows (shared s_checked)) = 1%nat /\
  well_typed (keys (shared (run_turns going_on s_checked))) /\
  evolves (rows (shared s_checked)) (rows (shared (run_turns going_on s_checked))).
Proof.
  split; [run_ok|].
  exact (proj2 (proj2 (proj2 (interleaving_safe uc s_idle s_checked (run_turns going_on s_checked) idle_at_rest
    (reached almost_in s_idle) (reached going_on s_checked))))).
Defined.

(** A login that takes turns with another one, which has a wrong password. *)
Definition taking_turns : list turn :=
  [Start (CLogin typed pw); Start (CLogin typed "wrong"); Go 3 1; Go 4 1; Go 3 2; Go 4 2; Go 3 20; Go 4 20]%nat.
Definition two_logins : system := run_turns taking_turns s_active.
Definition won : Auth.LoginResponse :=
  match the_answer 3 two_logins with Some (ASession (Ok resp)) => resp | _ => Auth.MkLogin zero_User "" "" end.

Lemma answers_earned_witness :
  gets_session 3 two_logins = true /\ gets_session 4 two_logins = false /\
  seen (logged_in_at typed pw (Auth.User won)) (moment uc s_active 3 two_logins).
Proof.
  split; [run_ok|]. split; [run_ok|].
  assert (answered two_logins 3 (CLogin typed pw) (ASession (Ok won))) as Ha by (apply answered_intro; run_ok).
  assert (length (calls s_active) = 3%nat) as Hl by run_ok.
  exact (proj1 (answers_earned uc s_idle s_active two_logins 3 _ _ idle_at_rest (reached coming_in s_idle)
    (reached taking_turns s_active) (Nat.eq_le_incl _ _ Hl) Ha)).
Defined.

(** The token of the session is exchanged; a second exchange is in vain. *)
Definition exchange (i : nat) : list turn := [Start (CRefresh refresh_tok); Go i 20]%nat.
Definition s_refreshed : system := run_turns (exchange 4) s_session.
Definition s_again : system := run_turns (exchange 5) s_refreshed.
Definition jti : string := match token_claims refresh_tok with Some cl => Claims.ID cl | None => "" end.
Definition is_live (s : system) : bool := bool_decide (is_Some (keys (shared s) !! RefreshKey jti)).

Lemma session_reached : rtc cstep s_idle s_session.
Proof. etransitivity; [apply (reached coming_in s_idle)|apply (reached logging_in s_active)]. Qed.

Lemma spent_tokens_concurrent_witness :
  is_live s_session = true /\ gets_session 4 s_refreshed = true /\ ~ live_id (shared s_again) jti.
Proof.
  assert (is_live s_session = true) as Hl by run_ok. assert (is_live s_refreshed = false) as Hd by run_ok.
  split; [exact Hl|]. split; [run_ok|].
  exact (proj1 (spent_tokens_concurrent uc s_idle s_session s_refreshed s_again jti idle_at_rest session_reached
    (reached (exchange 4) s_session) (reached (exchange 5) s_refreshed)
    (bool_decide_eq_true_1 _ Hl) (or_introl (bool_decide_eq_false_1 _ Hd)))).
Defined.

(** ** Five wrong passwords at the same time *)
Definition login_counter : key := KLoginAttempts email.
#[local] Abbreviation gstep := (gstep uc login_counter).

Definition guesses : list turn :=
  [Start (CLogin typed "a"); Start (CLogin typed "b"); Start (CLogin typed "c"); Start (CLogin typed "d");
   Start (CLogin typed "e"); Go 4 1; Go 0 1; Go 3 1; Go 2 1; Go 1 1; Go 0 9; Go 1 9; Go 2 9; Go 3 9; Go 4 9]%nat.
Definition w_alice : World := MkW (w_u w_active) (w_redis w0) (w_mail w_active).
Definition s_alice : system := Pool w_alice [].
Definition guessed : system := run_turns guesses s_alice.

(** Where a counter of one digit stands. *)
Definition stands (w : World) : option Z :=
  match keys w !! key_text login_counter with
  | None => Some 0%Z
  | Some e => list_find (fun n => re_val e = Itoa n) (seqZ 1 9) ≫= fun p => Some p.2
  end.
Definition kept_b (w w' : World) : bool :=
  match stands w, stands w' with Some n, Some n' => (n <=? n')%Z | _, _ => false end.

Lemma stands_counter w n : stands w = Some n -> counter (keys w) (key_text login_counter) n.
Proof.
  unfold stands. destruct (keys w !! key_text login_counter) as [e|] eqn:He; [|intros [= <-]; by left].
  destruct (list_find _ _) as [[j z]|] eqn:Hf; [|done]. cbn. intros [= ->]. right.
  apply list_find_Some in Hf as (Hj & Hv & _). apply lookup_seqZ in Hj. split; [lia|by exists e].
Qed.

Lemma kept_b_kept w w' : kept_b w w' = true -> kept login_counter w w'.
Proof.
  unfold kept_b. destruct (stands w) as [n|] eqn:Hn, (stands w') as [n'|] eqn:Hn'; try done.
  intros Hle%Z.leb_le m Hm. rewrite (counter_functional _ _ _ _ Hm (stands_counter _ _ Hn)).
  exists n'. split; [by apply stands_counter|done].
Qed.

Lemma guessed_reached : rtc gstep s_alice guessed.
Proof.
  apply (turns_reach _ _ _ kept_b).
  - apply kept_b_kept.
  - run_ok.
Qed.

Definition wrong (i : nat) : bool :=
  match the_answer i guessed with
  | Some (ASession (Err e)) => bool_decide (error_type e = Some ErrTypeUnauthorized)
  | _ => false
  end.

Lemma through_login i p e :
  fst <$> calls guessed !! i = Some (CLogin typed p) -> the_answer i guessed = Some (ASession (Err e)) ->
  error_type e = Some ErrTypeUnauthorized -> through login_counter guessed i.
Proof.
  intros Hc Ha He. exists (CLogin typed p), (ASession (Err e)). split; [run_ok|].
  split; [by apply answered_intro|]. cbn. intros [= ->]. discriminate He.
Qed.

(** Exactly three of the five are looked at; the theorem bounds them. *)
Lemma attempts_bounded_witness :
  (wrong <$> [0; 1; 2; 3; 4]%nat) = [true; false; false; true; true] /\ (Z.of_nat (length [0; 3; 4]%nat) <= 3)%Z.
Proof.
  split; [run_ok|].
  apply (attempts_bounded uc login_counter eq_refl eq_refl eq_refl eq_refl eq_refl eq_refl s_alice guessed [0; 3; 4]%nat);
    [reflexivity|exact I|run_ok|exact guessed_reached|run_ok| |].
  - apply (bool_decide_eq_true_1 _). run_ok.
  - intros i Hi. assert (i = 0 \/ i = 3 \/ i = 4)%nat as [-> | [-> | ->]] by set_solver.
    + eapply (through_login _ "a"); run_ok.
    + eapply (through_login _ "d"); run_ok.
    + eapply (through_login _ "e"); run_ok.
Defined.

(** ** Races *)

(** Two exchanges of the same refresh token: both ask Redis whether it is live before
    either revokes it, and both get a session. *)
Definition both_exchanged : system :=
  run_turns [Start (CRefresh refresh_tok); Start (CRefresh refresh_tok); Go 4 2; Go 5 2; Go 4 20; Go 5 20]%nat s_session.

Lemma double_refresh_race : gets_session 4 both_exchanged = true /\ gets_session 5 both_exchanged = true.
Proof. split; run_ok. Qed.

(** Two resets with the same mailed token: both succeed. *)
Definition both_reset : system :=
  run_turns [Start (CForgotPassword typed); Go 4 20;
             Start (CResetPassword reset_token pw2); Start (CResetPassword reset_token "third password");
             Go 5 1; Go 6 1; Go 5 20; Go 6 20]%nat s_session.

Lemma double_reset_race : gets_ok 5 both_reset = true /\ gets_ok 6 both_reset = true.
Proof. split; run_ok. Qed.

(** A login has verified the old password; the password is changed; the login mints its
    tokens.  They are younger than the change, so the session outlives it. *)
Definition overtaken : system :=
  run_turns [Start (CLogin typed pw); Go 3 3; Start (CChangePassword id pw pw2); Go 4 20; Go 3 20]%nat s_active.
Definition late_token : string :=
  match the_answer 3 overtaken with Some (ASession (Ok resp)) => Auth.RefreshToken resp | _ => "" end.
Definition late_refresh : system := run_turns [Start (CRefresh late_token); Go 5 20]%nat overtaken.

Lemma login_change_race : gets_ok 4 overtaken = true /\ gets_session 5 late_refresh = true.
Proof. split; run_ok. Qed.
