(* ===== verification/WireWitnesses.v ===== *)
(** Concrete bytes: requests and replies of the reference run on the wire, and runs of the
    audit stream, for the theorems of WireProps.v and AuditLog.v. *)

From Stdlib Require Import Ascii String ZArith.
From stdpp Require Import base gmap strings list pretty relations.
From S2P Require Import Prelude GoStrings AppError Records Services World Domain Repository Caches.
From S2P Require Import UsersUsecase Jwt OtpCode AuthUsecase AuthLemmas AuthEffects AuthSystem AuthHealthy RedisTypes.
From S2P Require Import Validators Middleware Http HttpProps RateLimiter Router Json GoTime Wire WireProps AuditLog.
From S2P Require Import Application Reference Scenario Witnesses.

Open Scope string_scope.
Import Scenario.

(** * Requests and replies *)

(** A password with a quote, a backslash, a line feed and a byte that is no UTF-8. *)
Definition odd_pw : string := String (chr 34) (String (chr 92) (String (chr 10) (String (chr 255) "<&>"))).
Definition odd_login : route := PostLogin (Some (MkLoginReq "ALICE@example.com" odd_pw)).
Definition odd_text : string := default "" (client_text odd_login).


Definition cut_body : string := "{" +:+ json_Marshal "email" +:+ ":" +:+ json_Marshal "a@b.c".

Lemma malformed_refused_witness :
  serve uc guard ctx (bind_body cut_body odd_login) h_session
  = (Some (NewErrorResponse ctx StatusBadRequest "invalid request body"), h_session).
Proof.
  assert (json_decode cut_body = None) as Ht by run_ok.
  assert (forall hdr b, odd_login <> PutChange hdr b) as Hp by done.
  exact (malformed_refused uc guard ctx odd_login cut_body h_session Ht I Hp).
Defined.

(** The reply to a login, with the zone of the process an hour and a half east of UTC. *)
Definition east : Time -> Z := fun _ => 5400%Z.
#[local] Instance east_minutes : whole_minutes east.
Proof. done. Qed.

Definition account : UserResponse :=
  MkUserResponse id "alice" email 2 (Auth.AccessToken session) (Auth.RefreshToken session) (start_time + 1)%Z
    (Some (start_time + 120 * Second)%Z).
Definition envelope : BaseResponse := MkBaseResponse true "login success" (DUserData account) "req-1".
Definition envelope_text : string := default "" (body_text east (BApi envelope)).


(** * The audit stream *)

Definition odd_event : Event :=
  MkEvent start_time EventLoginFailure false "" odd_pw "192.0.2.1" "curl" "req-1" "" "wrong".
Definition late_event : Event := MkEvent zero_time EventLogout true "" "" "192.0.2.1" "" "req-2" "" "".
Definition late : Event := stamp start_time late_event.
Definition odd_line : string := default "" (event_line odd_event).
Definition late_line : string := default "" (event_line late).
Lemma odd_line_ok : event_line odd_event = Some odd_line.
Proof. run_ok. Qed.
Lemma late_line_ok : event_line late = Some late_line.
Proof. run_ok. Qed.

Ltac audit i rule := eapply rtc_l; [eapply (run_step _ _ i); [reflexivity|rule]|]; cbn -[odd_line late_line late odd_event].

(** Two goroutines record, the second overtakes the first. *)
Definition both_recorded : system :=
  (Shared false false stderr 0 [Enc stderr false (late_line +:+ odd_line) [late; odd_event]],
   [RDone odd_event true; RDone late true]).

Lemma both_recorded_reachable : reachable both_recorded.
Proof.
  unfold reachable, init.
  eapply rtc_l; [apply (call_Record _ [] odd_event)|].
  eapply rtc_l; [apply (call_Record _ [_] late_event)|]. cbn -[late odd_event].
  audit 0 ltac:(apply (step_stamp _ _ start_time)). audit 1 ltac:(apply (step_stamp _ _ start_time)).
  audit 1 ltac:(by apply step_lock). audit 1 ltac:(apply step_read).
  audit 1 ltac:(eapply step_encode; [reflexivity|reflexivity|exact late_line_ok]).
  audit 1 ltac:(apply step_write). audit 1 ltac:(apply step_unlock).
  audit 0 ltac:(by apply step_lock). audit 0 ltac:(apply step_read).
  audit 0 ltac:(eapply step_encode; [reflexivity|reflexivity|exact odd_line_ok]).
  audit 0 ltac:(apply step_write). audit 0 ltac:(apply step_unlock).
  apply rtc_refl.
Qed.


(** The writer answers an error after one byte; it would take the next line. *)
Definition broken : system :=
  (Shared false false stderr 0 [Enc stderr true "{" []], [RDone odd_event false]).
Definition given_up : system :=
  (Shared false false stderr 0 [Enc stderr true "{" []], [RDone odd_event false; RDone late false]).

Lemma broken_reachable : reachable broken.
Proof.
  unfold reachable, init.
  eapply rtc_l; [apply (call_Record _ [] odd_event)|]. cbn -[odd_event].
  audit 0 ltac:(apply (step_stamp _ _ start_time)). audit 0 ltac:(by apply step_lock).
  audit 0 ltac:(apply step_read).
  audit 0 ltac:(eapply step_encode; [reflexivity|reflexivity|exact odd_line_ok]).
  audit 0 ltac:(apply (step_write_error _ _ _ _ "{" (String.substring 1 1000 odd_line)); run_ok).
  audit 0 ltac:(apply step_unlock).
  apply rtc_refl.
Qed.

Lemma broken_given_up : rtc audit_step broken given_up.
Proof.
  unfold broken.
  eapply rtc_l; [apply (call_Record _ [_] late_event)|]. cbn -[late odd_event].
  audit 1 ltac:(apply (step_stamp _ _ start_time)). audit 1 ltac:(by apply step_lock).
  audit 1 ltac:(apply step_read). audit 1 ltac:(by eapply step_sticky). audit 1 ltac:(apply step_unlock).
  apply rtc_refl.
Qed.

Lemma failed_encoder_silent_witness :
  given_up.2 !! 1 = Some (RDone late false) /\
  encoders given_up.1 !! 0 = Some (Enc stderr true "{" []).
Proof.
  split; [done|].
  exact (failed_encoder_silent broken given_up 0 _ broken_reachable eq_refl eq_refl broken_given_up).
Defined.
