(* ===== verification/InfraWitnesses.v ===== *)
(** The hypotheses of the theorems about the surroundings hold: each applied to a run on
    the implementations of InfraReference.v, the migrations to the repository's own files. *)

From Stdlib Require Import Ascii String ZArith QArith.
From stdpp Require Import base gmap strings list pretty relations.
From S2P Require Import Prelude GoStrings AppError Records Services World Domain Repository Caches.
From S2P Require Import UsersUsecase Jwt OtpCode AuthUsecase AuthLemmas AuthEffects AuthSystem AuthProps.
From S2P Require Import Validators Middleware Http HttpProps RedisTypes Migration Logger LoggerProps.
From S2P Require Import AsyncMailer AsyncMailerProps Mailer Config Tracing Seeder RateLimiter RateLimiterProps.
From S2P Require Import Router RouterProps Application Server Metrics Startup ErrorKinds Docs DocsProps Reference InfraReference Scenario.

Open Scope string_scope.
Import Scenario.

#[local] Existing Instances RefInfra.migration_db RefInfra.migration_laws RefInfra.migration_dir
  RefInfra.seed_database RefInfra.seed_laws RefInfra.runtime RefInfra.map_range RefInfra.bucket_lib
  RefInfra.bucket_laws RefInfra.gin_lib RefInfra.cors_laws RefInfra.otel_lib RefInfra.sqlx_lib RefInfra.gomail.

Ltac run_ok := vm_compute; reflexivity.

Lemma unit_run {S E} (m : result E unit * S) : is_Ok m.1 = true -> m = (Ok tt, m.2).
Proof. by destruct m as [[[]|e] s]. Qed.

(** * Migrations *)
Definition db0 : pgdb := (∅, []).
Definition db_up : pgdb := (Up db0).2.
Definition db_down : pgdb := (Down db_up).2.
Definition db_again : pgdb := (Up db_down).2.

Lemma Up_spec_witness :
  Up db0 = (Ok tt, db_up) /\ db_history db_up = RefInfra.up_names /\
  exists todo rest texts, pending db0 = (todo ++ rest)%list /\ db_history db_up = (db_history db0 ++ texts)%list.
Proof.
  assert (Up db0 = (Ok tt, db_up)) as Hrun by (apply unit_run; run_ok).
  split; [exact Hrun|]. split; [run_ok|].
  destruct (Up_spec db0 (Ok tt) db_up Hrun) as (_ & todo & rest & texts & Hp & _ & _ & Ht & _).
  exists todo, rest, texts. exact (conj Hp Ht).
Defined.

(** On the repository's files the second Up leaves out the first two migrations: the users
    table is not created again. *)
Lemma Up_Down_Up_witness :
  db_history db_down = (RefInfra.up_names ++ rev RefInfra.down_names)%list /\
  exists texts, db_history db_again = (db_history db_down ++ texts)%list /\
    texts = drop 2 RefInfra.up_names.
Proof.
  split; [run_ok|].
  assert (Up db0 = (Ok tt, db_up)) as H1 by (apply unit_run; run_ok).
  assert (Down db_up = (Ok tt, db_down)) as H2 by (apply unit_run; run_ok).
  assert (Up db_down = (Ok tt, db_again)) as H3 by (apply unit_run; run_ok).
  destruct (Up_Down_Up db0 db_up db_down db_again eq_refl H1 H2 H3) as (_ & texts & Ht & _).
  exists texts. split; [exact Ht|].
  apply (app_inv_head (db_history db_down)). rewrite <- Ht. run_ok.
Defined.

(** * The queue of the mailer *)
Definition qcfg : config := NewAsyncOTPMailer 1 2 3 Second.
Definition mail1 : otpJob := OtpJob jobOTP "123456" "alice@example.com".
Definition q0 : @AsyncMailer.state Ref.mailer := started qcfg 0%Z ([] : @mail Ref.mailer).

Definition then_worker (s : @AsyncMailer.state Ref.mailer) := default s (worker_step qcfg false 0 s).
Definition q_full := (AsyncMailer.enqueue qcfg mail1 q0).2.
Definition q_taken := then_worker q_full.
Definition q_sent := then_worker q_taken.

Lemma queue_trace : steps qcfg q0 [LEnqueue mail1 (AsyncMailer.Returns (Ok tt)); LWorker 0; LWorker 0] q_sent.
Proof.
  eapply (steps_cons _ _ _ _ q_full); [by constructor|].
  eapply (steps_cons _ _ _ _ q_taken); [by apply (s_worker _ false)|].
  eapply (steps_cons _ _ _ _ q_sent); [by apply (s_worker _ false)|]. constructor.
Qed.

Lemma queue_ok : config_ok qcfg.
Proof. apply NewAsyncOTPMailer_ok. Qed.

Lemma spool_refinement_witness :
  rtc (spool_step qcfg) (Spool [] false false) (spool_of q_sent) /\
  sp_mails (spool_of q_sent) = [(mail1, Delivered 1)].
Proof.
  refine (conj (proj1 (spool_refinement qcfg 0%Z _ _ q_sent queue_ok queue_trace)) _). run_ok.
Defined.

Lemma every_mail_accounted_witness :
  accepted q_sent !! 0 = Some mail1 /\ ends q_sent !! 0 = Some Sent /\ ending_ok qcfg q_sent 0 Sent.
Proof.
  assert (reachable qcfg 0%Z ([] : @mail Ref.mailer) q_sent) as Hr by (eexists; exact queue_trace).
  assert (accepted q_sent !! 0 = Some mail1) as Ha by run_ok.
  assert (ends q_sent !! 0 = Some Sent) as He by run_ok.
  pose proof (every_mail_accounted qcfg 0%Z _ q_sent 0 mail1 queue_ok Hr Ha) as (_ & _ & _ & Hend).
  rewrite He in Hend. exact (conj Ha (conj He (proj2 Hend))).
Defined.

Definition q_closed := close_queue (close_stop q_taken).
Definition q_drained := then_worker (then_worker q_closed).

Lemma shutdown_drains_witness :
  all_done q_drained = true /\ work qcfg q_closed = 6 /\
  ((exists i s, step qcfg (LWorker i) q_drained s) \/ step qcfg LReturn q_drained q_drained).
Proof.
  assert (reachable qcfg 0%Z ([] : @mail Ref.mailer) q_closed) as Hr.
  { exists [LEnqueue mail1 (AsyncMailer.Returns (Ok tt)); LWorker 0; LCloseStop; LCloseQueue].
    eapply (steps_cons _ _ _ _ q_full); [by constructor|].
    eapply (steps_cons _ _ _ _ q_taken); [apply (s_worker _ false); run_ok|].
    eapply (steps_cons _ _ _ _ (close_stop q_taken)); [by constructor|].
    eapply (steps_cons _ _ _ _ q_closed); [by constructor|]. constructor. }
  assert (steps qcfg q_closed [LWorker 0; LWorker 0] q_drained) as Hs.
  { eapply (steps_cons _ _ _ _ (then_worker q_closed)); [by apply (s_worker _ false)|].
    eapply (steps_cons _ _ _ _ q_drained); [by apply (s_worker _ false)|]. constructor. }
  split; [run_ok|]. split; [run_ok|].
  destruct (shutdown_drains qcfg 0%Z _ q_closed _ q_drained queue_ok Hr eq_refl Hs) as [_ [Hw|[Hret _]]];
    [left; exact Hw|right; exact Hret].
Defined.

(** * Configuration *)
Definition raw_config : Config :=
  MkConfig 8080 "production" false "postgres" "" "postgres://db/app" 0 0 0 "0123456789abcdef0123456789abcdef" 5
    "boilerplate" 0 "otp@example.com" "secret" 0 0 0 0 0 "otlp" float_zero "redis:6379" "secret" 15
    "https://a.example, https://b.example".
Definition server_config : Config := applyDefaults raw_config.

Lemma AllowedOriginsList_reads_back_witness :
  AllowedOrigins server_config = join (String comma "") ["https://a.example"; " https://b.example"] /\
  AllowedOriginsList server_config = ["https://a.example"; "https://b.example"] /\
  Forall (fun o => o <> "" /\ TrimSpace o = o) (AllowedOriginsList server_config).
Proof.
  assert (AllowedOrigins server_config = join (String comma "") ["https://a.example"; " https://b.example"]) as Hj
    by run_ok.
  split; [exact Hj|]. split; [run_ok|].
  refine (proj2 (proj2 (proj1 (AllowedOriginsList_reads_back server_config _ Hj _ _) _))).
  - intros [=].
  - repeat constructor.
  - intros [=].
Defined.

Lemma server_config_valid : valid_config server_config.
Proof.
  split; try (vm_compute; intuition congruence); try (vm_compute; lia).
Qed.

Definition globals0 : globals := MkGlobals (MkOtel None false) None.
Definition app0 : App :=
  match (NewApp None server_config globals0).1 with
  | Ok app => app
  | Err _ => MkApp (MkServer_ "" 0 0 0 0 0)%Z (Pool "" "" 0 0 0 0)%Z (Redis.NewRedisCache 0%Z) (NewOTPMailer "" "") qcfg
      NoShutdown Limits.server_limiter jcfg guard ucfg uc
  end.

Lemma app0_run : NewApp None server_config globals0 = (Ok app0, (NewApp None server_config globals0).2).
Proof. run_ok. Qed.

Lemma NewApp_configured_witness :
  Auth.OTPTTL (Auth.cfg (app_auth app0)) = (15 * Minute)%Z /\ config_ok (app_mailer app0) /\
  (0 < Jwt.expired (app_jwt app0) * Hour <= 30 * (24 * Hour))%Z.
Proof.
  destruct (NewApp_configured None server_config globals0 app0 _ server_config_valid app0_run)
    as (_ & _ & _ & _ & _ & _ & _ & Hl & _ & _ & Hq & _ & Ht).
  destruct Ht as [Ht _]; [vm_compute; discriminate|]. exact (conj Ht (conj Hq Hl)).
Defined.

(** * The API process *)
#[local] Instance viper : ConfigLib := {|
  viper_ReadInConfig := None;
  viper_Unmarshal := Ok raw_config;
  url_Parse := fun _ => None;
  fmt_Quote := fun s => s;
|}.

Definition quiet : closing := Closing None None None None None.
Definition api_run : ending unit * proc unit := api 8 None Signalled quiet (booted raw_config globals0 tt).

Lemma api_ends_witness :
  api_run.1 = Goes tt /\ p_maxprocs api_run.2 = Some 4%Z /\
  closed_parts api_run.2 = [HttpShutdown; LimiterStop; MailerShutdown; DBClose; RedisClose; TracerShutdown].
Proof.
  assert (api 8 None Signalled quiet (booted raw_config globals0 tt) = (api_run.1, api_run.2)) as Hrun by run_ok.
  destruct (api_ends 8 None Signalled quiet raw_config globals0 tt api_run.1 api_run.2 Hrun) as [Hok Hst Hs Hc _].
  assert (p_serving api_run.2 = Some app0) as Hsv.
  { apply (Hst server_config app0 (NewApp None server_config globals0).2); run_ok. }
  destruct (Hs app0 Hsv) as (_ & _ & _ & Hm). rewrite Hsv in Hok, Hc.
  split; [apply Hok; repeat split; discriminate|]. split; [exact Hm|exact Hc].
Defined.

(** * Mails *)
Definition no_mail : smtp := @nil message.
Definition smtp_mailer : otpMailer := NewOTPMailer "otp@example.com" "secret".

Lemma mails_carry_secret_witness :
  exists e, Mailer.SendPasswordReset smtp_mailer "<b>&" "alice@example.com" no_mail =
    (Ok tt, cons (Message "otp@example.com" "alice@example.com" "Password Reset" (reset_before +:+ e +:+ "</b></p>")) no_mail) /\
    shows e "<b>&".
Proof.
  destruct (mails_carry_secret smtp_mailer "<b>&" "alice@example.com" no_mail) as [(e & Hrun & Hs) _]; [run_ok|].
  exists e. exact (conj Hrun Hs).
Defined.

(** * The limiter *)
Section limiter.
#[local] Existing Instances RefInfra.steady_clock RefInfra.steady_monotone.

Definition lim0 : RateLimiter.state := RateLimiter.St ∅ (0%N : clk).
Definition ask (s : RateLimiter.state) := RateLimiter.Middleware Limits.server_limiter "192.0.2.1" "req-1" s.
Definition lim1 : RateLimiter.state := (ask lim0).2.
Definition lim6 : RateLimiter.state := (ask (ask (ask (ask (ask lim1).2).2).2).2).2.

Lemma auth_rate_limit_witness :
  exists es, Limits.trace Limits.server_limiter (3 * Minute)%Z lim0 es lim1 /\
    Limits.let_through "192.0.2.1" es = 1%Z /\
    (Limits.let_through "192.0.2.1" es <= 5 + (Limits.moment lim1 - Limits.moment lim0) / (12 * Second))%Z.
Proof.
  exists [Limits.Requested "192.0.2.1" (ask lim0).1].
  assert (Limits.trace Limits.server_limiter (3 * Minute)%Z lim0 [Limits.Requested "192.0.2.1" (ask lim0).1] lim1) as Ht.
  { eapply Limits.tr_cons; [|apply Limits.tr_nil].
    eapply (Limits.st_request _ _ "192.0.2.1" "req-1"); [apply surjective_pairing|vm_compute; discriminate]. }
  split; [exact Ht|]. split; [run_ok|].
  exact (Limits.auth_rate_limit "192.0.2.1" (0%N : clk) [] lim0 _ lim1 (Limits.tr_nil _ _ _) Ht).
Defined.
End limiter.

(** * Redis *)
Lemma redis_well_typed_witness :
  size (keys w_session) = 1 /\ well_typed (keys w_session).
Proof.
  split; [run_ok|]. refine (redis_well_typed uc w0 w_session _ _).
  - intros k e Hk. change ((∅ : gmap string rentry) !! k = Some e) in Hk. by rewrite lookup_empty in Hk.
  - do 4 (eapply rtc_r; [|apply step_call]). apply rtc_refl.
Defined.

(** * Loggers *)
Definition log0 : @Logger.zapLogger string :=
  ZapLogger (Instance 2 []) (Instance 2 []) (Instance 1 []) (Slice 0 0) false.
Definition log_state : @Logger.state string := Logger.St (Heap {[0 := []]} 1) 0 [].
Definition ops : list (@op string) :=
  [OWithFields 0 {["category" := "auth"]}; OWithContext 1 (Some (Ctx (Some "t-1") None));
   OWithContext 1 (Some (Ctx (Some "t-2") None)); OLogf InfoLevel 2 "first"; OLogf InfoLevel 3 "second"].

Lemma logger_refines_lists_witness :
  exists ls' s', exec ops [log0] log_state = (ls', s') /\
    c_fields <$> calls s' = [[FAny "category" "auth"; FString "traceId" "t-1"];
                             [FAny "category" "auth"; FString "traceId" "t-2"]].
Proof.
  destruct (exec ops [log0] log_state) as [ls' s'] eqn:Hrun. exists ls', s'. split; [reflexivity|].
  assert (Forall2 (stands_for (mem log_state)) [log0] [PLogger (Instance 2 []) (Instance 2 []) (Instance 1 []) [] false])
    as Hls.
  { repeat constructor. exists []. by split. }
  assert (heap_ok (mem log_state)) as Hok.
  { intros p Hp. apply lookup_singleton_ne. intros <-. cbn in Hp. lia. }
  pose proof (logger_refines_lists ops [log0] _ log_state ls' s' Hok Hls Hrun) as Href.
  destruct (pexec _ _ _) as [ps' cs] eqn:Hp. destruct Href as [-> _].
  vm_compute in Hp. injection Hp as _ <-. reflexivity.
Defined.

(** * Requests *)
Definition small : option Z := Some 200%Z.
Definition request_of (r : route) (n : option Z) : request :=
  Req "PUT" "/api/v1/auth/password/change" "req-1" "curl" "" "192.0.2.1" "trace-1" n (Api r).
Definition around : surroundings := Around None (Some None) 0%Z (7%N : Latency) "".
Definition server_at (w : World) : Server := MkServer (MkH w [] []) (RateLimiter.St ∅ start_time) [] [].
Notation served_at q s := (ServeHTTP server_config uc guard Limits.server_limiter q around s).

Definition change : request := request_of change_route small.
Definition s_before : Server := server_at w_session.
Definition s_after : Server := (served_at change s_before).2.

Lemma inv_before : sv_inv s_before.
Proof.
  assert (forall c w, users_inv (w_u w) -> users_inv (w_u (after c w))) as Hafter.
  { intros c w Hi. exact (ce_inv _ _ _ _ (run_effect uc c w Hi)). }
  do 4 apply Hafter. by apply empty_inv.
Qed.

Lemma some_infra_run {S A} (m : option A * S) : is_Some m.1 -> exists a, m = (Some a, m.2).
Proof. intros [a Ha]. exists a. destruct m. cbn in *. by rewrite Ha. Qed.

Lemma reply_headers_witness :
  exists out, served_at change s_before = (Some out, s_after) /\ r_status out = 200%Z /\
    r_headers out !! "X-Frame-Options" = Some "DENY".
Proof.
  destruct (some_infra_run (served_at change s_before)) as [out Hrun]; [vm_compute; eexists; reflexivity|].
  exists out. split; [exact Hrun|].
  destruct (reply_headers server_config uc guard Limits.server_limiter change around s_before out s_after
    inv_before Hrun) as (_ & _ & Hx & _).
  refine (conj _ Hx). pose proof (f_equal (fun m => default 0%Z (r_status <$> m.1)) Hrun) as Hst.
  cbn in Hst. rewrite <- Hst. run_ok.
Defined.

#[local] Instance scenario_errors : @UsersErrors _ users :=
  @users_errors _ Postgres.repository (@postgres_errors _ pl_sql) ucfg.
#[local] Existing Instance Ref.validator_errors.


Lemma reply_counted_witness :
  exists out, served_at change s_before = (Some out, s_after) /\
    sv_requests s_after = [("PUT", "/api/v1/auth/password/change", Itoa (r_status out))].
Proof.
  destruct (some_infra_run (served_at change s_before)) as [out Hrun]; [vm_compute; eexists; reflexivity|].
  exists out. split; [exact Hrun|].
  exact (proj1 (reply_counted server_config uc guard Limits.server_limiter change around s_before out s_after
    inv_before Hrun)).
Defined.

Lemma account_change_admitted_witness :
  sv_rows s_after <> sv_rows s_before /\
  exists n, q_body change = Some n /\ (n <= 4096)%Z.
Proof.
  assert (sv_rows s_after <> sv_rows s_before) as Hne.
  { intros Hr. apply (f_equal (fun T => Users.Password <$> (T !! id))) in Hr. revert Hr. vm_compute. intros [=]. }
  split; [exact Hne|].
  exact (proj1 (proj2 (proj2 (account_change_admitted server_config uc guard Limits.server_limiter change around
    s_before _ s_after inv_before (surjective_pairing _) Hne)))).
Defined.

(** * The program *)
Definition register : request :=
  Req "POST" "/api/v1/auth/register" "req-1" "curl" "" "192.0.2.1" "trace-1" small
    (Api (PostRegister (Some (MkRegisterReq "alice" "Alice@Example.com" strong_pw)))).
Definition p_before : Server := server_at w0.
Definition p_after : Server := (handle server_config app0 register around p_before).2.


(** * Metrics *)
Lemma metrics_bounded_witness :
  sv_requests p_after = [("POST", "/api/v1/auth/register", "201")] /\
  Forall (fun x => x.1.2 ∈ path_labels) (sv_requests p_after) /\
  Forall (fun x => x ∈ series /\ commented x) (counters p_after ++ obs q_sent)%list.
Proof.
  split; [run_ok|].
  assert (fresh_registry p_before) as Hf by by split.
  assert (rtc (metrics_step server_config app0) p_before p_after) as Htr by (apply rtc_once, ms_request).
  destruct (metrics_bounded server_config app0 p_before p_after _ _ _ _ q_sent Hf Htr queue_trace) as (_ & [Hs Hp] & _).
  exact (conj Hp Hs).
Defined.
