(* ===== verification/RunnerWitnesses.v ===== *)
(** Runs of several migration runners on the database of InfraReference.v with its
    lock, and what becomes of them when a pool does not keep the session of the lock. *)

From Stdlib Require Import Ascii String ZArith.
From stdpp Require Import base gmap strings list relations.
From S2P Require Import Prelude GoStrings AppError Migration MigrationRunners MigrationRunnersProps InfraReference.

Open Scope string_scope.

#[local] Existing Instances RefInfra.locked_db RefInfra.locked_laws RefInfra.locked_sessions
  RefInfra.locked_sessions_laws RefInfra.migration_dir.

Definition empty_db : pgdb := ((∅, []), None).
Definition first : fleet := Fleet empty_db [].

(** Two runners; the second asks for the lock while the first migrates, and is
    let in when the first is done: it finds nothing to do. *)
Definition two_runners : list event :=
  [EStart true false; EStart true false; ERun 0; ERun 1; ELock 0 (0, 0); ERun 0; ERun 0; ERun 0; ERun 0; ERun 0; ERun 0;
   EUnlock 0 (0, 0); ELock 1 (1, 0); ERun 1; EUnlock 1 (1, 0)].
Definition two_done : fleet := after two_runners first.

Lemma runners_serialized_witness :
  db_history (f_db two_done) = RefInfra.up_names /\ pending (f_db two_done) = [] /\
  exists todo texts, pending empty_db = (todo ++ pending (f_db two_done))%list /\
  db_history (f_db two_done) = (db_history empty_db ++ texts)%list.
Proof.
  assert (NoDup (files_of "up")) as Hnd by (apply (bool_decide_unpack _); vm_compute; exact I).
  assert (rtc (fleet_step left_open) first two_done) as Hr.
  { apply after_open. vm_compute. reflexivity. }
  destruct (runners_serialized Hnd empty_db two_done Hr) as [_ Hup].
  assert (Forall (fun r => r_down r = false) (runners two_done)) as Hall
    by (apply (bool_decide_unpack _); vm_compute; exact I).
  destruct (Hup Hall) as [(todo & texts & Hpe & _ & Hh & _) Hok].
  split; [vm_compute; reflexivity|].
  destruct (migrated_answered two_done 1) as (r & H1 & Hu & Ha); [vm_compute; reflexivity|].
  split; [exact (Hok 1 r H1 Hu Ha)|]. exists todo, texts. exact (conj Hpe Hh).
Defined.

(** A pool that closes the idle session of the lock: both runners are inside and both
    execute the first file. *)
Definition idle_closed : list event :=
  [EStart true false; EStart true false; ERun 0; ERun 1; ELock 0 (0, 0); ERun 0; EClose (0, 0);
   ELock 1 (1, 0); ERun 1; ERun 0; ERun 1].

Lemma idle_session_race : exists f,
  rtc (fleet_step (fun _ _ => True)) first f /\
  (inside <$> runners f) = [true; true] /\
  db_history (f_db f) = ["1_create_tables_users.up.sql"; "1_create_tables_users.up.sql"].
Proof.
  exists (after idle_closed first). split; [|vm_compute; done].
  apply after_reach; [vm_compute; reflexivity|done].
Qed.

Lemma lock_waits (f : fleet) i (s t : session) : holder (f_db f) = Some t -> s <> t -> perform (ELock i s) f = None.
Proof.
  intros Hh Hne. cbn [perform]. destruct (runners f !! i) as [r|]; [|done]. cbn.
  destruct (r_script r) as [| |k|]; try done. destruct (decide _); [|done].
  unfold RefInfra.lock_of. cbn in Hh. rewrite Hh. by rewrite decide_False by congruence.
Qed.

(** An unlock that goes through another session of the pool has no effect: the lock is kept,
    and [-up -down] then waits for itself unless it happens on the first session. *)
Definition other_session : list event :=
  [EStart true true; ERun 0; ELock 0 (0, 0); ERun 0; ERun 0; ERun 0; ERun 0; ERun 0; ERun 0;
   EUnlock 0 (0, 1); ERun 0].

Lemma kept_lock_waits : exists f,
  rtc (fleet_step left_open) first f /\ holder (f_db f) = Some (0, 0) /\
  (inside <$> runners f) = [false] /\
  forall s, s <> (0, 0) -> perform (ELock 0 s) f = None.
Proof.
  exists (after other_session first).
  assert (holder (f_db (after other_session first)) = Some (0, 0)) as Hh by (vm_compute; reflexivity).
  split; [apply after_open; vm_compute; reflexivity|]. split; [exact Hh|]. split; [vm_compute; reflexivity|].
  intros s Hs. by apply lock_waits with (t := (0, 0)).
Qed.
