(* ===== verification/RouterConcurrentWitnesses.v ===== *)
(** Requests that interleave from arrival to reply, on the reference services: the theorems
    of RouterConcurrentProps.v applied to concrete schedules. *)

From Stdlib Require Import Ascii String ZArith QArith.
From stdpp Require Import base gmap strings list pretty relations.
From S2P Require Import Prelude GoStrings AppError Records Services World Domain Repository Caches.
From S2P Require Import UsersUsecase Jwt OtpCode AuthUsecase AuthLemmas AuthEffects AuthSystem AuthHealthy RedisTypes.
From S2P Require Import Validators Middleware Http HttpProps.
From S2P Require Import Sessions SessionsProps Concurrent AuthConcurrent AuthConcurrentProps HttpConcurrent HttpConcurrentProps.
From S2P Require Import Config RateLimiter RateLimiterProps Router RouterProps RouterConcurrent RouterConcurrentProps.
From S2P Require Import Application Reference InfraReference Scenario Witnesses InfraWitnesses.

Open Scope string_scope.
#[local] Open Scope nat_scope.
Import Scenario.
#[local] Existing Instances RefInfra.bucket_lib RefInfra.bucket_laws RefInfra.gin_lib.

#[local] Abbreviation system := (@server_system Ref.platform Ref.mailer RefInfra.bucket_lib RefInfra.gin_lib).
#[local] Abbreviation hstep := (server_step server_config uc guard Limits.server_limiter).
#[local] Abbreviation moment := (server_moment server_config uc guard Limits.server_limiter).
#[local] Abbreviation run_turns :=
  (schedule (fun q : arrival => RouterProg.ServeHTTP server_config uc guard Limits.server_limiter q.1 q.2)).

(** Nobody has sent a request yet, Redis and the table are empty. *)
Definition h_idle : system := Pool (server_at w0) [].

Lemma h_idle_at_rest : server_at_rest h_idle.
Proof.
  split; [done| |by intros j [e He]]. split; [exact inv_w0|]. by intros k e He.
Qed.

Lemma h_reached l (s : system) : rtc hstep s (run_turns l s).
Proof. apply (turns_reach _ _ _ untested); [done|apply turns_untested]. Qed.

Definition says (i : nat) (s : system) : option reply :=
  '(_, p) ← calls s !! i; match p with Ret a => a | Atom _ _ => None end.
Definition status_of (i : nat) (s : system) : option Z := r_status <$> says i s.

Lemma says_intro i (s : system) q out :
  fst <$> calls s !! i = Some q -> says i s = Some out -> answered s i q (Some out).
Proof.
  unfold says, answered. destruct (calls s !! i) as [[c' [b|X m k]]|]; cbn; [|done|done].
  by intros [= ->] ->.
Qed.

(** A request from the address [ip], without an id of its own. *)
Definition posted (ip : string) (r : route) : arrival :=
  (Req "POST" "" "" "curl" "" ip "trace-1" small (Api r), around).
Definition requested (i : nat) (r : route) : list (@turn arrival) := [Start (posted "192.0.2.1" r); Go i 60].
Definition sign_up : route := PostRegister (Some (MkRegisterReq "alice" email strong_pw)).
Definition sign_in (password : string) : route := PostLogin (Some (MkLoginReq email password)).

Definition h_signed_up : system := run_turns (requested 0 sign_up ++ requested 1 (PostSendOTP 10 (Some email))) h_idle.
Definition mailed : string := last_mail (h_world (sv_http (shared h_signed_up))).
Definition activation : route := PostVerifyOTP (Some (MkVerifyReq email mailed)).
Definition h_in : system := run_turns (requested 2 activation) h_signed_up.
Definition is_active (s : system) : bool :=
  match rows (world_of (shared s)) !! id with Some r => Users.Active r | None => false end.

(** The code is entered while a login of the same account is under way; the limiter has
    admitted both. *)
Definition h_entering : system :=
  run_turns [Start (posted "192.0.2.1" activation); Go 2 5; Start (posted "192.0.2.2" (sign_in strong_pw)); Go 3 5; Go 2 2]
    h_signed_up.
Definition h_entered : system := moves 1 2 h_entering.
Definition h_both_answered : system := run_turns [Go 3 1; Go 2 1; Go 3 60; Go 2 60] h_entered.

Definition can_move (i : nat) (s : system) : bool := match move i s with Some _ => true | None => false end.

Lemma h_moves1_step i (s : system) : can_move i s = true -> hstep s (moves 1 i s).
Proof.
  unfold can_move. cbn. destruct (move i s) as [s'|] eqn:Hm; [intros _|done]. by apply (move_step _ _ _ i).
Qed.

Lemma activated_changed (s s' : system) :
  is_active s = false -> is_active s' = true -> server_changed (shared s) (shared s').
Proof. unfold server_changed, is_active. intros Hs Hs' Heq. rewrite Heq in Hs'. congruence. Qed.

Lemma h_entering_reached : rtc hstep h_idle h_entering.
Proof. etransitivity; [apply h_reached|apply h_reached]. Qed.


Lemma h_in_reached : rtc hstep h_idle h_in.
Proof. etransitivity; [apply h_reached|apply h_reached]. Qed.

(** Two logins take turns, one with a wrong password; of those that guess on, one finds the account
    locked out and one its address limited. *)
Definition h_two_logins : system :=
  run_turns ([Start (posted "192.0.2.2" (sign_in strong_pw)); Start (posted "192.0.2.3" (sign_in "wrong"));
              Go 3 1; Go 4 2; Go 3 3; Go 4 4; Go 3 60; Go 4 60]
             ++ mjoin (map (fun i => requested i (sign_in "x")) (seq 5 5))) h_in.
Definition login_reply : reply := default (Reply 0 ∅ BOther) (says 3 h_two_logins).
Definition login_body : BaseResponse :=
  match r_body login_reply with BApi b => b | _ => MkBaseResponse false "" NoData "" end.


Lemma h_entered_answered : rtc hstep h_entered h_both_answered.
Proof. exact (h_reached _ h_entered). Qed.

Lemma h_both_reached : rtc hstep h_entering h_both_answered.
Proof.
  assert (can_move 2 h_entering = true) as Hm by run_ok.
  exact (rtc_l hstep h_entering h_entered h_both_answered (h_moves1_step 2 h_entering Hm) h_entered_answered).
Qed.

